(* ===== verification/_CoqProject ===== *)
-Q . S2P
Prelude.v
GoStrings.v
GoUtf8.v
GoNumbers.v
GoJson.v
GoTime.v
GoJsonDecode.v
GoJsonText.v
GoTimeText.v
GoJsonRoundtrip.v
Domain.v
DomainJson.v
DomainText.v
Reconcile.v
ReconcileFrames.v
ReconcileFacts.v
ReconcileInv.v
ReconcileAbsence.v
ReconcileOutcome.v
ReconcileLimits.v
Graph.v
GraphFacts.v
GraphPostgres.v
Resolution.v
GoHash.v
GoEncoding.v
Security.v
SecurityFacts.v
AuditChain.v
Scheduler.v
Migrations.v
PgStore.v
ReconcilePg.v
PgFacts.v
PgLimits.v
RateLimit.v
Gateway.v
GatewayFacts.v
Collector.v
CollectorLogic.v
CollectorInv.v
CollectorFacts.v
CollectorRuns.v
CollectorDelivery.v
SnapshotContract.v
GoUrl.v
GoNetip.v
Docker.v
DockerFacts.v
Kubernetes.v
KubernetesFacts.v
KubernetesDiscovery.v
GoIo.v
GoCsv.v
GoCsvFacts.v
Imports.v
JsonDepth.v
ImportsFacts.v
Storage.v
StorageFacts.v
Config.v
Http.v
Sessions.v
Api.v
ApiFacts.v
Enrollment.v
App.v
AppSample.v
Wire.v
SessionFacts.v
EnrollmentFacts.v
Bootstrap.v
AppTrace.v
EndToEnd.v
EdgeFacts.v
Tenancy.v
CollectorSetup.v
CollectorSetupFacts.v
Handshake.v
