(* ===== verification/Prelude.v ===== *)
(** * InfraGraph: a verification development

    InfraGraph keeps an inventory of infrastructure. Collectors run near the
    infrastructure ([cmd/infragraph-collector]), discover assets and their
    relationships through connectors ([connectors/docker],
    [connectors/kubernetes]), sign snapshots of them and post them to the
    control plane ([app/app.go]), which checks each one and reconciles it into
    the inventory ([reconcile/postgres.go]; [reconcile/reconcile.go] is the
    in-memory engine of the same rules). The inventory is read as a graph
    ([graph]); uploads are previewed ([imports]); evidence is kept in an object
    store ([storage]) and in a hash-chained audit log ([audit]). All paths are
    below [src/internal/] unless they start with [cmd/].

    ** Conventions

    Definitions carry the source's names. A Go function that may fail returns a
    [result] (below); a Go string is a sequence of bytes; an [int] or [int64]
    is a [Z], wrapped ([wrap64]) where the code may leave the width; a map is a
    [gmap], and a [range] over a map goes in an order that the class
    [RangeOrder] leaves open, so every theorem holds for all of them. A map or
    slice that may be nil is an [option] where nil can be told from empty.
    Times are nanoseconds since Go's zero time.

    ** The parts

    Go's standard library, as far as the source relies on it: GoStrings
    (strings, UTF-8, case), GoNumbers (decimal numbers), GoJson (dynamic values
    and their JSON), GoHash and GoEncoding (SHA-1, SHA-256, HMAC, base64,
    base32, hexadecimal, all executable), GoUrl, GoIo (readers with a limit),
    GoCsv (the reader of [encoding/csv]), GoTime ([time.ParseDuration], RFC
    3339), GoJsonDecode (the scanner of [encoding/json], byte by byte, numbers
    with correct rounding, and decoding into structs; DomainJson has the
    domain's), GoNetip (addresses and prefixes of [net/netip]). GoUtf8,
    GoTimeText, GoJsonText and GoJsonRoundtrip show that the decoder reads what
    the encoder writes: texts, times, numbers, arrays, maps and structs.

    - Domain: the records of [domain/model.go] and [SigningBytes]. DomainText:
      the text of a snapshot decodes to the snapshot.
    - Reconcile: [State], [Apply] and its steps, in the order of
      [reconcile/reconcile.go]. ReconcileFrames has what each step leaves alone
      (the rewrite database [rec]), ReconcileInv the state invariant [wf],
      ReconcileAbsence and ReconcileOutcome what one snapshot does to assets,
      relationships and absence counters, ReconcileFacts the change history,
      exactly-once delivery and [Effective], ReconcileLimits the behaviours the
      documentation rules out.
    - PgStore and ReconcilePg: the tables of [database/migrations] as maps, a
      transaction monad, and [ApplyPostgres] of [reconcile/postgres.go] over
      them. PgFacts: one tenant never changes another's rows, and an external
      identity is never bound to a second asset. PgLimits: small databases on
      which it departs from the documents.
    - Graph: [Traverse] and [TraversePostgres]; GraphFacts and GraphPostgres
      characterise both by reachability and show that they agree.
    - Resolution: [Resolve] of [resolution/resolution.go].
    - Security and SecurityFacts: passwords, secrets, tokens, one-time codes and
      snapshot signatures of [security/security.go].
    - AuditChain: [Append] and [Verify] of [audit/audit.go]. Scheduler:
      [Acquire] of [scheduler/scheduler.go]. RateLimit: the limiter of [app.go].
    - Gateway and GatewayFacts: the handler [collectorSnapshot] of [app.go] with
      its guards, around [ApplyPostgres] and [Append] in one transaction.
    - Http, Sessions, Api, Enrollment, App: the rest of [app.go], from the
      request's helpers to [Handler] in its middleware, as one state of tables,
      limiters and counters that each request maps to the next with its answer.
      ApiFacts: an answer reads one organization's rows. SessionFacts: who may
      sign in and what a session lets through. EnrollmentFacts: what an
      enrolment leaves. AppTrace: [serve] over any sequence of requests, with
      the relation [evolves] of what the rows may become; sessions end once,
      codes and tokens are used once. EdgeFacts: the client's address, the
      limit on attempts, the headers. Tenancy: tenants do not interfere.
      AppSample: a control plane to run all of it on. Wire: a signed snapshot
      as the text between the two ends. EndToEnd: from an enrolment to the
      inventory. Handshake: the collector's first start against [enroll].
    - Collector: the agent of [cmd/infragraph-collector/main.go] over a file
      system in which every system call may fail or be the process's last.
      CollectorLogic is a program logic for it with a crash condition,
      CollectorInv the invariant of the data directory, CollectorFacts,
      CollectorRuns and CollectorDelivery the theorems. CollectorSetup and
      CollectorSetupFacts: the environment, enrolment and [main].
    - Docker, DockerFacts, Kubernetes, KubernetesFacts, KubernetesDiscovery: the
      connectors, over the answers of their APIs. SnapshotContract states what
      a connector must find for the gateway to accept it, the interface through
      which connectors, collector and gateway are put together.
    - Imports, JsonDepth, ImportsFacts: the previews of [imports/imports.go].
    - Storage, StorageFacts: [storage/storage.go]. Config: [config/config.go].
    - Migrations: [Migrate] of [database/database.go], call by call, by any
      number of runners on one server. Bootstrap: the entry points
      [cmd/infragraph-bootstrap] and [cmd/infragraph-api], to its exit.

    ** What the theorems show

    An answer of the API is for a live session with the route's permission, and
    reads and shows one organization only, whatever the others do. A session
    takes the password and second factor of an active user, lasts its twelve
    hours and no longer, and ends with its logout; an enrolment token works
    once. A client cannot forge its address, so its attempts to sign in are
    limited. Collector and gateway understand each other: an enrolment leaves
    both with the same identity and key, the text of a signed snapshot is read
    as the snapshot that was signed, and a collector that enrolled gets it to
    the reconciliation. The gateway lets through only what an enrolled
    collector signed for its own connector, once and in sequence, and answers a
    repetition without applying it. The reconciliation engines keep their invariants and do to every asset,
    relationship and counter what the state model says. The collector loses no
    evidence whatever call fails or kills it, never reuses a sequence number,
    and what it discovers satisfies the gateway's contract. Traversals return
    exactly the reachable part of a tenant's graph within their limits. A
    tampered audit chain does not verify. A preview accounts for all its input;
    an object is replaced whole or not at all. Migrations are applied once and
    in order however many instances start; the service listens on a migrated
    database and a safe configuration only; bootstrapping lets the owner in, or
    changes nothing.

    ** Fuel and bounds

    Recursion is structural wherever the code's loop runs over data. The
    traversals run one level per unit of the depth asked for, as the code. The
    Kubernetes [list_pages] counts down the page limit the code itself enforces;
    [agent] takes a number of turns, and a run
    with more turns than ticks is one that was killed, which
    [agent_runs_until_killed] shows is how every run ends. [duration_parts] has
    the length of its text. CSV and the depth scanner are one pass each.

    ** Parameters

    Code outside the repository is a parameter: Ed25519, Argon2 and AES-GCM with
    their documented laws (classes in Security), Unicode's case tables beyond
    ASCII ([UnicodeCase]), PostgreSQL's jsonb, time resolution and collation
    ([Postgres], [AuditStore], [SqlOrder], [SqlTimeOrder], [SqlText]), [url.Parse]
    ([UrlParser]), the APIs the connectors call, the S3 client, random bytes, and
    the texts of JSON errors. Theorems with such a hypothesis have a witness at a
    concrete instance.

    ** Not modelled

    Foreign keys and the failure of single SQL statements other than by their
    constraints; the HTTP transport (the canonical form of paths, chunking,
    deadlines), TLS and the access log; the parsing of the bootstrap's flags;
    what [Shutdown] does to requests under way. *)
From stdpp Require Export base option list strings gmap fin_maps sorting.
From Stdlib Require Export ZArith Lia.

Create HintDb infra discriminated.
Create Rewrite HintDb infra.

Declare Scope go_scope.
Delimit Scope go_scope with go.

(** ** Go results: a value, or an error *)

Inductive result (E A : Type) : Type :=
| Ok (a : A)
| Err (e : E).
Arguments Ok {E A} _.
Arguments Err {E A} _.

#[export] Instance result_ret {E} : MRet (result E) := fun A a => Ok a.
#[export] Instance result_bind {E} : MBind (result E) :=
  fun A B f m => match m with Ok a => f a | Err e => Err e end.

#[export] Instance result_eq_dec {E A} `{EqDecision E, EqDecision A} : EqDecision (result E A).
Proof. solve_decision. Defined.

(** [foldM f s l]: Go's [for _, x := range l { ... return err }]. *)
Fixpoint foldM {E S A : Type} (f : S -> A -> result E S) (s : S) (l : list A) : result E S :=
  match l with
  | [] => Ok s
  | x :: l' => s' ← f s x; foldM f s' l'
  end.

(** Stable insertion sort for a [less] function, as [sort.SliceStable]: an
    element moves past those strictly less than it only. *)
Section StableSort.
Context {A : Type} (less : A -> A -> bool).

Fixpoint insert_stable (x : A) (l : list A) : list A :=
  match l with
  | [] => [x]
  | y :: l' => if less y x then y :: insert_stable x l' else x :: l
  end.

Definition stable_sort (l : list A) : list A := foldr insert_stable [] l.

End StableSort.

(** ** Machine integers *)

Definition max_int64 : Z := 2 ^ 63 - 1.
Definition min_int64 : Z := - 2 ^ 63.

(** Two's complement wrap-around of Go's [int] and [int64] (amd64/arm64). *)
Definition wrap64 (z : Z) : Z := (z + 2 ^ 63) mod 2 ^ 64 - 2 ^ 63.

Definition wrap_u64 (z : Z) : Z := z mod 2 ^ 64.

(** ** Times: nanoseconds since Go's zero [time.Time] *)

Abbreviation gotime := Z (only parsing).

Definition time_is_zero (t : gotime) : bool := bool_decide (t = 0%Z).

(** ** Tactics of the development *)

(** Splits the matches and ifs of the goal and the hypotheses, keeping the
    equations, and closes the contradictory branches. *)
Ltac split_match :=
  match goal with
  | |- context [ decide ?P ] => destruct (decide P)
  | |- context [ bool_decide ?P ] => case_bool_decide
  | |- context [ if ?b then _ else _ ] => destruct b eqn:?
  | |- context [ match ?x with _ => _ end ] => destruct x eqn:?
  | H : context [ decide ?P ] |- _ => destruct (decide P)
  | H : context [ if ?b then _ else _ ] |- _ => destruct b eqn:?
  | H : context [ match ?x with _ => _ end ] |- _ => destruct x eqn:?
  end.

Ltac split_matches := repeat (split_match; simplify_eq/=).

(** ** Shared lemmas *)

Lemma bind_ok {E A B} (m : result E A) (f : A -> result E B) b :
  m ≫= f = Ok b <-> exists a, m = Ok a /\ f a = Ok b.
Proof.
  destruct m as [a|e]; simpl; split; [by exists a|by intros (? & [= <-] & ?)|done|by intros (? & ? & _)].
Qed.

Lemma bind_err {E A B} (m : result E A) (f : A -> result E B) e :
  m ≫= f = Err e <-> m = Err e \/ exists a, m = Ok a /\ f a = Err e.
Proof.
  destruct m as [a|e']; simpl; split.
  - intros H. right. by exists a.
  - by intros [?|(? & [= <-] & ?)].
  - intros [= ->]. by left.
  - by intros [[= ->]|(? & ? & _)].
Qed.

Lemma foldM_app {E S A} (f : S -> A -> result E S) l1 l2 s :
  foldM f s (l1 ++ l2) = s' ← foldM f s l1; foldM f s' l2.
Proof.
  revert s. induction l1 as [|x l1 IH]; intros s; simpl; [done|].
  destruct (f s x) as [s'|e]; simpl; [apply IH|done].
Qed.

(** An invariant of the loop body is an invariant of the loop. *)
Lemma foldM_inv {E S A} (f : S -> A -> result E S) (P : S -> Prop) l s s' :
  (forall s x s', x ∈ l -> P s -> f s x = Ok s' -> P s') ->
  P s -> foldM f s l = Ok s' -> P s'.
Proof.
  revert s. induction l as [|x l IH]; intros s Hf Hs Hok; simpl in Hok; [by simplify_eq|].
  apply bind_ok in Hok as (s1 & H1 & H2).
  eapply (IH s1); [|eapply Hf; [left|..]; eauto|done].
  intros ??? Hin. apply Hf. by right.
Qed.

Lemma foldl_inv {S A} (f : S -> A -> S) (P : S -> Prop) (l : list A) (s : S) :
  (forall s x, x ∈ l -> P s -> P (f s x)) -> P s -> P (foldl f s l).
Proof.
  revert s. induction l as [|x l IH]; intros s Hf Hs; simpl; [done|].
  apply IH; [|apply Hf; [left|done]]. intros ?? Hin. apply Hf. by right.
Qed.

(** A transition relation that each body satisfies holds between the ends. *)
Lemma foldl_rel {S A} (f : S -> A -> S) (R : S -> S -> Prop) `{!PreOrder R} (l : list A) (s : S) :
  (forall s x, x ∈ l -> R s (f s x)) -> R s (foldl f s l).
Proof.
  revert s. induction l as [|x l IH]; intros s Hf; simpl; [reflexivity|].
  transitivity (f s x); [apply Hf; left|]. apply IH. intros ?? Hin. apply Hf. by right.
Qed.

(** A projection no body changes is not changed by the loop. *)
Lemma foldl_proj {S A B} (f : S -> A -> S) (p : S -> B) (l : list A) (s : S) :
  (forall s x, x ∈ l -> p (f s x) = p s) -> p (foldl f s l) = p s.
Proof.
  revert s. induction l as [|x l IH]; intros s Hf; simpl; [done|].
  rewrite IH; [apply Hf; left|]. intros ?? Hin. apply Hf. by right.
Qed.

Lemma filter_fmap_list {A B} (f : A -> B) (P : B -> Prop) `{!forall y, Decision (P y)} (l : list A) :
  filter P (f <$> l) = f <$> filter (fun x => P (f x)) l.
Proof. induction l as [|x l IH]; [done|]. rewrite fmap_cons, !filter_cons. case_decide; [|done]. rewrite fmap_cons. by f_equal. Qed.

Lemma map_to_list_filter {A} (P : string * A -> Prop) `{!forall kx, Decision (P kx)} (m : gmap string A) :
  map_to_list (filter P m) ≡ₚ filter P (map_to_list m).
Proof.
  apply NoDup_Permutation; [apply NoDup_map_to_list|apply NoDup_filter, NoDup_map_to_list|].
  intros [k x]. rewrite list_elem_of_filter, !elem_of_map_to_list, map_lookup_filter_Some. tauto.
Qed.

Lemma filter_none {A} (P : A -> Prop) `{forall x, Decision (P x)} (l : list A) :
  (forall x, ~ P x) -> filter P l = [].
Proof. intros HP. induction l as [|x l IH]; [done|]. by rewrite filter_cons_False. Qed.

Lemma wrap64_id z : (min_int64 <= z <= max_int64)%Z -> wrap64 z = z.
Proof. unfold wrap64, min_int64, max_int64. intros. rewrite Z.mod_small; lia. Qed.

Lemma wrap64_range z : (min_int64 <= wrap64 z <= max_int64)%Z.
Proof.
  unfold wrap64, min_int64, max_int64.
  pose proof (Z.mod_pos_bound (z + 2 ^ 63) (2 ^ 64)). lia.
Qed.

#[export] Hint Resolve wrap64_range : infra.

(** Permuted traversals of keyed entries agree, up to an equivalence the body
    respects, when entries of different keys commute. *)
Lemma foldl_perm_keyed {S A : Type} (R : relation S) `{!Equivalence R} (f : S -> string * A -> S)
    (l1 l2 : list (string * A)) :
  l1 ≡ₚ l2 -> NoDup l1.*1 ->
  (forall s s' x, x ∈ l1 -> R s s' -> R (f s x) (f s' x)) ->
  (forall s x y, x ∈ l1 -> y ∈ l1 -> x.1 <> y.1 -> R (f (f s x) y) (f (f s y) x)) ->
  forall s s', R s s' -> R (foldl f s l1) (foldl f s' l2).
Proof.
  induction 1 as [|x l1 l2 Hp IH|x y l|l1 l2 l3 H12 IH12 H23 IH23];
    intros Hnd Hprop Hcomm s s' Hs; cbn.
  - done.
  - rewrite fmap_cons, NoDup_cons in Hnd. destruct Hnd as [_ Hnd].
    apply IH; [done| | |apply Hprop; [left|done]].
    + intros ? ? ? Hin. apply Hprop. by right.
    + intros ? ? ? Hin1 Hin2. apply Hcomm; by right.
  - rewrite !fmap_cons, !NoDup_cons in Hnd. destruct Hnd as [Hx _].
    assert (y.1 <> x.1) as Hne by (intros He; apply Hx; rewrite He; left).
    assert (R (foldl f (f (f s y) x) l) (foldl f (f (f s' x) y) l)); [|done].
    assert (R (f (f s y) x) (f (f s' x) y)) as H1.
    { transitivity (f (f s x) y).
      - apply Hcomm; [left|right; left|done].
      - apply Hprop; [left|]. apply Hprop; [right; left|done]. }
    clear Hcomm Hx Hne.
    assert (forall s s' x, x ∈ l -> R s s' -> R (f s x) (f s' x)) as Hp'.
    { intros ? ? ? Hin. apply Hprop. by do 2 right. }
    revert H1. generalize (f (f s y) x) (f (f s' x) y). clear -Hp'.
    induction l as [|z l IH]; cbn; intros t t' Ht; [done|].
    apply IH; [intros ? ? ? Hin; apply Hp'; by right|]. apply Hp'; [left|done].
  - transitivity (foldl f s' l2).
    + by apply IH12.
    + apply IH23; [|..|reflexivity].
      * by rewrite <- H12.
      * intros ? ? ? Hin. apply Hprop. by rewrite H12.
      * intros ? ? ? Hin1 Hin2. apply Hcomm; by rewrite H12.
Qed.

(** ** Stable sorting *)

(** [less] is a strict weak order: what [sort.SliceStable] requires. *)
Class StrictWeak {A} (less : A -> A -> bool) : Prop := {
  sw_asym : forall x y, less x y = true -> less y x = false;
  sw_trans : forall x y z, less y x = false -> less z y = false -> less z x = false }.

Section StableSortFacts.
Context {A : Type} (less : A -> A -> bool) `{!StrictWeak less}.

Lemma insert_stable_perm x l : insert_stable less x l ≡ₚ x :: l.
Proof.
  induction l as [|y l IH]; cbn; [done|]. destruct (less y x); [|done].
  rewrite IH. constructor.
Qed.

Lemma stable_sort_perm l : stable_sort less l ≡ₚ l.
Proof. induction l as [|x l IH]; cbn; [done|]. by rewrite insert_stable_perm, IH. Qed.

Lemma insert_stable_sorted x l :
  StronglySorted (fun a b => less b a = false) l ->
  StronglySorted (fun a b => less b a = false) (insert_stable less x l).
Proof.
  induction 1 as [|y l Hl IH Hy]; cbn; [by repeat constructor|].
  destruct (less y x) eqn:E.
  - constructor; [done|]. rewrite insert_stable_perm. constructor; [|done]. by apply sw_asym.
  - constructor; [by constructor|]. constructor; [done|].
    eapply Forall_impl; [exact Hy|]. cbn. intros z Hz. by apply (sw_trans _ y).
Qed.

(** The result is sorted. *)
Lemma stable_sort_sorted l : StronglySorted (fun a b => less b a = false) (stable_sort less l).
Proof. induction l; cbn; [constructor|]. by apply insert_stable_sorted. Qed.

(** Nothing is strictly less than the head of the result. *)
Lemma stable_sort_head l x l' :
  stable_sort less l = x :: l' -> x ∈ l /\ forall y, y ∈ l -> less y x = false.
Proof.
  intros E. split.
  - rewrite <- (stable_sort_perm l), E. left.
  - intros y Hy. rewrite <- (stable_sort_perm l), E in Hy.
    pose proof (stable_sort_sorted l) as Hs. rewrite E in Hs. inversion Hs as [|?? _ Hall]; subst.
    apply elem_of_cons in Hy as [->|Hy].
    + destruct (less x x) eqn:F; [|done]. by rewrite (sw_asym _ _ F) in F.
    + rewrite Forall_forall in Hall. by apply Hall.
Qed.

End StableSortFacts.
