(* ===== verification/GoStrings.v ===== *)
(** * Go strings

    A Go string is a sequence of bytes: Rocq's [string], one [ascii] per byte.
    The functions of [strings], [strconv] and [unicode/utf8] that the source
    calls are modelled here, at the level of runes where Go works on runes.

    Case mapping: [to_lower_rune] and [to_upper_rune] map the ASCII letters and
    the four non-ASCII runes whose image is ASCII exactly; every other
    non-ASCII rune is left as it is, where Go maps it to a non-ASCII rune.
    Every caller modelled here compares the image with ASCII text only, or
    replaces what is not ASCII. *)
From S2P Require Import Prelude.
From Stdlib Require Import Ascii DecimalString.
Open Scope string_scope.

(** ** Bytes *)

Definition byte_of (c : ascii) : N := N_of_ascii c.
Definition bytes (s : string) : list N := byte_of <$> String.list_ascii_of_string s.
Definition of_bytes (l : list N) : string := String.string_of_list_ascii (ascii_of_N <$> l).
Definition len (s : string) : Z := Z.of_nat (String.length s).

(** ** UTF-8 decoding, as [utf8.DecodeRuneInString] does it *)

Definition RuneError : N := 65533.

Definition cont (b : N) : bool := (128 <=? b)%N && (b <=? 191)%N.

Definition valid2 (b0 b1 : N) : bool := (194 <=? b0)%N && (b0 <=? 223)%N && cont b1.

Definition valid3 (b0 b1 b2 : N) : bool :=
  (224 <=? b0)%N && (b0 <=? 239)%N && cont b1 && cont b2 &&
  (if (b0 =? 224)%N then (160 <=? b1)%N else true) &&
  (if (b0 =? 237)%N then (b1 <=? 159)%N else true).

Definition valid4 (b0 b1 b2 b3 : N) : bool :=
  (240 <=? b0)%N && (b0 <=? 244)%N && cont b1 && cont b2 && cont b3 &&
  (if (b0 =? 240)%N then (144 <=? b1)%N else true) &&
  (if (b0 =? 244)%N then (b1 <=? 143)%N else true).

Definition rune2 (b0 b1 : N) : N := (b0 mod 32 * 64 + b1 mod 64)%N.
Definition rune3 (b0 b1 b2 : N) : N := (b0 mod 16 * 4096 + b1 mod 64 * 64 + b2 mod 64)%N.
Definition rune4 (b0 b1 b2 b3 : N) : N :=
  (b0 mod 8 * 262144 + b1 mod 64 * 4096 + b2 mod 64 * 64 + b3 mod 64)%N.

(** The runes of a byte sequence with the bytes each was read from; an invalid
    byte is one [RuneError] of width one. *)
Fixpoint decode (bs : list N) : list (N * list N) :=
  match bs with
  | [] => []
  | b0 :: t0 =>
      if (b0 <? 128)%N then (b0, [b0]) :: decode t0 else
      match t0 with
      | [] => (RuneError, [b0]) :: decode t0
      | b1 :: t1 =>
          if valid2 b0 b1 then (rune2 b0 b1, [b0; b1]) :: decode t1 else
          match t1 with
          | [] => (RuneError, [b0]) :: decode t0
          | b2 :: t2 =>
              if valid3 b0 b1 b2 then (rune3 b0 b1 b2, [b0; b1; b2]) :: decode t2 else
              match t2 with
              | [] => (RuneError, [b0]) :: decode t0
              | b3 :: t3 =>
                  if valid4 b0 b1 b2 b3
                  then (rune4 b0 b1 b2 b3, [b0; b1; b2; b3]) :: decode t3
                  else (RuneError, [b0]) :: decode t0
              end
          end
      end
  end.

(** [for _, r := range s]. *)
Definition runes (s : string) : list N := fst <$> decode (bytes s).

(** [utf8.Valid]: an error rune of width one is an invalid byte. *)
Definition utf8_valid (s : string) : bool :=
  forallb (fun rb => negb ((rb.1 =? RuneError)%N && (length rb.2 =? 1)%nat)) (decode (bytes s)).

(** ** Trimming *)

(** [unicode.IsSpace]. *)
Definition is_space (r : N) : bool :=
  ((9 <=? r) && (r <=? 13) || (r =? 32) || (r =? 133) || (r =? 160) || (r =? 5760)
   || (8192 <=? r) && (r <=? 8202) || (r =? 8232) || (r =? 8233) || (r =? 8239)
   || (r =? 8287) || (r =? 12288))%N.

Fixpoint drop_while {A} (p : A -> bool) (l : list A) : list A :=
  match l with
  | [] => []
  | x :: l' => if p x then drop_while p l' else l
  end.

Definition trim_by {A} (p : A -> bool) (l : list A) : list A :=
  reverse (drop_while p (reverse (drop_while p l))).

(** [strings.TrimSpace]. *)
Definition trim_space (s : string) : string :=
  of_bytes (mjoin (snd <$> trim_by (fun rb => is_space rb.1) (decode (bytes s)))).

(** [strings.Trim], [TrimLeft] and [TrimRight] with a cutset of ASCII bytes. *)
Definition trim_cut (cut : list ascii) (s : string) : string :=
  String.string_of_list_ascii
    (trim_by (fun c => bool_decide (c ∈ cut)) (String.list_ascii_of_string s)).

Definition trim_right_cut (cut : list ascii) (s : string) : string :=
  String.string_of_list_ascii
    (reverse (drop_while (fun c => bool_decide (c ∈ cut)) (reverse (String.list_ascii_of_string s)))).

(** ** Prefixes, substrings, splitting *)

Definition has_prefix (s p : string) : bool := String.prefix p s.

Definition has_suffix (s p : string) : bool :=
  let n := String.length s in let m := String.length p in
  (m <=? n)%nat && bool_decide (String.substring (n - m) m s = p).

Definition trim_prefix (s p : string) : string :=
  if has_prefix s p
  then String.substring (String.length p) (String.length s - String.length p) s else s.

(** [strings.Contains]. *)
Fixpoint contains_sub (s sub : string) : bool :=
  has_prefix s sub ||
  match s with EmptyString => false | String _ s' => contains_sub s' sub end.

(** [strings.Split] with a one-byte separator. *)
Fixpoint split_on (sep : ascii) (s : string) : list string :=
  match s with
  | EmptyString => [""]
  | String c s' =>
      if Ascii.eqb c sep then "" :: split_on sep s'
      else match split_on sep s' with
           | p :: ps => String c p :: ps
           | [] => [String c ""]
           end
  end.

Definition join (sep : string) (l : list string) : string := String.concat sep l.

(** ** Case *)

Definition to_lower_rune (r : N) : N :=
  if ((65 <=? r) && (r <=? 90))%N then (r + 32)%N
  else if (r =? 304)%N then 105%N      (* U+0130, dotted capital I *)
  else if (r =? 8490)%N then 107%N     (* U+212A, Kelvin sign *)
  else r.

Definition to_upper_rune (r : N) : N :=
  if ((97 <=? r) && (r <=? 122))%N then (r - 32)%N
  else if (r =? 305)%N then 73%N       (* U+0131, dotless i *)
  else if (r =? 383)%N then 83%N       (* U+017F, long s *)
  else r.

(** A rune that keeps its code keeps its bytes. *)
Definition map_runes (f : N -> N) (s : string) : string :=
  of_bytes (mjoin ((fun rb => if (f rb.1 =? rb.1)%N then rb.2 else [f rb.1]) <$> decode (bytes s))).

Definition to_lower (s : string) : string := map_runes to_lower_rune s.
Definition to_upper (s : string) : string := map_runes to_upper_rune s.

(** Unicode's case tables: [fold_rune] sends a rune to the representative of
    its simple-folding orbit, [upper_rune] is [unicode.ToUpper]. What the model
    relies on is their ASCII part. *)
Class UnicodeCase := {
  fold_rune : N -> N;
  upper_rune : N -> N;
  fold_ascii : forall r, (r < 128)%N -> fold_rune r = to_lower_rune r;
  upper_ascii : forall r, (r < 128)%N -> upper_rune r = to_upper_rune r }.

Definition ascii_case : UnicodeCase.
Proof. by refine {| fold_rune := to_lower_rune; upper_rune := to_upper_rune |}. Defined.

(** [strings.EqualFold]. *)
Definition equal_fold `{UnicodeCase} (s t : string) : bool :=
  bool_decide (fold_rune <$> runes s = fold_rune <$> runes t).

(** ** Numbers *)

Definition digit_of (c : ascii) : option Z :=
  let n := Z.of_N (byte_of c) in
  if ((48 <=? n) && (n <=? 57))%Z then Some (n - 48)%Z else None.

Fixpoint digits_value (acc : Z) (s : string) : option Z :=
  match s with
  | EmptyString => Some acc
  | String c s' => d ← digit_of c; digits_value (acc * 10 + d)%Z s'
  end.

(** [strconv.ParseInt(s, 10, 64)]: the value and whether it failed. A range
    error still returns the nearest bound; a syntax error returns zero. *)
Definition parse_int (s : string) : Z * bool :=
  let '(neg, body) := match s with
    | String "-"%char t => (true, t)
    | String "+"%char t => (false, t)
    | _ => (false, s)
    end in
  match body with
  | EmptyString => (0%Z, true)
  | _ =>
      match digits_value 0 body with
      | None => (0%Z, true)
      | Some n =>
          if neg then if (2 ^ 63 <? n)%Z then (min_int64, true) else ((- n)%Z, false)
          else if (max_int64 <? n)%Z then (max_int64, true) else (n, false)
      end
  end.

(** [strconv.FormatInt(n, 10)]. *)
Definition format_int (n : Z) : string := NilEmpty.string_of_int (Z.to_int n).

Definition nat_digits (n : nat) : string := NilEmpty.string_of_uint (Nat.to_uint n).

Fixpoint repeat_char (c : ascii) (n : nat) : string :=
  match n with O => "" | S n' => String c (repeat_char c n') end.

(** Pads with zeros on the left: [%0wd] of a non-negative number. *)
Definition pad_zero (w : nat) (s : string) : string :=
  repeat_char "0" (w - String.length s) +:+ s.

(** ** Hexadecimal *)

Definition hex_digit (n : N) : ascii :=
  ascii_of_N (if (n <? 10)%N then 48 + n else 87 + n)%N.

(** [hex.EncodeToString]. *)
Definition hex_encode (s : string) : string :=
  String.string_of_list_ascii
    (b ← String.list_ascii_of_string s; [hex_digit (byte_of b / 16)%N; hex_digit (byte_of b mod 16)%N]).

(** ** Order: Go compares strings by bytes *)

Definition string_leb (s t : string) : bool := String.leb s t.
Definition string_le (s t : string) : Prop := String.leb s t = true.
#[export] Instance string_le_dec : RelDecision string_le.
Proof. intros s t. unfold string_le. apply _. Defined.

Definition sort_strings (l : list string) : list string := merge_sort string_le l.

(** ** Lemmas *)

Lemma byte_of_inj : Inj (=) (=) byte_of.
Proof. intros a b H. rewrite <- (ascii_N_embedding a), <- (ascii_N_embedding b). unfold byte_of in H. congruence. Qed.

Lemma of_bytes_bytes s : of_bytes (bytes s) = s.
Proof.
  unfold of_bytes, bytes. rewrite <- list_fmap_compose.
  rewrite (list_fmap_ext _ id).
  - rewrite list_fmap_id. apply String.string_of_list_ascii_of_string.
  - intros i c _. simpl. apply ascii_N_embedding.
Qed.

(** One decoding step: the chunk read, then the induction hypothesis. *)
Ltac chunk IHs := rewrite fmap_cons; cbn [mjoin list_join snd app]; rewrite IHs; [done|cbn; lia].

(** Decoding loses no byte. *)
Lemma decode_concat bs : mjoin (snd <$> decode bs) = bs.
Proof.
  induction bs as [bs IH] using (well_founded_induction (well_founded_ltof _ length)).
  unfold ltof in IH.
  assert (IHs : forall t, (length t < length bs)%nat -> mjoin (snd <$> decode t) = t) by done.
  clear IH. destruct bs as [|b0 t0]; [done|]. cbn [length] in IHs.
  cbn [decode]. destruct (b0 <? 128)%N; [chunk IHs|].
  destruct t0 as [|b1 t1]; [done|].
  destruct (valid2 b0 b1); [chunk IHs|].
  destruct t1 as [|b2 t2]; [chunk IHs|].
  destruct (valid3 b0 b1 b2); [chunk IHs|].
  destruct t2 as [|b3 t3]; [chunk IHs|].
  destruct (valid4 b0 b1 b2 b3); chunk IHs.
Qed.

Lemma string_app_cons c (s t : string) : String c s +:+ t = String c (s +:+ t).
Proof. done. Qed.

Lemma string_app_nil_r (s : string) : s +:+ "" = s.
Proof. induction s as [|c s IH]; [done|]. by rewrite string_app_cons, IH. Qed.

Lemma string_app_inj_l (a s t : string) : a +:+ s = a +:+ t -> s = t.
Proof.
  induction a as [|c a IH]; [done|]. rewrite !string_app_cons. intros [= H]. by apply IH.
Qed.

Lemma string_app_assoc (a b c : string) : (a +:+ b) +:+ c = a +:+ (b +:+ c).
Proof. induction a as [|x a IH]; [done|]. rewrite !string_app_cons. by rewrite IH. Qed.

Lemma string_length_app (a b : string) :
  String.length (a +:+ b) = (String.length a + String.length b)%nat.
Proof. induction a as [|x a IH]; [done|]. rewrite string_app_cons. cbn. by rewrite IH. Qed.

Lemma string_app_inj_r (a b s : string) : a +:+ s = b +:+ s -> a = b.
Proof.
  revert b. induction a as [|c a IH]; intros [|d b] H; [done|..].
  - apply (f_equal String.length) in H. rewrite !string_length_app in H. cbn in H. lia.
  - apply (f_equal String.length) in H. rewrite !string_length_app in H. cbn in H. lia.
  - rewrite !string_app_cons in H. injection H as -> H. f_equal. by apply IH.
Qed.

Lemma has_prefix_app p s : has_prefix (p +:+ s) p = true.
Proof.
  unfold has_prefix. induction p as [|c p IH]; [by destruct s|].
  rewrite string_app_cons. cbn. by case_match.
Qed.

Lemma has_prefix_spec s p : has_prefix s p = true <-> exists t, s = p +:+ t.
Proof.
  split; [|intros [t ->]; apply has_prefix_app].
  unfold has_prefix. revert s. induction p as [|c p IH]; intros s H; [by exists s|].
  destruct s as [|d s]; cbn in H; [done|]. case_match; [|done]. subst.
  destruct (IH _ H) as [t ->]. by exists t.
Qed.

Lemma string_leb_total s t : string_le s t \/ string_le t s.
Proof.
  unfold string_le, String.leb. rewrite (String.compare_antisym s t).
  destruct (String.compare t s); simpl; auto.
Qed.

#[export] Instance string_le_total : Total string_le.
Proof. intros s t. apply string_leb_total. Qed.

Lemma bytes_bound s : Forall (fun b => (b < 256)%N) (bytes s).
Proof. unfold bytes. apply Forall_fmap, Forall_true. intros c. apply N_ascii_bounded. Qed.

(** [utf8.AppendRune] of a valid rune. *)
Definition utf8_encode (r : N) : list N :=
  (if r <? 128 then [r]
   else if r <? 2048 then [192 + r / 64; 128 + r mod 64]
   else if r <? 65536 then [224 + r / 4096; 128 + r / 64 mod 64; 128 + r mod 64]
   else [240 + r / 262144; 128 + r / 4096 mod 64; 128 + r / 64 mod 64; 128 + r mod 64])%N.

(** ** Splitting *)

(** No byte of the string is the separator. *)
Definition free_of (c : ascii) (s : string) : Prop := c ∉ String.list_ascii_of_string s.

Lemma split_on_nonempty sep a : split_on sep a <> [].
Proof. destruct a as [|x a]; cbn [split_on]; [done|]. destruct (Ascii.eqb x sep); [done|]. by destruct (split_on sep a). Qed.

Lemma split_on_app sep a b : split_on sep (a +:+ String sep b) = (split_on sep a ++ split_on sep b)%list.
Proof.
  induction a as [|c a IH].
  { change ("" +:+ String sep b) with (String sep b). cbn [split_on]. by rewrite Ascii.eqb_refl. }
  rewrite string_app_cons. cbn [split_on]. rewrite IH. destruct (Ascii.eqb c sep); [done|].
  pose proof (split_on_nonempty sep a). by destruct (split_on sep a).
Qed.

Lemma split_on_free sep a : free_of sep a -> split_on sep a = [a].
Proof.
  unfold free_of. induction a as [|x a IH]; cbn; [done|]. intros [Hx Ha]%not_elem_of_cons.
  rewrite (proj2 (Ascii.eqb_neq x sep)) by congruence. by rewrite IH.
Qed.
