(* ===== verification/GoUtf8.v ===== *)
(** * UTF-8, beyond [GoStrings.v]

    What the decoder reads is what the bytes spell: the shape of the runes it
    returns, and how decoding goes over concatenation. *)
From S2P Require Import Prelude GoStrings.
From Stdlib Require Import Ascii.
Open Scope list_scope.

(** What a rune was read from: one ASCII byte, or bytes beyond ASCII. *)
Definition raw_ok (rb : N * list N) : Prop :=
  (exists b, (b < 128)%N /\ rb = (b, [b])) \/ (rb.2 <> [] /\ Forall (fun b => (128 <= b < 256)%N) rb.2).

Lemma cont_bounds b : cont b = true -> (128 <= b < 256)%N.
Proof. unfold cont. intros [H1%N.leb_le H2%N.leb_le]%andb_true_iff. lia. Qed.

Lemma valid_bounds b0 b1 b2 b3 : (valid2 b0 b1 = true -> (128 <= b0 < 256)%N /\ (128 <= b1 < 256)%N) /\
  (valid3 b0 b1 b2 = true -> (128 <= b0 < 256 /\ 128 <= b1 < 256 /\ 128 <= b2 < 256)%N) /\
  (valid4 b0 b1 b2 b3 = true -> (128 <= b0 < 256 /\ 128 <= b1 < 256 /\ 128 <= b2 < 256 /\ 128 <= b3 < 256)%N).
Proof.
  unfold valid2, valid3, valid4. split_and!; rewrite ?andb_true_iff, ?N.leb_le; intros H; destruct_and?;
    repeat match goal with E : cont _ = true |- _ => apply cont_bounds in E end; lia.
Qed.

Lemma decode_raw bs : Forall (fun b => (b < 256)%N) bs -> Forall raw_ok (decode bs).
Proof.
  induction bs as [bs IH] using (well_founded_induction (well_founded_ltof _ length)). unfold ltof in IH. intros Hb.
  assert (IHs : forall t, (length t < length bs)%nat -> Forall (fun b => (b < 256)%N) t -> Forall raw_ok (decode t)) by auto. clear IH.
  destruct bs as [|b0 t0]; [constructor|]. apply Forall_cons in Hb as [H0 Ht0]. cbn [length] in IHs. cbn [decode].
  destruct (N.ltb_spec b0 128); [constructor; [left; by exists b0|apply IHs; [lia|done]]|].
  assert (Forall raw_ok ((RuneError, [b0]) :: decode t0)) as Hone.
  { constructor; [right; split; [done|]; constructor; [lia|constructor]|apply IHs; [lia|done]]. }
  destruct t0 as [|b1 t1]; [done|]. destruct (valid_bounds b0 b1 0 0) as (V2 & _ & _).
  destruct (valid2 b0 b1); [constructor; [right; split; [done|]; repeat constructor; naive_solver|apply Forall_cons in Ht0 as [_ Ht1]; apply IHs; [cbn; lia|done]]|].
  destruct t1 as [|b2 t2]; [done|]. destruct (valid_bounds b0 b1 b2 0) as (_ & V3 & _).
  destruct (valid3 b0 b1 b2); [constructor; [right; split; [done|]; repeat constructor; naive_solver|
    apply Forall_cons in Ht0 as [_ [_ Ht1]%Forall_cons]; apply IHs; [cbn; lia|done]]|].
  destruct t2 as [|b3 t3]; [done|]. destruct (valid_bounds b0 b1 b2 b3) as (_ & _ & V4).
  destruct (valid4 b0 b1 b2 b3); [|done]. constructor; [right; split; [done|]; repeat constructor; naive_solver|].
  apply Forall_cons in Ht0 as [_ [_ [_ Ht1]%Forall_cons]%Forall_cons]; apply IHs; [cbn; lia|done].
Qed.

(** ** Whole runes *)

(** A rune read from its own bytes, not from an invalid one. *)
Inductive whole : N * list N -> Prop :=
| whole1 b : (b < 128)%N -> whole (b, [b])
| whole2 b0 b1 : valid2 b0 b1 = true -> whole (rune2 b0 b1, [b0; b1])
| whole3 b0 b1 b2 : valid3 b0 b1 b2 = true -> whole (rune3 b0 b1 b2, [b0; b1; b2])
| whole4 b0 b1 b2 b3 : valid4 b0 b1 b2 b3 = true -> whole (rune4 b0 b1 b2 b3, [b0; b1; b2; b3]).

Lemma valid3_not2 b0 b1 b2 : valid3 b0 b1 b2 = true -> valid2 b0 b1 = false.
Proof.
  unfold valid3, valid2. rewrite !andb_true_iff, !N.leb_le. intros [[[[[? _] _] _] _] _]. by rewrite (proj2 (N.leb_gt b0 223)), andb_false_r by lia.
Qed.

Lemma valid4_not23 b0 b1 b2 b3 : valid4 b0 b1 b2 b3 = true -> valid2 b0 b1 = false /\ valid3 b0 b1 b2 = false.
Proof.
  unfold valid4, valid3, valid2. rewrite !andb_true_iff, !N.leb_le. intros [[[[[[? _] _] _] _] _] _].
  by rewrite (proj2 (N.leb_gt b0 223)), (proj2 (N.leb_gt b0 239)), !andb_false_r by lia.
Qed.

(** A whole rune is read back, whatever follows. *)
Lemma decode_whole rb t : whole rb -> decode (rb.2 ++ t) = rb :: decode t.
Proof.
  intros [b Hb|b0 b1 Hv|b0 b1 b2 Hv|b0 b1 b2 b3 Hv]; cbn [snd app decode].
  - by rewrite (proj2 (N.ltb_lt _ _)).
  - destruct (proj1 (valid_bounds b0 b1 0 0) Hv). by rewrite (proj2 (N.ltb_ge b0 128)), Hv by lia.
  - destruct (proj1 (proj2 (valid_bounds b0 b1 b2 0)) Hv). rewrite (proj2 (N.ltb_ge b0 128)) by lia. by rewrite (valid3_not2 _ _ _ Hv), Hv.
  - destruct (proj2 (proj2 (valid_bounds b0 b1 b2 b3)) Hv). rewrite (proj2 (N.ltb_ge b0 128)) by lia.
    destruct (valid4_not23 _ _ _ _ Hv) as [-> ->]. by rewrite Hv.
Qed.

Lemma decode_wholes l t : Forall whole l -> decode (mjoin (snd <$> l) ++ t) = l ++ decode t.
Proof.
  induction 1 as [|rb l Hrb _ IH]; [done|]. change (mjoin (snd <$> rb :: l)) with (rb.2 ++ mjoin (snd <$> l)).
  rewrite <- app_assoc, decode_whole by done. cbn [app]. by rewrite IH.
Qed.

(** What a valid text is read as. *)
Lemma decode_runes bs : Forall (fun rb => whole rb \/ rb.1 = RuneError /\ length rb.2 = 1%nat) (decode bs).
Proof.
  induction bs as [bs IH] using (well_founded_induction (well_founded_ltof _ length)). unfold ltof in IH.
  assert (IHs : forall t, (length t < length bs)%nat -> Forall (fun rb => whole rb \/ rb.1 = RuneError /\ length rb.2 = 1%nat) (decode t)) by auto. clear IH.
  destruct bs as [|b0 t0]; [constructor|]. cbn [length] in IHs. cbn [decode].
  destruct (N.ltb_spec b0 128); [constructor; [left; by constructor|apply IHs; lia]|].
  assert (Forall (fun rb => whole rb \/ rb.1 = RuneError /\ length rb.2 = 1%nat) ((RuneError, [b0]) :: decode t0)) as Hone
    by (constructor; [by right|apply IHs; lia]).
  destruct t0 as [|b1 t1]; [done|].
  destruct (valid2 b0 b1) eqn:?; [constructor; [left; by constructor|apply IHs; cbn; lia]|]. destruct t1 as [|b2 t2]; [done|].
  destruct (valid3 b0 b1 b2) eqn:?; [constructor; [left; by constructor|apply IHs; cbn; lia]|]. destruct t2 as [|b3 t3]; [done|].
  destruct (valid4 b0 b1 b2 b3) eqn:?; [constructor; [left; by constructor|apply IHs; cbn; lia]|done].
Qed.

Lemma utf8_valid_whole s : utf8_valid s = true -> Forall whole (decode (bytes s)).
Proof.
  unfold utf8_valid. rewrite forallb_forall. intros Hv. pose proof (decode_runes (bytes s)) as Hr. rewrite Forall_forall in *. intros rb Hin.
  destruct (Hr rb Hin) as [?|[H1 H2]]; [done|]. apply list_elem_of_In in Hin. specialize (Hv rb Hin). by rewrite H1, H2 in Hv.
Qed.

(** The two separators JSON escapes are spelled in one way. *)
Lemma separator_bytes rb r : whole rb -> rb.1 = r -> (r = 8232 \/ r = 8233)%N -> rb.2 = utf8_encode r.
Proof.
  intros [b Hb|b0 b1 Hv|b0 b1 b2 Hv|b0 b1 b2 b3 Hv] <- Hr; cbn [fst snd] in *.
  - lia.
  - unfold rune2 in Hr. pose proof (N.mod_upper_bound b0 32). pose proof (N.mod_upper_bound b1 64). lia.
  - unfold valid3, cont in Hv. rewrite !andb_true_iff, !N.leb_le in Hv. destruct Hv as [[[[[? ?] [? ?]] [? ?]] _] _]. unfold rune3 in *.
    assert (b0 mod 16 = b0 - 224 /\ b1 mod 64 = b1 - 128 /\ b2 mod 64 = b2 - 128)%N as (E0 & E1 & E2).
    { split_and!; symmetry; [apply (N.mod_unique _ _ 14)|apply (N.mod_unique _ _ 2)|apply (N.mod_unique _ _ 2)]; lia. }
    rewrite E0, E1, E2 in *. assert (b0 = 226 /\ b1 = 128 /\ (b2 = 168 \/ b2 = 169))%N as (-> & -> & [-> | ->]) by lia; reflexivity.
  - unfold valid4, cont in Hv. rewrite !andb_true_iff, !N.leb_le in Hv. destruct Hv as [[[[[[? ?] [? ?]] _] _] Hmin] _]. unfold rune4 in *.
    assert (b0 mod 8 = b0 - 240 /\ b1 mod 64 = b1 - 128)%N as (E0 & E1).
    { split_and!; symmetry; [apply (N.mod_unique _ _ 30)|apply (N.mod_unique _ _ 2)]; lia. }
    rewrite E0, E1 in Hr. revert Hr. generalize (b2 mod 64)%N, (b3 mod 64)%N. intros x y Hr. destruct (N.eqb_spec b0 240); [apply N.leb_le in Hmin|]; lia.
Qed.

(** ** Bytes and strings *)

Lemma bytes_app s t : bytes (s +:+ t) = bytes s ++ bytes t.
Proof. induction s as [|c s IH]; [done|]. change (byte_of c :: bytes (s +:+ t) = byte_of c :: bytes s ++ bytes t). by rewrite IH. Qed.

Lemma bytes_of_bytes l : Forall (fun b => (b < 256)%N) l -> bytes (of_bytes l) = l.
Proof.
  intros Hl. unfold bytes, of_bytes. rewrite String.list_ascii_of_string_of_list_ascii, <- list_fmap_compose.
  rewrite <- (list_fmap_id l) at 2. apply list_fmap_ext. intros i b Hb. cbn. unfold byte_of.
  rewrite N_ascii_embedding; [done|]. rewrite Forall_lookup in Hl. by apply (Hl i).
Qed.

Lemma of_bytes_app l l' : of_bytes (l ++ l') = of_bytes l +:+ of_bytes l'.
Proof. unfold of_bytes. rewrite fmap_app. induction l as [|b l IH]; [done|]. cbn in *. by rewrite IH. Qed.

Lemma bytes_concat l : bytes (String.concat "" l) = mjoin (bytes <$> l).
Proof.
  induction l as [|s l IH]; [done|]. change (mjoin (bytes <$> s :: l)) with (bytes s ++ mjoin (bytes <$> l)). rewrite <- IH.
  destruct l as [|t l]; [cbn; by rewrite app_nil_r|]. change (String.concat "" (s :: t :: l)) with (s +:+ String.concat "" (t :: l)). apply bytes_app.
Qed.

(** What a whole rune is: an ASCII byte, or more than ASCII. *)
Lemma whole_cases rb : whole rb -> (exists b, (b < 128)%N /\ rb = (b, [b])) \/
  ((128 <= rb.1)%N /\ Forall (fun b => (128 <= b < 256)%N) rb.2 /\ length rb.2 <> 1%nat).
Proof.
  intros [b Hb|b0 b1 Hv|b0 b1 b2 Hv|b0 b1 b2 b3 Hv]; [left; by exists b|right; cbn [fst snd]..].
  - destruct (proj1 (valid_bounds b0 b1 0 0) Hv). split_and!; [|rewrite !Forall_cons; auto|done]. unfold valid2 in Hv.
    rewrite !andb_true_iff, !N.leb_le in Hv. assert (b0 mod 32 = b0 - 192)%N as E by (symmetry; apply (N.mod_unique _ _ 6); lia).
    unfold rune2. rewrite E. generalize (b1 mod 64)%N. lia.
  - destruct (proj1 (proj2 (valid_bounds b0 b1 b2 0)) Hv) as (?&?&?). split_and!; [|rewrite !Forall_cons; auto|done]. unfold valid3, cont in Hv.
    rewrite !andb_true_iff, !N.leb_le in Hv. destruct Hv as [[[[[? ?] [? ?]] [? ?]] Hmin] _].
    assert (b0 mod 16 = b0 - 224 /\ b1 mod 64 = b1 - 128)%N as (E0 & E1).
    { split; symmetry; [apply (N.mod_unique _ _ 14)|apply (N.mod_unique _ _ 2)]; lia. }
    unfold rune3. rewrite E0, E1. generalize (b2 mod 64)%N. destruct (N.eqb_spec b0 224); [apply N.leb_le in Hmin|]; lia.
  - destruct (proj2 (proj2 (valid_bounds b0 b1 b2 b3)) Hv) as (?&?&?&?). split_and!; [|rewrite !Forall_cons; auto|done]. unfold valid4, cont in Hv.
    rewrite !andb_true_iff, !N.leb_le in Hv. destruct Hv as [[[[[[? ?] [? ?]] _] _] Hmin] _].
    assert (b0 mod 8 = b0 - 240 /\ b1 mod 64 = b1 - 128)%N as (E0 & E1).
    { split; symmetry; [apply (N.mod_unique _ _ 30)|apply (N.mod_unique _ _ 2)]; lia. }
    unfold rune4. rewrite E0, E1. generalize (b2 mod 64)%N, (b3 mod 64)%N. destruct (N.eqb_spec b0 240); [apply N.leb_le in Hmin|]; lia.
Qed.
