(* ===== verification/GoNumbers.v ===== *)
(** * Decimal numbers in strings

    [strconv.FormatInt] and [ParseInt] are inverse, zero-padded numbers compare
    as strings the way they compare as numbers, and the suffixes and trimming of
    such strings. *)
From S2P Require Import Prelude GoStrings.
From Stdlib Require Import Ascii Decimal DecimalString DecimalFacts DecimalPos DecimalZ.
Open Scope string_scope.

#[local] Instance uint_eq_dec : EqDecision Decimal.uint := Decimal.uint_eq_dec.

(** ** The digits of a number *)

Definition is_digit (c : ascii) : bool := match digit_of c with Some _ => true | None => false end.

Fixpoint all_digits (s : string) : bool :=
  match s with EmptyString => true | String c s' => is_digit c && all_digits s' end.

(** Evaluates the digit the goal reads. *)
Ltac read_digit :=
  match goal with |- context [digit_of ?c] => let v := eval vm_compute in (digit_of c) in change (digit_of c) with v end;
  cbn [mbind option_bind].

Lemma digits_value_uint d acc : digits_value (Zpos acc) (NilEmpty.string_of_uint d) = Some (Zpos (Pos.of_uint_acc d acc)).
Proof.
  revert acc. induction d; intros acc; [done|..]; cbn [NilEmpty.string_of_uint digits_value Pos.of_uint_acc];
    rewrite <- IHd; read_digit; f_equal; lia.
Qed.

Lemma digits_value_of_uint d : digits_value 0 (NilEmpty.string_of_uint d) = Some (Z.of_N (Pos.of_uint d)).
Proof.
  induction d; [done|..]; cbn [NilEmpty.string_of_uint digits_value Pos.of_uint].
  1: by rewrite <- IHd.
  all: read_digit; cbn [Z.of_N]; by rewrite <- digits_value_uint.
Qed.

Lemma format_int_nonneg n : (0 <= n)%Z -> exists d, format_int n = NilEmpty.string_of_uint d /\ Z.to_int n = Decimal.Pos d /\ d <> Nil.
Proof.
  intros Hn. unfold format_int. destruct n as [|p|p]; [by exists (D0 Nil)| |lia].
  exists (Pos.to_uint p). split_and!; [done|done|]. apply DecimalPos.Unsigned.to_uint_nonnil.
Qed.

Lemma digits_value_format n : (0 <= n)%Z -> digits_value 0 (format_int n) = Some n.
Proof.
  intros Hn. destruct (format_int_nonneg n Hn) as (d & -> & Hd & _). rewrite digits_value_of_uint.
  f_equal. rewrite <- (DecimalZ.of_to n), Hd. done.
Qed.

Lemma string_of_uint_length d : String.length (NilEmpty.string_of_uint d) = nb_digits d.
Proof. induction d; cbn; congruence. Qed.

Lemma of_uint_acc_lower d acc : (Zpos acc * 10 ^ Z.of_nat (nb_digits d) <= Zpos (Pos.of_uint_acc d acc))%Z.
Proof.
  revert acc. induction d; intros acc; [cbn; lia|..]; cbn [nb_digits Pos.of_uint_acc];
    rewrite Nat2Z.inj_succ, Z.pow_succ_r by lia; (etrans; [|apply IHd]); nia.
Qed.

(** A positive number does not begin with a zero. *)
Lemma to_uint_head p : ~ exists l, Pos.to_uint p = D0 l.
Proof.
  intros [l E]. pose proof (DecimalPos.Unsigned.of_to p) as Hof. apply (f_equal N.to_uint) in Hof.
  rewrite DecimalPos.Unsigned.to_of in Hof. cbn in Hof. rewrite E in Hof. apply (f_equal nb_digits) in Hof. rewrite unorm_D0 in Hof.
  destruct (decide (l = Nil)) as [->|Hl]; [by apply (DecimalPos.Unsigned.to_uint_nonzero p)|].
  pose proof (nb_digits_unorm l Hl). cbn [nb_digits] in Hof. lia.
Qed.

(** A number below a power of ten has no more digits than the exponent. *)
Lemma format_int_length n k : (0 <= n < 10 ^ Z.of_nat k)%Z -> (1 <= k)%nat -> (String.length (format_int n) <= k)%nat.
Proof.
  intros [Hn Hlt] Hk. destruct n as [|p|p]; [cbn; lia| |lia].
  unfold format_int. cbn [Z.to_int NilEmpty.string_of_int]. rewrite string_of_uint_length.
  pose proof (DecimalPos.Unsigned.of_to p) as Hof.
  assert (exists m l, nb_digits (Pos.to_uint p) = S (nb_digits l) /\ Pos.of_uint (Pos.to_uint p) = Npos (Pos.of_uint_acc l m))
    as (m & l & Hnb & Hval).
  { destruct (Pos.to_uint p) eqn:E; [by apply DecimalPos.Unsigned.to_uint_nonnil in E|by destruct (to_uint_head p); eexists|..];
      eexists _, _; split; reflexivity. }
  rewrite Hnb. rewrite Hof in Hval. injection Hval as Hval.
  pose proof (of_uint_acc_lower l m) as Hlow. rewrite <- Hval in Hlow.
  assert (10 ^ Z.of_nat (nb_digits l) < 10 ^ Z.of_nat k)%Z as Hpow
    by (pose proof (Z.pow_nonneg 10 (Z.of_nat (nb_digits l)) ltac:(lia)); nia).
  apply Z.pow_lt_mono_r_iff in Hpow; lia.
Qed.

(** ** [ParseInt] of [FormatInt] *)

Lemma string_of_uint_digits d : all_digits (NilEmpty.string_of_uint d) = true.
Proof. induction d; cbn [NilEmpty.string_of_uint all_digits]; [done|..]; rewrite IHd; done. Qed.

Lemma format_int_digits n : (0 <= n)%Z -> all_digits (format_int n) = true /\ format_int n <> "".
Proof.
  intros Hn. destruct (format_int_nonneg n Hn) as (d & -> & _ & Hd). split; [apply string_of_uint_digits|].
  by destruct d.
Qed.

Lemma parse_int_digits s n : all_digits s = true -> s <> "" -> digits_value 0 s = Some n -> (n <= max_int64)%Z ->
  parse_int s = (n, false).
Proof.
  intros Hd Hne Hv Hn. destruct s as [|c s]; [done|]. unfold parse_int.
  assert (c <> "-"%char /\ c <> "+"%char) as [H1 H2].
  { cbn in Hd. apply andb_true_iff in Hd as [Hc _]. split; intros ->; done. }
  assert (forall (A : Type) (x y z : A), match c with "-"%char => x | "+"%char => y | _ => z end = z) as Hc.
  { intros A x y z. destruct c as [[] [] [] [] [] [] [] []]; try done; by contradict H1 || by contradict H2. }
  rewrite Hc, Hv. by rewrite (proj2 (Z.ltb_ge _ _)).
Qed.

(** ** Digits are ASCII: they decode byte by byte, and trimming keeps them *)

Lemma digit_bounds c : is_digit c = true -> (48 <= byte_of c <= 57)%N.
Proof. unfold is_digit, digit_of. destruct (_ && _) eqn:E; [|done]. apply andb_true_iff in E as [E1%Z.leb_le E2%Z.leb_le]. lia. Qed.

Lemma decode_ascii l : Forall (fun b => (b < 128)%N) l -> decode l = (fun b => (b, [b])) <$> l.
Proof.
  induction 1 as [|b l Hb _ IH]; [done|]. cbn [decode]. rewrite (proj2 (N.ltb_lt _ _)) by done. by rewrite IH.
Qed.

Lemma digit_bytes s : all_digits s = true -> Forall (fun b => (48 <= b <= 57)%N) (bytes s).
Proof.
  unfold bytes. induction s as [|c s IH]; cbn; [by constructor|].
  intros [Hc Hs]%andb_true_iff. constructor; [by apply digit_bounds|by apply IH].
Qed.

Lemma trim_by_none {A} (p : A -> bool) l : Forall (fun x => p x = false) l -> trim_by p l = l.
Proof.
  assert (forall m, Forall (fun x => p x = false) m -> drop_while p m = m) as Hd.
  { intros m [|x m' Hx _]; cbn; [done|]. by rewrite Hx. }
  intros Hl. unfold trim_by. rewrite (Hd l) by done. rewrite (Hd (reverse l)) by (by apply Forall_reverse). apply reverse_involutive.
Qed.

Lemma mjoin_singletons {A} (l : list A) : mjoin ((fun b => [b]) <$> l) = l.
Proof. induction l as [|x l IH]; [done|]. by cbn; f_equal. Qed.

Lemma trim_space_digits s : all_digits s = true -> trim_space s = s.
Proof.
  intros Hs%digit_bytes. unfold trim_space.
  rewrite decode_ascii by (eapply Forall_impl; [exact Hs|]; cbn; lia).
  rewrite trim_by_none.
  - rewrite <- list_fmap_compose, (list_fmap_ext _ (fun b => [b])) by done. rewrite mjoin_singletons. apply of_bytes_bytes.
  - apply Forall_fmap. eapply Forall_impl; [exact Hs|]. intros b Hb. cbn in *. unfold is_space.
    repeat match goal with |- context [(?x =? ?y)%N] => rewrite (proj2 (N.eqb_neq x y)) by lia end.
    repeat match goal with |- context [(?x <=? ?y)%N] => destruct (N.leb_spec x y); try lia end; done.
Qed.

(** What the agent reads back from the file it wrote. *)
Lemma parse_format n : (0 <= n <= max_int64)%Z -> parse_int (trim_space (format_int n)) = (n, false).
Proof.
  intros Hn. destruct (format_int_digits n) as [Hd Hne]; [lia|]. rewrite trim_space_digits by done.
  apply parse_int_digits; [done|done|apply digits_value_format; lia|lia].
Qed.

(** ** Padded numbers are ordered as strings *)

Lemma digits_value_range s x v : all_digits s = true -> digits_value x s = Some v ->
  (x * 10 ^ Z.of_nat (String.length s) <= v < (x + 1) * 10 ^ Z.of_nat (String.length s))%Z.
Proof.
  revert x. induction s as [|c s IH]; intros x; [cbn; intros _ [= <-]; lia|]. cbn [all_digits digits_value String.length].
  intros [Hc Hs]%andb_true_iff Hv. unfold is_digit in Hc. destruct (digit_of c) as [d|] eqn:Ed; [|done]. cbn in Hv.
  assert (0 <= d <= 9)%Z. { unfold digit_of in Ed. case_match; [|done]. injection Ed as <-. lia. }
  apply IH in Hv; [|done]. rewrite Nat2Z.inj_succ, Z.pow_succ_r by lia. nia.
Qed.

Lemma digit_compare c c' d d' : digit_of c = Some d -> digit_of c' = Some d' -> Ascii.compare c c' = (d ?= d')%Z.
Proof.
  unfold digit_of, Ascii.compare, byte_of. do 2 (case_match; [|done]). intros [= <-] [= <-].
  rewrite <- N2Z.inj_compare.
  destruct (Z.compare_spec (Z.of_N (N_of_ascii c)) (Z.of_N (N_of_ascii c'))); symmetry;
    [apply Z.compare_eq_iff|apply Z.compare_lt_iff|apply Z.compare_gt_iff]; lia.
Qed.

Lemma digits_compare s t x v v' : String.length s = String.length t -> all_digits s = true -> all_digits t = true ->
  digits_value x s = Some v -> digits_value x t = Some v' -> String.compare s t = (v ?= v')%Z.
Proof.
  revert t x. induction s as [|c s IH]; intros [|c' t] x Hlen; try done.
  { cbn. intros _ _ [= ->] [= ->]. by rewrite Z.compare_refl. }
  cbn [all_digits digits_value String.length String.compare] in *. injection Hlen as Hlen.
  intros [Hc Hs]%andb_true_iff [Hc' Ht]%andb_true_iff. unfold is_digit in Hc, Hc'.
  destruct (digit_of c) as [d|] eqn:Ed, (digit_of c') as [d'|] eqn:Ed'; try done. cbn. intros Hv Hv'.
  rewrite (digit_compare _ _ _ _ Ed Ed'). destruct (Z.compare_spec d d') as [->|Hlt|Hlt].
  - by eapply IH.
  - apply digits_value_range in Hv, Hv'; [|done..]. rewrite Hlen in Hv. symmetry. apply Z.compare_lt_iff. nia.
  - apply digits_value_range in Hv, Hv'; [|done..]. rewrite Hlen in Hv. symmetry. apply Z.compare_gt_iff. nia.
Qed.

Lemma pad_zero_digits w s : all_digits s = true -> all_digits (pad_zero w s) = true /\ (forall v, digits_value 0 s = Some v -> digits_value 0 (pad_zero w s) = Some v).
Proof.
  intros Hs. unfold pad_zero. generalize (w - String.length s)%nat. intros n.
  induction n as [|n [IH1 IH2]]; [done|]. split; [exact IH1|exact IH2].
Qed.

Lemma repeat_char_length c n : String.length (repeat_char c n) = n.
Proof. induction n; cbn; congruence. Qed.

Lemma pad_zero_length w s : (String.length s <= w)%nat -> String.length (pad_zero w s) = w.
Proof. intros Hs. unfold pad_zero. rewrite string_length_app, repeat_char_length. lia. Qed.

(** ** Suffixes *)

Lemma substring_all s : String.substring 0 (String.length s) s = s.
Proof. induction s as [|c s IH]; cbn; [done|]. by rewrite IH. Qed.

Lemma substring_app x y : String.substring (String.length x) (String.length y) (x +:+ y) = y.
Proof. induction x as [|c x IH]; [apply substring_all|]. exact IH. Qed.

Lemma has_suffix_same x y p : String.length p = String.length y -> has_suffix (x +:+ y) p = bool_decide (y = p).
Proof.
  intros Hlen. unfold has_suffix. rewrite string_length_app, Hlen.
  replace (String.length x + String.length y - String.length y)%nat with (String.length x) by lia.
  rewrite substring_app. by rewrite (proj2 (Nat.leb_le _ _)) by lia.
Qed.

(** ** The byte order of strings is a linear order *)

#[export] Instance string_le_trans : Transitive string_le.
Proof.
  unfold string_le, String.leb. intros a. induction a as [|x a IH]; intros [|y b] [|z c]; cbn; try done.
  unfold Ascii.compare. destruct (N.compare_spec (N_of_ascii x) (N_of_ascii y)) as [E|E|E]; [| |done];
    (destruct (N.compare_spec (N_of_ascii y) (N_of_ascii z)) as [F|F|F]; [| |done]);
    destruct (N.compare_spec (N_of_ascii x) (N_of_ascii z)); try done; try lia.
  apply IH.
Qed.

#[export] Instance string_le_antisym : AntiSymm (=) string_le.
Proof.
  intros s t. unfold string_le, String.leb. rewrite (String.compare_antisym t s).
  destruct (String.compare s t) eqn:E; cbn; try done. intros _ _. by apply String.compare_eq_iff.
Qed.

Lemma string_le_refl s : string_le s s.
Proof. by destruct (string_leb_total s s). Qed.

(** ** Prefixes *)

Lemma trim_prefix_app p s : trim_prefix (p +:+ s) p = s.
Proof.
  unfold trim_prefix. rewrite has_prefix_app, string_length_app.
  replace (String.length p + String.length s - String.length p)%nat with (String.length s) by lia. apply substring_app.
Qed.
