(* ===== verification/GoJson.v ===== *)
(** * Dynamic values: Go's [any] as [encoding/json] produces it

    The attributes and identity hints of an observation are [map[string]any].
    This file models the values such a map holds, the two renderings the
    source applies to them ([fmt.Sprint] and [json.Marshal]) and the rendering
    of times. *)
From S2P Require Import Prelude GoStrings.
From Stdlib Require Import Ascii.
Open Scope string_scope.

(** ** Numbers

    A float64 is represented by its shortest decimal digits, from which
    [strconv] prints it: [0.d1 d2 ... dn * 10^point], without leading or
    trailing zero digits ([digits = ""] is zero). *)
Record float64 := Float { f_neg : bool; f_digits : string; f_point : Z }.

#[export] Instance float64_eq_dec : EqDecision float64.
Proof. solve_decision. Defined.

Definition float_of_Z (z : Z) : float64 :=
  let s := format_int (Z.abs z) in
  Float (z <? 0)%Z (if (z =? 0)%Z then "" else trim_right_cut ["0"%char] s) (if (z =? 0)%Z then 0 else len s).

Definition exponent_digits (e : Z) : string :=
  (if (e <? 0)%Z then "-" else "+") +:+ pad_zero 2 (format_int (Z.abs e)).

(** [%e] with the shortest precision. *)
Definition fmt_e (f : float64) : string :=
  let e := if bool_decide (f_digits f = "") then 0%Z else (f_point f - 1)%Z in
  (if f_neg f then "-" else "") +:+
  match f_digits f with
  | EmptyString => "0"
  | String d EmptyString => String d ""
  | String d rest => String d ("." +:+ rest)
  end +:+ "e" +:+ exponent_digits e.

(** [%f] with the shortest precision. *)
Definition fmt_f (f : float64) : string :=
  let n := String.length (f_digits f) in
  let p := Z.to_nat (f_point f) in
  let whole :=
    if (0 <? f_point f)%Z
    then String.substring 0 p (f_digits f) +:+ repeat_char "0" (p - n) else "0" in
  let frac := repeat_char "0" (Z.to_nat (- f_point f)) +:+ String.substring p (n - p) (f_digits f) in
  (if f_neg f then "-" else "") +:+ whole +:+
  (if (f_point f <? Z.of_nat n)%Z then "." +:+ frac else "").

(** [fmt]'s [%v]: [%g] with the shortest precision. *)
Definition fmt_v (f : float64) : string :=
  let e := (f_point f - 1)%Z in
  if ((e <? -4) || (6 <=? e))%Z && (if bool_decide (f_digits f = "") then false else true)
  then fmt_e f else fmt_f f.

(** [encoding/json]'s float encoder: [%f], or [%e] with a one-digit negative
    exponent for the magnitudes below 1e-6 and from 1e21. *)
Definition fmt_json (f : float64) : string :=
  let e := (f_point f - 1)%Z in
  if bool_decide (f_digits f = "") then fmt_f f
  else if ((e <? -6) || (21 <=? e))%Z then
    if ((-10 <? e) && (e <? 0))%Z
    then let s := fmt_e f in
         String.substring 0 (String.length s - 2) s +:+ format_int (Z.abs e)
    else fmt_e f
  else fmt_f f.

(** ** Values *)

#[local] Set Warnings "-register-all".

(** A [JObj] lists its keys in increasing order, each once: a Go map. *)
Inductive json : Type :=
| JNull
| JBool (b : bool)
| JNum (f : float64)
| JStr (s : string)
| JArr (l : list json)
| JObj (l : list (string * json)).

Definition JInt (z : Z) : json := JNum (float_of_Z z).

(** [fmt.Sprint(v)]. *)
Fixpoint Sprint (v : json) : string :=
  match v with
  | JNull => "<nil>"
  | JBool b => if b then "true" else "false"
  | JNum f => fmt_v f
  | JStr s => s
  | JArr l => "[" +:+ join " " (Sprint <$> l) +:+ "]"
  | JObj l => "map[" +:+ join " " ((fun kv => kv.1 +:+ ":" +:+ Sprint kv.2) <$> l) +:+ "]"
  end.

(** [fmt.Sprint(m[k])]: an absent key yields the nil interface. *)
Definition sprint_lookup (v : option json) : string := Sprint (default JNull v).

(** ** Encoding *)

Definition backslash : ascii := "\"%char.
Definition quote : string := String (ascii_of_N 34) "".

Definition hex4 (n : N) : string :=
  String backslash ("u" +:+
    String.string_of_list_ascii
      [hex_digit (n / 4096); hex_digit (n / 256 mod 16); hex_digit (n / 16 mod 16); hex_digit (n mod 16)]%N).

(** One rune of a JSON string literal, with HTML escaping on. *)
Definition escape_rune (rb : N * list N) : string :=
  let '(r, raw) := rb in
  if (r =? 34)%N || (r =? 92)%N then String backslash (of_bytes raw)
  else if (r =? 8)%N then String backslash "b"
  else if (r =? 9)%N then String backslash "t"
  else if (r =? 10)%N then String backslash "n"
  else if (r =? 12)%N then String backslash "f"
  else if (r =? 13)%N then String backslash "r"
  else if (r <? 32)%N || (r =? 38)%N || (r =? 60)%N || (r =? 62)%N then hex4 r
  else if (r =? RuneError)%N && (length raw =? 1)%nat then hex4 RuneError
  else if (r =? 8232)%N || (r =? 8233)%N then hex4 r
  else of_bytes raw.

Definition json_string (s : string) : string :=
  quote +:+ String.concat "" (escape_rune <$> decode (bytes s)) +:+ quote.

Definition json_object (fields : list (string * string)) : string :=
  "{" +:+ join "," ((fun kv => json_string kv.1 +:+ ":" +:+ kv.2) <$> fields) +:+ "}".

Definition json_array (items : list string) : string := "[" +:+ join "," items +:+ "]".

(** [json.Marshal(v)]; it cannot fail on these values. *)
Fixpoint Marshal (v : json) : string :=
  match v with
  | JNull => "null"
  | JBool b => if b then "true" else "false"
  | JNum f => fmt_json f
  | JStr s => json_string s
  | JArr l => json_array (Marshal <$> l)
  | JObj l => json_object ((fun kv => (kv.1, Marshal kv.2)) <$> l)
  end.

(** ** Maps *)

Abbreviation object := (gmap string json) (only parsing).

(** The entries of a Go map in increasing key order, as [encoding/json] and
    [fmt] visit them. *)
Definition entry_le {A} (x y : string * A) : Prop := string_le x.1 y.1.
#[export] Instance entry_le_dec {A} : RelDecision (@entry_le A).
Proof. intros x y. unfold entry_le. apply _. Defined.

Definition sorted_entries {A} (m : gmap string A) : list (string * A) :=
  merge_sort entry_le (map_to_list m).

Definition JMap (m : object) : json := JObj (sorted_entries m).

(** [json.Marshal] of a [map[string]any]: a nil map ([None]) is [null]. *)
Definition marshal_map (m : option object) : string :=
  match m with None => "null" | Some m => Marshal (JMap m) end.

(** ** Times *)

(** Proleptic Gregorian date of a day number counted from 1 January of year 1. *)
Definition civil (days : Z) : Z * Z * Z :=
  (let z := days + 306 in
   let era := z / 146097 in
   let doe := z mod 146097 in
   let yoe := (doe - doe / 1460 + doe / 36524 - doe / 146096) / 365 in
   let doy := doe - (365 * yoe + yoe / 4 - yoe / 100) in
   let mp := (5 * doy + 2) / 153 in
   let d := doy - (153 * mp + 2) / 5 + 1 in
   let m := if mp <? 10 then mp + 3 else mp - 9 in
   let y := yoe + era * 400 + (if m <=? 2 then 1 else 0) in
   (y, m, d))%Z.

Definition nano : Z := 1000000000.

Definition year_of (t : gotime) : Z := (civil (t / (86400 * nano))).1.1.

(** [t.UTC().Format(time.RFC3339Nano)] for the years 0 to 9999. *)
Definition rfc3339nano (t : gotime) : string :=
  let '(y, m, d) := civil (t / (86400 * nano))%Z in
  let secs := (t / nano mod 86400)%Z in
  let ns := (t mod nano)%Z in
  let p2 z := pad_zero 2 (format_int z) in
  pad_zero 4 (format_int y) +:+ "-" +:+ p2 m +:+ "-" +:+ p2 d +:+ "T" +:+
  p2 (secs / 3600)%Z +:+ ":" +:+ p2 (secs / 60 mod 60)%Z +:+ ":" +:+ p2 (secs mod 60)%Z +:+
  (if (ns =? 0)%Z then "" else "." +:+ trim_right_cut ["0"%char] (pad_zero 9 (format_int ns))) +:+ "Z".

(** [time.Time.MarshalJSON] refuses the years outside 0..9999. *)
Definition marshal_time (t : gotime) : option string :=
  if ((0 <=? year_of t) && (year_of t <? 10000))%Z
  then Some (quote +:+ rfc3339nano t +:+ quote) else None.
