(* ===== verification/GoTime.v ===== *)
(** * Durations

    [time.ParseDuration], with the fractions of a unit computed in binary64 as
    Go does. *)
From S2P Require Import Prelude GoStrings GoNumbers GoJson.
From Stdlib Require Import Ascii SpecFloat.
Open Scope string_scope.

(** ** Binary64 *)

Definition float_of (n : Z) : spec_float := binary_normalize 53 1024 n 0 false.
Definition float_mul : spec_float -> spec_float -> spec_float := SFmul 53 1024.
Definition float_div : spec_float -> spec_float -> spec_float := SFdiv 53 1024.

(** Conversion of a non-negative number to an integer. *)
Definition float_trunc (f : spec_float) : Z :=
  match f with
  | S754_finite _ m e => if (0 <=? e)%Z then (Zpos m * 2 ^ e)%Z else (Zpos m / 2 ^ (- e))%Z
  | _ => 0%Z
  end.

(** ** Scanning *)

Definition two63 : Z := 2 ^ 63.

(** [leadingInt]: the digits, [None] beyond 2^63. *)
Fixpoint leading_int (x : Z) (s : string) : option (Z * string) :=
  match s with
  | String c s' =>
      match digit_of c with
      | Some d =>
          if (two63 / 10 <? x)%Z then None else
          let x := (x * 10 + d)%Z in
          if (two63 <? x)%Z then None else leading_int x s'
      | None => Some (x, s)
      end
  | EmptyString => Some (x, s)
  end.

(** [leadingFraction]: digits beyond 2^63 are dropped; the scale is ten to the
    number of those kept. *)
Fixpoint leading_fraction (x scale : Z) (overflow : bool) (s : string) : Z * Z * string :=
  match s with
  | String c s' =>
      match digit_of c with
      | Some d =>
          if overflow || ((two63 - 1) / 10 <? x)%Z || (two63 <? x * 10 + d)%Z then leading_fraction x scale true s'
          else leading_fraction (x * 10 + d) (scale * 10) false s'
      | None => (x, scale, s)
      end
  | EmptyString => (x, scale, s)
  end.

Definition is_number_byte (c : ascii) : bool := Ascii.eqb c "." || is_digit c.

(** The unit: what stands before the next number. *)
Fixpoint leading_unit (s : string) : string * string :=
  match s with
  | EmptyString => ("", "")
  | String c s' => if is_number_byte c then ("", s) else let '(u, rest) := leading_unit s' in (String c u, rest)
  end.

Definition micro_sign : string := of_bytes [194; 181]%N.
Definition greek_mu : string := of_bytes [206; 188]%N.

Definition unit_of (u : string) : option Z :=
  if bool_decide (u = "ns") then Some 1%Z
  else if bool_decide (u = "us") || bool_decide (u = micro_sign +:+ "s") || bool_decide (u = greek_mu +:+ "s") then Some 1000%Z
  else if bool_decide (u = "ms") then Some 1000000%Z
  else if bool_decide (u = "s") then Some nano
  else if bool_decide (u = "m") then Some (60 * nano)%Z
  else if bool_decide (u = "h") then Some (3600 * nano)%Z
  else None.

(** One number with its unit: nanoseconds, and what follows. *)
Definition duration_part (s : string) : option (Z * string) :=
  match s with
  | EmptyString => None
  | String c _ =>
      if negb (is_number_byte c) then None else
      '(v, rest) ← leading_int 0 s;
      let pre := negb (String.length rest =? String.length s)%nat in
      let '(f, scale, rest, post) := match rest with
        | String x rest' =>
            if Ascii.eqb x "." then
              let '(f, scale, rest'') := leading_fraction 0 1 false rest' in
              (f, scale, rest'', negb (String.length rest'' =? String.length rest')%nat)
            else (0%Z, 1%Z, rest, false)
        | EmptyString => (0%Z, 1%Z, rest, false)
        end in
      if negb pre && negb post then None else
      let '(u, rest) := leading_unit rest in
      unit ← unit_of u;
      if (two63 / unit <? v)%Z then None else
      let v := (v * unit)%Z in
      if (0 <? f)%Z then
        let v := (v + float_trunc (float_mul (float_of f) (float_div (float_of unit) (float_of scale))))%Z in
        if (two63 <? v)%Z then None else Some (v, rest)
      else Some (v, rest)
  end.

(** The loop; every part is a byte at least, so that the length is fuel enough. *)
Fixpoint duration_parts (fuel : nat) (d : Z) (s : string) : option Z :=
  match s with
  | EmptyString => Some d
  | _ =>
      match fuel with
      | O => None
      | S fuel' =>
          '(v, rest) ← duration_part s;
          let d := wrap_u64 (d + v) in
          if (two63 <? d)%Z then None else duration_parts fuel' d rest
      end
  end.

(** [None] stands for the error. *)
Definition parse_duration (s : string) : option Z :=
  let '(neg, body) := match s with
    | String "-"%char t => (true, t)
    | String "+"%char t => (false, t)
    | _ => (false, s)
    end in
  if bool_decide (body = "0") then Some 0%Z else
  match body with
  | EmptyString => None
  | _ =>
      d ← duration_parts (String.length body) 0 body;
      if (neg : bool) then Some (- d)%Z else if (max_int64 <? d)%Z then None else Some d
  end.

Example durations : parse_duration <$> ["30s"; "1h30m"; "1.5h"; "-250ms"; "0"; ".5s"; "5"; "1x"; "9223372036854775808ns"]
  = [Some (30 * nano); Some (5400 * nano); Some (5400 * nano); Some (- 250000000); Some 0; Some 500000000; None; None; None]%Z.
Proof. vm_compute. reflexivity. Qed.

(** ** The digits are read back *)

Definition stops (s : string) : Prop := match s with String c _ => is_digit c = false | EmptyString => True end.

Lemma digit_nonneg c d : digit_of c = Some d -> (0 <= d)%Z.
Proof. unfold digit_of. destruct (_ && _) eqn:E; [|done]. intros [= <-]. apply andb_true_iff in E as [E _]. lia. Qed.

Lemma digits_value_ge s : forall x n, digits_value x s = Some n -> (0 <= x)%Z -> (x <= n)%Z.
Proof.
  induction s as [|c s IH]; intros x n; cbn [digits_value]; [intros [= ->]; lia|].
  destruct (digit_of c) as [d|] eqn:Ed; [|done]. cbn. intros Hv Hx. pose proof (digit_nonneg c d Ed). specialize (IH _ _ Hv). lia.
Qed.

Lemma leading_int_digits s : forall x n rest, digits_value x s = Some n -> (0 <= x)%Z -> (n <= two63)%Z -> stops rest -> leading_int x (s +:+ rest) = Some (n, rest).
Proof.
  induction s as [|c s IH]; intros x n rest Hv Hx Hn Hr.
  - injection Hv as ->. change ("" +:+ rest) with rest. destruct rest as [|c rest]; cbn [leading_int]; [done|].
    cbn [stops] in Hr. unfold is_digit in Hr. by destruct (digit_of c).
  - rewrite string_app_cons. cbn [digits_value leading_int] in *. destruct (digit_of c) as [d|] eqn:Ed; [|done]. cbn in Hv.
    pose proof (digit_nonneg c d Ed) as Hd.
    assert (x * 10 + d <= n)%Z as Hle by (eapply digits_value_ge; [exact Hv|lia]).
    assert (x <= two63 / 10)%Z as Hx10 by (apply Z.div_le_lower_bound; lia). rewrite (proj2 (Z.ltb_ge (two63 / 10) x)) by lia. rewrite (proj2 (Z.ltb_ge two63 (x * 10 + d))) by lia.
    apply IH; [done|lia|done|done].
Qed.

(** Whole seconds, minutes or hours are what they say. *)
Lemma parse_duration_whole n u unit : (0 <= n)%Z -> unit_of u = Some unit -> u <> "" -> (forall c, c ∈ String.list_ascii_of_string u -> is_number_byte c = false) ->
  (n * unit <= max_int64)%Z -> parse_duration (format_int n +:+ u) = Some (n * unit)%Z.
Proof.
  intros Hn Hunit Hu Hfree Hmax. destruct (format_int_digits n Hn) as [Hd Hne]. pose proof (digits_value_format n Hn) as Hv.
  assert (1 <= unit)%Z as Hpos.
  { unfold unit_of, nano in Hunit. repeat case_match; try done; injection Hunit as <-; lia. }
  assert (leading_unit u = (u, "")) as Hlu.
  { clear - Hfree. induction u as [|c u IH]; [done|]. cbn [leading_unit]. rewrite (Hfree c) by left. rewrite IH; [done|]. intros d Hd. apply Hfree. by right. }
  assert (stops u /\ exists c u', u = String c u' /\ is_number_byte c = false) as [Hst (c0 & u' & Eu & Hc0)].
  { destruct u as [|c u']; [done|]. pose proof (Hfree c ltac:(left)) as Hc. split; [|by eexists _, _]. cbn. unfold is_number_byte in Hc. by apply orb_false_iff in Hc as [_ Hc]. }
  subst u.
  assert (leading_int 0 (format_int n +:+ String c0 u') = Some (n, String c0 u')) as Hli by (apply leading_int_digits; [done|lia|unfold two63, max_int64 in *; nia|done]).
  destruct (format_int n) as [|c s] eqn:Es; [done|]. cbn in Hd. apply andb_true_iff in Hd as [Hc Hd].
  assert (duration_part (String c s +:+ String c0 u') = Some ((n * unit)%Z, "")) as Hpart.
  { rewrite string_app_cons in Hli |- *. unfold duration_part. unfold is_number_byte at 1. rewrite Hc, orb_true_r. cbn [negb].
    rewrite Hli. cbn [mbind option_bind]. unfold is_number_byte in Hc0. apply orb_false_iff in Hc0 as [Hdot _].
    assert (negb (String.length (String c0 u') =? String.length (String c (s +:+ String c0 u')))%nat = true) as ->.
    { apply negb_true_iff, Nat.eqb_neq. cbn [String.length]. rewrite string_length_app. cbn [String.length]. lia. }
    rewrite Hdot. cbn [negb andb]. rewrite Hlu, Hunit. cbn.
    rewrite (proj2 (Z.ltb_ge _ _)); [done|]. apply Z.div_le_lower_bound; unfold two63, max_int64 in *; lia. }
  assert (parse_duration (String c s +:+ String c0 u') = duration_parts (String.length (String c s +:+ String c0 u')) 0 (String c s +:+ String c0 u') ≫= fun d => if (max_int64 <? d)%Z then None else Some d) as ->.
  { rewrite string_app_cons. unfold parse_duration.
    assert (forall (A : Type) (x y : string -> A) (z : A), match String c (s +:+ String c0 u') with String "-" t => x t | String "+" t => y t | _ => z end = z) as Hm.
    { intros A x y z. destruct c as [[] [] [] [] [] [] [] []]; done. }
    rewrite Hm. rewrite bool_decide_false; [done|]. intros [= _ E]. by destruct s. }
  rewrite string_app_cons in Hpart |- *. cbn [String.length duration_parts]. rewrite Hpart. cbn [mbind option_bind].
  unfold wrap_u64. rewrite Z.mod_small by (unfold max_int64 in Hmax; lia). rewrite (proj2 (Z.ltb_ge _ _)) by (unfold two63, max_int64 in *; lia).
  destruct (String.length (s +:+ String c0 u')); cbn; by rewrite (proj2 (Z.ltb_ge _ _)).
Qed.

(** ** Dates

    Reading [time.RFC3339] as [time.Time]'s [UnmarshalJSON] does: strictly, the
    fraction cut to nanoseconds, the offset taken off. *)

(** The day number of a date; the inverse of [civil]. *)
Definition days_from_civil (y m d : Z) : Z :=
  (let y := if m <=? 2 then y - 1 else y in
   let era := y / 400 in
   let yoe := y mod 400 in
   let doy := (153 * ((m + 9) mod 12) + 2) / 5 + d - 1 in
   era * 146097 + yoe * 365 + yoe / 4 - yoe / 100 + doy - 306)%Z.

Definition leap (y : Z) : bool := ((y mod 4 =? 0) && (negb (y mod 100 =? 0) || (y mod 400 =? 0)))%Z.

Definition days_in (m y : Z) : Z :=
  (if m =? 2 then (if leap y then 29 else 28) else if (m =? 4) || (m =? 6) || (m =? 9) || (m =? 11) then 30 else 31)%Z.

(** A number of exactly the given digits, within bounds. *)
Definition parse_uint (s : string) (low high : Z) : option Z :=
  match digits_value 0 s with
  | Some x => if bool_decide (s = "") || (x <? low)%Z || (high <? x)%Z then None else Some x
  | None => None
  end.

Fixpoint leading_digits (s : string) : string * string :=
  match s with
  | String c s' => if is_digit c then let '(ds, rest) := leading_digits s' in (String c ds, rest) else ("", s)
  | EmptyString => ("", "")
  end.

(** The nanoseconds of a fraction's digits. *)
Definition fraction_nanos (ds : string) : Z :=
  default 0%Z (digits_value 0 (String.substring 0 9 (ds +:+ "000000000"))).

(** What follows the seconds: the fraction, if there is one, and the rest. *)
Definition split_fraction (s : string) : Z * string :=
  match s with
  | String "." (String c _ as after) =>
      if is_digit c then let '(ds, rest) := leading_digits after in (fraction_nanos ds, rest) else (0%Z, s)
  | _ => (0%Z, s)
  end.

(** The offset from UTC in seconds. *)
Definition zone_offset (s : string) : option Z :=
  if bool_decide (s = "Z") then Some 0%Z else
  if negb (String.length s =? 6)%nat then None else
  hr ← parse_uint (String.substring 1 2 s) 0 23;
  mm ← parse_uint (String.substring 4 2 s) 0 59;
  let seconds := ((hr * 60 + mm) * 60)%Z in
  if negb (bool_decide (String.get 3 s = Some ":"%char)) then None else
  if bool_decide (String.get 0 s = Some "-"%char) then Some (- seconds)%Z else
  if bool_decide (String.get 0 s = Some "+"%char) then Some seconds else None.

Definition parse_rfc3339 (s : string) : option gotime :=
  if (String.length s <? 19)%nat then None else
  year ← parse_uint (String.substring 0 4 s) 0 9999;
  month ← parse_uint (String.substring 5 2 s) 1 12;
  day ← parse_uint (String.substring 8 2 s) 1 (days_in month year);
  hour ← parse_uint (String.substring 11 2 s) 0 23;
  min ← parse_uint (String.substring 14 2 s) 0 59;
  sec ← parse_uint (String.substring 17 2 s) 0 59;
  if negb (bool_decide ((String.get 4 s, String.get 7 s, String.get 10 s, String.get 13 s, String.get 16 s)
    = (Some "-"%char, Some "-"%char, Some "T"%char, Some ":"%char, Some ":"%char))) then None else
  let '(nanos, rest) := split_fraction (String.substring 19 (String.length s) s) in
  offset ← zone_offset rest;
  Some (((days_from_civil year month day * 86400 + hour * 3600 + min * 60 + sec - offset) * nano) + nanos)%Z.

Example dates :
  rfc3339nano <$> parse_rfc3339 "2024-02-29T23:59:59.120Z" = Some "2024-02-29T23:59:59.12Z" /\
  rfc3339nano <$> parse_rfc3339 "2024-01-01T00:30:00+02:00" = Some "2023-12-31T22:30:00Z" /\
  parse_rfc3339 "2023-02-29T00:00:00Z" = None /\ parse_rfc3339 "2024-01-01T00:00:00" = None /\
  parse_rfc3339 "0001-01-01T00:00:00Z" = Some 0%Z.
Proof. repeat split; vm_compute; reflexivity. Qed.
