(* ===== verification/GoJsonDecode.v ===== *)
(** * Reading JSON ([encoding/json])

    The scanner, byte by byte with its stack of open objects and arrays; string
    literals; and the decoding of the document into Go values: [any], strings,
    integers, slices, maps and structs by field name. *)
From S2P Require Import Prelude GoStrings GoJson GoTime.
From Stdlib Require Import Ascii SpecFloat.
Open Scope string_scope.
Open Scope list_scope.

(** ** Documents *)

#[local] Set Warnings "-register-all".

(** What a text spells: numbers and strings as their literals, strings without
    the quotes; the members of an object in order, repeated names included. *)
Inductive doc : Type :=
| DNull
| DBool (b : bool)
| DNum (literal : string)
| DStr (literal : string)
| DArr (l : list doc)
| DObj (l : list (string * doc)).

(** ** The scanner *)

Inductive numeral := NMinus | NZero | NDigits | NDot | NFraction | NE | NESign | NExponent.

(** What follows a byte of a number, when the number goes on. *)
Definition digit (c : ascii) : bool := let n := byte_of c in ((48 <=? n) && (n <=? 57))%N.

Definition exponent_mark (c : ascii) : bool := Ascii.eqb c "e" || Ascii.eqb c "E".

Definition numeral_step (n : numeral) (c : ascii) : option numeral :=
  match n with
  | NMinus => if Ascii.eqb c "0" then Some NZero else if digit c then Some NDigits else None
  | NZero => if Ascii.eqb c "." then Some NDot else if exponent_mark c then Some NE else None
  | NDigits => if digit c then Some NDigits else if Ascii.eqb c "." then Some NDot else if exponent_mark c then Some NE else None
  | NDot => if digit c then Some NFraction else None
  | NFraction => if digit c then Some NFraction else if exponent_mark c then Some NE else None
  | NE => if Ascii.eqb c "+" || Ascii.eqb c "-" then Some NESign else if digit c then Some NExponent else None
  | NESign | NExponent => if digit c then Some NExponent else None
  end.

Definition numeral_complete (n : numeral) : bool := match n with NZero | NDigits | NFraction | NExponent => true | _ => false end.

(** Inside a string: plainly, after a backslash, or with so many hexadecimal
    digits of an escape to come. *)
Inductive escape := Plain | Escaped | Hex (more : nat).

Inductive mode :=
| AtValue                       (* before a value *)
| AtFirst                       (* before a value, or the end of the array *)
| AtFirstName                   (* before a name, or the end of the object *)
| AtName                        (* before a name *)
| AtColon                       (* before the colon after a name *)
| AtNext                        (* before a comma, or the end of the array or object *)
| InString (is_name : bool) (literal : string) (e : escape)
| InNumber (n : numeral) (literal : string)
| InWord (word rest : string)   (* null, true or false *)
| Complete (d : doc).

(** An open array or object: what is in it, and the name waiting for its value. *)
Inductive frame := InArr (l : list doc) | InObj (l : list (string * doc)) (name : string).

Record scanner := { sc_mode : mode; sc_stack : list frame }.

(** What a byte does: the scanner goes on, the document ended before it, or it
    is a syntax error. *)
Inductive move := Goes (s : scanner) | Ended (d : doc) | Wrong.

Definition blank (c : ascii) : bool := Ascii.eqb c " " || Ascii.eqb c "009" || Ascii.eqb c "010" || Ascii.eqb c "013".
Definition quote_char : ascii := ascii_of_N 34.

Definition in_mode (m : mode) (st : list frame) : scanner := {| sc_mode := m; sc_stack := st |}.

(** A value is read: it is the document, or goes where it belongs. *)
Definition deliver (d : doc) (st : list frame) : scanner :=
  match st with
  | [] => in_mode (Complete d) []
  | InArr l :: st => in_mode AtNext (InArr (l ++ [d]) :: st)
  | InObj l k :: st => in_mode AtNext (InObj (l ++ [(k, d)]) "" :: st)
  end.

Definition max_nesting : Z := 10000.

Definition opens (f : frame) (m : mode) (st : list frame) : move :=
  if (max_nesting <? Z.of_nat (S (length st)))%Z then Wrong else Goes (in_mode m (f :: st)).

Definition begin_value (c : ascii) (st : list frame) : move :=
  if Ascii.eqb c "{" then opens (InObj [] "") AtFirstName st else
  if Ascii.eqb c "[" then opens (InArr []) AtFirst st else
  if Ascii.eqb c quote_char then Goes (in_mode (InString false "" Plain) st) else
  if Ascii.eqb c "-" then Goes (in_mode (InNumber NMinus "-") st) else
  if Ascii.eqb c "0" then Goes (in_mode (InNumber NZero "0") st) else
  if digit c then Goes (in_mode (InNumber NDigits (String c "")) st) else
  if Ascii.eqb c "t" then Goes (in_mode (InWord "true" "rue") st) else
  if Ascii.eqb c "f" then Goes (in_mode (InWord "false" "alse") st) else
  if Ascii.eqb c "n" then Goes (in_mode (InWord "null" "ull") st) else Wrong.

(** After a value inside an array or object. *)
Definition after_value (c : ascii) (st : list frame) : move :=
  match st with
  | InArr l :: st' =>
      if Ascii.eqb c "," then Goes (in_mode AtValue st) else if Ascii.eqb c "]" then Goes (deliver (DArr l) st') else Wrong
  | InObj l _ :: st' =>
      if Ascii.eqb c "," then Goes (in_mode AtName st) else if Ascii.eqb c "}" then Goes (deliver (DObj l) st') else Wrong
  | [] => Wrong
  end.

Definition word_value (word : string) : doc :=
  if bool_decide (word = "null") then DNull else DBool (bool_decide (word = "true")).

(** ** String literals *)

Definition is_hex (c : ascii) : bool :=
  let n := byte_of c in ((48 <=? n) && (n <=? 57) || (97 <=? n) && (n <=? 102) || (65 <=? n) && (n <=? 70))%N.

Definition hex_digit_value (r : N) : N :=
  (if r <=? 57 then r - 48 else if r <=? 70 then r - 55 else r - 87)%N.

Definition hex_rune (a b c d : N * list N) : N :=
  (hex_digit_value a.1 * 4096 + hex_digit_value b.1 * 256 + hex_digit_value c.1 * 16 + hex_digit_value d.1)%N.

Definition surrogate (r : N) : bool := ((55296 <=? r) && (r <? 57344))%N.

(** [utf16.DecodeRune]. *)
Definition surrogate_pair (r s : N) : option N :=
  if ((55296 <=? r) && (r <? 56320) && (56320 <=? s) && (s <? 57344))%N
  then Some ((r - 55296) * 1024 + (s - 56320) + 65536)%N else None.

Definition simple_escape (r : N) : list N :=
  if (r =? 98)%N then [8]%N else if (r =? 102)%N then [12]%N else if (r =? 110)%N then [10]%N else
  if (r =? 114)%N then [13]%N else if (r =? 116)%N then [9]%N else [r].

Definition is_escape_letter (r : N) : bool :=
  ((r =? 98) || (r =? 102) || (r =? 110) || (r =? 114) || (r =? 116) || (r =? 92) || (r =? 47) || (r =? 34))%N.

(** [unquote] of a literal the scanner accepted, by its runes: escapes are
    resolved, bytes that are not UTF-8 and lone surrogates replaced. *)
Fixpoint unquote_runes (l : list (N * list N)) : list N :=
  match l with
  | [] => []
  | (r, raw) :: l =>
      if (r =? 92)%N then
        match l with
        | (u, _) :: l' =>
            if (u =? 117)%N then
              match l' with
              | a :: b :: c :: d :: l'' =>
                  let r := hex_rune a b c d in
                  if surrogate r then
                    match l'' with
                    | (x, _) :: (y, _) :: e :: f :: g :: h :: l3 =>
                        match (if (x =? 92)%N && (y =? 117)%N then surrogate_pair r (hex_rune e f g h) else None) with
                        | Some r => utf8_encode r ++ unquote_runes l3
                        | None => utf8_encode RuneError ++ unquote_runes l''
                        end
                    | _ => utf8_encode RuneError ++ unquote_runes l''
                    end
                  else utf8_encode r ++ unquote_runes l''
              | _ => []
              end
            else simple_escape u ++ unquote_runes l'
        | [] => []
        end
      else (if (r =? RuneError)%N && (length raw =? 1)%nat then utf8_encode RuneError else raw) ++ unquote_runes l
  end.

Definition unquote (literal : string) : string := of_bytes (unquote_runes (decode (bytes literal))).

(** ** The steps *)

Definition add_byte (literal : string) (c : ascii) : string := literal +:+ String c "".

(** The closing quote: of a name, which then waits for its value, or of a value. *)
Definition close_string (is_name : bool) (literal : string) (st : list frame) : move :=
  if is_name then
    match st with InObj l _ :: st' => Goes (in_mode AtColon (InObj l (unquote literal) :: st')) | _ => Wrong end
  else Goes (deliver (DStr literal) st).

Definition string_step (is_name : bool) (literal : string) (e : escape) (c : ascii) (st : list frame) : move :=
  let on e := Goes (in_mode (InString is_name (add_byte literal c) e) st) in
  match e with
  | Plain =>
      if Ascii.eqb c quote_char then close_string is_name literal st else
      if Ascii.eqb c backslash then on Escaped else if (byte_of c <? 32)%N then Wrong else on Plain
  | Escaped => if (byte_of c =? 117)%N then on (Hex 3) else if is_escape_letter (byte_of c) then on Plain else Wrong
  | Hex more => if is_hex c then on (match more with O => Plain | S more => Hex more end) else Wrong
  end.

Definition step (s : scanner) (c : ascii) : move :=
  let st := sc_stack s in
  match sc_mode s with
  | AtValue => if blank c then Goes s else begin_value c st
  | AtFirst =>
      if blank c then Goes s else
      if Ascii.eqb c "]" then match st with InArr l :: st' => Goes (deliver (DArr l) st') | _ => Wrong end else begin_value c st
  | AtFirstName =>
      if blank c then Goes s else
      if Ascii.eqb c "}" then match st with InObj l _ :: st' => Goes (deliver (DObj l) st') | _ => Wrong end else
      if Ascii.eqb c quote_char then Goes (in_mode (InString true "" Plain) st) else Wrong
  | AtName => if blank c then Goes s else if Ascii.eqb c quote_char then Goes (in_mode (InString true "" Plain) st) else Wrong
  | AtColon => if blank c then Goes s else if Ascii.eqb c ":" then Goes (in_mode AtValue st) else Wrong
  | AtNext => if blank c then Goes s else after_value c st
  | InString is_name literal e => string_step is_name literal e c st
  | InNumber n literal =>
      match numeral_step n c with
      | Some n' => Goes (in_mode (InNumber n' (add_byte literal c)) st)
      | None =>
          if negb (numeral_complete n) then Wrong else
          match st with
          | [] => Ended (DNum literal)
          | _ => let s' := deliver (DNum literal) st in if blank c then Goes s' else after_value c (sc_stack s')
          end
      end
  | InWord word rest =>
      match rest with
      | String d rest' =>
          if negb (Ascii.eqb c d) then Wrong else
          if bool_decide (rest' = "") then Goes (deliver (word_value word) st) else Goes (in_mode (InWord word rest') st)
      | EmptyString => Wrong
      end
  | Complete d => Ended d
  end.

(** ** Reading a text *)

(** A document and the text after it, a text that ended within it, or a syntax
    error. *)
Inductive scanned := Found (d : doc) (rest : string) | Short | Bad.

Fixpoint run (s : scanner) (text : string) : scanned :=
  match text with
  | EmptyString =>
      match sc_mode s, sc_stack s with
      | Complete d, _ => Found d ""
      | InNumber n literal, [] => if numeral_complete n then Found (DNum literal) "" else Short
      | _, _ => Short
      end
  | String c text' => match step s c with Goes s' => run s' text' | Ended d => Found d text | Wrong => Bad end
  end.

Definition scan_document (text : string) : scanned := run (in_mode AtValue []) text.

Definition only_blanks (text : string) : bool := forallb blank (String.list_ascii_of_string text).

(** What [json.Unmarshal] reads: one document and nothing after it. *)
Definition parse (text : string) : option doc :=
  match scan_document text with Found d rest => if only_blanks rest then Some d else None | _ => None end.

(** ** Numbers *)

(** Literals: sign, digits, and the power of ten they are multiplied with. *)
Record decimal := { dm_neg : bool; dm_digits : Z; dm_count : Z; dm_exponent : Z }.

Definition strip_sign (s : string) : bool * string :=
  match s with String "-" s' => (true, s') | String "+" s' => (false, s') | _ => (false, s) end.

Definition read_exponent (s : string) : Z :=
  match s with
  | String c s' =>
      if exponent_mark c then let '(neg, ds) := strip_sign s' in
        let e := default 0%Z (digits_value 0 ds) in if neg then (- e)%Z else e
      else 0%Z
  | EmptyString => 0%Z
  end.

Definition read_decimal (literal : string) : decimal :=
  let '(neg, s) := strip_sign literal in
  let '(whole, s) := leading_digits s in
  let '(frac, s) := match s with String "." s' => leading_digits s' | _ => ("", s) end in
  {| dm_neg := neg; dm_digits := default 0%Z (digits_value 0 (whole +:+ frac)); dm_count := len (whole +:+ frac);
     dm_exponent := read_exponent s - len frac |}.

(** The binary64 nearest to [num / den], both positive: 66 bits of the quotient
    and whether anything is left. *)
Definition nearest (num den : Z) : spec_float :=
  let k := Z.max 0 (66 - (Z.log2 num - Z.log2 den)) in
  let q := (num * 2 ^ k / den)%Z in
  let sticky := if (num * 2 ^ k mod den =? 0)%Z then 0%Z else 1%Z in
  binary_normalize 53 1024 (2 * q + sticky) (- (k + 1)) false.

(** [d * 10^e], [d] positive. *)
Definition nearest_decimal (d e : Z) : spec_float :=
  if (0 <=? e)%Z then nearest (d * 10 ^ e) 1 else nearest d (10 ^ (- e)).

(** The exponent [p] with [10^(p-1) <= num/den < 10^p]. *)
Definition decimal_point (num den : Z) : Z :=
  if (den <=? num)%Z then len (format_int (num / den)) else
  let l := len (format_int (den / num)) in
  if (den <=? num * 10 ^ l / 10)%Z then (2 - l)%Z else (1 - l)%Z.

(** The decimals of [n] digits on both sides of [num/den], the closer first. *)
Definition candidates (num den p n : Z) : list Z :=
  let e := (n - p)%Z in
  let '(a, b) := if (0 <=? e)%Z then (num * 10 ^ e, den)%Z else (num, den * 10 ^ (- e))%Z in
  let q := (a / b)%Z in
  if (2 * (a mod b) <=? b)%Z then [q; q + 1]%Z else [q + 1; q]%Z.

Definition float_eqb (x y : spec_float) : bool := SFeqb x y.

(** The shortest digits that read as the number, and its decimal point. *)
Fixpoint shortest (turns : nat) (f : spec_float) (num den p n : Z) : string * Z :=
  match find (fun c => float_eqb (nearest_decimal c (p - n)) f) (candidates num den p n), turns with
  | Some c, _ => (trim_right_cut ["0"%char] (format_int c), p + len (format_int c) - n)%Z
  | None, S turns' => shortest turns' f num den p (n + 1)
  | None, O => ("", 0%Z)
  end.

(** A float64 by its shortest digits; seventeen always suffice. *)
Definition to_float64 (neg : bool) (f : spec_float) : option float64 :=
  match f with
  | S754_zero _ => Some (Float neg "" 0)
  | S754_finite _ m e =>
      let num := (Zpos m * 2 ^ Z.max 0 e)%Z in
      let den := (2 ^ Z.max 0 (- e))%Z in
      let '(ds, p) := shortest 17 f num den (decimal_point num den) 1 in
      Some (Float neg ds p)
  | _ => None
  end.

(** [strconv.ParseFloat] of a literal the scanner accepted: [None] when it is
    out of range. Magnitudes far outside the format are not computed. *)
Definition read_float (literal : string) : option float64 :=
  let d := read_decimal literal in
  if (dm_digits d =? 0)%Z then Some (Float (dm_neg d) "" 0) else
  if (dm_count d + dm_exponent d <? -400)%Z then Some (Float (dm_neg d) "" 0) else
  if (400 <? dm_exponent d + len (format_int (dm_digits d)))%Z then None else
  to_float64 (dm_neg d) (nearest_decimal (dm_digits d) (dm_exponent d)).

Example floats :
  fmt_json <$> read_float "0.1" = Some "0.1" /\ fmt_json <$> read_float "12345678901234567890" = Some "12345678901234567000" /\
  fmt_json <$> read_float "1e400" = None /\ fmt_json <$> read_float "5e-324" = Some "5e-324" /\
  fmt_json <$> read_float "-0" = Some "-0" /\ fmt_json <$> read_float "9007199254740993" = Some "9007199254740992" /\
  fmt_json <$> read_float "1.7976931348623157e308" = Some "1.7976931348623157e+308" /\
  fmt_json <$> read_float "1.7976931348623159e308" = None /\ fmt_json <$> read_float "123.456e-2" = Some "1.23456" /\
  fmt_json <$> read_float "1e23" = Some "1e+23" /\ read_float "250" = Some (float_of_Z 250).
Proof. repeat split; vm_compute; reflexivity. Qed.

(** ** Decoding into Go values *)

(** Folding of options. *)
Fixpoint foldO {S A} (f : S -> A -> option S) (s : S) (l : list A) : option S :=
  match l with [] => Some s | x :: l' => match f s x with Some s' => foldO f s' l' | None => None end end.

(** Into [any]: of the values of one name in an object the last counts. *)
Fixpoint to_any (d : doc) : option json :=
  match d with
  | DNull => Some JNull
  | DBool b => Some (JBool b)
  | DNum literal => JNum <$> read_float literal
  | DStr literal => Some (JStr (unquote literal))
  | DArr l => JArr <$> mapM to_any l
  | DObj l => (fun kvs => JMap (list_to_map (reverse kvs))) <$> mapM (fun kv => pair kv.1 <$> to_any kv.2) l
  end.

(** A decoder reads a document into a variable that holds a value already;
    [None] is an error, on which the callers drop the variable. *)
Abbreviation Decoder A := (A -> doc -> option A) (only parsing).

Definition dec_string : Decoder string := fun old d =>
  match d with DNull => Some old | DStr literal => Some (unquote literal) | _ => None end.

Definition dec_bool : Decoder bool := fun old d =>
  match d with DNull => Some old | DBool b => Some b | _ => None end.

(** [int] and [int64], of 64 bits. *)
Definition dec_int : Decoder Z := fun old d =>
  match d with
  | DNull => Some old
  | DNum literal => let '(v, failed) := parse_int literal in if failed then None else Some v
  | _ => None
  end.

Definition dec_time : Decoder gotime := fun old d =>
  match d with DNull => Some old | DStr literal => parse_rfc3339 literal | _ => None end.

(** A slice is set to the array's length; an element it had is read into. *)
Fixpoint dec_elements {A} (zero : A) (dec : Decoder A) (old : list A) (l : list doc) : option (list A) :=
  match l with
  | [] => Some []
  | d :: l' => v ← dec (default zero (head old)) d; vs ← dec_elements zero dec (tail old) l'; Some (v :: vs)
  end.

Definition dec_slice {A} (zero : A) (dec : Decoder A) : Decoder (option (list A)) := fun old d =>
  match d with
  | DNull => Some None
  | DArr l => Some <$> dec_elements zero dec (default [] old) l
  | _ => None
  end.

(** A map is added to. *)
Definition dec_map {A} (dec : doc -> option A) : Decoder (option (gmap string A)) := fun old d =>
  match d with
  | DNull => Some None
  | DObj l => Some <$> foldO (fun m kv => v ← dec kv.2; Some (<[kv.1 := v]> m)) (default ∅ old) l
  | _ => None
  end.

(** A struct, by its fields: each with its name and how its value is read. *)
Record field (T : Type) := { fd_name : string; fd_decode : Decoder T }.
Arguments fd_name {T}. Arguments fd_decode {T}. Arguments Build_field {T}.

Definition into {T A} (name : string) (get : T -> A) (set : A -> T -> T) (dec : Decoder A) : field T :=
  {| fd_name := name; fd_decode := fun t d => (fun v => set v t) <$> dec (get t) d |}.

Section Struct.
Context `{UnicodeCase}.

(** The field of a name: the one of exactly this name, else the first that
    differs in case only. *)
Definition find_field {T} (fields : list (field T)) (name : string) : option (field T) :=
  match find (fun f => bool_decide (fd_name f = name)) fields with
  | Some f => Some f
  | None => find (fun f => equal_fold (fd_name f) name) fields
  end.

(** [strict] is [DisallowUnknownFields]. *)
Definition dec_struct {T} (strict : bool) (fields : list (field T)) : Decoder T := fun old d =>
  match d with
  | DNull => Some old
  | DObj l =>
      foldO (fun t kv => match find_field fields kv.1 with
        | Some f => fd_decode f t kv.2
        | None => if strict then None else Some t end) old l
  | _ => None
  end.

(** [json.Unmarshal] into a zero variable. *)
Definition unmarshal {T} (zero : T) (dec : Decoder T) (text : string) : option T := d ← parse text; dec zero d.

End Struct.
