(* ===== verification/GoJsonText.v ===== *)
(** * Reading back what was written

    The scanner of [GoJsonDecode.v] on the texts [GoJson.v] writes: string
    literals, numbers, and from them arrays and objects of any kind. *)
From S2P Require Import Prelude GoStrings GoUtf8 GoNumbers GoJson GoJsonDecode.
From Stdlib Require Import Ascii.
Open Scope string_scope.
Open Scope list_scope.

(** ** String literals *)

(** A text the scanner passes over inside a string. *)
Definition passes (b : string) : Prop := forall n lit st rest,
  run (in_mode (InString n lit Plain) st) (b +:+ rest) = run (in_mode (InString n (lit +:+ b) Plain) st) rest.

Lemma add_byte_app lit c b : add_byte lit c +:+ b = lit +:+ String c b.
Proof. unfold add_byte. by rewrite string_app_assoc. Qed.

Lemma passes_empty : passes "".
Proof. intros n lit st rest. by rewrite string_app_nil_r. Qed.

Lemma passes_app a b : passes a -> passes b -> passes (a +:+ b).
Proof. intros Ha Hb n lit st rest. rewrite string_app_assoc, Ha, Hb. by rewrite string_app_assoc. Qed.

Lemma passes_concat l : Forall passes l -> passes (String.concat "" l).
Proof. induction 1 as [|a l Ha Hl IH]; [apply passes_empty|]. destruct l; [done|]. by apply passes_app. Qed.

Lemma passes_cons c b : c <> quote_char -> c <> backslash -> (32 <= byte_of c)%N -> passes b -> passes (String c b).
Proof.
  intros Hq Hs Hc Hb n lit st rest. rewrite string_app_cons. cbn [run step in_mode sc_mode sc_stack string_step].
  rewrite !(proj2 (Ascii.eqb_neq c _)), (proj2 (N.ltb_ge _ _)) by done. rewrite Hb. by rewrite add_byte_app.
Qed.

Lemma passes_bytes l : Forall (fun b => (32 <= b < 256)%N /\ b <> 34%N /\ b <> 92%N) l -> passes (of_bytes l).
Proof.
  induction 1 as [|b l (Hb & H1 & H2) _ IH]; [apply passes_empty|].
  apply (passes_cons (ascii_of_N b) (of_bytes l)); [| | |done].
  - intros E%(f_equal N_of_ascii). rewrite N_ascii_embedding in E by lia. vm_compute in E. lia.
  - intros E%(f_equal N_of_ascii). rewrite N_ascii_embedding in E by lia. vm_compute in E. lia.
  - unfold byte_of. rewrite N_ascii_embedding; lia.
Qed.

(** The scanner inside an escape. *)
Lemma run_backslash n lit st t :
  run (in_mode (InString n lit Plain) st) (String backslash t) = run (in_mode (InString n (add_byte lit backslash) Escaped) st) t.
Proof. done. Qed.

Lemma run_escaped n lit st c t : is_escape_letter (byte_of c) = true ->
  run (in_mode (InString n lit Escaped) st) (String c t) = run (in_mode (InString n (add_byte lit c) Plain) st) t.
Proof.
  intros Hc. cbn [run step in_mode sc_mode sc_stack string_step]. rewrite Hc.
  destruct (N.eqb_spec (byte_of c) 117) as [E|_]; [by rewrite E in Hc|done].
Qed.

Lemma run_u n lit st t : run (in_mode (InString n lit Escaped) st) (String "u" t) = run (in_mode (InString n (add_byte lit "u") (Hex 3)) st) t.
Proof. done. Qed.

Lemma run_hex n lit st more c t : is_hex c = true ->
  run (in_mode (InString n lit (Hex more)) st) (String c t) =
  run (in_mode (InString n (add_byte lit c) (match more with O => Plain | S more => Hex more end)) st) t.
Proof. intros Hc. cbn [run step in_mode sc_mode sc_stack string_step]. by rewrite Hc. Qed.

(** An escape of one letter. *)
Lemma passes_escape c b : is_escape_letter (byte_of c) = true -> passes b -> passes (String backslash (String c b)).
Proof.
  intros Hc Hb n lit st rest. rewrite !string_app_cons, run_backslash, run_escaped, Hb by done. by rewrite !add_byte_app.
Qed.

Lemma hex_digit_is_hex n : (n < 16)%N -> is_hex (hex_digit n) = true /\ hex_digit_value (byte_of (hex_digit n)) = n /\ (byte_of (hex_digit n) < 128)%N.
Proof.
  intros Hn. assert (n ∈ N.of_nat <$> seq 0 16) as Hin.
  { apply list_elem_of_fmap. exists (N.to_nat n). split; [lia|]. apply elem_of_seq. lia. }
  assert (forallb (fun n => is_hex (hex_digit n) && (hex_digit_value (byte_of (hex_digit n)) =? n)%N && (byte_of (hex_digit n) <? 128)%N)
    (N.of_nat <$> seq 0 16) = true) as Hall by (vm_compute; reflexivity).
  rewrite forallb_forall in Hall. specialize (Hall n). rewrite <- list_elem_of_In, !andb_true_iff, N.eqb_eq, N.ltb_lt in Hall. tauto.
Qed.

(** The four digits of an escape. *)
Lemma hex4_digits n : (n < 65536)%N -> exists a b c d, hex4 n = String backslash (String "u" (String a (String b (String c (String d ""))))) /\
  is_hex a = true /\ is_hex b = true /\ is_hex c = true /\ is_hex d = true /\
  Forall (fun x => (x < 128)%N) [byte_of a; byte_of b; byte_of c; byte_of d] /\
  hex_rune (byte_of a, []) (byte_of b, []) (byte_of c, []) (byte_of d, []) = n.
Proof.
  intros Hn. exists (hex_digit (n / 4096)), (hex_digit (n / 256 mod 16)), (hex_digit (n / 16 mod 16)), (hex_digit (n mod 16)).
  destruct (hex_digit_is_hex (n / 4096)) as (A1 & A2 & A3); [apply N.Div0.div_lt_upper_bound; lia|].
  destruct (hex_digit_is_hex (n / 256 mod 16)) as (B1 & B2 & B3); [by apply N.mod_upper_bound|].
  destruct (hex_digit_is_hex (n / 16 mod 16)) as (C1 & C2 & C3); [by apply N.mod_upper_bound|].
  destruct (hex_digit_is_hex (n mod 16)) as (D1 & D2 & D3); [by apply N.mod_upper_bound|].
  split; [done|]. split_and!; try done; [by repeat constructor|].
  unfold hex_rune. cbn [fst]. rewrite A2, B2, C2, D2.
  pose proof (N.div_mod n 16 ltac:(done)) as E1. pose proof (N.div_mod (n / 16) 16 ltac:(done)) as E2.
  pose proof (N.div_mod (n / 256) 16 ltac:(done)) as E3.
  replace (n / 256)%N with (n / 16 / 16)%N in * by (rewrite N.Div0.div_div; done).
  replace (n / 4096)%N with (n / 16 / 16 / 16)%N in * by (rewrite !N.Div0.div_div; done). lia.
Qed.

Lemma passes_hex4 n b : (n < 65536)%N -> passes b -> passes (hex4 n +:+ b).
Proof.
  intros Hn Hb k lit st rest. destruct (hex4_digits n Hn) as (w & x & y & z & -> & Hw & Hx & Hy & Hz & _).
  rewrite !string_app_cons. change ("" +:+ b) with b. rewrite run_backslash, run_u, !run_hex, Hb by done. by rewrite !add_byte_app.
Qed.

(** The three ways a rune is written: after a backslash, as an escape of four
    digits, or as it is. *)
Lemma escape_cases rb : whole rb ->
  (exists c, is_escape_letter (byte_of c) = true /\ escape_rune rb = String backslash (String c "") /\ simple_escape (byte_of c) = rb.2) \/
  (exists n, (n < 65536)%N /\ surrogate n = false /\ escape_rune rb = hex4 n /\ utf8_encode n = rb.2) \/
  (escape_rune rb = of_bytes rb.2 /\ Forall (fun b => (32 <= b < 256)%N /\ b <> 34%N /\ b <> 92%N) rb.2 /\ rb.1 <> 92%N /\
   ((rb.1 =? RuneError)%N && (length rb.2 =? 1)%nat = false)).
Proof.
  intros Hw. destruct (whole_cases rb Hw) as [(b & Hb & ->)|(Hr & Hraw & Hlen)].
  - unfold escape_rune. cbn [fst snd].
    destruct (N.eqb_spec b 34) as [->|H34]; [left; exists quote_char; by vm_compute|].
    destruct (N.eqb_spec b 92) as [->|H92]; [left; exists backslash; by vm_compute|]. cbn [orb].
    destruct (N.eqb_spec b 8) as [->|H8]; [left; exists "b"%char; by vm_compute|].
    destruct (N.eqb_spec b 9) as [->|H9]; [left; exists "t"%char; by vm_compute|].
    destruct (N.eqb_spec b 10) as [->|H10]; [left; exists "n"%char; by vm_compute|].
    destruct (N.eqb_spec b 12) as [->|H12]; [left; exists "f"%char; by vm_compute|].
    destruct (N.eqb_spec b 13) as [->|H13]; [left; exists "r"%char; by vm_compute|].
    right. destruct (_ || _ || _ || _) eqn:E; [left|right].
    + rewrite !orb_true_iff, N.ltb_lt, !N.eqb_eq in E. assert (b < 63)%N as Hlt by lia. exists b. split; [lia|].
      unfold surrogate, utf8_encode. rewrite (proj2 (N.leb_gt 55296 b)) by lia. split; [done|]. split; [done|].
      by rewrite (proj2 (N.ltb_lt _ _)) by lia.
    + rewrite !orb_false_iff, N.ltb_ge, !N.eqb_neq in E. destruct E as [[[H32 _] _] _].
      unfold RuneError. rewrite !(proj2 (N.eqb_neq b _)) by lia. cbn [andb orb]. split; [done|]. split; [|done].
      constructor; [lia|constructor].
  - destruct rb as [r raw]. cbn [fst snd] in *. unfold escape_rune.
    rewrite !(proj2 (N.eqb_neq r 34)), !(proj2 (N.eqb_neq r 92)), !(proj2 (N.eqb_neq r 8)), !(proj2 (N.eqb_neq r 9)), !(proj2 (N.eqb_neq r 10)),
      !(proj2 (N.eqb_neq r 12)), !(proj2 (N.eqb_neq r 13)), (proj2 (N.ltb_ge r 32)), !(proj2 (N.eqb_neq r 38)), !(proj2 (N.eqb_neq r 60)),
      !(proj2 (N.eqb_neq r 62)) by lia.
    rewrite (proj2 (Nat.eqb_neq _ _)) by done. rewrite andb_false_r. cbn [orb]. right.
    destruct (_ || _) eqn:E; [left|right].
    + rewrite orb_true_iff, !N.eqb_eq in E. exists r. split; [lia|]. pose proof (separator_bytes (r, raw) r Hw eq_refl E) as Hs. cbn in Hs.
      rewrite Hs. destruct E as [->| ->]; done.
    + split; [done|]. split; [|split; [lia|done]]. eapply Forall_impl; [exact Hraw|]. cbn. lia.
Qed.

Lemma passes_rune rb : whole rb -> passes (escape_rune rb).
Proof.
  intros [(c & Hc & -> & _)|[(n & Hn & _ & -> & _)|(-> & Hb & _)]]%escape_cases.
  - by apply passes_escape, passes_empty.
  - rewrite <- (string_app_nil_r (hex4 n)). by apply passes_hex4, passes_empty.
  - by apply passes_bytes.
Qed.

Lemma unquote_rune rb t : whole rb -> unquote_runes (decode (bytes (escape_rune rb) ++ t)) = rb.2 ++ unquote_runes (decode t).
Proof.
  intros Hw. destruct (escape_cases rb Hw) as [(c & Hc & -> & Hs)|[(n & Hn & Hsur & -> & Hu)|(-> & Hb & H92 & Hne)]].
  - change (bytes (String backslash (String c "")) ++ t) with (92%N :: byte_of c :: t).
    assert (byte_of c < 128)%N as Hlt.
    { unfold is_escape_letter in Hc. rewrite !orb_true_iff, !N.eqb_eq in Hc. lia. }
    cbn [decode]. rewrite (proj2 (N.ltb_lt 92 128)), (proj2 (N.ltb_lt (byte_of c) 128)) by done. cbn [unquote_runes].
    destruct (N.eqb_spec (byte_of c) 117) as [E|_]; [by rewrite E in Hc|]. by rewrite N.eqb_refl, Hs.
  - destruct (hex4_digits n Hn) as (w & x & y & z & -> & _ & _ & _ & _ & Hlt & Hhex). rewrite !Forall_cons in Hlt.
    destruct Hlt as (Hw' & Hx & Hy & Hz & _).
    change (bytes _ ++ t) with (92%N :: 117%N :: byte_of w :: byte_of x :: byte_of y :: byte_of z :: t).
    cbn [decode]. rewrite (proj2 (N.ltb_lt 92 128)), (proj2 (N.ltb_lt 117 128)) by done.
    rewrite !(proj2 (N.ltb_lt _ 128)) by done. cbn [unquote_runes]. rewrite !N.eqb_refl.
    unfold hex_rune in Hhex |- *. cbn [fst] in Hhex |- *. rewrite Hhex, Hsur. by rewrite Hu.
  - rewrite bytes_of_bytes by (eapply Forall_impl; [exact Hb|]; cbn; lia). rewrite (decode_whole rb t Hw). destruct rb as [r raw]. cbn [fst snd] in *.
    cbn [unquote_runes]. by rewrite (proj2 (N.eqb_neq r 92)), Hne.
Qed.

(** ** Whole literals *)

(** What is between the quotes. *)
Definition literal (s : string) : string := String.concat "" (escape_rune <$> decode (bytes s)).

Lemma json_string_literal s : json_string s = String quote_char (literal s +:+ String quote_char "").
Proof. done. Qed.

Lemma literal_passes s : utf8_valid s = true -> passes (literal s).
Proof.
  intros Hs%utf8_valid_whole. apply passes_concat, Forall_fmap. eapply Forall_impl; [exact Hs|]. intros rb. apply passes_rune.
Qed.

(** A literal is read as the text it was made from. *)
Lemma unquote_literal s : utf8_valid s = true -> unquote (literal s) = s.
Proof.
  intros Hs%utf8_valid_whole. unfold unquote, literal. rewrite bytes_concat.
  assert (forall l, Forall whole l -> unquote_runes (decode (mjoin (bytes <$> (escape_rune <$> l)))) = mjoin (snd <$> l)) as Hl.
  { induction 1 as [|rb l Hrb _ IH]; [done|]. rewrite !fmap_cons.
    change (mjoin (bytes (escape_rune rb) :: ?x)) with (bytes (escape_rune rb) ++ mjoin x).
    rewrite unquote_rune, IH by done. done. }
  rewrite Hl by done. rewrite decode_concat. apply of_bytes_bytes.
Qed.

Lemma run_quote n lit st t : run (in_mode (InString n lit Plain) st) (String quote_char t) =
  match close_string n lit st with Goes s => run s t | Ended d => Found d (String quote_char t) | Wrong => Bad end.
Proof. done. Qed.

(** A string in the place of a value, and as the name of a member. *)
Lemma reads_string s st rest : utf8_valid s = true ->
  run (in_mode AtValue st) (json_string s +:+ rest) = run (deliver (DStr (literal s)) st) rest.
Proof.
  intros Hs. rewrite json_string_literal, string_app_cons, string_app_assoc.
  change (run (in_mode AtValue st) (String quote_char ?t)) with (run (in_mode (InString false "" Plain) st) t).
  rewrite (literal_passes s Hs). rewrite string_app_cons. by rewrite run_quote.
Qed.

Lemma reads_name s m l k st rest : utf8_valid s = true -> m = AtName \/ m = AtFirstName ->
  run (in_mode m (InObj l k :: st)) (json_string s +:+ rest) = run (in_mode AtColon (InObj l s :: st)) rest.
Proof.
  intros Hs Hm. rewrite json_string_literal, string_app_cons, string_app_assoc.
  assert (run (in_mode m (InObj l k :: st)) (String quote_char (literal s +:+ String quote_char "" +:+ rest))
    = run (in_mode (InString true "" Plain) (InObj l k :: st)) (literal s +:+ String quote_char "" +:+ rest)) as -> by (by destruct Hm as [-> | ->]).
  rewrite (literal_passes s Hs). rewrite string_app_cons, run_quote. change ("" +:+ literal s) with (literal s).
  unfold close_string. by rewrite unquote_literal.
Qed.

(** ** Numbers *)

Definition begin_number (c : ascii) : option numeral :=
  if Ascii.eqb c "-" then Some NMinus else if Ascii.eqb c "0" then Some NZero else if digit c then Some NDigits else None.

Fixpoint numeral_run (n : numeral) (text : string) : option numeral :=
  match text with EmptyString => Some n | String c text => n ← numeral_step n c; numeral_run n text end.

Definition is_number (text : string) : bool :=
  match text with
  | String c t => match (n ← begin_number c; numeral_run n t) with Some n => numeral_complete n | None => false end
  | EmptyString => false
  end.

(** What may follow a value inside an array or object. *)
Definition follows (c : ascii) : Prop := c = ","%char \/ c = "}"%char \/ c = "]"%char.

Lemma run_numeral n n' text lit st rest : numeral_run n text = Some n' ->
  run (in_mode (InNumber n lit) st) (text +:+ rest) = run (in_mode (InNumber n' (lit +:+ text)) st) rest.
Proof.
  revert n lit. induction text as [|c text IH]; intros n lit; cbn [numeral_run]; [intros [= ->]; by rewrite string_app_nil_r|].
  destruct (numeral_step n c) as [n1|] eqn:En; cbn [mbind option_bind]; [|done]. intros Hrun.
  rewrite string_app_cons. cbn [run step in_mode sc_mode sc_stack]. rewrite En. rewrite (IH _ _ Hrun). by rewrite add_byte_app.
Qed.

Lemma run_number_end n lit st c rest : numeral_complete n = true -> follows c -> st <> [] ->
  run (in_mode (InNumber n lit) st) (String c rest) = run (deliver (DNum lit) st) (String c rest).
Proof.
  intros Hn Hc Hst. cbn [run step in_mode sc_mode sc_stack].
  assert (numeral_step n c = None) as -> by (by destruct Hc as [-> |[-> | ->]]; destruct n).
  assert (blank c = false) as Hb by (by destruct Hc as [-> |[-> | ->]]).
  rewrite Hn. cbn [negb]. destruct st as [|f st]; [done|]. rewrite Hb. by destruct f; cbn [deliver in_mode run step sc_mode sc_stack]; rewrite ?Hb.
Qed.

(** ** Values *)

(** A text of a value, in an array or object with so many levels left: the
    scanner reads it as the document. *)
Definition begins (text : string) : Prop := exists c t, text = String c t /\ blank c = false /\ c <> "]"%char.

Definition reads (n : Z) (text : string) (d : doc) : Prop := begins text /\ forall st c rest, st <> [] -> follows c ->
  (Z.of_nat (length st) + n <= max_nesting)%Z -> run (in_mode AtValue st) (text +:+ String c rest) = run (deliver d st) (String c rest).

(** A text that ends with its last byte, so that anything may follow. *)
Definition reads_closed (n : Z) (text : string) (d : doc) : Prop := begins text /\ forall st rest,
  (Z.of_nat (length st) + n <= max_nesting)%Z -> run (in_mode AtValue st) (text +:+ rest) = run (deliver d st) rest.

Lemma closed_reads n text d : reads_closed n text d -> reads n text d.
Proof. intros [Hb Hr]. split; [done|]. intros st c rest _ _ Hn. by apply Hr. Qed.

Lemma reads_weaken n m text d : (n <= m)%Z -> reads n text d -> reads m text d.
Proof. intros Hle [Hb Hr]. split; [done|]. intros st c rest Hst Hc Hn. apply Hr; [done|done|lia]. Qed.

Lemma reads_literal s : utf8_valid s = true -> reads_closed 0 (json_string s) (DStr (literal s)).
Proof. intros Hs. split; [by eexists quote_char, _|]. intros st rest _. by apply reads_string. Qed.

Lemma reads_word w d : w = "null" /\ d = DNull \/ w = "true" /\ d = DBool true \/ w = "false" /\ d = DBool false -> reads_closed 0 w d.
Proof.
  intros Hw. split; [destruct Hw as [[-> _]|[[-> _]|[-> _]]]; by eexists _, _|].
  intros st rest _. by destruct Hw as [[-> ->]|[[-> ->]|[-> ->]]].
Qed.

Lemma reads_number text : is_number text = true -> reads 0 text (DNum text).
Proof.
  unfold is_number. destruct text as [|c t]; [done|]. destruct (begin_number c) as [n|] eqn:Eb; cbn [mbind option_bind]; [|done].
  destruct (numeral_run n t) as [n'|] eqn:Er; [|done]. intros Hn.
  assert (forall st t, run (in_mode AtValue st) (String c t) = run (in_mode (InNumber n (String c "")) st) t) as Hstart.
  { intros st t'. unfold begin_number in Eb. cbn [run step in_mode sc_mode sc_stack].
    destruct (Ascii.eqb_spec c "-") as [->|H1]; [by injection Eb as <-|].
    destruct (Ascii.eqb_spec c "0") as [->|H2]; [by injection Eb as <-|].
    destruct (digit c) eqn:Ed; [|done]. injection Eb as <-.
    assert (blank c = false /\ c <> "{"%char /\ c <> "["%char /\ c <> quote_char) as (Hbl & H3 & H4 & H5).
    { unfold digit in Ed. split_and!; [|by intros ->..]. unfold blank.
      rewrite !(proj2 (Ascii.eqb_neq c _)); [done|by intros ->..]. }
    rewrite Hbl. unfold begin_value. rewrite !(proj2 (Ascii.eqb_neq c _)) by done. by rewrite Ed. }
  split.
  - exists c, t. split; [done|]. unfold begin_number in Eb.
    destruct (Ascii.eqb_spec c "-") as [->|H1]; [done|]. destruct (Ascii.eqb_spec c "0") as [->|H2]; [done|].
    destruct (digit c) eqn:Ed; [|done]. split; [|by intros ->]. unfold blank. rewrite !(proj2 (Ascii.eqb_neq c _)); [done|by intros ->..].
  - intros st c' rest Hst Hc _. rewrite string_app_cons, Hstart, (run_numeral _ _ _ _ _ _ Er). by apply run_number_end.
Qed.

(** ** Arrays *)

Lemma run_first st text : begins text -> forall rest, run (in_mode AtFirst st) (text +:+ rest) = run (in_mode AtValue st) (text +:+ rest).
Proof.
  intros (c & t & -> & Hb & Hc) rest. rewrite string_app_cons. cbn [run step in_mode sc_mode sc_stack].
  by rewrite Hb, (proj2 (Ascii.eqb_neq c _)).
Qed.

Lemma join_cons a b l : join "," (a :: b :: l) = a +:+ String "," (join "," (b :: l)).
Proof. done. Qed.

Lemma run_items n texts docs acc st rest : Forall2 (reads n) texts docs -> (Z.of_nat (S (length st)) + n <= max_nesting)%Z -> texts <> [] ->
  run (in_mode AtValue (InArr acc :: st)) (join "," texts +:+ String "]" rest) = run (deliver (DArr (acc ++ docs)) st) rest.
Proof.
  intros Hall Hn. revert acc. induction Hall as [|t d texts docs [Hb Hr] Hall IH]; intros acc Hne; [done|].
  destruct texts as [|t2 texts].
  - apply Forall2_nil_inv_l in Hall as ->. change (join "," [t]) with t. rewrite Hr by (done || by right; right). done.
  - rewrite join_cons, string_app_assoc, string_app_cons. rewrite Hr by (done || by left).
    change (run (deliver d (InArr acc :: st)) (String "," ?x)) with (run (in_mode AtValue (InArr (acc ++ [d]) :: st)) x).
    rewrite IH by done. by rewrite <- app_assoc.
Qed.

Lemma reads_array n texts docs : Forall2 (reads n) texts docs -> (0 <= n)%Z -> reads_closed (n + 1) (json_array texts) (DArr docs).
Proof.
  intros Hall Hn. split; [by eexists "["%char, _|]. intros st rest Hst. unfold json_array.
  assert (run (in_mode AtValue st) (("[" +:+ join "," texts +:+ "]") +:+ rest) = run (in_mode AtFirst (InArr [] :: st)) (join "," texts +:+ String "]" rest)) as ->.
  { rewrite !string_app_assoc. cbn [run step in_mode sc_mode sc_stack]. change ("[" +:+ ?x) with (String "[" x).
    cbn [run step in_mode sc_mode sc_stack]. change (blank "[") with false. change (begin_value "[" st) with (opens (InArr []) AtFirst st).
    unfold opens. rewrite (proj2 (Z.ltb_ge _ _)); [done|lia]. }
  destruct texts as [|t texts]; [by apply Forall2_nil_inv_l in Hall as ->|].
  assert (begins (join "," (t :: texts))) as Hb.
  { apply Forall2_cons_inv_l in Hall as (d & docs' & [(c & u & -> & Hc) _] & _). destruct texts; [by exists c, u|].
    rewrite join_cons, string_app_cons. by eexists c, _. }
  rewrite run_first by done. rewrite (run_items n _ docs) by (done || lia). done.
Qed.

(** ** Objects *)

Definition reads_member (n : Z) (kv : string * string) (kd : string * doc) : Prop :=
  kv.1 = kd.1 /\ utf8_valid kv.1 = true /\ reads n kv.2 kd.2.

Definition member_text (kv : string * string) : string := json_string kv.1 +:+ ":" +:+ kv.2.

Lemma run_members n fields docs m acc k st rest : Forall2 (reads_member n) fields docs -> (Z.of_nat (S (length st)) + n <= max_nesting)%Z ->
  fields <> [] -> m = AtName \/ m = AtFirstName ->
  run (in_mode m (InObj acc k :: st)) (join "," (member_text <$> fields) +:+ String "}" rest) = run (deliver (DObj (acc ++ docs)) st) rest.
Proof.
  intros Hall Hn. revert m acc k. induction Hall as [|[x t] [y d] fields docs (Hk & Hu & Hb & Hr) Hall IH]; intros m acc k Hne Hm; [done|].
  cbn [fst snd] in *. subst y.
  assert (forall c tail, follows c -> run (in_mode m (InObj acc k :: st)) (member_text (x, t) +:+ String c tail)
    = run (in_mode AtNext (InObj (acc ++ [(x, d)]) "" :: st)) (String c tail)) as Hone.
  { intros c tail Hc. unfold member_text. cbn [fst snd]. rewrite string_app_assoc, reads_name by done. rewrite string_app_assoc.
    change (run (in_mode AtColon ?s) (":" +:+ ?r)) with (run (in_mode AtValue s) r). by rewrite Hr. }
  destruct fields as [|f2 fields].
  - apply Forall2_nil_inv_l in Hall as ->. change (join "," (member_text <$> [(x, t)])) with (member_text (x, t)).
    by rewrite Hone by (by right; left).
  - rewrite !fmap_cons, join_cons, string_app_assoc, string_app_cons. rewrite Hone by (by left).
    change (run (in_mode AtNext (InObj ?a ?b :: st)) (String "," ?r)) with (run (in_mode AtName (InObj a b :: st)) r).
    rewrite <- fmap_cons. rewrite IH; [|done|by left]. by rewrite <- app_assoc.
Qed.

Lemma reads_object n fields docs : Forall2 (reads_member n) fields docs -> (0 <= n)%Z -> reads_closed (n + 1) (json_object fields) (DObj docs).
Proof.
  intros Hall Hn. split; [by eexists "{"%char, _|]. intros st rest Hst. unfold json_object.
  change (fun kv : string * string => json_string kv.1 +:+ ":" +:+ kv.2) with member_text.
  assert (run (in_mode AtValue st) (("{" +:+ join "," (member_text <$> fields) +:+ "}") +:+ rest) =
    run (in_mode AtFirstName (InObj [] "" :: st)) (join "," (member_text <$> fields) +:+ String "}" rest)) as ->.
  { rewrite !string_app_assoc. change ("{" +:+ ?x) with (String "{" x).
    cbn [run step in_mode sc_mode sc_stack]. change (blank "{") with false. change (begin_value "{" st) with (opens (InObj [] "") AtFirstName st).
    unfold opens. rewrite (proj2 (Z.ltb_ge _ _)); [done|lia]. }
  destruct fields as [|f fields]; [by apply Forall2_nil_inv_l in Hall as ->|].
  rewrite (run_members n _ docs) by (done || lia || by right). done.
Qed.
