(* ===== verification/GoTimeText.v ===== *)
(** * Times are read back as they were written

    [parse_rfc3339] of [rfc3339nano]: the calendar's two directions are inverse,
    and so are the digits of the date, the time of day and the fraction. *)
From S2P Require Import Prelude GoStrings GoNumbers GoJson GoTime.
From Stdlib Require Import Ascii.
Open Scope string_scope.
Open Scope list_scope.

(** ** The calendar *)

(** The parts of [civil]: the year of a day within an era of 400 years and the
    day of that year, then month and day. *)
Definition year_of_era (doe : Z) : Z := ((doe - doe / 1460 + doe / 36524 - doe / 146096) / 365)%Z.
Definition day_of_year (doe : Z) : Z := let yoe := year_of_era doe in (doe - (365 * yoe + yoe / 4 - yoe / 100))%Z.
Definition month_index (doy : Z) : Z := ((5 * doy + 2) / 153)%Z.
Definition day_of_month (doy : Z) : Z := (doy - (153 * month_index doy + 2) / 5 + 1)%Z.
Definition month_of (doy : Z) : Z := if (month_index doy <? 10)%Z then (month_index doy + 3)%Z else (month_index doy - 9)%Z.

Lemma civil_parts days : let era := ((days + 306) / 146097)%Z in let doe := ((days + 306) mod 146097)%Z in
  let doy := day_of_year doe in
  civil days = ((year_of_era doe + era * 400 + (if month_of doy <=? 2 then 1 else 0))%Z, month_of doy, day_of_month doy).
Proof. done. Qed.

(** A day 366 belongs to a leap year, which begins in March. *)
Lemma era_bounds doe : (0 <= doe < 146097)%Z ->
  (0 <= year_of_era doe < 400 /\ 0 <= day_of_year doe <= 365)%Z /\ (day_of_year doe = 365%Z -> leap (year_of_era doe + 1) = true).
Proof.
  intros H.
  assert (doe / 36524 = 0 \/ doe / 36524 = 1 \/ doe / 36524 = 2 \/ doe / 36524 = 3 \/ doe / 36524 = 4)%Z as H2 by (Z.div_mod_to_equations; lia).
  assert (doe / 146096 = 0 /\ doe < 146096 \/ doe = 146096)%Z as [[H3 Hlt]| ->] by (Z.div_mod_to_equations; lia); [|vm_compute; intuition congruence].
  unfold leap, day_of_year, year_of_era. rewrite H3. set (yoe := ((doe - doe / 1460 + doe / 36524 - 0) / 365)%Z).
  assert (0 <= yoe < 400)%Z as Hy by (unfold yoe; Z.div_mod_to_equations; lia).
  assert (0 <= doe - (365 * yoe + yoe / 4 - yoe / 100) <= 365)%Z as Hd.
  { unfold yoe. destruct H2 as [H2|[H2|[H2|[H2|H2]]]]; rewrite H2; Z.div_mod_to_equations; lia. }
  split; [done|]. intros E.
  assert ((yoe + 1) mod 4 = 0 /\ ((yoe + 1) mod 100 <> 0 \/ (yoe + 1) mod 400 = 0))%Z as [H4 H100].
  { unfold yoe in *. destruct H2 as [H2|[H2|[H2|[H2|H2]]]]; rewrite H2 in *; Z.div_mod_to_equations; lia. }
  rewrite H4, Z.eqb_refl. cbn [andb]. apply orb_true_iff. destruct H100 as [H100|H100]; [left|right].
  - by apply negb_true_iff, Z.eqb_neq.
  - by apply Z.eqb_eq.
Qed.

(** Month and day of a day of the year, counted from March. *)
Definition month_fits (doy : Z) : bool :=
  let m := month_of doy in let d := day_of_month doy in
  ((1 <=? m) && (m <=? 12) && (1 <=? d) && ((153 * ((m + 9) mod 12) + 2) / 5 + d - 1 =? doy)
   && ((d <=? days_in m 1) || ((m =? 2) && (d =? 29) && (doy =? 365))))%Z.

Lemma month_bounds doy : (0 <= doy <= 365)%Z -> month_fits doy = true.
Proof.
  intros H. assert (forallb month_fits (Z.of_nat <$> seq 0 366) = true) as Hall by (vm_compute; reflexivity).
  rewrite forallb_forall in Hall. apply Hall, list_elem_of_In, list_elem_of_fmap. exists (Z.to_nat doy).
  split; [lia|]. apply elem_of_seq. lia.
Qed.

Lemma days_in_common m y : (days_in m 1 <= days_in m y)%Z.
Proof. unfold days_in. destruct (m =? 2)%Z; [|done]. change (leap 1) with false. destruct (leap y); lia. Qed.

Lemma leap_era y era : leap (y + era * 400) = leap y.
Proof.
  unfold leap. replace ((y + era * 400) mod 4)%Z with (y mod 4)%Z by (Z.div_mod_to_equations; lia).
  replace ((y + era * 400) mod 100)%Z with (y mod 100)%Z by (Z.div_mod_to_equations; lia).
  by rewrite Z.mod_add.
Qed.

(** A date of [civil] exists, and its number is the day's. *)
Lemma civil_date days y m d : civil days = (y, m, d) -> (1 <= m <= 12)%Z /\ (1 <= d <= days_in m y)%Z /\ days_from_civil y m d = days.
Proof.
  rewrite civil_parts. cbv zeta. set (era := ((days + 306) / 146097)%Z). set (doe := ((days + 306) mod 146097)%Z).
  assert (0 <= doe < 146097)%Z as Hdoe by (apply Z.mod_pos_bound; lia).
  destruct (era_bounds doe Hdoe) as [[Hyoe Hdoy] Hleap]. pose proof (month_bounds _ Hdoy) as Hm.
  set (yoe := year_of_era doe) in *. set (doy := day_of_year doe) in *. intros [= <- <- <-].
  unfold month_fits in Hm. cbv zeta in Hm. rewrite !andb_true_iff, orb_true_iff, !andb_true_iff, !Z.leb_le, !Z.eqb_eq in Hm.
  destruct Hm as ((((Hm1 & Hm2) & Hd1) & Hdoy') & Hd2).
  assert (days + 306 = 146097 * era + doe)%Z as Edays by (apply Z.div_mod; lia).
  assert (doe = 365 * yoe + yoe / 4 - yoe / 100 + doy)%Z as Edoe by (unfold doy, day_of_year; fold yoe; lia).
  split; [done|]. split.
  - split; [done|]. destruct Hd2 as [Hd2|((Hm & Hd) & H365)].
    + etrans; [exact Hd2|]. apply days_in_common.
    + rewrite Hm, Hd. change (2 <=? 2)%Z with true. cbv iota. unfold days_in. cbn [Z.eqb Pos.eqb].
      replace (yoe + era * 400 + 1)%Z with (yoe + 1 + era * 400)%Z by lia. rewrite leap_era, Hleap; [lia|done].
  - unfold days_from_civil.
    assert ((if month_of doy <=? 2 then yoe + era * 400 + (if month_of doy <=? 2 then 1 else 0) - 1
      else yoe + era * 400 + (if month_of doy <=? 2 then 1 else 0)) = yoe + era * 400)%Z as -> by (destruct (_ <=? 2)%Z; lia).
    rewrite Z.div_add, Z.mod_add, (Z.div_small yoe 400), (Z.mod_small yoe 400) by lia. lia.
Qed.

(** ** Digits *)

Lemma parse_uint_padded w z lo hi : (0 <= z < 10 ^ Z.of_nat w)%Z -> (1 <= w)%nat -> (lo <= z <= hi)%Z ->
  String.length (pad_zero w (format_int z)) = w /\ all_digits (pad_zero w (format_int z)) = true /\
  digits_value 0 (pad_zero w (format_int z)) = Some z /\ parse_uint (pad_zero w (format_int z)) lo hi = Some z.
Proof.
  intros Hz Hw Hb. destruct (format_int_digits z ltac:(lia)) as [Hd Hne].
  destruct (pad_zero_digits w _ Hd) as [Hp Hv]. specialize (Hv z (digits_value_format z ltac:(lia))).
  assert (String.length (pad_zero w (format_int z)) = w) as Hl by (apply pad_zero_length, format_int_length; [done|lia]).
  split_and!; [done|done|done|]. unfold parse_uint. rewrite Hv, bool_decide_false by (intros E; rewrite E in Hl; cbn in Hl; lia).
  by rewrite (proj2 (Z.ltb_ge z lo)), (proj2 (Z.ltb_ge hi z)) by lia.
Qed.

(** Trimming zeros loses zeros. *)
Lemma drop_while_prefix {A} (p : A -> bool) l : exists l', l = l' ++ drop_while p l /\ Forall (fun x => p x = true) l'.
Proof.
  induction l as [|x l (l' & E & Hl)]; [by exists []|]. cbn. destruct (p x) eqn:Hp; [|by exists []].
  exists (x :: l'). split; [by rewrite E at 1|by constructor].
Qed.

Lemma string_of_list_app l l' : String.string_of_list_ascii (l ++ l') = String.string_of_list_ascii l +:+ String.string_of_list_ascii l'.
Proof. induction l as [|c l IH]; [done|]. cbn. by rewrite IH. Qed.

Lemma repeat_of_list l c : Forall (fun x => x = c) l -> String.string_of_list_ascii l = repeat_char c (length l).
Proof. induction 1 as [|x l -> _ IH]; [done|]. cbn. by rewrite IH. Qed.

Lemma trim_zeros s : exists k, s = trim_right_cut ["0"%char] s +:+ repeat_char "0" k.
Proof.
  unfold trim_right_cut. destruct (drop_while_prefix (fun c => bool_decide (c ∈ ["0"%char])) (reverse (String.list_ascii_of_string s))) as (l' & E & Hl).
  exists (length l'). rewrite <- (length_reverse l'), <- (repeat_of_list (reverse l') "0").
  - rewrite <- string_of_list_app, <- reverse_app, <- E, reverse_involutive. symmetry. apply String.string_of_list_ascii_of_string.
  - apply Forall_reverse. eapply Forall_impl; [exact Hl|]. intros c Hc%bool_decide_eq_true. by apply list_elem_of_singleton in Hc.
Qed.

Lemma substring_long n s : (String.length s <= n)%nat -> String.substring 0 n s = s.
Proof. revert n. induction s as [|c s IH]; intros [|n] Hn; cbn in *; [done|done|lia|]. by rewrite IH by lia. Qed.

Lemma substring_prefix a b : String.substring 0 (String.length a) (a +:+ b) = a.
Proof.
  induction a as [|c a IH]; [by destruct b|]. change (String c (String.substring 0 (String.length a) (a +:+ b)) = String c a). by rewrite IH.
Qed.

Lemma all_digits_app a b : all_digits (a +:+ b) = all_digits a && all_digits b.
Proof.
  induction a as [|c a IH]; [done|]. change (is_digit c && all_digits (a +:+ b) = is_digit c && all_digits a && all_digits b).
  by rewrite IH, andb_assoc.
Qed.

Lemma leading_digits_all s c t : all_digits s = true -> is_digit c = false -> leading_digits (s +:+ String c t) = (s, String c t).
Proof.
  induction s as [|d s IH]; [intros _ Hc; change (leading_digits (String c t) = ("", String c t)); cbn [leading_digits]; by rewrite Hc|]. rewrite string_app_cons. cbn [all_digits leading_digits]. intros [-> Hs]%andb_true_iff Hc. by rewrite IH.
Qed.

(** The fraction of a second. *)
Definition fraction (ns : Z) : string := if (ns =? 0)%Z then "" else "." +:+ trim_right_cut ["0"%char] (pad_zero 9 (format_int ns)).

Lemma repeat_char_add c n m : repeat_char c (n + m) = repeat_char c n +:+ repeat_char c m.
Proof.
  induction n as [|n IH]; [done|]. change (String c (repeat_char c (n + m)) = String c (repeat_char c n +:+ repeat_char c m)). by rewrite IH.
Qed.

Lemma split_fraction_written ns : (0 <= ns < nano)%Z -> split_fraction (fraction ns +:+ "Z") = (ns, "Z").
Proof.
  intros Hns. unfold fraction. destruct (Z.eqb_spec ns 0) as [->|Hne]; [done|].
  destruct (parse_uint_padded 9 ns 0 nano) as (Hl & Hd & Hv & _); [unfold nano in *; lia|lia|lia|].
  destruct (trim_zeros (pad_zero 9 (format_int ns))) as [k E].
  set (p := pad_zero 9 (format_int ns)) in *. set (f := trim_right_cut ["0"%char] p) in *.
  assert (all_digits f = true) as Hf by (rewrite E, all_digits_app, andb_true_iff in Hd; tauto).
  destruct f as [|c f'] eqn:Ef.
  { exfalso. apply Hne. rewrite E in Hv. change ("" +:+ repeat_char "0" k) with (repeat_char "0" k) in Hv.
    assert (forall n, digits_value 0 (repeat_char "0" n) = Some 0%Z) as Hz by (clear; intros n; induction n; [done|done]). rewrite Hz in Hv. congruence. }
  pose proof Hf as Hf'. cbn [all_digits] in Hf'. apply andb_true_iff in Hf' as [Hc _].
  change (("." +:+ String c f') +:+ "Z") with (String "." (String c (f' +:+ "Z"))). cbn [split_fraction]. rewrite Hc.
  change (String c (f' +:+ "Z")) with (String c f' +:+ String "Z" ""). rewrite leading_digits_all by done. f_equal.
  unfold fraction_nanos. change "000000000" with (repeat_char "0" 9).
  assert (String.length p = String.length (String c f') + k)%nat as Hk.
  { rewrite E at 1. rewrite string_length_app, repeat_char_length. done. }
  assert (repeat_char "0" 9 = repeat_char "0" k +:+ repeat_char "0" (9 - k)) as -> by (rewrite <- repeat_char_add; f_equal; lia).
  rewrite <- string_app_assoc, <- E, <- Hl, substring_prefix, Hv. done.
Qed.

(** ** A whole time *)

Lemma two_chars s : String.length s = 2%nat -> exists a b, s = String a (String b "").
Proof. destruct s as [|a [|b [|c s]]]; try done. by exists a, b. Qed.

Lemma four_chars s : String.length s = 4%nat -> exists a b c d, s = String a (String b (String c (String d ""))).
Proof. destruct s as [|a [|b [|c [|d [|e s]]]]]; try done. by exists a, b, c, d. Qed.

Lemma parse_written y m d hh mi ss ns rest : (0 <= y < 10000)%Z -> (1 <= m <= 12)%Z -> (1 <= d <= days_in m y)%Z ->
  (0 <= hh < 24)%Z -> (0 <= mi < 60)%Z -> (0 <= ss < 60)%Z -> split_fraction rest = (ns, "Z") ->
  let p2 z := pad_zero 2 (format_int z) in
  parse_rfc3339 (pad_zero 4 (format_int y) +:+ "-" +:+ p2 m +:+ "-" +:+ p2 d +:+ "T" +:+ p2 hh +:+ ":" +:+ p2 mi +:+ ":" +:+ p2 ss +:+ rest) =
  Some (((days_from_civil y m d * 86400 + hh * 3600 + mi * 60 + ss) * nano) + ns)%Z.
Proof.
  intros Hy Hm Hd Hh Hmi Hs Hrest p2. unfold p2.
  assert (d <= 31)%Z as Hd31 by (unfold days_in in Hd; repeat case_match; lia).
  destruct (parse_uint_padded 4 y 0 9999) as (Ly & _ & _ & Py); [lia..|]. destruct (four_chars _ Ly) as (y1 & y2 & y3 & y4 & Ey).
  destruct (parse_uint_padded 2 m 1 12) as (Lm & _ & _ & Pm); [lia..|]. destruct (two_chars _ Lm) as (m1 & m2 & Em).
  destruct (parse_uint_padded 2 d 1 (days_in m y)) as (Ld & _ & _ & Pd); [lia..|]. destruct (two_chars _ Ld) as (d1 & d2 & Ed).
  destruct (parse_uint_padded 2 hh 0 23) as (Lh & _ & _ & Ph); [lia..|]. destruct (two_chars _ Lh) as (h1 & h2 & Eh).
  destruct (parse_uint_padded 2 mi 0 59) as (Li & _ & _ & Pi); [lia..|]. destruct (two_chars _ Li) as (i1 & i2 & Ei).
  destruct (parse_uint_padded 2 ss 0 59) as (Ls & _ & _ & Ps); [lia..|]. destruct (two_chars _ Ls) as (s1 & s2 & Es).
  rewrite Ey, Em, Ed, Eh, Ei, Es. rewrite Ey in Py. rewrite Em in Pm. rewrite Ed in Pd. rewrite Eh in Ph. rewrite Ei in Pi. rewrite Es in Ps.
  match goal with |- parse_rfc3339 _ = ?r => change (parse_rfc3339 (String y1 (String y2 (String y3 (String y4 (String "-" (String m1 (String m2 (String "-" (String d1 (String d2 (String "T" (String h1 (String h2 (String ":" (String i1 (String i2 (String ":" (String s1 (String s2 rest))))))))))))))))))) = r) end.
  unfold parse_rfc3339. cbn [String.length Nat.ltb Nat.leb String.substring String.get].
  assert (forall n, (String.length rest <= n)%nat -> String.substring 0 n rest = rest) as Hsub by (intros; by apply substring_long).
  assert (String.substring 0 0 rest = "") as -> by (by destruct rest).
  rewrite Py. cbn [mbind option_bind]. rewrite Pm. cbn [mbind option_bind]. rewrite Pd. cbn [mbind option_bind].
  rewrite Ph. cbn [mbind option_bind]. rewrite Pi. cbn [mbind option_bind]. rewrite Ps. cbn [mbind option_bind].
  rewrite bool_decide_true by done. cbn [negb]. rewrite Hsub by lia. rewrite Hrest. change (zone_offset "Z") with (Some 0%Z). cbn [mbind option_bind]. by rewrite Z.sub_0_r.
Qed.

Lemma parse_rfc3339nano t : (0 <= year_of t < 10000)%Z -> parse_rfc3339 (rfc3339nano t) = Some t.
Proof.
  unfold year_of, rfc3339nano. intros Hy. destruct (civil (t / (86400 * nano))) as [[y m] d] eqn:E. cbn [fst] in Hy.
  destruct (civil_date _ _ _ _ E) as (Hm & Hd & Hdays).
  assert (0 <= t mod nano < nano)%Z as Hns by (apply Z.mod_pos_bound; done).
  assert (0 <= t / nano mod 86400 < 86400)%Z as Hsec by (apply Z.mod_pos_bound; lia).
  set (secs := (t / nano mod 86400)%Z) in *. fold (fraction (t mod nano)).
  rewrite (parse_written y m d (secs / 3600) (secs / 60 mod 60) (secs mod 60) (t mod nano)); [|done|done|done| | | |by apply split_fraction_written].
  - f_equal. rewrite Hdays. unfold secs, nano. Z.div_mod_to_equations. lia.
  - Z.div_mod_to_equations; lia.
  - apply Z.mod_pos_bound. lia.
  - apply Z.mod_pos_bound. lia.
Qed.
