(* ===== verification/GoJsonRoundtrip.v ===== *)
(** * JSON values are read back as they were written

    [to_any] of what [Marshal] writes, integers and maps of integers, and the
    structs whose fields are written in the order of their declaration. *)
From S2P Require Import Prelude GoStrings GoUtf8 GoNumbers GoJson GoTime GoJsonDecode GoJsonText GoTimeText.
From Stdlib Require Import Ascii Decimal DecimalString.
Open Scope string_scope.
Open Scope list_scope.

(** ** Integers *)

Lemma digit_is_digit c : is_digit c = true -> digit c = true.
Proof. intros H%digit_bounds. unfold digit. cbv zeta. by rewrite !(proj2 (N.leb_le _ _)) by lia. Qed.

Lemma digits_run s : all_digits s = true -> numeral_run NDigits s = Some NDigits.
Proof.
  induction s as [|c s IH]; [done|]. cbn [all_digits numeral_run numeral_step]. intros [Hc Hs]%andb_true_iff.
  rewrite digit_is_digit by done. cbn [mbind option_bind]. by apply IH.
Qed.

(** A positive number does not begin with a zero. *)
Lemma format_int_head n : (0 < n)%Z -> exists c t, format_int n = String c t /\ is_digit c = true /\ c <> "0"%char /\ all_digits t = true.
Proof.
  intros Hn. destruct (format_int_digits n ltac:(lia)) as [Hd Hne]. destruct (format_int n) as [|c t] eqn:E; [done|].
  cbn in Hd. apply andb_true_iff in Hd as [Hc Ht]. exists c, t. split_and!; try done. intros ->.
  destruct n as [|p|p]; [lia| |lia]. unfold format_int in E. cbn [Z.to_int NilEmpty.string_of_int] in E.
  apply (to_uint_head p). destruct (Pos.to_uint p); cbn in E; try done. by eexists.
Qed.

Lemma is_number_int z : is_number (format_int z) = true.
Proof.
  assert (forall n, (0 < n)%Z -> exists c t, format_int n = String c t /\ begin_number c = Some NDigits /\ numeral_step NMinus c = Some NDigits /\
    numeral_run NDigits t = Some NDigits) as Hpos.
  { intros n Hn. destruct (format_int_head n Hn) as (c & t & E & Hc & H0 & Ht). exists c, t. split; [done|].
    assert (c <> "-"%char) as Hm by (by intros ->). unfold begin_number, numeral_step.
    rewrite !(proj2 (Ascii.eqb_neq c _)), digit_is_digit by done. split_and!; [done|done|by apply digits_run]. }
  destruct (decide (0 < z)%Z) as [Hz|Hz].
  - destruct (Hpos z Hz) as (c & t & -> & Hb & _ & Hr). cbn [is_number]. rewrite Hb. cbn [mbind option_bind]. by rewrite Hr.
  - destruct (decide (z = 0)%Z) as [->|Hne]; [done|]. destruct (Hpos (- z)%Z ltac:(lia)) as (c & t & E & _ & Hs & Hr).
    assert (format_int z = String "-" (format_int (- z))) as -> by (destruct z; [lia|lia|done]).
    rewrite E. cbn [is_number numeral_run]. change (begin_number "-") with (Some NMinus). cbn [mbind option_bind numeral_run]. rewrite Hs. cbn [mbind option_bind]. by rewrite Hr.
Qed.

Definition int64 (z : Z) : Prop := (min_int64 <= z <= max_int64)%Z.

Lemma parse_int_format z : int64 z -> parse_int (format_int z) = (z, false).
Proof.
  unfold int64. intros [Hlo Hhi]. destruct (decide (0 <= z)%Z) as [Hz|Hz].
  - destruct (format_int_digits z Hz). apply parse_int_digits; [done|done|by apply digits_value_format|done].
  - assert (format_int z = String "-" (format_int (- z))) as -> by (destruct z; [lia|lia|done]).
    unfold parse_int. destruct (format_int_digits (- z) ltac:(lia)) as [_ Hne]. rewrite digits_value_format by lia.
    destruct (format_int (- z)); [done|]. rewrite (proj2 (Z.ltb_ge _ _)) by (unfold min_int64 in Hlo; lia). by rewrite Z.opp_involutive.
Qed.

Lemma dec_int_format old z : int64 z -> dec_int old (DNum (format_int z)) = Some z.
Proof. intros Hz. unfold dec_int. by rewrite parse_int_format. Qed.

Lemma dec_string_literal old s : utf8_valid s = true -> dec_string old (DStr (literal s)) = Some s.
Proof. intros Hs. unfold dec_string. by rewrite unquote_literal. Qed.

(** ** Values *)

Section JsonInd.
Context (P : json -> Prop) (Hnull : P JNull) (Hbool : forall b, P (JBool b)) (Hnum : forall f, P (JNum f)) (Hstr : forall s, P (JStr s))
  (Harr : forall l, Forall P l -> P (JArr l)) (Hobj : forall l, Forall (fun kv => P kv.2) l -> P (JObj l)).

Fixpoint json_nested_ind (v : json) : P v :=
  match v with
  | JNull => Hnull
  | JBool b => Hbool b
  | JNum f => Hnum f
  | JStr s => Hstr s
  | JArr l => Harr l ((fix all l : Forall P l := match l with [] => Forall_nil_2 P | v :: l' => Forall_cons_2 P v l' (json_nested_ind v) (all l') end) l)
  | JObj l => Hobj l ((fix all l : Forall (fun kv => P kv.2) l :=
      match l with [] => Forall_nil_2 _ | kv :: l' => Forall_cons_2 (fun kv => P kv.2) kv l' (json_nested_ind kv.2) (all l') end) l)
  end.

End JsonInd.

Fixpoint nesting (v : json) : Z :=
  match v with
  | JArr l => 1 + foldr Z.max 0%Z (nesting <$> l)
  | JObj l => 1 + foldr Z.max 0%Z ((fun kv => nesting kv.2) <$> l)
  | _ => 0
  end.

Lemma foldr_max_nonneg (l : list Z) : (0 <= foldr Z.max 0 l)%Z.
Proof. induction l; cbn; lia. Qed.

Lemma foldr_max_le (l : list Z) x : x ∈ l -> (x <= foldr Z.max 0 l)%Z.
Proof. induction 1; cbn; lia. Qed.

Lemma nesting_nonneg v : (0 <= nesting v)%Z.
Proof.
  destruct v as [| | | |l|l]; cbn [nesting]; try lia;
  [pose proof (foldr_max_nonneg (nesting <$> l))|pose proof (foldr_max_nonneg ((fun kv => nesting kv.2) <$> l))]; lia.
Qed.

(** The document of a value's text. *)
Fixpoint doc_of (v : json) : doc :=
  match v with
  | JNull => DNull
  | JBool b => DBool b
  | JNum f => DNum (fmt_json f)
  | JStr s => DStr (literal s)
  | JArr l => DArr (doc_of <$> l)
  | JObj l => DObj ((fun kv => (kv.1, doc_of kv.2)) <$> l)
  end.

(** A value as decoders produce it: its texts are UTF-8, its numbers read as
    what they are printed from, its objects are maps. *)
Fixpoint wire_value (v : json) : Prop :=
  match v with
  | JNum f => is_number (fmt_json f) = true /\ read_float (fmt_json f) = Some f
  | JStr s => utf8_valid s = true
  | JArr l => foldr (fun v P => wire_value v /\ P) True l
  | JObj l => (exists m, l = sorted_entries m) /\ foldr (fun kv P => (utf8_valid kv.1 = true /\ wire_value kv.2) /\ P) True l
  | _ => True
  end.

Lemma foldr_and_Forall {A} (P : A -> Prop) l : foldr (fun x Q => P x /\ Q) True l <-> Forall P l.
Proof. induction l as [|x l IH]; cbn; [by split|]. by rewrite Forall_cons, IH. Qed.

Lemma reads_value v : wire_value v -> reads (nesting v) (Marshal v) (doc_of v).
Proof.
  induction v as [|b|f|s|l IH|l IH] using json_nested_ind; cbn [wire_value Marshal doc_of nesting].
  - intros _. apply closed_reads, reads_word. by left.
  - intros _. apply closed_reads, reads_word. destruct b; naive_solver.
  - intros [Hn _]. by apply reads_number.
  - intros Hs. by apply closed_reads, reads_literal.
  - rewrite foldr_and_Forall. intros Hw. apply closed_reads. rewrite Z.add_comm. apply reads_array; [|apply foldr_max_nonneg].
    apply Forall2_fmap, Forall_Forall2_diag, Forall_forall. intros v Hv. rewrite Forall_forall in IH, Hw.
    eapply reads_weaken; [|by apply IH; [|apply Hw]]. by apply foldr_max_le, list_elem_of_fmap_2.
  - intros [_ Hw]. rewrite foldr_and_Forall in Hw. apply closed_reads. rewrite Z.add_comm. apply reads_object; [|apply foldr_max_nonneg].
    apply Forall2_fmap, Forall_Forall2_diag, Forall_forall. intros [k v] Hv. rewrite Forall_forall in IH. rewrite Forall_forall in Hw. destruct (Hw _ Hv) as [Hk Hwv].
    split_and!; [done|done|]. cbn [fst snd] in *. eapply reads_weaken; [|by apply (IH (k, v))].
    by apply foldr_max_le, (list_elem_of_fmap_2 (fun kv => nesting kv.2) l (k, v)).
Qed.

(** ** Maps *)

Lemma sorted_entries_perm {A} (m : gmap string A) : sorted_entries m ≡ₚ map_to_list m.
Proof. apply merge_sort_Permutation. Qed.

Lemma sorted_entries_nodup {A} (m : gmap string A) : NoDup (sorted_entries m).*1.
Proof. rewrite sorted_entries_perm. apply NoDup_fst_map_to_list. Qed.

Lemma sorted_entries_map {A} (m : gmap string A) : list_to_map (sorted_entries m) = m.
Proof. rewrite <- (list_to_map_to_list m) at 2. apply list_to_map_proper; [apply sorted_entries_nodup|apply sorted_entries_perm]. Qed.

Lemma list_to_map_reverse {A} (l : list (string * A)) : NoDup l.*1 -> list_to_map (reverse l) = (list_to_map l : gmap string A).
Proof. intros Hl. apply list_to_map_proper; [|apply reverse_Permutation]. by rewrite fmap_reverse, reverse_Permutation. Qed.

Lemma mapM_fmap_id {A B} (f : A -> B) (g : B -> option A) l : Forall (fun x => g (f x) = Some x) l -> mapM g (f <$> l) = Some l.
Proof. induction 1 as [|x l Hx _ IH]; [done|]. rewrite fmap_cons. cbn [mapM]. by rewrite Hx; cbn; rewrite IH. Qed.

Lemma to_any_doc v : wire_value v -> to_any (doc_of v) = Some v.
Proof.
  induction v as [|b|f|s|l IH|l IH] using json_nested_ind; cbn [wire_value doc_of to_any]; try done.
  - intros [_ ->]. done.
  - intros Hs. by rewrite unquote_literal.
  - rewrite foldr_and_Forall. intros Hw. rewrite mapM_fmap_id; [done|]. apply Forall_forall. intros v Hv.
    rewrite Forall_forall in IH, Hw. auto.
  - rewrite foldr_and_Forall. intros [[m ->] Hw].
    rewrite (mapM_fmap_id (fun kv => (kv.1, doc_of kv.2))).
    + cbn. unfold JMap. by rewrite list_to_map_reverse, sorted_entries_map by apply sorted_entries_nodup.
    + apply Forall_forall. intros [k v] Hv. rewrite Forall_forall in IH. rewrite Forall_forall in Hw. cbn [fst snd].
      destruct (Hw _ Hv) as [_ Hv']. pose proof (IH _ Hv Hv') as E. cbn [snd] in E. by rewrite E.
Qed.

(** The members of an object, read into a map one by one. *)
Lemma foldO_insert {A} (f : A -> doc) (dec : doc -> option A) (l : list (string * A)) m0 : Forall (fun kv => dec (f kv.2) = Some kv.2) l ->
  foldO (fun m kv => v ← dec kv.2; Some (<[kv.1 := v]> m)) m0 ((fun kv => (kv.1, f kv.2)) <$> l) =
  Some (list_to_map (reverse l) ∪ m0 : gmap string A).
Proof.
  intros Hl. revert m0. induction Hl as [|[k v] l Hv _ IH]; intros m0; [cbn; by rewrite map_empty_union|].
  rewrite fmap_cons. cbn [foldO fst snd] in *. rewrite Hv. cbn [mbind option_bind]. rewrite IH. f_equal.
  rewrite reverse_cons, list_to_map_app. cbn [list_to_map foldr]. rewrite <- map_union_assoc. f_equal.
  cbn. by rewrite insert_empty, insert_union_singleton_l.
Qed.

Lemma dec_map_entries {A} (f : A -> doc) (dec : doc -> option A) (m : gmap string A) : map_Forall (fun _ v => dec (f v) = Some v) m ->
  dec_map dec None (DObj ((fun kv => (kv.1, f kv.2)) <$> sorted_entries m)) = Some (Some m).
Proof.
  intros Hm. unfold dec_map. cbn [default]. rewrite (foldO_insert f).
  - cbn. by rewrite map_union_empty, list_to_map_reverse, sorted_entries_map by apply sorted_entries_nodup.
  - apply Forall_forall. intros [k v] Hin. rewrite sorted_entries_perm in Hin. apply elem_of_map_to_list in Hin. by apply (Hm k v).
Qed.

(** A map of values that may be nil. *)
Definition doc_map (m : option object) : doc := match m with None => DNull | Some m => doc_of (JMap m) end.
Definition wire_map (n : Z) (m : option object) : Prop := match m with None => True | Some m => wire_value (JMap m) /\ (nesting (JMap m) <= n)%Z end.

Lemma reads_map n m : (0 <= n)%Z -> wire_map n m -> reads n (marshal_map m) (doc_map m).
Proof.
  destruct m as [m|]; cbn [wire_map marshal_map doc_map].
  - intros _ [Hw Hn]. eapply reads_weaken; [exact Hn|]. by apply reads_value.
  - intros Hn _. eapply reads_weaken; [exact Hn|]. apply closed_reads, reads_word. by left.
Qed.

Lemma dec_map_value n m : wire_map n m -> dec_map to_any None (doc_map m) = Some m.
Proof.
  destruct m as [m|]; [|done]. intros [Hw _]. unfold doc_map, JMap. cbn [doc_of]. apply dec_map_entries. intros k v Hk.
  apply to_any_doc. unfold JMap in Hw. cbn [wire_value] in Hw. rewrite foldr_and_Forall in Hw. destruct Hw as [_ Hw].
  rewrite Forall_forall in Hw. apply (Hw (k, v)). rewrite sorted_entries_perm. by apply elem_of_map_to_list.
Qed.

(** A map of integers that may be nil. *)
Definition doc_ints (m : option (gmap string Z)) : doc :=
  match m with None => DNull | Some m => DObj ((fun kv => (kv.1, DNum (format_int kv.2))) <$> sorted_entries m) end.
Definition wire_ints (m : option (gmap string Z)) : Prop :=
  match m with None => True | Some m => map_Forall (fun k z => utf8_valid k = true /\ int64 z) m end.

Lemma dec_map_ints m : wire_ints m -> dec_map (dec_int 0) None (doc_ints m) = Some m.
Proof.
  destruct m as [m|]; [|done]. intros Hm. apply (dec_map_entries (fun z => DNum (format_int z))).
  intros k z Hk. apply dec_int_format. by apply (Hm k z).
Qed.

(** ** Slices *)

Definition doc_slice {A} (f : A -> doc) (l : option (list A)) : doc := match l with None => DNull | Some l => DArr (f <$> l) end.
Definition wire_slice {A} (P : A -> Prop) (l : option (list A)) : Prop := match l with None => True | Some l => Forall P l end.

Lemma dec_slice_value {A} (zero : A) (dec : Decoder A) f l : wire_slice (fun x => dec zero (f x) = Some x) l ->
  dec_slice zero dec None (doc_slice f l) = Some l.
Proof.
  destruct l as [l|]; [|done]. cbn [wire_slice doc_slice dec_slice default]. intros Hl.
  assert (dec_elements zero dec [] (f <$> l) = Some l) as Hd; [|by unfold id; rewrite Hd].
  induction Hl as [|x l Hx _ IH]; [done|]. rewrite fmap_cons. cbn [dec_elements head tail default]. unfold id.
  by rewrite Hx; cbn; rewrite IH.
Qed.

(** ** Times *)

(** Texts that JSON leaves alone. *)
Definition plain_bytes (s : string) : Prop :=
  Forall (fun b => (32 <= b < 128)%N /\ b <> 34%N /\ b <> 38%N /\ b <> 60%N /\ b <> 62%N /\ b <> 92%N) (bytes s).

Lemma plain_decode s : plain_bytes s -> decode (bytes s) = (fun b => (b, [b])) <$> bytes s.
Proof. intros Hs. apply decode_ascii. eapply Forall_impl; [exact Hs|]. cbn. lia. Qed.

Lemma plain_literal s : plain_bytes s -> literal s = s /\ utf8_valid s = true.
Proof.
  intros Hs. split.
  - unfold literal. rewrite plain_decode by done. rewrite <- (of_bytes_bytes s) at 2. unfold plain_bytes in Hs.
    induction Hs as [|b l Hb _ IH]; [done|]. rewrite !fmap_cons.
    assert (escape_rune (b, [b]) = of_bytes [b]) as ->.
    { unfold escape_rune, RuneError. rewrite !(proj2 (N.eqb_neq b _)), (proj2 (N.ltb_ge b 32)) by lia. done. }
    change (b :: l) with ([b] ++ l). rewrite of_bytes_app, <- IH.
    destruct ((fun b => (b, [b])) <$> l) as [|x l'] eqn:El; [|done]. by apply fmap_nil_inv in El as ->.
  - unfold utf8_valid. rewrite plain_decode by done. apply forallb_forall. intros rb Hin%list_elem_of_In%list_elem_of_fmap.
    destruct Hin as (b & -> & Hb). unfold plain_bytes in Hs. rewrite Forall_forall in Hs. specialize (Hs b Hb). cbn.
    unfold RuneError. by rewrite (proj2 (N.eqb_neq b _)) by lia.
Qed.

Lemma plain_bytes_app a b : plain_bytes a -> plain_bytes b -> plain_bytes (a +:+ b).
Proof. unfold plain_bytes. rewrite bytes_app. intros. by apply Forall_app. Qed.

Lemma plain_bytes_digits s : all_digits s = true -> plain_bytes s.
Proof. intros Hs%digit_bytes. eapply Forall_impl; [exact Hs|]. cbn. lia. Qed.

Lemma plain_padded w z : (0 <= z)%Z -> plain_bytes (pad_zero w (format_int z)).
Proof. intros Hz. destruct (format_int_digits z Hz) as [Hd _]. by apply plain_bytes_digits, pad_zero_digits. Qed.

Ltac plain_char := apply Forall_cons; split; [vm_compute; intuition congruence|apply Forall_nil; exact I].

Lemma plain_rfc3339nano t : (0 <= year_of t < 10000)%Z -> plain_bytes (rfc3339nano t).
Proof.
  unfold year_of, rfc3339nano. intros Hy. destruct (civil (t / (86400 * nano))) as [[y m] d] eqn:E. cbn [fst] in Hy.
  destruct (civil_date _ _ _ _ E) as (Hm & Hd & _).
  assert (0 <= t / nano mod 86400 < 86400)%Z as Hsec by (apply Z.mod_pos_bound; lia).
  assert (0 <= t mod nano < nano)%Z as Hns by (apply Z.mod_pos_bound; done).
  repeat match goal with
  | |- plain_bytes (pad_zero _ _ +:+ _) => apply plain_bytes_app; [apply plain_padded; Z.div_mod_to_equations; lia|]
  | |- plain_bytes ("-" +:+ _) => apply plain_bytes_app; [plain_char|]
  | |- plain_bytes ("T" +:+ _) => apply plain_bytes_app; [plain_char|]
  | |- plain_bytes (":" +:+ _) => apply plain_bytes_app; [plain_char|]
  end.
  apply plain_bytes_app; [|plain_char]. destruct (_ =? 0)%Z; [by apply Forall_nil|]. apply plain_bytes_app; [plain_char|].
  destruct (trim_zeros (pad_zero 9 (format_int (t mod nano)))) as [k Ek]. apply plain_bytes_digits.
  destruct (format_int_digits (t mod nano)) as [Hdig _]; [lia|]. destruct (pad_zero_digits 9 _ Hdig) as [Hall _].
  rewrite Ek, all_digits_app, andb_true_iff in Hall. tauto.
Qed.

(** A time that JSON has a text for. *)
Definition wire_time (t : gotime) : Prop := (0 <= year_of t < 10000)%Z.

Lemma marshal_time_text t : wire_time t -> marshal_time t = Some (json_string (rfc3339nano t)).
Proof.
  intros Ht. unfold marshal_time. rewrite (proj2 (Z.leb_le _ _)), (proj2 (Z.ltb_lt _ _)) by apply Ht. cbn [andb]. f_equal.
  rewrite json_string_literal. by rewrite (proj1 (plain_literal _ (plain_rfc3339nano t Ht))).
Qed.

Lemma dec_time_text old t : wire_time t -> dec_time old (DStr (literal (rfc3339nano t))) = Some t.
Proof.
  intros Ht. unfold dec_time. rewrite (proj1 (plain_literal _ (plain_rfc3339nano t Ht))). by apply parse_rfc3339nano.
Qed.

Lemma reads_time t : wire_time t -> reads 0 (json_string (rfc3339nano t)) (DStr (literal (rfc3339nano t))).
Proof. intros Ht. apply closed_reads, reads_literal. by apply (plain_literal _ (plain_rfc3339nano t Ht)). Qed.

(** ** Structs *)

Section Struct.
Context `{UnicodeCase} {T : Type}.

Lemma find_field_exact (fields : list (field T)) f : NoDup (fd_name <$> fields) -> f ∈ fields -> find_field fields (fd_name f) = Some f.
Proof.
  intros Hnd Hin. unfold find_field.
  assert (find (fun g => bool_decide (fd_name g = fd_name f)) fields = Some f) as ->; [|done].
  induction fields as [|g l IH]; [by apply elem_of_nil in Hin|]. rewrite fmap_cons, NoDup_cons in Hnd. destruct Hnd as [Hg Hnd].
  cbn [find]. apply elem_of_cons in Hin as [->|Hin]; [by rewrite bool_decide_true|].
  rewrite bool_decide_false; [by apply IH|]. intros E. apply Hg. rewrite E. by apply list_elem_of_fmap_2.
Qed.

(** All the fields of a struct, in their order. *)
Fixpoint decode_fields (t : T) (fields : list (field T)) (docs : list doc) : option T :=
  match fields, docs with
  | f :: fields, d :: docs => t ← fd_decode f t d; decode_fields t fields docs
  | _, _ => Some t
  end.

Lemma dec_struct_in_order strict (fields : list (field T)) zero docs : NoDup (fd_name <$> fields) -> docs.*1 = fd_name <$> fields ->
  dec_struct strict fields zero (DObj docs) = decode_fields zero fields docs.*2.
Proof.
  intros Hnd. unfold dec_struct.
  assert (forall l t docs, (forall f, f ∈ l -> f ∈ fields) -> docs.*1 = fd_name <$> l ->
    foldO (fun t kv => match find_field fields kv.1 with Some f => fd_decode f t kv.2 | None => if strict then None else Some t end) t docs =
    decode_fields t l docs.*2) as Hl.
  { induction l as [|f l IH]; intros t ds Hsub Hd; [by apply fmap_nil_inv in Hd as ->|]. destruct ds as [|[k d] ds]; [done|].
    rewrite !fmap_cons in Hd. cbn [fst] in Hd. injection Hd as -> Hd. rewrite fmap_cons. cbn [foldO fst snd decode_fields].
    rewrite find_field_exact by (done || by apply Hsub; left). destruct (fd_decode f t d) as [t'|]; [|done].
    cbn [mbind option_bind]. apply IH; [|done]. intros g Hg. apply Hsub. by right. }
  intros Hd. by apply Hl.
Qed.

End Struct.

(** Reads a struct's text: its members one by one. *)
Lemma reads_struct n (members : list (string * (string * doc))) : Forall (fun m => utf8_valid m.1 = true /\ reads n m.2.1 m.2.2) members ->
  (0 <= n)%Z ->
  reads_closed (n + 1) (json_object ((fun m => (m.1, m.2.1)) <$> members)) (DObj ((fun m => (m.1, m.2.2)) <$> members)).
Proof.
  intros Hm Hn. apply reads_object; [|done]. apply Forall2_fmap, Forall_Forall2_diag. eapply Forall_impl; [exact Hm|].
  intros [k [t d]] [Hk Hr]. by split_and!.
Qed.

(** ** Whole texts *)

(** A document of an object fills its text. *)
Lemma scan_whole text l : reads_closed max_nesting text (DObj l) -> scan_document text = Found (DObj l) "".
Proof.
  intros [_ Hr]. unfold scan_document. rewrite <- (string_app_nil_r text). rewrite Hr by (cbn; lia). done.
Qed.

Lemma parse_whole text l : reads_closed max_nesting text (DObj l) -> parse text = Some (DObj l).
Proof. intros Hr. unfold parse. by rewrite (scan_whole text l Hr). Qed.
