(* ===== verification/Domain.v ===== *)
(** * Domain model ([internal/domain/model.go])

    The records exchanged by the components, the enumerations as the strings
    they are in Go, and the canonical bytes a snapshot signature covers.

    A Go map or slice that may be nil is an [option]: nil and empty differ only
    in their JSON. Times are UTC instants. *)
From S2P Require Import Prelude GoStrings GoJson.
Open Scope string_scope.

(** ** Enumerations *)

Definition AssetActive := "ACTIVE".
Definition AssetStale := "STALE".
Definition AssetMissing := "MISSING".
Definition AssetConflicting := "CONFLICTING".
Definition AssetRetired := "RETIRED".
Definition AssetUnknown := "UNKNOWN".

Definition PhysicalHost := "PHYSICAL_HOST".
Definition VirtualMachine := "VIRTUAL_MACHINE".
Definition Container := "CONTAINER".
Definition ContainerImage := "CONTAINER_IMAGE".
Definition KubernetesCluster := "KUBERNETES_CLUSTER".
Definition KubernetesNode := "KUBERNETES_NODE".
Definition KubernetesNamespace := "KUBERNETES_NAMESPACE".
Definition KubernetesWorkload := "KUBERNETES_WORKLOAD".
Definition KubernetesPod := "KUBERNETES_POD".
Definition Application := "APPLICATION".
Definition Service := "SERVICE".
Definition Database := "DATABASE".
Definition Cache := "CACHE".
Definition MessageBroker := "MESSAGE_BROKER".
Definition Storage := "STORAGE".
Definition Network := "NETWORK".
Definition IPAddress := "IP_ADDRESS".
Definition DNSName := "DNS_NAME".
Definition LoadBalancer := "LOAD_BALANCER".
Definition Certificate := "CERTIFICATE".
Definition Volume := "VOLUME".
Definition CloudResource := "CLOUD_RESOURCE".
Definition Unknown := "UNKNOWN".

Definition AssetTypeLabels : gmap string string := list_to_map [
  (PhysicalHost, "Physical host"); (VirtualMachine, "Virtual machine");
  (Container, "Container"); (ContainerImage, "Container image");
  (KubernetesCluster, "Kubernetes cluster"); (KubernetesNode, "Kubernetes node");
  (KubernetesNamespace, "Kubernetes namespace"); (KubernetesWorkload, "Kubernetes workload");
  (KubernetesPod, "Kubernetes pod"); (Application, "Application"); (Service, "Service");
  (Database, "Database"); (Cache, "Cache"); (MessageBroker, "Message broker");
  (Storage, "Storage"); (Network, "Network"); (IPAddress, "IP address");
  (DNSName, "DNS name"); (LoadBalancer, "Load balancer"); (Certificate, "Certificate");
  (Volume, "Volume"); (CloudResource, "Cloud resource"); (Unknown, "Unknown")].

Definition known_type (t : string) : bool := bool_decide (is_Some (AssetTypeLabels !! t)).

Definition SnapshotQueued := "QUEUED".
Definition SnapshotRunning := "RUNNING".
Definition SnapshotSucceeded := "SUCCEEDED".
Definition SnapshotPartial := "PARTIAL".
Definition SnapshotFailed := "FAILED".
Definition SnapshotCancelled := "CANCELLED".
Definition SnapshotRejected := "REJECTED".

(** ** Records *)

Record Asset := {
  a_id : string; a_org : string; a_canonical : string; a_display : string;
  a_type : string; a_status : string;
  a_environment : string; a_site : string; a_owner : string; a_criticality : string;
  a_first_seen : gotime; a_last_seen : gotime; a_created : gotime; a_updated : gotime;
  a_retired : option gotime }.

Record Observation := {
  o_id : string; o_org : string; o_snapshot : string; o_connector : string;
  o_collector : string; o_external : string;
  o_type : string; o_observed : gotime;
  o_attributes : option (gmap string json); o_hints : option (gmap string json);
  o_fingerprint : string; o_status : string }.

Record AttributeClaim := {
  c_asset : string; c_key : string; c_value : json;
  c_connector : string; c_snapshot : string; c_observed : gotime;
  c_authority : string; c_confidence : string; c_active : bool }.

Record Relationship := {
  r_id : string; r_org : string; r_from : string; r_to : string;
  r_type : string; r_status : string;
  r_first_seen : gotime; r_last_seen : gotime; r_created : gotime; r_updated : gotime }.

Record RelationshipObservation := {
  ro_relationship : string; ro_snapshot : string; ro_connector : string;
  ro_from : string; ro_to : string; ro_type : string;
  ro_observed : gotime; ro_attributes : option (gmap string json) }.

Record SnapshotEnvelope := {
  s_protocol : string; s_id : string; s_org : string; s_collector : string;
  s_connector : string; s_connector_type : string; s_connector_version : string;
  s_started : gotime; s_completed : gotime; s_sequence : Z;
  s_assets : option (list Observation);
  s_relationships : option (list RelationshipObservation);
  s_warnings : option (list string);
  s_statistics : option (gmap string Z);
  s_content_hash : string; s_algorithm : string; s_signature : string }.

Record EffectiveAttribute := {
  e_value : json; e_conflict : bool; e_reason : string; e_claims : list AttributeClaim }.

Record Change := {
  ch_id : string; ch_org : string; ch_asset : string; ch_relationship : string;
  ch_type : string; ch_before : string; ch_after : string; ch_source : string;
  ch_detected : gotime; ch_summary : string; ch_confidence : string; ch_logical : string }.

(** Reading a nil map or ranging over a nil slice is reading an empty one. *)
Definition attrs (o : Observation) : gmap string json := default ∅ (o_attributes o).
Definition hints (o : Observation) : gmap string json := default ∅ (o_hints o).
Definition assets_of (s : SnapshotEnvelope) : list Observation := default [] (s_assets s).
Definition relationships_of (s : SnapshotEnvelope) : list RelationshipObservation :=
  default [] (s_relationships s).

(** ** JSON of the records: the fields in declaration order *)

Definition marshal_asset (a : Asset) : option string :=
  first ← marshal_time (a_first_seen a); last ← marshal_time (a_last_seen a);
  created ← marshal_time (a_created a); updated ← marshal_time (a_updated a);
  retired ← match a_retired a with None => Some "null" | Some t => marshal_time t end;
  Some (json_object [("ID", json_string (a_id a)); ("OrganizationID", json_string (a_org a));
    ("CanonicalName", json_string (a_canonical a)); ("DisplayName", json_string (a_display a));
    ("Type", json_string (a_type a)); ("Status", json_string (a_status a));
    ("Environment", json_string (a_environment a)); ("SiteID", json_string (a_site a));
    ("OwnerID", json_string (a_owner a)); ("Criticality", json_string (a_criticality a));
    ("FirstSeenAt", first); ("LastSeenAt", last); ("CreatedAt", created);
    ("UpdatedAt", updated); ("RetiredAt", retired)]).

Definition marshal_relationship (r : Relationship) : option string :=
  first ← marshal_time (r_first_seen r); last ← marshal_time (r_last_seen r);
  created ← marshal_time (r_created r); updated ← marshal_time (r_updated r);
  Some (json_object [("ID", json_string (r_id r)); ("OrganizationID", json_string (r_org r));
    ("FromAssetID", json_string (r_from r)); ("ToAssetID", json_string (r_to r));
    ("Type", json_string (r_type r)); ("Status", json_string (r_status r));
    ("FirstSeenAt", first); ("LastSeenAt", last); ("CreatedAt", created); ("UpdatedAt", updated)]).

Definition marshal_observation (o : Observation) : option string :=
  at_ ← marshal_time (o_observed o);
  Some (json_object [("ID", json_string (o_id o)); ("OrganizationID", json_string (o_org o));
    ("SnapshotID", json_string (o_snapshot o)); ("ConnectorID", json_string (o_connector o));
    ("CollectorID", json_string (o_collector o)); ("ExternalID", json_string (o_external o));
    ("AssetType", json_string (o_type o)); ("ObservedAt", at_);
    ("Attributes", marshal_map (o_attributes o)); ("IdentityHints", marshal_map (o_hints o));
    ("Fingerprint", json_string (o_fingerprint o)); ("Status", json_string (o_status o))]).

Definition marshal_relationship_observation (r : RelationshipObservation) : option string :=
  at_ ← marshal_time (ro_observed r);
  Some (json_object [("RelationshipID", json_string (ro_relationship r));
    ("SnapshotID", json_string (ro_snapshot r)); ("ConnectorID", json_string (ro_connector r));
    ("ExternalFromID", json_string (ro_from r)); ("ExternalToID", json_string (ro_to r));
    ("Type", json_string (ro_type r)); ("ObservedAt", at_);
    ("Attributes", marshal_map (ro_attributes r))]).

Definition marshal_slice {A} (f : A -> option string) (l : option (list A)) : option string :=
  match l with
  | None => Some "null"
  | Some l => items ← mapM f l; Some (json_array items)
  end.

Definition marshal_ints (m : option (gmap string Z)) : string :=
  match m with
  | None => "null"
  | Some m => json_object ((fun kv => (kv.1, format_int kv.2)) <$> sorted_entries m)
  end.

Definition marshal_envelope (s : SnapshotEnvelope) : option string :=
  started ← marshal_time (s_started s); completed ← marshal_time (s_completed s);
  assets ← marshal_slice marshal_observation (s_assets s);
  relationships ← marshal_slice marshal_relationship_observation (s_relationships s);
  warnings ← marshal_slice (fun w => Some (json_string w)) (s_warnings s);
  Some (json_object [("protocolVersion", json_string (s_protocol s));
    ("snapshotId", json_string (s_id s)); ("organizationId", json_string (s_org s));
    ("collectorId", json_string (s_collector s)); ("connectorId", json_string (s_connector s));
    ("connectorType", json_string (s_connector_type s));
    ("connectorVersion", json_string (s_connector_version s));
    ("startedAt", started); ("completedAt", completed);
    ("sequence", format_int (s_sequence s)); ("assets", assets);
    ("relationships", relationships); ("warnings", warnings);
    ("statistics", marshal_ints (s_statistics s));
    ("contentHash", json_string (s_content_hash s));
    ("signatureAlgorithm", json_string (s_algorithm s));
    ("signature", json_string (s_signature s))]).

(** ** Updates of the envelope *)

Definition with_signature (s : SnapshotEnvelope) (v : string) : SnapshotEnvelope :=
  {| s_protocol := s_protocol s; s_id := s_id s; s_org := s_org s; s_collector := s_collector s;
     s_connector := s_connector s; s_connector_type := s_connector_type s;
     s_connector_version := s_connector_version s; s_started := s_started s;
     s_completed := s_completed s; s_sequence := s_sequence s; s_assets := s_assets s;
     s_relationships := s_relationships s; s_warnings := s_warnings s;
     s_statistics := s_statistics s; s_content_hash := s_content_hash s;
     s_algorithm := s_algorithm s; s_signature := v |}.

Definition with_content_hash (s : SnapshotEnvelope) (v : string) : SnapshotEnvelope :=
  {| s_protocol := s_protocol s; s_id := s_id s; s_org := s_org s; s_collector := s_collector s;
     s_connector := s_connector s; s_connector_type := s_connector_type s;
     s_connector_version := s_connector_version s; s_started := s_started s;
     s_completed := s_completed s; s_sequence := s_sequence s; s_assets := s_assets s;
     s_relationships := s_relationships s; s_warnings := s_warnings s;
     s_statistics := s_statistics s; s_content_hash := v;
     s_algorithm := s_algorithm s; s_signature := s_signature s |}.

Definition with_algorithm (s : SnapshotEnvelope) (v : string) : SnapshotEnvelope :=
  {| s_protocol := s_protocol s; s_id := s_id s; s_org := s_org s; s_collector := s_collector s;
     s_connector := s_connector s; s_connector_type := s_connector_type s;
     s_connector_version := s_connector_version s; s_started := s_started s;
     s_completed := s_completed s; s_sequence := s_sequence s; s_assets := s_assets s;
     s_relationships := s_relationships s; s_warnings := s_warnings s;
     s_statistics := s_statistics s; s_content_hash := s_content_hash s;
     s_algorithm := v; s_signature := s_signature s |}.

(** [SigningBytes]: the JSON of the envelope with its signature cleared. *)
Definition SigningBytes (s : SnapshotEnvelope) : option string :=
  marshal_envelope (with_signature s "").

(** ** The values change events carry *)

Inductive any_value :=
| AnyNil
| AnyString (s : string)
| AnyJson (v : json)
| AnyAsset (a : Asset)
| AnyRelationship (r : Relationship).

(** [b, _ := json.Marshal(v)]: an error leaves the empty message. *)
Definition marshal_any (v : any_value) : string :=
  match v with
  | AnyNil => "null"
  | AnyString s => json_string s
  | AnyJson v => Marshal v
  | AnyAsset a => default "" (marshal_asset a)
  | AnyRelationship r => default "" (marshal_relationship r)
  end.
