(* ===== verification/DomainJson.v ===== *)
(** * Reading the records of the domain model

    The decoders of [encoding/json] for the structs of
    [internal/domain/model.go]: the names of the fields are those the structs'
    tags give, or the fields' own. *)
From S2P Require Import Prelude GoStrings GoJson GoJsonDecode Domain.
Open Scope string_scope.
Open Scope list_scope.

Definition zero_observation : Observation := Build_Observation "" "" "" "" "" "" "" 0 None None "" "".
Definition zero_relationship : RelationshipObservation := Build_RelationshipObservation "" "" "" "" "" "" 0 None.
Definition zero_envelope : SnapshotEnvelope :=
  Build_SnapshotEnvelope "" "" "" "" "" "" "" 0 0 0 None None None None "" "" "".

Section Decoders.
Context `{UnicodeCase} (strict : bool).

Definition observation_fields : list (field Observation) := [
  into "ID" o_id (fun v '(Build_Observation _ x1 x2 x3 x4 x5 x6 x7 x8 x9 x10 x11) => Build_Observation v x1 x2 x3 x4 x5 x6 x7 x8 x9 x10 x11) dec_string;
  into "OrganizationID" o_org (fun v '(Build_Observation x0 _ x2 x3 x4 x5 x6 x7 x8 x9 x10 x11) => Build_Observation x0 v x2 x3 x4 x5 x6 x7 x8 x9 x10 x11) dec_string;
  into "SnapshotID" o_snapshot (fun v '(Build_Observation x0 x1 _ x3 x4 x5 x6 x7 x8 x9 x10 x11) => Build_Observation x0 x1 v x3 x4 x5 x6 x7 x8 x9 x10 x11) dec_string;
  into "ConnectorID" o_connector (fun v '(Build_Observation x0 x1 x2 _ x4 x5 x6 x7 x8 x9 x10 x11) => Build_Observation x0 x1 x2 v x4 x5 x6 x7 x8 x9 x10 x11) dec_string;
  into "CollectorID" o_collector (fun v '(Build_Observation x0 x1 x2 x3 _ x5 x6 x7 x8 x9 x10 x11) => Build_Observation x0 x1 x2 x3 v x5 x6 x7 x8 x9 x10 x11) dec_string;
  into "ExternalID" o_external (fun v '(Build_Observation x0 x1 x2 x3 x4 _ x6 x7 x8 x9 x10 x11) => Build_Observation x0 x1 x2 x3 x4 v x6 x7 x8 x9 x10 x11) dec_string;
  into "AssetType" o_type (fun v '(Build_Observation x0 x1 x2 x3 x4 x5 _ x7 x8 x9 x10 x11) => Build_Observation x0 x1 x2 x3 x4 x5 v x7 x8 x9 x10 x11) dec_string;
  into "ObservedAt" o_observed (fun v '(Build_Observation x0 x1 x2 x3 x4 x5 x6 _ x8 x9 x10 x11) => Build_Observation x0 x1 x2 x3 x4 x5 x6 v x8 x9 x10 x11) dec_time;
  into "Attributes" o_attributes (fun v '(Build_Observation x0 x1 x2 x3 x4 x5 x6 x7 _ x9 x10 x11) => Build_Observation x0 x1 x2 x3 x4 x5 x6 x7 v x9 x10 x11) (dec_map to_any);
  into "IdentityHints" o_hints (fun v '(Build_Observation x0 x1 x2 x3 x4 x5 x6 x7 x8 _ x10 x11) => Build_Observation x0 x1 x2 x3 x4 x5 x6 x7 x8 v x10 x11) (dec_map to_any);
  into "Fingerprint" o_fingerprint (fun v '(Build_Observation x0 x1 x2 x3 x4 x5 x6 x7 x8 x9 _ x11) => Build_Observation x0 x1 x2 x3 x4 x5 x6 x7 x8 x9 v x11) dec_string;
  into "Status" o_status (fun v '(Build_Observation x0 x1 x2 x3 x4 x5 x6 x7 x8 x9 x10 _) => Build_Observation x0 x1 x2 x3 x4 x5 x6 x7 x8 x9 x10 v) dec_string].

Definition dec_observation : Decoder Observation := dec_struct strict observation_fields.

Definition relationship_fields : list (field RelationshipObservation) := [
  into "RelationshipID" ro_relationship (fun v '(Build_RelationshipObservation _ x1 x2 x3 x4 x5 x6 x7) => Build_RelationshipObservation v x1 x2 x3 x4 x5 x6 x7) dec_string;
  into "SnapshotID" ro_snapshot (fun v '(Build_RelationshipObservation x0 _ x2 x3 x4 x5 x6 x7) => Build_RelationshipObservation x0 v x2 x3 x4 x5 x6 x7) dec_string;
  into "ConnectorID" ro_connector (fun v '(Build_RelationshipObservation x0 x1 _ x3 x4 x5 x6 x7) => Build_RelationshipObservation x0 x1 v x3 x4 x5 x6 x7) dec_string;
  into "ExternalFromID" ro_from (fun v '(Build_RelationshipObservation x0 x1 x2 _ x4 x5 x6 x7) => Build_RelationshipObservation x0 x1 x2 v x4 x5 x6 x7) dec_string;
  into "ExternalToID" ro_to (fun v '(Build_RelationshipObservation x0 x1 x2 x3 _ x5 x6 x7) => Build_RelationshipObservation x0 x1 x2 x3 v x5 x6 x7) dec_string;
  into "Type" ro_type (fun v '(Build_RelationshipObservation x0 x1 x2 x3 x4 _ x6 x7) => Build_RelationshipObservation x0 x1 x2 x3 x4 v x6 x7) dec_string;
  into "ObservedAt" ro_observed (fun v '(Build_RelationshipObservation x0 x1 x2 x3 x4 x5 _ x7) => Build_RelationshipObservation x0 x1 x2 x3 x4 x5 v x7) dec_time;
  into "Attributes" ro_attributes (fun v '(Build_RelationshipObservation x0 x1 x2 x3 x4 x5 x6 _) => Build_RelationshipObservation x0 x1 x2 x3 x4 x5 x6 v) (dec_map to_any)].

Definition dec_relationship : Decoder RelationshipObservation := dec_struct strict relationship_fields.

Definition envelope_fields : list (field SnapshotEnvelope) := [
  into "protocolVersion" s_protocol (fun v '(Build_SnapshotEnvelope _ x1 x2 x3 x4 x5 x6 x7 x8 x9 x10 x11 x12 x13 x14 x15 x16) => Build_SnapshotEnvelope v x1 x2 x3 x4 x5 x6 x7 x8 x9 x10 x11 x12 x13 x14 x15 x16) dec_string;
  into "snapshotId" s_id (fun v '(Build_SnapshotEnvelope x0 _ x2 x3 x4 x5 x6 x7 x8 x9 x10 x11 x12 x13 x14 x15 x16) => Build_SnapshotEnvelope x0 v x2 x3 x4 x5 x6 x7 x8 x9 x10 x11 x12 x13 x14 x15 x16) dec_string;
  into "organizationId" s_org (fun v '(Build_SnapshotEnvelope x0 x1 _ x3 x4 x5 x6 x7 x8 x9 x10 x11 x12 x13 x14 x15 x16) => Build_SnapshotEnvelope x0 x1 v x3 x4 x5 x6 x7 x8 x9 x10 x11 x12 x13 x14 x15 x16) dec_string;
  into "collectorId" s_collector (fun v '(Build_SnapshotEnvelope x0 x1 x2 _ x4 x5 x6 x7 x8 x9 x10 x11 x12 x13 x14 x15 x16) => Build_SnapshotEnvelope x0 x1 x2 v x4 x5 x6 x7 x8 x9 x10 x11 x12 x13 x14 x15 x16) dec_string;
  into "connectorId" s_connector (fun v '(Build_SnapshotEnvelope x0 x1 x2 x3 _ x5 x6 x7 x8 x9 x10 x11 x12 x13 x14 x15 x16) => Build_SnapshotEnvelope x0 x1 x2 x3 v x5 x6 x7 x8 x9 x10 x11 x12 x13 x14 x15 x16) dec_string;
  into "connectorType" s_connector_type (fun v '(Build_SnapshotEnvelope x0 x1 x2 x3 x4 _ x6 x7 x8 x9 x10 x11 x12 x13 x14 x15 x16) => Build_SnapshotEnvelope x0 x1 x2 x3 x4 v x6 x7 x8 x9 x10 x11 x12 x13 x14 x15 x16) dec_string;
  into "connectorVersion" s_connector_version (fun v '(Build_SnapshotEnvelope x0 x1 x2 x3 x4 x5 _ x7 x8 x9 x10 x11 x12 x13 x14 x15 x16) => Build_SnapshotEnvelope x0 x1 x2 x3 x4 x5 v x7 x8 x9 x10 x11 x12 x13 x14 x15 x16) dec_string;
  into "startedAt" s_started (fun v '(Build_SnapshotEnvelope x0 x1 x2 x3 x4 x5 x6 _ x8 x9 x10 x11 x12 x13 x14 x15 x16) => Build_SnapshotEnvelope x0 x1 x2 x3 x4 x5 x6 v x8 x9 x10 x11 x12 x13 x14 x15 x16) dec_time;
  into "completedAt" s_completed (fun v '(Build_SnapshotEnvelope x0 x1 x2 x3 x4 x5 x6 x7 _ x9 x10 x11 x12 x13 x14 x15 x16) => Build_SnapshotEnvelope x0 x1 x2 x3 x4 x5 x6 x7 v x9 x10 x11 x12 x13 x14 x15 x16) dec_time;
  into "sequence" s_sequence (fun v '(Build_SnapshotEnvelope x0 x1 x2 x3 x4 x5 x6 x7 x8 _ x10 x11 x12 x13 x14 x15 x16) => Build_SnapshotEnvelope x0 x1 x2 x3 x4 x5 x6 x7 x8 v x10 x11 x12 x13 x14 x15 x16) dec_int;
  into "assets" s_assets (fun v '(Build_SnapshotEnvelope x0 x1 x2 x3 x4 x5 x6 x7 x8 x9 _ x11 x12 x13 x14 x15 x16) => Build_SnapshotEnvelope x0 x1 x2 x3 x4 x5 x6 x7 x8 x9 v x11 x12 x13 x14 x15 x16) (dec_slice zero_observation dec_observation);
  into "relationships" s_relationships (fun v '(Build_SnapshotEnvelope x0 x1 x2 x3 x4 x5 x6 x7 x8 x9 x10 _ x12 x13 x14 x15 x16) => Build_SnapshotEnvelope x0 x1 x2 x3 x4 x5 x6 x7 x8 x9 x10 v x12 x13 x14 x15 x16) (dec_slice zero_relationship dec_relationship);
  into "warnings" s_warnings (fun v '(Build_SnapshotEnvelope x0 x1 x2 x3 x4 x5 x6 x7 x8 x9 x10 x11 _ x13 x14 x15 x16) => Build_SnapshotEnvelope x0 x1 x2 x3 x4 x5 x6 x7 x8 x9 x10 x11 v x13 x14 x15 x16) (dec_slice "" dec_string);
  into "statistics" s_statistics (fun v '(Build_SnapshotEnvelope x0 x1 x2 x3 x4 x5 x6 x7 x8 x9 x10 x11 x12 _ x14 x15 x16) => Build_SnapshotEnvelope x0 x1 x2 x3 x4 x5 x6 x7 x8 x9 x10 x11 x12 v x14 x15 x16) (dec_map (dec_int 0));
  into "contentHash" s_content_hash (fun v '(Build_SnapshotEnvelope x0 x1 x2 x3 x4 x5 x6 x7 x8 x9 x10 x11 x12 x13 _ x15 x16) => Build_SnapshotEnvelope x0 x1 x2 x3 x4 x5 x6 x7 x8 x9 x10 x11 x12 x13 v x15 x16) dec_string;
  into "signatureAlgorithm" s_algorithm (fun v '(Build_SnapshotEnvelope x0 x1 x2 x3 x4 x5 x6 x7 x8 x9 x10 x11 x12 x13 x14 _ x16) => Build_SnapshotEnvelope x0 x1 x2 x3 x4 x5 x6 x7 x8 x9 x10 x11 x12 x13 x14 v x16) dec_string;
  into "signature" s_signature (fun v '(Build_SnapshotEnvelope x0 x1 x2 x3 x4 x5 x6 x7 x8 x9 x10 x11 x12 x13 x14 x15 _) => Build_SnapshotEnvelope x0 x1 x2 x3 x4 x5 x6 x7 x8 x9 x10 x11 x12 x13 x14 x15 v) dec_string].

Definition dec_envelope : Decoder SnapshotEnvelope := dec_struct strict envelope_fields.

End Decoders.
