(* ===== verification/DomainText.v ===== *)
(** * Snapshots on the wire

    What [marshal_envelope] writes, the decoders of [DomainJson.v] read back:
    observations, relationships, and the envelope with its maps, numbers and
    times. *)
From S2P Require Import Prelude GoStrings GoUtf8 GoNumbers GoJson GoTime GoJsonDecode GoJsonText GoTimeText GoJsonRoundtrip Domain DomainJson.
Open Scope string_scope.
Open Scope list_scope.

(** The member of a struct for a string, with its text and document. *)
Definition string_member (name s : string) : string * (string * doc) := (name, (json_string s, DStr (literal s))).
Definition time_member (name : string) (t : gotime) : string * (string * doc) :=
  (name, (json_string (rfc3339nano t), DStr (literal (rfc3339nano t)))).
Definition map_member (name : string) (m : option (gmap string json)) : string * (string * doc) := (name, (marshal_map m, doc_map m)).

(** Decodes the fields of a struct one after the other. *)
Ltac decode_members :=
  repeat (cbn [decode_fields fd_decode into fst snd o_attributes o_hints ro_attributes s_assets s_relationships s_warnings s_statistics];
    first [rewrite dec_string_literal by done|rewrite dec_time_text by done|rewrite dec_int_format by done
          |erewrite dec_map_value by done|rewrite dec_map_ints by done];
    cbn [fmap option_fmap option_map mbind option_bind]; cbv beta iota);
  cbn [decode_fields fd_decode into fst snd o_attributes o_hints ro_attributes s_assets s_relationships s_warnings s_statistics].

(** ** Observations *)

(** Levels left for the values within an observation of an envelope. *)
Definition value_levels : Z := max_nesting - 3.

Lemma value_levels_nonneg : (0 <= value_levels)%Z.
Proof. by vm_compute. Qed.

Record wire_observation (o : Observation) : Prop := {
  wo_texts : Forall (fun s => utf8_valid s = true) [o_id o; o_org o; o_snapshot o; o_connector o; o_collector o; o_external o; o_type o;
    o_fingerprint o; o_status o];
  wo_time : wire_time (o_observed o);
  wo_attributes : wire_map value_levels (o_attributes o);
  wo_hints : wire_map value_levels (o_hints o) }.

Definition observation_members (o : Observation) : list (string * (string * doc)) := [
  string_member "ID" (o_id o); string_member "OrganizationID" (o_org o); string_member "SnapshotID" (o_snapshot o);
  string_member "ConnectorID" (o_connector o); string_member "CollectorID" (o_collector o); string_member "ExternalID" (o_external o);
  string_member "AssetType" (o_type o); time_member "ObservedAt" (o_observed o); map_member "Attributes" (o_attributes o);
  map_member "IdentityHints" (o_hints o); string_member "Fingerprint" (o_fingerprint o); string_member "Status" (o_status o)].

Definition text_of (members : list (string * (string * doc))) : string := json_object ((fun m => (m.1, m.2.1)) <$> members).
Definition document_of (members : list (string * (string * doc))) : doc := DObj ((fun m => (m.1, m.2.2)) <$> members).

Lemma marshal_observation_text o : wire_time (o_observed o) -> marshal_observation o = Some (text_of (observation_members o)).
Proof. intros Ht. unfold marshal_observation. by rewrite (marshal_time_text _ Ht). Qed.

Lemma reads_text n m : reads 0 m.2.1 m.2.2 -> utf8_valid m.1 = true -> (0 <= n)%Z -> utf8_valid m.1 = true /\ reads n m.2.1 m.2.2.
Proof. intros Hr Hu Hn. split; [done|]. by eapply reads_weaken. Qed.

Lemma string_member_reads n name s : utf8_valid name = true -> utf8_valid s = true -> (0 <= n)%Z ->
  utf8_valid (string_member name s).1 = true /\ reads n (string_member name s).2.1 (string_member name s).2.2.
Proof. intros Hn Hs Hle. apply reads_text; [|done|done]. by apply closed_reads, reads_literal. Qed.

Lemma time_member_reads n name t : utf8_valid name = true -> wire_time t -> (0 <= n)%Z ->
  utf8_valid (time_member name t).1 = true /\ reads n (time_member name t).2.1 (time_member name t).2.2.
Proof. intros Hn Ht Hle. apply reads_text; [|done|done]. by apply reads_time. Qed.

Lemma map_member_reads n name m : utf8_valid name = true -> (0 <= n)%Z -> wire_map n m ->
  utf8_valid (map_member name m).1 = true /\ reads n (map_member name m).2.1 (map_member name m).2.2.
Proof. intros Hn Hle Hm. split; [done|]. by apply reads_map. Qed.

(** The members of a struct, each by its kind. *)
Ltac read_member :=
  match goal with
  | |- utf8_valid (string_member _ _).1 = true /\ _ => by apply string_member_reads
  | |- utf8_valid (time_member _ _).1 = true /\ _ => by apply time_member_reads
  | |- utf8_valid (map_member _ _).1 = true /\ _ => by apply map_member_reads
  end.
Ltac read_members := repeat (apply Forall_cons; split); [read_member..|by apply Forall_nil].

Section Wire.
Context `{UnicodeCase} (strict : bool).

Lemma reads_observation o : wire_observation o -> reads (value_levels + 1) (text_of (observation_members o)) (document_of (observation_members o)).
Proof.
  intros [Hs Ht Ha Hh]. rewrite !Forall_cons in Hs. destruct_and!. pose proof value_levels_nonneg. apply closed_reads, reads_struct; [|done].
  read_members.
Qed.

Lemma dec_observation_text o : wire_observation o -> dec_observation strict zero_observation (document_of (observation_members o)) = Some o.
Proof.
  intros [Hs Ht Ha Hh]. rewrite !Forall_cons in Hs. destruct_and!. unfold dec_observation, document_of.
  rewrite dec_struct_in_order; [|by apply (bool_decide_unpack _)|done].
  unfold observation_fields, zero_observation. cbn [fmap list_fmap observation_members string_member time_member map_member fst snd].
  decode_members. by destruct o.
Qed.

(** ** Relationships *)

Record wire_relationship (r : RelationshipObservation) : Prop := {
  wr_texts : Forall (fun s => utf8_valid s = true) [ro_relationship r; ro_snapshot r; ro_connector r; ro_from r; ro_to r; ro_type r];
  wr_time : wire_time (ro_observed r);
  wr_attributes : wire_map value_levels (ro_attributes r) }.

Definition relationship_members (r : RelationshipObservation) : list (string * (string * doc)) := [
  string_member "RelationshipID" (ro_relationship r); string_member "SnapshotID" (ro_snapshot r); string_member "ConnectorID" (ro_connector r);
  string_member "ExternalFromID" (ro_from r); string_member "ExternalToID" (ro_to r); string_member "Type" (ro_type r);
  time_member "ObservedAt" (ro_observed r); map_member "Attributes" (ro_attributes r)].

Lemma marshal_relationship_text r : wire_time (ro_observed r) -> marshal_relationship_observation r = Some (text_of (relationship_members r)).
Proof. intros Ht. unfold marshal_relationship_observation. by rewrite (marshal_time_text _ Ht). Qed.

Lemma reads_relationship r : wire_relationship r -> reads (value_levels + 1) (text_of (relationship_members r)) (document_of (relationship_members r)).
Proof.
  intros [Hs Ht Ha]. rewrite !Forall_cons in Hs. destruct_and!. pose proof value_levels_nonneg. apply closed_reads, reads_struct; [|done].
  read_members.
Qed.

Lemma dec_relationship_text r : wire_relationship r -> dec_relationship strict zero_relationship (document_of (relationship_members r)) = Some r.
Proof.
  intros [Hs Ht Ha]. rewrite !Forall_cons in Hs. destruct_and!. unfold dec_relationship, document_of.
  rewrite dec_struct_in_order; [|by apply (bool_decide_unpack _)|done].
  unfold relationship_fields, zero_relationship. cbn [fmap list_fmap relationship_members string_member time_member map_member fst snd].
  decode_members. by destruct r.
Qed.

(** ** Envelopes *)

Record wire_envelope (s : SnapshotEnvelope) : Prop := {
  we_texts : Forall (fun s => utf8_valid s = true) [s_protocol s; s_id s; s_org s; s_collector s; s_connector s; s_connector_type s;
    s_connector_version s; s_content_hash s; s_algorithm s; s_signature s];
  we_times : wire_time (s_started s) /\ wire_time (s_completed s);
  we_sequence : int64 (s_sequence s);
  we_assets : wire_slice wire_observation (s_assets s);
  we_relationships : wire_slice wire_relationship (s_relationships s);
  we_warnings : wire_slice (fun w => utf8_valid w = true) (s_warnings s);
  we_statistics : wire_ints (s_statistics s) }.

(** A member that is a slice of structs or texts, a number, or a map of numbers. *)
Definition slice_text {A} (f : A -> string) (l : option (list A)) : string := match l with None => "null" | Some l => json_array (f <$> l) end.
Definition slice_member {A} (name : string) (f : A -> string) (g : A -> doc) (l : option (list A)) : string * (string * doc) :=
  (name, (slice_text f l, doc_slice g l)).
Definition int_member (name : string) (z : Z) : string * (string * doc) := (name, (format_int z, DNum (format_int z))).
Definition ints_member (name : string) (m : option (gmap string Z)) : string * (string * doc) := (name, (marshal_ints m, doc_ints m)).

Definition envelope_members (s : SnapshotEnvelope) : list (string * (string * doc)) := [
  string_member "protocolVersion" (s_protocol s); string_member "snapshotId" (s_id s); string_member "organizationId" (s_org s);
  string_member "collectorId" (s_collector s); string_member "connectorId" (s_connector s); string_member "connectorType" (s_connector_type s);
  string_member "connectorVersion" (s_connector_version s); time_member "startedAt" (s_started s); time_member "completedAt" (s_completed s);
  int_member "sequence" (s_sequence s);
  slice_member "assets" (fun o => text_of (observation_members o)) (fun o => document_of (observation_members o)) (s_assets s);
  slice_member "relationships" (fun r => text_of (relationship_members r)) (fun r => document_of (relationship_members r)) (s_relationships s);
  slice_member "warnings" json_string (fun w => DStr (literal w)) (s_warnings s); ints_member "statistics" (s_statistics s);
  string_member "contentHash" (s_content_hash s); string_member "signatureAlgorithm" (s_algorithm s); string_member "signature" (s_signature s)].

Lemma marshal_slice_text {A} (f : A -> option string) (g : A -> string) l : wire_slice (fun x => f x = Some (g x)) l ->
  marshal_slice f l = Some (slice_text g l).
Proof.
  destruct l as [l|]; [|done]. cbn [wire_slice marshal_slice slice_text]. intros Hl.
  assert (mapM f l = Some (g <$> l)) as ->; [|done].
  induction Hl as [|x l Hx _ IH]; [done|]. cbn [mapM]. by rewrite Hx; cbn; rewrite IH.
Qed.

Lemma wire_slice_impl {A} (P Q : A -> Prop) l : wire_slice P l -> (forall x, P x -> Q x) -> wire_slice Q l.
Proof. destruct l as [l|]; [|done]. cbn. intros Hl HPQ. by eapply Forall_impl. Qed.

Lemma marshal_envelope_text s : wire_envelope s -> marshal_envelope s = Some (text_of (envelope_members s)).
Proof.
  intros [_ [Hst Hc] _ Ha Hr Hw _]. unfold marshal_envelope. rewrite (marshal_time_text _ Hst), (marshal_time_text _ Hc).
  rewrite (marshal_slice_text marshal_observation (fun o => text_of (observation_members o)))
    by (eapply wire_slice_impl; [exact Ha|]; intros o Ho; by apply marshal_observation_text, Ho).
  rewrite (marshal_slice_text marshal_relationship_observation (fun r => text_of (relationship_members r)))
    by (eapply wire_slice_impl; [exact Hr|]; intros r Hr'; by apply marshal_relationship_text, Hr').
  rewrite (marshal_slice_text (fun w => Some (json_string w)) json_string) by (eapply wire_slice_impl; [exact Hw|done]). done.
Qed.

(** Levels left within the members of the envelope. *)
Definition member_levels : Z := max_nesting - 1.

Lemma member_levels_value : (value_levels + 2 = member_levels)%Z.
Proof. done. Qed.

Lemma slice_member_reads {A} name f g (l : option (list A)) : utf8_valid name = true ->
  wire_slice (fun x => reads (value_levels + 1) (f x) (g x)) l ->
  utf8_valid (slice_member name f g l).1 = true /\ reads member_levels (slice_member name f g l).2.1 (slice_member name f g l).2.2.
Proof.
  intros Hn Hl. split; [done|]. pose proof value_levels_nonneg. pose proof member_levels_value. destruct l as [l|]; cbn [slice_member fst snd slice_text doc_slice].
  - eapply reads_weaken; [|apply closed_reads, reads_array; [apply Forall2_fmap, Forall_Forall2_diag; exact Hl|lia]]. lia.
  - eapply reads_weaken; [|apply closed_reads, reads_word; by left]. lia.
Qed.

Lemma int_member_reads n name z : utf8_valid name = true -> (0 <= n)%Z ->
  utf8_valid (int_member name z).1 = true /\ reads n (int_member name z).2.1 (int_member name z).2.2.
Proof. intros Hn Hle. apply reads_text; [|done|done]. apply reads_number, is_number_int. Qed.

Lemma ints_member_reads n name m : utf8_valid name = true -> (1 <= n)%Z -> wire_ints m ->
  utf8_valid (ints_member name m).1 = true /\ reads n (ints_member name m).2.1 (ints_member name m).2.2.
Proof.
  intros Hn Hle Hm. split; [done|]. destruct m as [m|]; cbn [ints_member fst snd marshal_ints doc_ints].
  - eapply reads_weaken; [exact Hle|]. apply closed_reads, (reads_object 0); [|done]. apply Forall2_fmap, Forall_Forall2_diag, Forall_forall.
    intros [k z] Hin. rewrite sorted_entries_perm in Hin. apply elem_of_map_to_list in Hin. destruct (Hm _ _ Hin) as [Hk _].
    split_and!; [done|done|]. apply reads_number, is_number_int.
  - eapply reads_weaken; [|apply closed_reads, reads_word; by left]. lia.
Qed.

Lemma reads_envelope s : wire_envelope s -> reads_closed max_nesting (text_of (envelope_members s)) (document_of (envelope_members s)).
Proof.
  intros [Hs [Hst Hc] _ Ha Hr Hw Hi]. rewrite !Forall_cons in Hs. destruct_and!.
  assert (0 <= member_levels)%Z as Hle by (by vm_compute). assert (1 <= member_levels)%Z as Hle1 by (by vm_compute).
  change max_nesting with (member_levels + 1)%Z. apply reads_struct; [|done].
  repeat (apply Forall_cons; split); try read_member.
  - by apply int_member_reads.
  - apply slice_member_reads; [done|]. eapply wire_slice_impl; [exact Ha|]. intros o. apply reads_observation.
  - apply slice_member_reads; [done|]. eapply wire_slice_impl; [exact Hr|]. intros r. apply reads_relationship.
  - apply slice_member_reads; [done|]. eapply wire_slice_impl; [exact Hw|]. intros w Hu. eapply reads_weaken; [|by apply closed_reads, reads_literal]. by vm_compute.
  - by apply ints_member_reads.
  - by apply Forall_nil.
Qed.

Lemma dec_envelope_text s : wire_envelope s -> dec_envelope strict zero_envelope (document_of (envelope_members s)) = Some s.
Proof.
  intros [Hs [Hst Hc] Hseq Ha Hr Hw Hi]. rewrite !Forall_cons in Hs. destruct_and!. unfold dec_envelope, document_of.
  rewrite dec_struct_in_order; [|by apply (bool_decide_unpack _)|done].
  unfold envelope_fields, zero_envelope. cbn [fmap list_fmap envelope_members string_member time_member slice_member int_member ints_member fst snd].
  decode_members.
  erewrite dec_slice_value by (eapply wire_slice_impl; [exact Ha|]; intros o Ho; by apply dec_observation_text). cbn [fmap option_fmap option_map mbind option_bind].
  decode_members.
  erewrite dec_slice_value by (eapply wire_slice_impl; [exact Hr|]; intros r Hr'; by apply dec_relationship_text). cbn [fmap option_fmap option_map mbind option_bind].
  decode_members.
  erewrite dec_slice_value by (eapply wire_slice_impl; [exact Hw|]; intros w Hw'; by apply dec_string_literal). cbn [fmap option_fmap option_map mbind option_bind].
  decode_members. by destruct s.
Qed.

End Wire.
