(* ===== verification/Reconcile.v ===== *)
(** * The in-memory reconciliation engine ([internal/reconcile/reconcile.go])

    [State] is the engine's state, [Apply] its one operation. Go ranges over a
    map in an unspecified order, which may differ from one [range] to the next:
    [RangeOrder] is that choice, and every theorem is for all of them. *)
From S2P Require Import Prelude GoStrings GoJson Domain.
From Stdlib Require Import Ascii.
Open Scope string_scope.

(** ** Iteration order of Go maps *)

(** [range site m] is the order in which the [range] statement executed at
    [site] visits [m]: each entry once. *)
Class RangeOrder := {
  range : forall {A : Type}, nat -> gmap string A -> list (string * A);
  range_perm : forall {A : Type} (site : nat) (m : gmap string A), range site m ≡ₚ map_to_list m }.

(** ** Data *)

Definition Authoritative := "AUTHORITATIVE".
Definition Observed := "OBSERVED".
Definition Declared := "DECLARED".

Record Policy := {
  AttributeAuthority : gmap string (gmap string string);
  MissingAfterSuccessfulRuns : Z }.

Record State := {
  Assets : gmap string Asset;
  ExternalToAsset : gmap string string;
  Claims : gmap string (list AttributeClaim);
  Relationships : gmap string Relationship;
  Changes : gmap string Change;
  SuccessfulAbsences : gmap string Z;
  ProcessedSnapshots : gmap string string }.

Record Summary := {
  Created : Z; Updated : Z; Unchanged : Z; Missing : Z; Conflicting : Z;
  RelationshipsCreated : Z; RelationshipsRemoved : Z; ChangeCount : Z }.

Definition no_summary : Summary := Build_Summary 0 0 0 0 0 0 0 0.

Inductive counter :=
| CCreated | CUpdated | CUnchanged | CMissing | CConflicting | CRelCreated | CRelRemoved | CChanges.

#[export] Instance counter_eq_dec : EqDecision counter.
Proof. solve_decision. Defined.

(** [summary.X++]. *)
Definition bump (c : counter) (s : Summary) : Summary :=
  let d x := (if bool_decide (c = x) then 1 else 0)%Z in
  {| Created := Created s + d CCreated; Updated := Updated s + d CUpdated;
     Unchanged := Unchanged s + d CUnchanged; Missing := Missing s + d CMissing;
     Conflicting := Conflicting s + d CConflicting;
     RelationshipsCreated := RelationshipsCreated s + d CRelCreated;
     RelationshipsRemoved := RelationshipsRemoved s + d CRelRemoved;
     ChangeCount := ChangeCount s + d CChanges |}%Z.

Definition NewState : State := Build_State ∅ ∅ ∅ ∅ ∅ ∅ ∅.

(** ** Setters *)

Definition set_assets (st : State) (v : gmap string Asset) : State :=
  Build_State v (ExternalToAsset st) (Claims st) (Relationships st) (Changes st)
    (SuccessfulAbsences st) (ProcessedSnapshots st).
Definition set_external (st : State) (v : gmap string string) : State :=
  Build_State (Assets st) v (Claims st) (Relationships st) (Changes st)
    (SuccessfulAbsences st) (ProcessedSnapshots st).
Definition set_claims (st : State) (v : gmap string (list AttributeClaim)) : State :=
  Build_State (Assets st) (ExternalToAsset st) v (Relationships st) (Changes st)
    (SuccessfulAbsences st) (ProcessedSnapshots st).
Definition set_relationships (st : State) (v : gmap string Relationship) : State :=
  Build_State (Assets st) (ExternalToAsset st) (Claims st) v (Changes st)
    (SuccessfulAbsences st) (ProcessedSnapshots st).
Definition set_changes (st : State) (v : gmap string Change) : State :=
  Build_State (Assets st) (ExternalToAsset st) (Claims st) (Relationships st) v
    (SuccessfulAbsences st) (ProcessedSnapshots st).
Definition set_absences (st : State) (v : gmap string Z) : State :=
  Build_State (Assets st) (ExternalToAsset st) (Claims st) (Relationships st) (Changes st)
    v (ProcessedSnapshots st).
Definition set_processed (st : State) (v : gmap string string) : State :=
  Build_State (Assets st) (ExternalToAsset st) (Claims st) (Relationships st) (Changes st)
    (SuccessfulAbsences st) v.

(** The zero [domain.Asset] a missing key reads as. *)
Definition zero_asset : Asset := Build_Asset "" "" "" "" "" "" "" "" "" "" 0 0 0 0 None.

Definition asset_at (st : State) (id : string) : Asset := default zero_asset (Assets st !! id).

Definition asset_seen (a : Asset) (now : gotime) : Asset :=
  {| a_id := a_id a; a_org := a_org a; a_canonical := a_canonical a; a_display := a_display a;
     a_type := a_type a; a_status := AssetActive; a_environment := a_environment a;
     a_site := a_site a; a_owner := a_owner a; a_criticality := a_criticality a;
     a_first_seen := a_first_seen a; a_last_seen := now; a_created := a_created a;
     a_updated := now; a_retired := a_retired a |}.

Definition asset_status (a : Asset) (status : string) (updated : gotime) : Asset :=
  {| a_id := a_id a; a_org := a_org a; a_canonical := a_canonical a; a_display := a_display a;
     a_type := a_type a; a_status := status; a_environment := a_environment a;
     a_site := a_site a; a_owner := a_owner a; a_criticality := a_criticality a;
     a_first_seen := a_first_seen a; a_last_seen := a_last_seen a; a_created := a_created a;
     a_updated := updated; a_retired := a_retired a |}.

Definition rel_seen (r : Relationship) (now : gotime) : Relationship :=
  {| r_id := r_id r; r_org := r_org r; r_from := r_from r; r_to := r_to r; r_type := r_type r;
     r_status := "ACTIVE"; r_first_seen := r_first_seen r; r_last_seen := now;
     r_created := r_created r; r_updated := now |}.

Definition rel_removed (r : Relationship) (now : gotime) : Relationship :=
  {| r_id := r_id r; r_org := r_org r; r_from := r_from r; r_to := r_to r; r_type := r_type r;
     r_status := "REMOVED"; r_first_seen := r_first_seen r; r_last_seen := r_last_seen r;
     r_created := r_created r; r_updated := now |}.

Definition deactivate (c : AttributeClaim) : AttributeClaim :=
  {| c_asset := c_asset c; c_key := c_key c; c_value := c_value c; c_connector := c_connector c;
     c_snapshot := c_snapshot c; c_observed := c_observed c; c_authority := c_authority c;
     c_confidence := c_confidence c; c_active := false |}.

(** ** Names *)

(** [safe]: lower-cased, every rune outside [a-z0-9-] a dash, dashes trimmed. *)
Definition safe_rune (r : N) : ascii :=
  if ((97 <=? r) && (r <=? 122) || (48 <=? r) && (r <=? 57) || (r =? 45))%N
  then ascii_of_N r else "-"%char.

Definition safe (v : string) : string :=
  trim_cut ["-"%char] (String.string_of_list_ascii (safe_rune <$> runes (to_lower v))).

(** [name]: the first of three attributes that prints as a non-blank value. *)
Definition name (o : Observation) : string :=
  let value k := trim_space (sprint_lookup (attrs o !! k)) in
  let usable k := negb (bool_decide (value k = "")) && negb (bool_decide (value k = "<nil>")) in
  match find usable ["name"; "hostname"; "display_name"] with
  | Some k => value k
  | None => o_external o
  end.

(** ** Effective values *)

Definition authority_of (p : Policy) (connector attribute : string) : string :=
  default "" (m ← AttributeAuthority p !! connector; m !! attribute).

Definition rank (a : string) : Z :=
  if bool_decide (a = Authoritative) then 3 else if bool_decide (a = Observed) then 2 else 1.

(** The [less] of [sort.SliceStable]. *)
Definition claim_less (p : Policy) (attribute : string) (x y : AttributeClaim) : bool :=
  let rx := rank (authority_of p (c_connector x) attribute) in
  let ry := rank (authority_of p (c_connector y) attribute) in
  if bool_decide (rx = ry) then (c_observed y <? c_observed x)%Z else (ry <? rx)%Z.

Definition active_claims (claims : list AttributeClaim) (attribute : string) : list AttributeClaim :=
  filter (fun c => c_active c = true /\ c_key c = attribute) claims.

Definition Effective (claims : list AttributeClaim) (attribute : string) (p : Policy) : EffectiveAttribute :=
  let active := stable_sort (claim_less p attribute) (active_claims claims attribute) in
  match active with
  | [] => {| e_value := JNull; e_conflict := false; e_reason := "no active claims"; e_claims := [] |}
  | c :: _ =>
      let distinct : gset string := list_to_set (Marshal ∘ c_value <$> active) in
      let reason := if ((size distinct =? 1) && (1 <? length active))%nat
                    then "multiple active sources agree"
                    else "most recent claim at highest configured authority" in
      {| e_value := c_value c; e_conflict := (1 <? size distinct)%nat;
         e_reason := reason; e_claims := active |}
  end.

(** ** The steps of [Apply] *)

(** What the loops of [Apply] thread: the state and the summary. *)
Record Work := { w_state : State; w_summary : Summary }.

Definition on_state (f : State -> State) (w : Work) : Work :=
  {| w_state := f (w_state w); w_summary := w_summary w |}.
Definition count (c : counter) (w : Work) : Work :=
  {| w_state := w_state w; w_summary := bump c (w_summary w) |}.

Definition put_asset (id : string) (a : Asset) : Work -> Work :=
  on_state (fun st => set_assets st (<[id := a]> (Assets st))).

Definition change_key (s : SnapshotEnvelope) (assetID typ : string) : string :=
  s_id s +:+ "|" +:+ assetID +:+ "|" +:+ typ.

Definition new_change (s : SnapshotEnvelope) (assetID typ : string) (before after : any_value)
    (reason : string) : Change :=
  let key := change_key s assetID typ in
  {| ch_id := "change-" +:+ safe key; ch_org := s_org s; ch_asset := assetID;
     ch_relationship := ""; ch_type := typ; ch_before := marshal_any before;
     ch_after := marshal_any after; ch_source := s_connector s; ch_detected := s_completed s;
     ch_summary := reason; ch_confidence := "DETERMINISTIC"; ch_logical := key |}.

Definition addChange (s : SnapshotEnvelope) (assetID typ : string) (before after : any_value)
    (reason : string) (w : Work) : Work :=
  let st := w_state w in
  match Changes st !! change_key s assetID typ with
  | Some _ => w
  | None =>
      count CChanges
        {| w_state := set_changes st
             (<[change_key s assetID typ := new_change s assetID typ before after reason]> (Changes st));
           w_summary := w_summary w |}
  end.

Definition key_prefix (s : SnapshotEnvelope) : string := s_org s +:+ "|" +:+ s_connector s +:+ "|".
Definition external_key (s : SnapshotEnvelope) (ext : string) : string := key_prefix s +:+ ext.

Definition asset_ref (st : State) (key : string) : string := default "" (ExternalToAsset st !! key).

(** The identity an observation resolves to: the known one, else a new one. *)
Definition resolve_asset (s : SnapshotEnvelope) (o : Observation) (st : State) : string :=
  let known := asset_ref st (external_key s (o_external o)) in
  if bool_decide (known = "") then "asset-" +:+ safe (o_external o) else known.

Definition new_asset (s : SnapshotEnvelope) (now : gotime) (o : Observation) (assetID : string) : Asset :=
  {| a_id := assetID; a_org := s_org s; a_canonical := name o; a_display := name o;
     a_type := o_type o; a_status := AssetActive; a_environment := ""; a_site := "";
     a_owner := ""; a_criticality := ""; a_first_seen := now; a_last_seen := now;
     a_created := now; a_updated := now; a_retired := None |}.

(** Lines 104-127: create the asset, or mark it seen. *)
Definition observe_asset (s : SnapshotEnvelope) (now : gotime) (o : Observation) (w : Work) : Work :=
  let st := w_state w in
  let key := external_key s (o_external o) in
  let assetID := resolve_asset s o st in
  if bool_decide (asset_ref st key = "") then
    let a := new_asset s now o assetID in
    addChange s assetID "ASSET_DISCOVERED" AnyNil (AnyAsset a) "asset discovered"
      (count CCreated
        (put_asset assetID a
          (on_state (fun st => set_external st (<[key := assetID]> (ExternalToAsset st))) w)))
  else
    let before := a_status (asset_at st assetID) in
    let w := put_asset assetID (asset_seen (asset_at st assetID) now) w in
    if bool_decide (before = AssetMissing)
    then count CUpdated (addChange s assetID "ASSET_RETURNED" (AnyString before) (AnyString AssetActive) "asset returned" w)
    else count CUnchanged w.

Definition new_claim (p : Policy) (s : SnapshotEnvelope) (o : Observation) (assetID k : string) (v : json) : AttributeClaim :=
  {| c_asset := assetID; c_key := k; c_value := v; c_connector := s_connector s;
     c_snapshot := s_id s; c_observed := o_observed o;
     c_authority := authority_of p (s_connector s) k; c_confidence := "OBSERVED"; c_active := true |}.

Definition claim_key (assetID k : string) : string := assetID +:+ "|" +:+ k.

Definition claims_at (st : State) (ck : string) : list AttributeClaim := default [] (Claims st !! ck).

(** The connector's older claims are deactivated, the new one is appended. *)
Definition replace_claims (s : SnapshotEnvelope) (c : AttributeClaim) (l : list AttributeClaim) : list AttributeClaim :=
  ((fun x => if bool_decide (c_connector x = s_connector s) then deactivate x else x) <$> l) ++ [c].

(** Lines 130-147: one attribute of an observation. *)
Definition apply_claim (p : Policy) (s : SnapshotEnvelope) (o : Observation) (assetID : string)
    (w : Work) (kv : string * json) : Work :=
  let '(k, v) := kv in
  let ck := claim_key assetID k in
  let claims := replace_claims s (new_claim p s o assetID k v) (claims_at (w_state w) ck) in
  let w := on_state (fun st => set_claims st (<[ck := claims]> (Claims st))) w in
  let eff := Effective claims k p in
  if e_conflict eff then
    let a := asset_at (w_state w) assetID in
    addChange s assetID "SOURCE_CONFLICT" AnyNil (AnyJson (e_value eff)) "source claims conflict"
      (count CConflicting (put_asset assetID (asset_status a AssetConflicting (a_updated a)) w))
  else w.

Definition reset_absence (key : string) : Work -> Work :=
  on_state (fun st => set_absences st (<[key := 0%Z]> (SuccessfulAbsences st))).

(** Lines 151-170: one observed relationship; the keys seen are accumulated. *)
Definition relationship_key (s : SnapshotEnvelope) (from to typ : string) : string :=
  key_prefix s +:+ from +:+ "|" +:+ to +:+ "|" +:+ typ.

Definition new_relationship (s : SnapshotEnvelope) (now : gotime) (from to typ : string) : Relationship :=
  {| r_id := "relationship-" +:+ safe (relationship_key s from to typ); r_org := s_org s;
     r_from := from; r_to := to; r_type := typ; r_status := "ACTIVE";
     r_first_seen := now; r_last_seen := now; r_created := now; r_updated := now |}.

Definition apply_relationship (s : SnapshotEnvelope) (now : gotime)
    (acc : Work * gset string) (ro : RelationshipObservation) : Work * gset string :=
  let '(w, seen) := acc in
  let st := w_state w in
  let from := asset_ref st (external_key s (ro_from ro)) in
  let to := asset_ref st (external_key s (ro_to ro)) in
  if bool_decide (from = "") || bool_decide (to = "") then acc else
  let key := relationship_key s from to (ro_type ro) in
  let put r := on_state (fun st => set_relationships st (<[key := r]> (Relationships st))) in
  match Relationships st !! key with
  | None =>
      let r := new_relationship s now from to (ro_type ro) in
      (addChange s from "RELATIONSHIP_ADDED" AnyNil (AnyRelationship r) "observed relationship added"
         (count CRelCreated (put r w)), {[key]} ∪ seen)
  | Some r => (put (rel_seen r now) w, {[key]} ∪ seen)
  end.

(** Lines 171-183: one stored relationship the snapshot may have dropped. *)
Definition remove_relationship (s : SnapshotEnvelope) (now : gotime) (seen : gset string)
    (w : Work) (kr : string * Relationship) : Work :=
  let '(key, r) := kr in
  if negb (has_prefix key (key_prefix s)) || bool_decide (key ∈ seen)
     || negb (bool_decide (r_status r = "ACTIVE")) then w else
  addChange s (r_from r) "RELATIONSHIP_REMOVED" (AnyString (r_status r)) (AnyString "REMOVED")
    "absent from a successful source snapshot"
    (count CRelRemoved
      (on_state (fun st => set_relationships st (<[key := rel_removed r now]> (Relationships st))) w)).

(** Lines 184-200: one known identity the snapshot may have dropped. *)
Definition mark_absent (s : SnapshotEnvelope) (now : gotime) (threshold : Z) (seen : gset string)
    (w : Work) (ki : string * string) : Work :=
  let '(key, id) := ki in
  if negb (has_prefix key (key_prefix s)) || bool_decide (key ∈ seen) then w else
  let n := wrap64 (default 0%Z (SuccessfulAbsences (w_state w) !! key) + 1) in
  let w := on_state (fun st => set_absences st (<[key := n]> (SuccessfulAbsences st))) w in
  if (threshold <=? n)%Z then
    let a := asset_at (w_state w) id in
    if negb (bool_decide (a_status a = AssetMissing)) && negb (bool_decide (a_status a = AssetRetired)) then
      addChange s id "ASSET_MISSING" (AnyString (a_status a)) (AnyString AssetMissing)
        "absent from sufficient successful snapshots"
        (count CMissing (put_asset id (asset_status a AssetMissing now) w))
    else w
  else w.

(** ** [Apply] *)

Section Apply.
Context `{RangeOrder}.

(** One observation: its asset, its absence counter, then its attributes in
    the map's iteration order (site [2 + index]). *)
Definition apply_observation (p : Policy) (s : SnapshotEnvelope) (now : gotime)
    (w : Work) (io : nat * Observation) : Work :=
  let '(i, o) := io in
  let assetID := resolve_asset s o (w_state w) in
  let w := observe_asset s now o w in
  let w := reset_absence (external_key s (o_external o)) w in
  foldl (apply_claim p s o assetID) w (range (2 + i) (attrs o)).

Definition seen_keys (s : SnapshotEnvelope) : gset string :=
  list_to_set (external_key s ∘ o_external <$> assets_of s).

Definition effective_threshold (p : Policy) : Z :=
  if (MissingAfterSuccessfulRuns p <? 1)%Z then 1%Z else MissingAfterSuccessfulRuns p.

Definition snapshot_now (s : SnapshotEnvelope) (clock : gotime) : gotime :=
  if time_is_zero (s_completed s) then clock else s_completed s.

Definition apply_observations (p : Policy) (s : SnapshotEnvelope) (now : gotime) (w : Work) : Work :=
  foldl (apply_observation p s now) w (imap pair (assets_of s)).

Definition apply_relationships (s : SnapshotEnvelope) (now : gotime) (w : Work) : Work * gset string :=
  foldl (apply_relationship s now) (w, ∅) (relationships_of s).

Definition remove_relationships (s : SnapshotEnvelope) (now : gotime) (seen : gset string) (w : Work) : Work :=
  foldl (remove_relationship s now seen) w (range 0 (Relationships (w_state w))).

Definition mark_absences (p : Policy) (s : SnapshotEnvelope) (now : gotime) (w : Work) : Work :=
  foldl (mark_absent s now (effective_threshold p) (seen_keys s)) w (range 1 (ExternalToAsset (w_state w))).

Definition record_processed (s : SnapshotEnvelope) (st : State) : State :=
  set_processed st (<[s_id s := s_content_hash s]> (ProcessedSnapshots st)).

Definition apply_success (p : Policy) (s : SnapshotEnvelope) (now : gotime) (st : State) : Work :=
  let w := apply_observations p s now {| w_state := st; w_summary := no_summary |} in
  let '(w, seen) := apply_relationships s now w in
  let w := remove_relationships s now seen w in
  let w := mark_absences p s now w in
  on_state (record_processed s) w.

(** [Apply(st, snapshot, status, policy)]; [clock] is [time.Now().UTC()]. The
    state is a pointer that may be nil. *)
Definition Apply (clock : gotime) (st : option State) (s : SnapshotEnvelope) (status : string) (p : Policy)
    : option State * result string Summary :=
  match st with
  | None => (None, Err "state required")
  | Some st =>
      match ProcessedSnapshots st !! s_id s with
      | Some prior =>
          if bool_decide (prior = s_content_hash s) then (Some st, Ok no_summary)
          else (Some st, Err "snapshot ID reused with different content hash")
      | None =>
          if negb (bool_decide (status = SnapshotSucceeded))
          then (Some (record_processed s st), Ok no_summary)
          else let w := apply_success p s (snapshot_now s clock) st in
               (Some (w_state w), Ok (w_summary w))
      end
  end.

End Apply.

(** The order of increasing keys, to run the model on concrete inputs. *)
Definition sorted_range : RangeOrder.
Proof.
  refine {| range := fun A _ m => sorted_entries m |}.
  intros A _ m. apply merge_sort_Permutation.
Defined.

(** Its reverse: another order Go may choose. *)
Definition reverse_range : RangeOrder.
Proof.
  refine {| range := fun A _ m => reverse (sorted_entries m) |}.
  intros A _ m. rewrite reverse_Permutation. apply merge_sort_Permutation.
Defined.

(** Inputs the examples and witnesses share. *)
Definition sample_observation (ext : string) (attributes : gmap string json) : Observation :=
  {| o_id := ""; o_org := ""; o_snapshot := ""; o_connector := ""; o_collector := "";
     o_external := ext; o_type := Container; o_observed := 5; o_attributes := Some attributes;
     o_hints := Some ∅; o_fingerprint := ""; o_status := "OBSERVED" |}.

Definition sample_relationship (from to typ : string) : RelationshipObservation :=
  {| ro_relationship := ""; ro_snapshot := ""; ro_connector := ""; ro_from := from; ro_to := to;
     ro_type := typ; ro_observed := 5; ro_attributes := Some ∅ |}.

Definition sample_snapshot_of (org connector id hash : string) (assets : list Observation)
    (relationships : list RelationshipObservation) : SnapshotEnvelope :=
  {| s_protocol := "1.0"; s_id := id; s_org := org; s_collector := "collector";
     s_connector := connector; s_connector_type := "DOCKER"; s_connector_version := "1";
     s_started := 1; s_completed := 2; s_sequence := 1; s_assets := Some assets;
     s_relationships := Some relationships; s_warnings := None; s_statistics := None;
     s_content_hash := hash; s_algorithm := "Ed25519"; s_signature := "" |}.

Definition sample_snapshot : string -> string -> list Observation -> list RelationshipObservation -> SnapshotEnvelope :=
  sample_snapshot_of "org" "docker".
