(* ===== verification/ReconcileFrames.v ===== *)
(** * What the steps of the reconciliation engine leave alone

    The frame lemmas of [Reconcile.v]'s steps and loops, collected in the
    rewrite database [rec]: reading a field through a step that does not write
    it. *)
From S2P Require Import Prelude GoStrings GoJson Domain Reconcile.
Open Scope string_scope.

(** ** Frames: the fields a step does not write *)

Create Rewrite HintDb rec.

Lemma addChange_Assets s id t b a r w : Assets (w_state (addChange s id t b a r w)) = Assets (w_state w).
Proof. unfold addChange. by case_match. Qed.
Lemma addChange_ExternalToAsset s id t b a r w : ExternalToAsset (w_state (addChange s id t b a r w)) = ExternalToAsset (w_state w).
Proof. unfold addChange. by case_match. Qed.
Lemma addChange_Claims s id t b a r w : Claims (w_state (addChange s id t b a r w)) = Claims (w_state w).
Proof. unfold addChange. by case_match. Qed.
Lemma addChange_Relationships s id t b a r w : Relationships (w_state (addChange s id t b a r w)) = Relationships (w_state w).
Proof. unfold addChange. by case_match. Qed.
Lemma addChange_SuccessfulAbsences s id t b a r w : SuccessfulAbsences (w_state (addChange s id t b a r w)) = SuccessfulAbsences (w_state w).
Proof. unfold addChange. by case_match. Qed.
Lemma addChange_ProcessedSnapshots s id t b a r w : ProcessedSnapshots (w_state (addChange s id t b a r w)) = ProcessedSnapshots (w_state w).
Proof. unfold addChange. by case_match. Qed.
#[export] Hint Rewrite addChange_Assets addChange_ExternalToAsset addChange_Claims addChange_Relationships addChange_SuccessfulAbsences addChange_ProcessedSnapshots : rec.

(** Unfolds a step, splits its cases and reads the field through its writes. *)
Ltac frame step :=
  unfold step; repeat (case_match || case_bool_decide); simplify_eq/=;
  autorewrite with rec; cbn; autorewrite with rec; done.

Lemma observe_asset_Claims s now o w : Claims (w_state (observe_asset s now o w)) = Claims (w_state w).
Proof. frame observe_asset. Qed.
Lemma observe_asset_Relationships s now o w : Relationships (w_state (observe_asset s now o w)) = Relationships (w_state w).
Proof. frame observe_asset. Qed.
Lemma observe_asset_SuccessfulAbsences s now o w : SuccessfulAbsences (w_state (observe_asset s now o w)) = SuccessfulAbsences (w_state w).
Proof. frame observe_asset. Qed.
Lemma observe_asset_ProcessedSnapshots s now o w : ProcessedSnapshots (w_state (observe_asset s now o w)) = ProcessedSnapshots (w_state w).
Proof. frame observe_asset. Qed.
Lemma apply_claim_ExternalToAsset p s o id w x : ExternalToAsset (w_state (apply_claim p s o id w x)) = ExternalToAsset (w_state w).
Proof. frame apply_claim. Qed.
Lemma apply_claim_Relationships p s o id w x : Relationships (w_state (apply_claim p s o id w x)) = Relationships (w_state w).
Proof. frame apply_claim. Qed.
Lemma apply_claim_SuccessfulAbsences p s o id w x : SuccessfulAbsences (w_state (apply_claim p s o id w x)) = SuccessfulAbsences (w_state w).
Proof. frame apply_claim. Qed.
Lemma apply_claim_ProcessedSnapshots p s o id w x : ProcessedSnapshots (w_state (apply_claim p s o id w x)) = ProcessedSnapshots (w_state w).
Proof. frame apply_claim. Qed.
Lemma remove_relationship_Assets s now seen w x : Assets (w_state (remove_relationship s now seen w x)) = Assets (w_state w).
Proof. frame remove_relationship. Qed.
Lemma remove_relationship_ExternalToAsset s now seen w x : ExternalToAsset (w_state (remove_relationship s now seen w x)) = ExternalToAsset (w_state w).
Proof. frame remove_relationship. Qed.
Lemma remove_relationship_Claims s now seen w x : Claims (w_state (remove_relationship s now seen w x)) = Claims (w_state w).
Proof. frame remove_relationship. Qed.
Lemma remove_relationship_SuccessfulAbsences s now seen w x : SuccessfulAbsences (w_state (remove_relationship s now seen w x)) = SuccessfulAbsences (w_state w).
Proof. frame remove_relationship. Qed.
Lemma remove_relationship_ProcessedSnapshots s now seen w x : ProcessedSnapshots (w_state (remove_relationship s now seen w x)) = ProcessedSnapshots (w_state w).
Proof. frame remove_relationship. Qed.
Lemma mark_absent_ExternalToAsset s now n seen w x : ExternalToAsset (w_state (mark_absent s now n seen w x)) = ExternalToAsset (w_state w).
Proof. frame mark_absent. Qed.
Lemma mark_absent_Claims s now n seen w x : Claims (w_state (mark_absent s now n seen w x)) = Claims (w_state w).
Proof. frame mark_absent. Qed.
Lemma mark_absent_Relationships s now n seen w x : Relationships (w_state (mark_absent s now n seen w x)) = Relationships (w_state w).
Proof. frame mark_absent. Qed.
Lemma mark_absent_ProcessedSnapshots s now n seen w x : ProcessedSnapshots (w_state (mark_absent s now n seen w x)) = ProcessedSnapshots (w_state w).
Proof. frame mark_absent. Qed.
Lemma apply_relationship_Assets s now acc x :
  Assets (w_state (apply_relationship s now acc x).1) = Assets (w_state acc.1).
Proof. destruct acc. frame apply_relationship. Qed.
Lemma apply_relationship_ExternalToAsset s now acc x :
  ExternalToAsset (w_state (apply_relationship s now acc x).1) = ExternalToAsset (w_state acc.1).
Proof. destruct acc. frame apply_relationship. Qed.
Lemma apply_relationship_Claims s now acc x :
  Claims (w_state (apply_relationship s now acc x).1) = Claims (w_state acc.1).
Proof. destruct acc. frame apply_relationship. Qed.
Lemma apply_relationship_SuccessfulAbsences s now acc x :
  SuccessfulAbsences (w_state (apply_relationship s now acc x).1) = SuccessfulAbsences (w_state acc.1).
Proof. destruct acc. frame apply_relationship. Qed.
Lemma apply_relationship_ProcessedSnapshots s now acc x :
  ProcessedSnapshots (w_state (apply_relationship s now acc x).1) = ProcessedSnapshots (w_state acc.1).
Proof. destruct acc. frame apply_relationship. Qed.
#[export] Hint Rewrite observe_asset_Claims
  observe_asset_Relationships
  observe_asset_SuccessfulAbsences
  observe_asset_ProcessedSnapshots
  apply_claim_ExternalToAsset
  apply_claim_Relationships
  apply_claim_SuccessfulAbsences
  apply_claim_ProcessedSnapshots
  remove_relationship_Assets
  remove_relationship_ExternalToAsset
  remove_relationship_Claims
  remove_relationship_SuccessfulAbsences
  remove_relationship_ProcessedSnapshots
  mark_absent_ExternalToAsset
  mark_absent_Claims
  mark_absent_Relationships
  mark_absent_ProcessedSnapshots
  apply_relationship_Assets
  apply_relationship_ExternalToAsset
  apply_relationship_Claims
  apply_relationship_SuccessfulAbsences
  apply_relationship_ProcessedSnapshots : rec.

(** ** Loops *)

Section Loops.
Context `{RangeOrder}.

Lemma apply_observation_Relationships p s now w x :
  Relationships (w_state (apply_observation p s now w x)) = Relationships (w_state w).
Proof.
  destruct x as [i o]. unfold apply_observation.
  rewrite (foldl_proj _ (fun w => Relationships (w_state w))); [|intros; by autorewrite with rec].
  unfold reset_absence. cbn. by autorewrite with rec.
Qed.
Lemma apply_observation_ProcessedSnapshots p s now w x :
  ProcessedSnapshots (w_state (apply_observation p s now w x)) = ProcessedSnapshots (w_state w).
Proof.
  destruct x as [i o]. unfold apply_observation.
  rewrite (foldl_proj _ (fun w => ProcessedSnapshots (w_state w))); [|intros; by autorewrite with rec].
  unfold reset_absence. cbn. by autorewrite with rec.
Qed.
Lemma apply_observations_Relationships p s now w :
  Relationships (w_state (apply_observations p s now w)) = Relationships (w_state w).
Proof. apply (foldl_proj _ (fun w => Relationships (w_state w))). intros. apply apply_observation_Relationships. Qed.
Lemma apply_observations_ProcessedSnapshots p s now w :
  ProcessedSnapshots (w_state (apply_observations p s now w)) = ProcessedSnapshots (w_state w).
Proof. apply (foldl_proj _ (fun w => ProcessedSnapshots (w_state w))). intros. apply apply_observation_ProcessedSnapshots. Qed.
Lemma apply_relationships_Assets s now w :
  Assets (w_state (apply_relationships s now w).1) = Assets (w_state w).
Proof. apply (foldl_proj _ (fun a => Assets (w_state a.1))). intros. by autorewrite with rec. Qed.
Lemma apply_relationships_ExternalToAsset s now w :
  ExternalToAsset (w_state (apply_relationships s now w).1) = ExternalToAsset (w_state w).
Proof. apply (foldl_proj _ (fun a => ExternalToAsset (w_state a.1))). intros. by autorewrite with rec. Qed.
Lemma apply_relationships_Claims s now w :
  Claims (w_state (apply_relationships s now w).1) = Claims (w_state w).
Proof. apply (foldl_proj _ (fun a => Claims (w_state a.1))). intros. by autorewrite with rec. Qed.
Lemma apply_relationships_SuccessfulAbsences s now w :
  SuccessfulAbsences (w_state (apply_relationships s now w).1) = SuccessfulAbsences (w_state w).
Proof. apply (foldl_proj _ (fun a => SuccessfulAbsences (w_state a.1))). intros. by autorewrite with rec. Qed.
Lemma apply_relationships_ProcessedSnapshots s now w :
  ProcessedSnapshots (w_state (apply_relationships s now w).1) = ProcessedSnapshots (w_state w).
Proof. apply (foldl_proj _ (fun a => ProcessedSnapshots (w_state a.1))). intros. by autorewrite with rec. Qed.
Lemma remove_relationships_Assets s now seen w :
  Assets (w_state (remove_relationships s now seen w)) = Assets (w_state w).
Proof. apply (foldl_proj _ (fun w => Assets (w_state w))). intros. by autorewrite with rec. Qed.
Lemma remove_relationships_ExternalToAsset s now seen w :
  ExternalToAsset (w_state (remove_relationships s now seen w)) = ExternalToAsset (w_state w).
Proof. apply (foldl_proj _ (fun w => ExternalToAsset (w_state w))). intros. by autorewrite with rec. Qed.
Lemma remove_relationships_Claims s now seen w :
  Claims (w_state (remove_relationships s now seen w)) = Claims (w_state w).
Proof. apply (foldl_proj _ (fun w => Claims (w_state w))). intros. by autorewrite with rec. Qed.
Lemma remove_relationships_SuccessfulAbsences s now seen w :
  SuccessfulAbsences (w_state (remove_relationships s now seen w)) = SuccessfulAbsences (w_state w).
Proof. apply (foldl_proj _ (fun w => SuccessfulAbsences (w_state w))). intros. by autorewrite with rec. Qed.
Lemma remove_relationships_ProcessedSnapshots s now seen w :
  ProcessedSnapshots (w_state (remove_relationships s now seen w)) = ProcessedSnapshots (w_state w).
Proof. apply (foldl_proj _ (fun w => ProcessedSnapshots (w_state w))). intros. by autorewrite with rec. Qed.
Lemma mark_absences_ExternalToAsset p s now w :
  ExternalToAsset (w_state (mark_absences p s now w)) = ExternalToAsset (w_state w).
Proof. apply (foldl_proj _ (fun w => ExternalToAsset (w_state w))). intros. by autorewrite with rec. Qed.
Lemma mark_absences_Claims p s now w :
  Claims (w_state (mark_absences p s now w)) = Claims (w_state w).
Proof. apply (foldl_proj _ (fun w => Claims (w_state w))). intros. by autorewrite with rec. Qed.
Lemma mark_absences_Relationships p s now w :
  Relationships (w_state (mark_absences p s now w)) = Relationships (w_state w).
Proof. apply (foldl_proj _ (fun w => Relationships (w_state w))). intros. by autorewrite with rec. Qed.
Lemma mark_absences_ProcessedSnapshots p s now w :
  ProcessedSnapshots (w_state (mark_absences p s now w)) = ProcessedSnapshots (w_state w).
Proof. apply (foldl_proj _ (fun w => ProcessedSnapshots (w_state w))). intros. by autorewrite with rec. Qed.

End Loops.

#[export] Hint Rewrite @apply_observations_Relationships @apply_observations_ProcessedSnapshots
  @apply_relationships_Assets @apply_relationships_ExternalToAsset @apply_relationships_Claims
  @apply_relationships_SuccessfulAbsences @apply_relationships_ProcessedSnapshots
  @remove_relationships_Assets @remove_relationships_ExternalToAsset @remove_relationships_Claims
  @remove_relationships_SuccessfulAbsences @remove_relationships_ProcessedSnapshots
  @mark_absences_ExternalToAsset @mark_absences_Claims @mark_absences_Relationships
  @mark_absences_ProcessedSnapshots : rec.
