(* ===== verification/ReconcileFacts.v ===== *)
(** * Correctness of the in-memory reconciliation engine

    Theorems about [Effective] and [Apply] of [Reconcile.v]. *)
From S2P Require Import Prelude GoStrings GoJson Domain Reconcile ReconcileFrames.
Open Scope string_scope.

(** ** Effective values *)

#[export] Instance claim_less_strict p k : StrictWeak (claim_less p k).
Proof.
  split; unfold claim_less; intros *; repeat case_bool_decide; rewrite ?Z.ltb_lt, ?Z.ltb_ge; lia.
Qed.

Lemma size_list_to_set_gt1 (l : list string) :
  (1 < size (list_to_set l : gset string))%nat <-> exists x y, x ∈ l /\ y ∈ l /\ x <> y.
Proof.
  split.
  - destruct l as [|x l]; cbn; [rewrite size_empty; lia|]. intros Hs.
    destruct (decide (Forall (fun y => y = x) l)) as [Hall|Hne].
    + exfalso. assert (({[x]} ∪ list_to_set l : gset string) = {[x]}) as E.
      { apply set_eq. intros z. rewrite elem_of_union, elem_of_singleton, elem_of_list_to_set.
        rewrite Forall_forall in Hall. naive_solver. }
      rewrite E, size_singleton in Hs. lia.
    + apply not_Forall_Exists in Hne; [|intros ?; apply _]. apply Exists_exists in Hne as (y & Hy & Hne).
      exists x, y. repeat split; [left|by right|]. intros ->. by apply Hne.
  - intros (x & y & Hx & Hy & Hne).
    assert (({[x; y]} : gset string) ⊆ list_to_set l) as Hsub by set_solver.
    apply subseteq_size in Hsub. rewrite size_union in Hsub by set_solver.
    rewrite !size_singleton in Hsub. lia.
Qed.

(** [c] outranks or ties [c']: higher authority, or the same and not older. *)
Definition claim_geq (p : Policy) (k : string) (c c' : AttributeClaim) : Prop :=
  (rank (authority_of p (c_connector c') k) < rank (authority_of p (c_connector c) k) \/
   rank (authority_of p (c_connector c') k) = rank (authority_of p (c_connector c) k) /\
   c_observed c' <= c_observed c)%Z.

Lemma claim_geq_less p k c c' : claim_geq p k c c' <-> claim_less p k c' c = false.
Proof.
  unfold claim_geq, claim_less. case_bool_decide; rewrite Z.ltb_ge; lia.
Qed.

Lemma effective_active claims k p :
  e_claims (Effective claims k p) = stable_sort (claim_less p k) (active_claims claims k).
Proof. unfold Effective. by destruct (stable_sort _ _). Qed.

Lemma effective_conflict claims k p :
  e_conflict (Effective claims k p) = true <->
  exists c1 c2, c1 ∈ active_claims claims k /\ c2 ∈ active_claims claims k /\
    Marshal (c_value c1) <> Marshal (c_value c2).
Proof.
  unfold Effective. pose proof (stable_sort_perm (claim_less p k) (active_claims claims k)) as Hp.
  revert Hp. generalize (stable_sort (claim_less p k) (active_claims claims k)). intros l Hp.
  setoid_rewrite <- Hp. clear Hp. destruct l as [|c l]; cbn [e_conflict].
  - split; [done|]. intros (? & ? & H & _). by apply not_elem_of_nil in H.
  - rewrite Nat.ltb_lt.
    rewrite size_list_to_set_gt1. split.
    + intros (x & y & Hx & Hy & Hne). apply list_elem_of_fmap in Hx as (c1 & -> & H1).
      apply list_elem_of_fmap in Hy as (c2 & -> & H2). by exists c1, c2.
    + intros (c1 & c2 & H1 & H2 & Hne). exists (Marshal (c_value c1)), (Marshal (c_value c2)).
      repeat split; [apply list_elem_of_fmap; by exists c1|apply list_elem_of_fmap; by exists c2|done].
Qed.

Lemma effective_winner claims k p :
  active_claims claims k <> [] ->
  exists w, w ∈ active_claims claims k /\ e_value (Effective claims k p) = c_value w /\
    forall c, c ∈ active_claims claims k -> claim_geq p k w c.
Proof.
  intros Hne. unfold Effective. destruct (stable_sort _ _) as [|c l] eqn:E; cbn.
  - pose proof (stable_sort_perm (claim_less p k) (active_claims claims k)) as Hp. rewrite E in Hp.
    by apply Permutation_nil_l in Hp.
  - apply stable_sort_head in E as [Hc Hmax]; [|apply _].
    exists c. repeat split; [done|]. intros c' Hc'. apply claim_geq_less. by apply Hmax.
Qed.

(** C23. The effective value of an attribute is that of an active claim that no
    other active claim outranks (authority first, then recency); every active
    claim stays visible in the result; and a conflict is reported exactly when
    two active claims have different JSON values. *)
Theorem Effective_spec claims k p :
  let e := Effective claims k p in
  let active := active_claims claims k in
  e_claims e ≡ₚ active /\
  (active = [] <-> e_reason e = "no active claims") /\
  (active <> [] ->
    exists w, w ∈ active /\ e_value e = c_value w /\ forall c, c ∈ active -> claim_geq p k w c) /\
  (e_conflict e = true <->
    exists c1 c2, c1 ∈ active /\ c2 ∈ active /\ Marshal (c_value c1) <> Marshal (c_value c2)).
Proof.
  cbn zeta. split; [rewrite effective_active; apply stable_sort_perm|].
  split; [|split; [|apply effective_conflict]].
  - unfold Effective. pose proof (stable_sort_perm (claim_less p k) (active_claims claims k)) as Hp.
    destruct (stable_sort _ _) as [|c l]; cbn.
    + by apply Permutation_nil_l in Hp as ->.
    + split; [intros E; rewrite E in Hp; by apply Permutation_nil_r in Hp|]. by case_match.
  - apply effective_winner.
Qed.

(** Reconciling is independent of the order the sources were read in: on
    permuted claims the conflict flag is the same, and so is the value unless
    claims of different values tie at the top. *)
Theorem Effective_source_order claims claims' k p (Hperm : claims ≡ₚ claims')
    (Hties : forall c c', c ∈ active_claims claims k -> c' ∈ active_claims claims k ->
       claim_geq p k c c' -> claim_geq p k c' c -> c_value c = c_value c') :
  e_conflict (Effective claims k p) = e_conflict (Effective claims' k p) /\
  e_value (Effective claims k p) = e_value (Effective claims' k p).
Proof.
  assert (active_claims claims k ≡ₚ active_claims claims' k) as Hact.
  { unfold active_claims. by rewrite Hperm. }
  split.
  - apply eq_bool_prop_intro. rewrite !Is_true_true, !effective_conflict. by setoid_rewrite Hact.
  - destruct (decide (active_claims claims k = [])) as [E|Hne].
    + unfold Effective. rewrite E in Hact |- *. symmetry in Hact.
      apply Permutation_nil_r in Hact. by rewrite Hact.
    + destruct (effective_winner claims k p Hne) as (w & Hw & -> & Hmax).
      destruct (effective_winner claims' k p) as (w' & Hw' & -> & Hmax').
      { intros E. rewrite E in Hact. by apply Permutation_nil_r in Hact. }
      rewrite <- Hact in Hw'. apply Hties; [done..| |]; [by apply Hmax|].
      apply Hmax'. by rewrite <- Hact.
Qed.

Lemma Effective_source_order_witness :
  let c1 := {| c_asset := "a"; c_key := "env"; c_value := JStr "staging"; c_connector := "csv";
               c_snapshot := "s1"; c_observed := 5; c_authority := ""; c_confidence := ""; c_active := true |} in
  let c2 := {| c_asset := "a"; c_key := "env"; c_value := JStr "prod"; c_connector := "tf";
               c_snapshot := "s2"; c_observed := 3; c_authority := ""; c_confidence := ""; c_active := true |} in
  let p := {| AttributeAuthority := {["tf" := {["env" := Authoritative]}]}; MissingAfterSuccessfulRuns := 1 |} in
  e_conflict (Effective [c1; c2] "env" p) = e_conflict (Effective [c2; c1] "env" p) /\
  e_value (Effective [c1; c2] "env" p) = e_value (Effective [c2; c1] "env" p) /\
  e_value (Effective [c1; c2] "env" p) = JStr "prod".
Proof.
  intros c1 c2 p.
  destruct (Effective_source_order [c1; c2] [c2; c1] "env" p) as [E1 E2].
  - apply Permutation_swap.
  - intros c c' [_ Hc]%list_elem_of_filter [_ Hc']%list_elem_of_filter.
    rewrite !claim_geq_less. rewrite list_elem_of_In in Hc, Hc'.
    destruct Hc as [<-|[<-|[]]], Hc' as [<-|[<-|[]]]; vm_compute; congruence.
  - split; [exact E1|]. split; [exact E2|]. vm_compute. reflexivity.
Defined.

(** ** The ledger of processed snapshots *)

Lemma apply_success_processed `{RangeOrder} p s now st :
  ProcessedSnapshots (w_state (apply_success p s now st)) =
  <[s_id s := s_content_hash s]> (ProcessedSnapshots st).
Proof.
  unfold apply_success. destruct (apply_relationships _ _ _) as [w seen] eqn:E. cbn.
  autorewrite with rec. apply (f_equal (fun a => ProcessedSnapshots (w_state a.1))) in E.
  autorewrite with rec in E. cbn in E. by rewrite E.
Qed.

(** A delivery of a snapshot: [Apply] with its clock, status, policy and the
    iteration orders of that call. *)
Record Delivery := {
  d_order : RangeOrder; d_clock : gotime; d_snapshot : SnapshotEnvelope;
  d_status : string; d_policy : Policy }.

Definition deliver_one (st : option State) (d : Delivery) : option State :=
  (@Apply (d_order d) (d_clock d) st (d_snapshot d) (d_status d) (d_policy d)).1.

Definition deliver (st : option State) (l : list Delivery) : option State := foldl deliver_one st l.

(** The deliveries whose snapshot ID did not occur before. *)
Fixpoint first_deliveries (seen : gset string) (l : list Delivery) : list Delivery :=
  match l with
  | [] => []
  | d :: l' =>
      if decide (s_id (d_snapshot d) ∈ seen) then first_deliveries seen l'
      else d :: first_deliveries ({[s_id (d_snapshot d)]} ∪ seen) l'
  end.

Lemma deliver_one_processed st d :
  is_Some (ProcessedSnapshots st !! s_id (d_snapshot d)) -> deliver_one (Some st) d = Some st.
Proof. intros [h Hh]. unfold deliver_one, Apply. rewrite Hh. by case_bool_decide. Qed.

Lemma deliver_one_records st d :
  exists st', deliver_one (Some st) d = Some st' /\
    is_Some (ProcessedSnapshots st' !! s_id (d_snapshot d)) /\
    forall id, is_Some (ProcessedSnapshots st !! id) -> is_Some (ProcessedSnapshots st' !! id).
Proof.
  unfold deliver_one, Apply. destruct (ProcessedSnapshots st !! _) as [h|] eqn:E.
  - case_bool_decide; eexists; (split; [done|]); by rewrite E.
  - assert (forall id (v : string), is_Some (ProcessedSnapshots st !! id) ->
      is_Some (<[s_id (d_snapshot d) := v]> (ProcessedSnapshots st) !! id)) as Hmono.
    { intros id v Hid. apply lookup_insert_is_Some. destruct (decide (s_id (d_snapshot d) = id)); auto. }
    case_bool_decide; cbn; eexists; (split; [done|]); cbn;
      rewrite ?apply_success_processed, ?lookup_insert_eq; eauto.
Qed.

(** C20. At-least-once delivery has an exactly-once effect: whatever is
    redelivered, with whatever status, policy, content hash, clock and map
    iteration orders, the state is that of the first deliveries alone. *)
Theorem deliver_exactly_once st l : deliver st l = deliver st (first_deliveries ∅ l).
Proof.
  destruct st as [st|]; [|unfold deliver; generalize (∅ : gset string)].
  - assert (forall id : string, id ∈ (∅ : gset string) -> is_Some (ProcessedSnapshots st !! id)) as Hs
      by set_solver.
    revert st Hs. generalize (∅ : gset string). unfold deliver.
    induction l as [|d l IH]; intros seen st Hs; cbn [first_deliveries foldl]; [done|].
    case_decide as Hd.
    + rewrite deliver_one_processed by auto. by apply IH.
    + cbn [foldl]. destruct (deliver_one_records st d) as (st' & -> & Hp & Hmono).
      apply IH. intros id [->%elem_of_singleton|Hid]%elem_of_union; auto.
  - assert (forall l, foldl deliver_one None l = None) as E by (induction l0; done).
    intros seen. by rewrite !E.
Qed.

(** Only a successful snapshot that was not seen before changes the
    inventory: failed, partial, cancelled or rejected ones, retries, and reuses
    of an ID with another hash (an error) leave assets, identities, claims,
    relationships, changes and absence counters as they were. *)
Theorem Apply_without_new_success `{RangeOrder} clock st s status p
    (Hno : status <> SnapshotSucceeded \/ is_Some (ProcessedSnapshots st !! s_id s)) :
  exists st' r, Apply clock (Some st) s status p = (Some st', r) /\
    Assets st' = Assets st /\ ExternalToAsset st' = ExternalToAsset st /\ Claims st' = Claims st /\
    Relationships st' = Relationships st /\ Changes st' = Changes st /\
    SuccessfulAbsences st' = SuccessfulAbsences st /\
    (r = Ok no_summary \/
     r = Err "snapshot ID reused with different content hash" /\ st' = st /\
     exists h, ProcessedSnapshots st !! s_id s = Some h /\ h <> s_content_hash s).
Proof.
  unfold Apply. destruct (ProcessedSnapshots st !! s_id s) as [h|] eqn:E.
  - case_bool_decide; eexists _, _; (split; [done|]); repeat split; [by left|right].
    repeat split. by exists h.
  - destruct Hno as [Hno|[? [=]]]. rewrite bool_decide_false by done. cbn.
    eexists _, _; (split; [done|]). repeat split. by left.
Qed.

Lemma Apply_without_new_success_witness :
  let s := sample_snapshot "snap" "h" [] [] in
  SnapshotFailed <> SnapshotSucceeded /\
  exists st' r, @Apply sorted_range 7 (Some NewState) s SnapshotFailed (Build_Policy ∅ 1) = (Some st', r) /\
    Assets st' = ∅.
Proof.
  intros s. split; [done|].
  destruct (@Apply_without_new_success sorted_range 7 NewState s SnapshotFailed (Build_Policy ∅ 1)
    (or_introl (ltac:(done) : SnapshotFailed <> SnapshotSucceeded))) as (st' & r & E & HA & _).
  exists st', r. split; [exact E|exact HA].
Defined.

(** ** The change log *)

(** The log of [w'] extends that of [w], and the summary counts the additions. *)
Definition log_ext (w w' : Work) : Prop :=
  Changes (w_state w) ⊆ Changes (w_state w') /\
  (ChangeCount (w_summary w') - ChangeCount (w_summary w) =
   Z.of_nat (size (Changes (w_state w'))) - Z.of_nat (size (Changes (w_state w))))%Z.

#[export] Instance log_ext_preorder : PreOrder log_ext.
Proof.
  split; [intros w; split; [done|lia]|].
  intros w1 w2 w3 [H1 E1] [H2 E2]. split; [by etrans|lia].
Qed.

Lemma log_ext_state f w : (forall st, Changes (f st) = Changes st) -> log_ext w (on_state f w).
Proof. intros Hf. unfold log_ext, on_state. cbn. rewrite Hf. split; [done|lia]. Qed.

Lemma log_ext_count c w : c <> CChanges -> log_ext w (count c w).
Proof. intros Hc. unfold log_ext, count. cbn. rewrite bool_decide_false by done. split; [done|lia]. Qed.

Lemma log_ext_addChange s id t b a r w : log_ext w (addChange s id t b a r w).
Proof.
  unfold addChange. destruct (Changes _ !! _) eqn:E; [done|]. unfold log_ext, count. cbn. split.
  - by apply insert_subseteq.
  - rewrite bool_decide_true, map_size_insert_None by done. lia.
Qed.

Create HintDb log discriminated.
#[export] Hint Extern 0 (log_ext ?w ?w) => reflexivity : log.
#[export] Hint Extern 2 (log_ext _ (count _ _)) => etrans; [|by apply log_ext_count] : log.
#[export] Hint Extern 2 (log_ext _ (on_state _ _)) => etrans; [|by apply log_ext_state] : log.
#[export] Hint Extern 2 (log_ext _ (put_asset _ _ _)) => etrans; [|by apply log_ext_state] : log.
#[export] Hint Extern 2 (log_ext _ (reset_absence _ _)) => etrans; [|by apply log_ext_state] : log.
#[export] Hint Extern 2 (log_ext _ (addChange _ _ _ _ _ _ _)) => etrans; [|by apply log_ext_addChange] : log.

Lemma log_ext_observe s now o w : log_ext w (observe_asset s now o w).
Proof. unfold observe_asset. repeat case_bool_decide; auto 10 with log. Qed.

Lemma log_ext_claim p s o id w kv : log_ext w (apply_claim p s o id w kv).
Proof. unfold apply_claim. destruct kv. case_match; auto 10 with log. Qed.

Lemma log_ext_relationship s now acc ro : log_ext acc.1 (apply_relationship s now acc ro).1.
Proof.
  unfold apply_relationship. destruct acc as [w seen]. case_match; [done|]. case_match; cbn; auto 10 with log.
Qed.

Lemma log_ext_relationships s now w : log_ext w (apply_relationships s now w).1.
Proof.
  assert (PreOrder (fun a b : Work * gset string => log_ext a.1 b.1)).
  { split; [intros a|intros a b c]; [reflexivity|apply transitivity]. }
  apply (foldl_rel (apply_relationship s now) (fun a b : Work * gset string => log_ext a.1 b.1)
    (relationships_of s) (w, ∅)).
  intros. apply log_ext_relationship.
Qed.

Lemma log_ext_remove s now seen w kr : log_ext w (remove_relationship s now seen w kr).
Proof. unfold remove_relationship. destruct kr. case_match; auto 10 with log. Qed.

Lemma log_ext_absent s now n seen w ki : log_ext w (mark_absent s now n seen w ki).
Proof. unfold mark_absent. destruct ki. repeat (case_match; auto 10 with log). Qed.

Lemma log_ext_success `{RangeOrder} p s now st :
  log_ext {| w_state := st; w_summary := no_summary |} (apply_success p s now st).
Proof.
  unfold apply_success. destruct (apply_relationships _ _ _) as [w2 seen] eqn:E.
  etrans; [|by apply log_ext_state].
  unfold mark_absences. etrans; [|apply (foldl_rel _ log_ext); intros; apply log_ext_absent].
  unfold remove_relationships. etrans; [|apply (foldl_rel _ log_ext); intros; apply log_ext_remove].
  change w2 with (w2, seen).1. rewrite <- E. etrans; [|apply log_ext_relationships]. unfold apply_observations. apply (foldl_rel _ log_ext). intros w [i o] _.
  unfold apply_observation.
  etrans; [|apply (foldl_rel _ log_ext); intros; apply log_ext_claim].
  etrans; [apply log_ext_observe|]. by apply log_ext_state.
Qed.

Lemma Apply_ok_inv `{RangeOrder} clock st s status p st' sum :
  Apply clock (Some st) s status p = (Some st', Ok sum) ->
  (st' = st /\ sum = no_summary) \/ (st' = record_processed s st /\ sum = no_summary) \/
  (st' = w_state (apply_success p s (snapshot_now s clock) st) /\
   sum = w_summary (apply_success p s (snapshot_now s clock) st)).
Proof.
  unfold Apply. destruct (_ !! _); case_bool_decide; cbn; intros [= <- <-]; auto.
Qed.

(** The change history is append-only and exactly counted: no [Apply]
    rewrites or drops a recorded change, and the summary's number of changes is
    the number of entries the history grew by. *)
Theorem Apply_history `{RangeOrder} clock st s status p st' sum
    (Hok : Apply clock (Some st) s status p = (Some st', Ok sum)) :
  (forall k ch, Changes st !! k = Some ch -> Changes st' !! k = Some ch) /\
  ChangeCount sum = (Z.of_nat (size (Changes st')) - Z.of_nat (size (Changes st)))%Z.
Proof.
  apply Apply_ok_inv in Hok as [(-> & ->)|[(-> & ->)|(-> & ->)]].
  - split; [done|cbn; lia].
  - split; [done|cbn; lia].
  - destruct (log_ext_success p s (snapshot_now s clock) st) as [Hsub Hn]. cbn in Hn.
    split; [|lia]. intros k ch Hk. by eapply lookup_weaken.
Qed.

Lemma Apply_history_witness :
  let s := sample_snapshot "snap" "h" [sample_observation "c1" {["name" := JStr "web"]}] [] in
  exists st' sum, @Apply sorted_range 7 (Some NewState) s SnapshotSucceeded (Build_Policy ∅ 1) = (Some st', Ok sum) /\
    ChangeCount sum = 1%Z /\ Z.of_nat (size (Changes st')) = 1%Z.
Proof.
  intros s. eexists _, _. split; [vm_compute; reflexivity|]. split; [reflexivity|].
  pose proof (@Apply_history sorted_range 7 NewState s SnapshotSucceeded (Build_Policy ∅ 1) _ _
    (ltac:(vm_compute; reflexivity))) as [_ H].
  vm_compute. reflexivity.
Defined.
