(* ===== verification/ReconcileInv.v ===== *)
(** * The state invariant of the reconciliation engine, and what a successful
    snapshot does to assets and relationships *)
From S2P Require Import Prelude GoStrings GoJson Domain Reconcile ReconcileFrames ReconcileFacts.
Open Scope string_scope.

(** ** Well-formed states *)

Definition asset_statuses : list string :=
  [AssetActive; AssetStale; AssetMissing; AssetConflicting; AssetRetired; AssetUnknown].

Definition active_from (connector : string) (l : list AttributeClaim) : list AttributeClaim :=
  filter (fun c => c_active c = true /\ c_connector c = connector) l.

Record wf (st : State) : Prop := {
  wf_identity : forall key id, ExternalToAsset st !! key = Some id -> id <> "" /\ is_Some (Assets st !! id);
  wf_asset : forall id a, Assets st !! id = Some a -> a_id a = id /\ a_status a ∈ asset_statuses;
  wf_relationship : forall key r, Relationships st !! key = Some r ->
    is_Some (Assets st !! r_from r) /\ is_Some (Assets st !! r_to r) /\
    (r_status r = "ACTIVE" \/ r_status r = "REMOVED");
  wf_claim : forall ck l c, Claims st !! ck = Some l -> c ∈ l ->
    ck = claim_key (c_asset c) (c_key c) /\ is_Some (Assets st !! c_asset c);
  wf_active : forall ck l connector, Claims st !! ck = Some l -> (length (active_from connector l) <= 1)%nat;
  wf_change : forall k ch, Changes st !! k = Some ch -> ch_logical ch = k }.

Lemma is_Some_insert {V} (m : gmap string V) i j (v : V) :
  is_Some (m !! j) -> is_Some (<[i := v]> m !! j).
Proof. intros Hj. apply lookup_insert_is_Some. destruct (decide (i = j)); auto. Qed.

#[export] Hint Resolve is_Some_insert : infra.

Lemma wf_new : wf NewState.
Proof. split; cbn; intros *; rewrite ?lookup_empty; done. Qed.

Lemma wf_put_asset id a w :
  a_id a = id -> a_status a ∈ asset_statuses -> wf (w_state w) -> wf (w_state (put_asset id a w)).
Proof.
  intros Hid Hst [W1 W2 W3 W4 W5 W6]. split; cbn.
  - intros key i Hk. destruct (W1 _ _ Hk). eauto with infra.
  - intros i b [[<- <-]|[_ Hb]]%lookup_insert_Some; eauto.
  - intros key r Hk. destruct (W3 _ _ Hk) as (? & ? & ?). eauto with infra.
  - intros ck l c Hl Hc. destruct (W4 _ _ _ Hl Hc). eauto with infra.
  - done.
  - done.
Qed.

Lemma wf_count c w : wf (w_state w) -> wf (w_state (count c w)).
Proof. done. Qed.

Lemma wf_addChange s id t b a r w : wf (w_state w) -> wf (w_state (addChange s id t b a r w)).
Proof.
  intros [W1 W2 W3 W4 W5 W6]. unfold addChange. destruct (Changes _ !! _) eqn:E; [done|].
  split; cbn; [done..|]. intros k ch [[<- <-]|[_ Hk]]%lookup_insert_Some; auto.
Qed.

Lemma wf_identify key id w a :
  id <> "" -> a_id a = id -> a_status a ∈ asset_statuses -> wf (w_state w) ->
  wf (w_state (put_asset id a
    (on_state (fun st => set_external st (<[key := id]> (ExternalToAsset st))) w))).
Proof.
  intros Hne Hid Hst [W1 W2 W3 W4 W5 W6]. split; cbn.
  - intros k i [[<- <-]|[_ Hk]]%lookup_insert_Some.
    + split; [done|]. rewrite lookup_insert_eq. by eexists.
    + destruct (W1 _ _ Hk). eauto with infra.
  - intros i b [[<- <-]|[_ Hb]]%lookup_insert_Some; eauto.
  - intros k r Hk. destruct (W3 _ _ Hk) as (? & ? & ?). eauto with infra.
  - intros ck l c Hl Hc. destruct (W4 _ _ _ Hl Hc). eauto with infra.
  - done.
  - done.
Qed.

Lemma wf_asset_at st id : wf st -> is_Some (Assets st !! id) ->
  a_id (asset_at st id) = id /\ a_status (asset_at st id) ∈ asset_statuses.
Proof. intros W [a Ha]. unfold asset_at. rewrite Ha. cbn. by apply (wf_asset _ W). Qed.

(** Under the invariant a known identity is a non-empty asset reference. *)
Lemma asset_ref_known st key : wf st -> asset_ref st key <> "" ->
  ExternalToAsset st !! key = Some (asset_ref st key) /\ is_Some (Assets st !! asset_ref st key).
Proof.
  intros W Hne. unfold asset_ref in *. destruct (_ !! key) as [id|] eqn:E; cbn in *; [|done].
  split; [done|]. by apply (wf_identity _ W key).
Qed.

Lemma asset_ref_unknown st key : wf st -> asset_ref st key = "" -> ExternalToAsset st !! key = None.
Proof.
  intros W He. unfold asset_ref in He. destruct (_ !! key) as [id|] eqn:E; cbn in *; [|done].
  by apply (wf_identity _ W) in E as [? _].
Qed.

Lemma new_id_nonempty ext : "asset-" +:+ safe ext <> "".
Proof. done. Qed.

Lemma resolve_asset_known s o st : asset_ref st (external_key s (o_external o)) <> "" ->
  resolve_asset s o st = asset_ref st (external_key s (o_external o)).
Proof. intros Hk. unfold resolve_asset. by rewrite bool_decide_false. Qed.

Lemma resolve_asset_nonempty s o st : resolve_asset s o st <> "".
Proof. unfold resolve_asset. by case_bool_decide. Qed.

(** ** The steps preserve the invariant *)

Ltac in_statuses := rewrite list_elem_of_In; cbn; tauto.

Lemma wf_observe_asset s now o w : wf (w_state w) -> wf (w_state (observe_asset s now o w)).
Proof.
  intros W. unfold observe_asset. case_bool_decide as Hk.
  - apply wf_addChange, wf_count, wf_identify; [apply resolve_asset_nonempty|done|in_statuses|done].
  - rewrite resolve_asset_known by done.
    destruct (asset_ref_known _ _ W Hk) as [_ Ha]. destruct (wf_asset_at _ _ W Ha) as [Hid _].
    case_bool_decide.
    + apply wf_count, wf_addChange, wf_put_asset; [exact Hid|in_statuses|done].
    + apply wf_count, wf_put_asset; [exact Hid|in_statuses|done].
Qed.

(** After the observation, the identity refers to an existing asset. *)
Lemma observe_asset_identity s now o w : wf (w_state w) ->
  ExternalToAsset (w_state (observe_asset s now o w)) !! external_key s (o_external o) =
    Some (resolve_asset s o (w_state w)) /\
  is_Some (Assets (w_state (observe_asset s now o w)) !! resolve_asset s o (w_state w)).
Proof.
  intros W. unfold observe_asset. case_bool_decide as Hk.
  - autorewrite with rec. cbn. rewrite !lookup_insert_eq. split; [done|by eexists].
  - rewrite resolve_asset_known by done.
    destruct (asset_ref_known _ _ W Hk) as [He Ha].
    case_bool_decide; cbn; autorewrite with rec; cbn; rewrite lookup_insert_eq; (split; [done|by eexists]).
Qed.

Lemma active_from_replace s c l connector :
  c_connector c = s_connector s ->
  (length (active_from connector l) <= 1)%nat ->
  (length (active_from connector (replace_claims s c l)) <= 1)%nat.
Proof.
  intros Hc Hl. unfold active_from, replace_claims in *. rewrite filter_app, length_app.
  destruct (decide (connector = s_connector s)) as [->|Hne].
  - replace (filter _ (_ <$> l)) with (@nil AttributeClaim).
    + rewrite filter_cons, filter_nil. case_decide; cbn; lia.
    + symmetry. clear Hl. induction l as [|x l IH]; [done|].
      rewrite fmap_cons, filter_cons_False; [done|]. intros [Ha Hb]. case_bool_decide; cbn in *; congruence.
  - rewrite filter_cons_False by (intros [_ ?]; congruence). rewrite filter_nil. cbn.
    rewrite Nat.add_0_r. revert Hl. clear -Hne.
    assert (length (filter (fun c => c_active c = true /\ c_connector c = connector)
      ((fun x => if bool_decide (c_connector x = s_connector s) then deactivate x else x) <$> l))
      <= length (filter (fun c => c_active c = true /\ c_connector c = connector) l))%nat; [|lia].
    induction l as [|x l IH]; [done|]. rewrite fmap_cons, !filter_cons.
    case_bool_decide; repeat case_decide; cbn in *; try lia; exfalso; naive_solver congruence.
Qed.

Lemma wf_apply_claim p s o id w kv :
  is_Some (Assets (w_state w) !! id) -> wf (w_state w) -> wf (w_state (apply_claim p s o id w kv)).
Proof.
  intros Hid W. destruct kv as [k v]. unfold apply_claim.
  set (c := new_claim p s o id k v). set (l := replace_claims s c _).
  assert (wf (w_state (on_state (fun st => set_claims st (<[claim_key id k := l]> (Claims st))) w))) as W'.
  { destruct W as [W1 W2 W3 W4 W5 W6]. split; cbn; [done..| | |done].
    - intros ck l' c' [[<- <-]|[_ Hl]]%lookup_insert_Some Hc'; [|eauto].
      unfold l, replace_claims, claims_at in Hc'. apply elem_of_app in Hc' as [Hc'|Hc'].
      + apply list_elem_of_fmap in Hc' as (x & -> & Hx).
        destruct (Claims (w_state w) !! claim_key id k) as [lx|] eqn:E; cbn in Hx; [|by apply not_elem_of_nil in Hx].
        destruct (W4 _ _ _ E Hx) as [Hck Ha]. by case_bool_decide.
      + apply list_elem_of_singleton in Hc' as ->. done.
    - intros ck l' connector [[<- <-]|[_ Hl]]%lookup_insert_Some; [|eauto].
      apply active_from_replace; [done|]. unfold claims_at.
      destruct (Claims (w_state w) !! claim_key id k) as [lx|] eqn:E; cbn; [eauto|lia]. }
  case_match; [|done].
  apply wf_addChange, wf_count, wf_put_asset; [|in_statuses|done].
  by apply wf_asset_at.
Qed.

Lemma apply_claim_assets p s o id w kv id' :
  is_Some (Assets (w_state w) !! id') -> is_Some (Assets (w_state (apply_claim p s o id w kv)) !! id').
Proof.
  intros Hid. destruct kv as [k v]. unfold apply_claim. case_match; autorewrite with rec; cbn; auto with infra.
Qed.

Lemma wf_reset_absence key w : wf (w_state w) -> wf (w_state (reset_absence key w)).
Proof. intros [W1 W2 W3 W4 W5 W6]. by split. Qed.

Lemma wf_apply_relationship s now acc ro :
  wf (w_state acc.1) -> wf (w_state (apply_relationship s now acc ro).1).
Proof.
  destruct acc as [w seen]. cbn. intros W. unfold apply_relationship.
  destruct (bool_decide _ || bool_decide _) eqn:E; [done|].
  apply orb_false_iff in E as [Hf%bool_decide_eq_false Ht%bool_decide_eq_false].
  destruct (asset_ref_known _ _ W Hf) as [_ Haf], (asset_ref_known _ _ W Ht) as [_ Hat].
  assert (forall key r, is_Some (Assets (w_state w) !! r_from r) -> is_Some (Assets (w_state w) !! r_to r) ->
    r_status r = "ACTIVE" \/ r_status r = "REMOVED" ->
    wf (w_state (on_state (fun st => set_relationships st (<[key := r]> (Relationships st))) w))) as Hput.
  { intros key r H1 H2 H3. destruct W as [W1 W2 W3 W4 W5 W6]. split; cbn; [done..| |done|done|done].
    intros k r' [[<- <-]|[_ Hk]]%lookup_insert_Some; eauto. }
  destruct (Relationships (w_state w) !! _) as [r|] eqn:Er; cbn.
  - destruct (wf_relationship _ W _ _ Er) as (? & ? & _). apply Hput; cbn; auto.
  - apply wf_addChange, wf_count, Hput; cbn; auto.
Qed.

Lemma wf_remove_relationship s now seen w kr :
  is_Some (Assets (w_state w) !! r_from kr.2) -> is_Some (Assets (w_state w) !! r_to kr.2) ->
  wf (w_state w) -> wf (w_state (remove_relationship s now seen w kr)).
Proof.
  destruct kr as [key r]. cbn. intros H1 H2 W. unfold remove_relationship. case_match; [done|].
  apply wf_addChange, wf_count. destruct W as [W1 W2 W3 W4 W5 W6]. split; cbn; [done..| |done|done|done].
  intros k r' [[<- <-]|[_ Hk]]%lookup_insert_Some; cbn; eauto.
Qed.

Lemma wf_mark_absent s now n seen w ki :
  is_Some (Assets (w_state w) !! ki.2) -> wf (w_state w) -> wf (w_state (mark_absent s now n seen w ki)).
Proof.
  destruct ki as [key id]. cbn. intros Hid W. unfold mark_absent. case_match; [done|].
  set (m := wrap64 _).
  assert (wf (w_state (on_state (fun st => set_absences st (<[key := m]> (SuccessfulAbsences st))) w))) as W'.
  { destruct W as [W1 W2 W3 W4 W5 W6]. by split. }
  repeat (case_match; [|done]).
  apply wf_addChange, wf_count, wf_put_asset; [|in_statuses|done]. by apply wf_asset_at.
Qed.

Lemma mark_absent_assets s now n seen w ki id :
  is_Some (Assets (w_state w) !! id) -> is_Some (Assets (w_state (mark_absent s now n seen w ki)) !! id).
Proof.
  intros Hid. destruct ki as [key i]. unfold mark_absent.
  repeat case_match; autorewrite with rec; cbn; auto with infra.
Qed.

(** ** [Apply] preserves the invariant *)

Section Preservation.
Context `{RangeOrder}.

Lemma range_elem {A} site (m : gmap string A) k v : (k, v) ∈ range site m <-> m !! k = Some v.
Proof. by rewrite range_perm, elem_of_map_to_list. Qed.

Lemma wf_apply_observation p s now w io :
  wf (w_state w) -> wf (w_state (apply_observation p s now w io)).
Proof.
  destruct io as [i o]. intros W. unfold apply_observation. set (id := resolve_asset s o (w_state w)).
  assert (wf (w_state (reset_absence (external_key s (o_external o)) (observe_asset s now o w))) /\
    is_Some (Assets (w_state (reset_absence (external_key s (o_external o)) (observe_asset s now o w))) !! id)) as HP.
  { split; [by apply wf_reset_absence, wf_observe_asset|]. by apply observe_asset_identity. }
  revert HP. generalize (reset_absence (external_key s (o_external o)) (observe_asset s now o w)).
  intros w' HP.
  apply (foldl_inv (apply_claim p s o id) (fun w => wf (w_state w) /\ is_Some (Assets (w_state w) !! id))); [|done].
  intros w1 kv _ [W1 Hid]. split; [by apply wf_apply_claim|by apply apply_claim_assets].
Qed.

Lemma wf_apply_observations p s now w : wf (w_state w) -> wf (w_state (apply_observations p s now w)).
Proof. apply (foldl_inv _ (fun w => wf (w_state w))). intros. by apply wf_apply_observation. Qed.

Lemma wf_apply_relationships s now w : wf (w_state w) -> wf (w_state (apply_relationships s now w).1).
Proof.
  intros W. unfold apply_relationships.
  apply (foldl_inv _ (fun a : Work * gset string => wf (w_state a.1))); [|done].
  intros. by apply wf_apply_relationship.
Qed.

Lemma wf_remove_relationships s now seen w :
  wf (w_state w) -> wf (w_state (remove_relationships s now seen w)).
Proof.
  intros W. unfold remove_relationships.
  apply (foldl_inv _ (fun w' => wf (w_state w') /\ Assets (w_state w') = Assets (w_state w))); [|done].
  intros w' [key r] Hin [W' Ea]. apply range_elem in Hin.
  destruct (wf_relationship _ W _ _ Hin) as (? & ? & _).
  split; [apply wf_remove_relationship; cbn; by rewrite ?Ea|by autorewrite with rec].
Qed.

Lemma wf_mark_absences p s now w : wf (w_state w) -> wf (w_state (mark_absences p s now w)).
Proof.
  intros W. unfold mark_absences.
  apply (foldl_inv _ (fun w' => wf (w_state w') /\
    forall id, is_Some (Assets (w_state w) !! id) -> is_Some (Assets (w_state w') !! id))); [|done].
  intros w' [key id] Hin [W' Ha]. apply range_elem in Hin.
  destruct (wf_identity _ W _ _ Hin) as [_ Hid].
  split; [apply wf_mark_absent; cbn; auto|]. intros i Hi. apply mark_absent_assets. auto.
Qed.

Lemma wf_apply_success p s now st : wf st -> wf (w_state (apply_success p s now st)).
Proof.
  intros W. unfold apply_success. destruct (apply_relationships _ _ _) as [w seen] eqn:E. cbn.
  assert (wf (w_state (mark_absences p s now (remove_relationships s now seen w)))) as W'.
  { apply wf_mark_absences, wf_remove_relationships. change w with (w, seen).1. rewrite <- E.
    by apply wf_apply_relationships, wf_apply_observations. }
  destruct W' as [W1 W2 W3 W4 W5 W6]. by split.
Qed.

End Preservation.

Lemma Apply_wf `{RangeOrder} clock st s status p st' r :
  wf st -> Apply clock (Some st) s status p = (Some st', r) -> wf st'.
Proof.
  intros W. unfold Apply. destruct (_ !! _); case_bool_decide; cbn; intros [= <- <-]; try done.
  - by apply wf_apply_success.
  - destruct W as [W1 W2 W3 W4 W5 W6]. by split.
Qed.

(** C22. Every state reachable from [NewState] by any sequence of deliveries is
    well formed: identities and relationship endpoints refer to existing
    assets, statuses are of the declared enumeration, each claim is stored
    under its asset and attribute, a connector has at most one active claim per
    attribute of an asset, and a change is stored under its logical key. *)
Theorem reachable_states_well_formed (l : list Delivery) :
  exists st, deliver (Some NewState) l = Some st /\ wf st.
Proof.
  generalize wf_new. generalize NewState. unfold deliver.
  induction l as [|d l IH]; cbn; intros st0 W0; [by exists st0|].
  destruct (deliver_one_records st0 d) as (st1 & E & _). rewrite E. apply IH.
  unfold deliver_one in E.
  destruct (@Apply (d_order d) (d_clock d) (Some st0) (d_snapshot d) (d_status d) (d_policy d)) as [o r] eqn:EA.
  cbn in E. subst o. by eapply (@Apply_wf (d_order d)).
Qed.
