(* ===== verification/ReconcileAbsence.v ===== *)
(** * Absence, return and relationship removal in the reconciliation engine *)
From S2P Require Import Prelude GoStrings GoJson Domain Reconcile ReconcileFrames ReconcileFacts ReconcileInv.
Open Scope string_scope.

(** ** The absence loop *)

(** The identity belongs to the snapshot's connector and was not observed. *)
Definition targeted (s : SnapshotEnvelope) (seen : gset string) (key : string) : Prop :=
  has_prefix key (key_prefix s) = true /\ key ∉ seen.

#[export] Instance targeted_dec s seen key : Decision (targeted s seen key).
Proof. unfold targeted. apply _. Defined.

(** The absence counter of an identity after one more absence. *)
Definition next_absence (m : gmap string Z) (key : string) : Z := wrap64 (default 0%Z (m !! key) + 1).

(** Some unobserved identity of [id] reaches the threshold. *)
Definition absent_too_long (s : SnapshotEnvelope) (n : Z) (seen : gset string) (m : gmap string Z)
    (l : list (string * string)) (id : string) : Prop :=
  Exists (fun ki => ki.2 = id /\ targeted s seen ki.1 /\ (n <= next_absence m ki.1)%Z) l.

Lemma mark_absent_skip s now n seen w key id :
  ~ targeted s seen key -> mark_absent s now n seen w (key, id) = w.
Proof.
  intros Ht. unfold mark_absent, targeted in *. destruct (has_prefix _ _); cbn; [|done].
  case_bool_decide; [done|]. exfalso. by apply Ht.
Qed.

Lemma mark_absent_counter s now n seen w key id :
  targeted s seen key ->
  SuccessfulAbsences (w_state (mark_absent s now n seen w (key, id))) =
  <[key := next_absence (SuccessfulAbsences (w_state w)) key]> (SuccessfulAbsences (w_state w)).
Proof.
  intros [Hp Hs]. unfold mark_absent. rewrite Hp, bool_decide_false by done. cbn.
  repeat case_match; autorewrite with rec; done.
Qed.

(** The asset a marking leaves: missing when due, unless retired. *)
Definition marked (now : gotime) (a : Asset) : Asset :=
  if decide (a_status a = AssetMissing \/ a_status a = AssetRetired) then a
  else asset_status a AssetMissing now.

Lemma mark_absent_asset s now n seen w key id a :
  targeted s seen key -> Assets (w_state w) !! id = Some a ->
  Assets (w_state (mark_absent s now n seen w (key, id))) =
  if decide (n <= next_absence (SuccessfulAbsences (w_state w)) key)%Z
  then <[id := marked now a]> (Assets (w_state w)) else Assets (w_state w).
Proof.
  intros [Hp Hs] Ha. unfold mark_absent. rewrite Hp, bool_decide_false by done. cbn.
  fold (next_absence (SuccessfulAbsences (w_state w)) key).
  destruct (decide _) as [Hn|Hn].
  - rewrite (proj2 (Z.leb_le _ _)) by done. unfold asset_at. cbn. rewrite Ha. cbn.
    unfold marked. case_decide as Hst.
    + rewrite insert_id by done. destruct Hst as [Hst|Hst]; rewrite Hst; done.
    + rewrite !bool_decide_false by tauto. cbn. by autorewrite with rec.
  - by rewrite (proj2 (Z.leb_gt _ _)) by lia.
Qed.

Lemma marked_marked now a : marked now (marked now a) = marked now a.
Proof.
  unfold marked. destruct (decide (a_status a = _ \/ _)) as [H|H].
  - by rewrite decide_True.
  - rewrite decide_True; [done|]. by left.
Qed.

#[export] Instance absent_too_long_dec s n seen m l id : Decision (absent_too_long s n seen m l id).
Proof. unfold absent_too_long. apply _. Defined.

Lemma next_absence_other m key key0 v : key <> key0 -> next_absence (<[key0 := v]> m) key = next_absence m key.
Proof. intros Hne. unfold next_absence. by rewrite lookup_insert_ne. Qed.

(** Counting one identity's absence does not change which of the others are due. *)
Lemma absent_too_long_other s n seen m l id key0 v :
  key0 ∉ l.*1 -> absent_too_long s n seen (<[key0 := v]> m) l id <-> absent_too_long s n seen m l id.
Proof.
  intros Hnew. unfold absent_too_long. rewrite !Exists_exists.
  assert (forall key i, (key, i) ∈ l -> key <> key0) as Hne.
  { intros key i Hin ->. apply Hnew, list_elem_of_fmap. by exists (key0, i). }
  split; intros ([key i] & Hin & Hi & Ht & Hn); exists (key, i); cbn in *;
    refine (conj Hin (conj Hi (conj Ht _))); pose proof (Hne _ _ Hin) as Hk.
  - by rewrite next_absence_other in Hn.
  - by rewrite next_absence_other.
Qed.

Lemma absent_too_long_cons s n seen m key i l id :
  absent_too_long s n seen m ((key, i) :: l) id <->
  (i = id /\ targeted s seen key /\ (n <= next_absence m key)%Z) \/ absent_too_long s n seen m l id.
Proof. unfold absent_too_long. by rewrite Exists_cons. Qed.

Lemma mark_absent_fold_counters s now n seen l w :
  NoDup l.*1 ->
  let m := SuccessfulAbsences (w_state w) in
  let m' := SuccessfulAbsences (w_state (foldl (mark_absent s now n seen) w l)) in
  forall key, m' !! key = if decide (key ∈ l.*1 /\ targeted s seen key) then Some (next_absence m key) else m !! key.
Proof.
  cbn zeta. revert w. induction l as [|[key0 id0] l IH]; intros w Hnd key; cbn [foldl].
  { rewrite decide_False; [done|]. by intros [?%not_elem_of_nil _]. }
  rewrite fmap_cons in *. apply NoDup_cons in Hnd as [Hnew Hnd]. cbn in Hnew. rewrite (IH _ Hnd).
  destruct (decide (targeted s seen key0)) as [Ht|Ht].
  - rewrite (mark_absent_counter s now n seen w key0 id0 Ht).
    destruct (decide (key = key0)) as [->|Hne].
    + rewrite decide_False by tauto. rewrite decide_True by (split; [left|done]).
      by rewrite lookup_insert_eq.
    + rewrite next_absence_other, lookup_insert_ne by done.
      apply decide_ext. rewrite elem_of_cons. tauto.
  - rewrite mark_absent_skip by done. apply decide_ext. rewrite elem_of_cons.
    split; [tauto|]. intros [[->|?] ?]; tauto.
Qed.

Lemma mark_absent_fold_assets s now n seen l w :
  NoDup l.*1 -> (forall key id, (key, id) ∈ l -> is_Some (Assets (w_state w) !! id)) ->
  forall id a, Assets (w_state w) !! id = Some a ->
  Assets (w_state (foldl (mark_absent s now n seen) w l)) !! id =
    Some (if decide (absent_too_long s n seen (SuccessfulAbsences (w_state w)) l id) then marked now a else a).
Proof.
  revert w. induction l as [|[key0 id0] l IH]; intros w Hnd Hex id a Ha; cbn [foldl].
  { rewrite decide_False; [done|]. intros Hl. by inversion Hl. }
  rewrite fmap_cons in Hnd. apply NoDup_cons in Hnd as [Hnew Hnd]. cbn in Hnew.
  destruct (Hex key0 id0) as [a0 Ha0]; [left|].
  assert (forall w1, (forall i, is_Some (Assets (w_state w) !! i) -> is_Some (Assets (w_state w1) !! i)) ->
    forall key i, (key, i) ∈ l -> is_Some (Assets (w_state w1) !! i)) as Hex'.
  { intros w1 Hmono key i Hin. apply Hmono, (Hex key). by right. }
  destruct (decide (targeted s seen key0)) as [Ht|Ht]; cycle 1.
  { rewrite mark_absent_skip by done. rewrite (IH w Hnd (Hex' w (fun _ H => H)) id a Ha).
    f_equal. apply decide_ext. rewrite absent_too_long_cons. tauto. }
  set (w1 := mark_absent s now n seen w (key0, id0)).
  pose proof (mark_absent_asset s now n seen w key0 id0 a0 Ht Ha0) as HA.
  pose proof (mark_absent_counter s now n seen w key0 id0 Ht) as HC. fold w1 in HA, HC.
  set (due := (n <= next_absence (SuccessfulAbsences (w_state w)) key0)%Z) in *.
  assert (Assets (w_state w1) !! id = Some (if decide (due /\ id0 = id) then marked now a else a)) as Ha1.
  { rewrite HA. destruct (decide due) as [Hd|Hd]; [|by rewrite decide_False by tauto].
    destruct (decide (id0 = id)) as [->|Hne].
    - rewrite decide_True by done. rewrite lookup_insert_eq. congruence.
    - rewrite decide_False by tauto. by rewrite lookup_insert_ne. }
  rewrite (IH w1 Hnd (Hex' w1 (fun i => mark_absent_assets s now n seen w (key0, id0) i)) id _ Ha1).
  rewrite HC. f_equal.
  rewrite (decide_ext _ _ _ _ (absent_too_long_other s n seen _ l id key0 _ Hnew)).
  rewrite (decide_ext _ _ _ _ (absent_too_long_cons s n seen _ key0 id0 l id)). fold due.
  destruct (decide (absent_too_long _ _ _ _ l id)) as [Hl|Hl].
  - rewrite (decide_True (P := _ \/ _)) by (by right). case_decide; [apply marked_marked|done].
  - apply decide_ext. tauto.
Qed.

Lemma mark_absent_fold_none s now n seen l w id :
  (forall key i, (key, i) ∈ l -> i <> id) -> Assets (w_state w) !! id = None ->
  Assets (w_state (foldl (mark_absent s now n seen) w l)) !! id = None.
Proof.
  intros Hl Hn. apply (foldl_inv _ (fun w => Assets (w_state w) !! id = None)); [|done].
  intros w' [key i] Hin Hw. unfold mark_absent. repeat case_match; simplify_eq/=; try done.
  autorewrite with rec. cbn. rewrite lookup_insert_ne by eauto. done.
Qed.

(** ** The observation loop *)

Definition live (a : Asset) : Prop := a_status a = AssetActive \/ a_status a = AssetConflicting.

Lemma observe_asset_external s now o w : wf (w_state w) ->
  ExternalToAsset (w_state (observe_asset s now o w)) =
  <[external_key s (o_external o) := resolve_asset s o (w_state w)]> (ExternalToAsset (w_state w)).
Proof.
  intros W. unfold observe_asset. case_bool_decide as Hk.
  - by autorewrite with rec.
  - rewrite resolve_asset_known by done. destruct (asset_ref_known _ _ W Hk) as [He _].
    rewrite (insert_id _ _ _ He). case_bool_decide; cbn; by autorewrite with rec.
Qed.

Lemma observe_asset_assets s now o w :
  exists a, live a /\
  Assets (w_state (observe_asset s now o w)) = <[resolve_asset s o (w_state w) := a]> (Assets (w_state w)).
Proof.
  unfold observe_asset. case_bool_decide as Hk.
  - eexists. split; [|by autorewrite with rec]. by left.
  - eexists (asset_seen _ now). split; [by left|].
    case_bool_decide; cbn; autorewrite with rec; by rewrite resolve_asset_known.
Qed.

Lemma apply_claim_live p s o id w kv a :
  Assets (w_state w) !! id = Some a -> live a ->
  exists a', live a' /\ Assets (w_state (apply_claim p s o id w kv)) = <[id := a']> (Assets (w_state w)).
Proof.
  intros Ha Hl. destruct kv as [k v]. unfold apply_claim. case_match.
  - eexists. split; [|by autorewrite with rec]. by right.
  - exists a. split; [done|]. cbn. by rewrite insert_id.
Qed.

Section ObservationLoop.
Context `{RangeOrder} (p : Policy) (s : SnapshotEnvelope) (now : gotime).

Lemma apply_claims_live o id l w a :
  Assets (w_state w) !! id = Some a -> live a ->
  exists a', live a' /\ Assets (w_state (foldl (apply_claim p s o id) w l)) = <[id := a']> (Assets (w_state w)).
Proof.
  revert w a. induction l as [|kv l IH]; intros w a Ha Hl; cbn [foldl].
  - exists a. by rewrite insert_id.
  - destruct (apply_claim_live p s o id w kv a Ha Hl) as (a1 & Hl1 & E1).
    destruct (IH (apply_claim p s o id w kv) a1) as (a2 & Hl2 & E2); [|done|].
    + by rewrite E1, lookup_insert_eq.
    + exists a2. split; [done|]. by rewrite E2, E1, insert_insert_eq.
Qed.

Lemma apply_observation_effect w i o : wf (w_state w) ->
  let w' := apply_observation p s now w (i, o) in
  let key := external_key s (o_external o) in
  let id := resolve_asset s o (w_state w) in
  ExternalToAsset (w_state w') = <[key := id]> (ExternalToAsset (w_state w)) /\
  SuccessfulAbsences (w_state w') = <[key := 0%Z]> (SuccessfulAbsences (w_state w)) /\
  exists a, live a /\ Assets (w_state w') = <[id := a]> (Assets (w_state w)).
Proof.
  intros W. cbn zeta. unfold apply_observation. set (id := resolve_asset s o (w_state w)).
  set (w1 := reset_absence _ _). split; [|split].
  - rewrite (foldl_proj _ (fun w => ExternalToAsset (w_state w))) by (intros; by autorewrite with rec).
    by apply observe_asset_external.
  - rewrite (foldl_proj _ (fun w => SuccessfulAbsences (w_state w))) by (intros; by autorewrite with rec).
    unfold w1, reset_absence. cbn. by autorewrite with rec.
  - destruct (observe_asset_assets s now o w) as (a & Hl & Ea). fold id in Ea.
    destruct (apply_claims_live o id (range (2 + i) (attrs o)) w1 a) as (a' & Hl' & Ea').
    + unfold w1, reset_absence. cbn. by rewrite Ea, lookup_insert_eq.
    + done.
    + exists a'. split; [done|]. rewrite Ea'. unfold w1, reset_absence. cbn.
      by rewrite Ea, insert_insert_eq.
Qed.

(** The identity keys of the observations in a list. *)
Definition keys_of (l : list (nat * Observation)) : list string := external_key s ∘ o_external <$> l.*2.

(** Some observation of the list ends up identified with asset [id]. *)
Definition observed_as (m : gmap string string) (l : list (nat * Observation)) (id : string) : Prop :=
  Exists (fun key => m !! key = Some id) (keys_of l).

#[export] Instance observed_as_dec m l id : Decision (observed_as m l id).
Proof. unfold observed_as. apply _. Defined.

Lemma resolve_asset_stable w o id : wf (w_state w) ->
  ExternalToAsset (w_state w) !! external_key s (o_external o) = Some id ->
  resolve_asset s o (w_state w) = id.
Proof.
  intros W He. destruct (wf_identity _ W _ _ He) as [Hne _].
  assert (asset_ref (w_state w) (external_key s (o_external o)) = id) as E by (unfold asset_ref; by rewrite He).
  rewrite resolve_asset_known; by rewrite E.
Qed.

Lemma observation_fold l w : wf (w_state w) ->
  let w' := foldl (apply_observation p s now) w l in
  let m' := ExternalToAsset (w_state w') in
  (forall key id, ExternalToAsset (w_state w) !! key = Some id -> m' !! key = Some id) /\
  (forall key, key ∉ keys_of l -> m' !! key = ExternalToAsset (w_state w) !! key) /\
  (forall key, SuccessfulAbsences (w_state w') !! key =
     if decide (key ∈ keys_of l) then Some 0%Z else SuccessfulAbsences (w_state w) !! key) /\
  (forall id, observed_as m' l id -> exists a, Assets (w_state w') !! id = Some a /\ live a) /\
  (forall id, ~ observed_as m' l id -> Assets (w_state w') !! id = Assets (w_state w) !! id).
Proof.
  cbn zeta. revert w. induction l as [|[i o] l IH]; intros w W; cbn [foldl].
  { split_and!; [done|done| | |done].
    - intros key. rewrite decide_False; [done|]. apply not_elem_of_nil.
    - intros id Hid. by inversion Hid. }
  destruct (apply_observation_effect w i o W) as (HE & HC & a1 & Hl1 & HA).
  pose proof (wf_apply_observation p s now w (i, o) W) as W1.
  destruct (IH _ W1) as (I1 & I2 & I3 & I4 & I5). clear IH.
  set (w1 := apply_observation p s now w (i, o)) in *.
  set (w' := foldl (apply_observation p s now) w1 l) in *.
  set (key0 := external_key s (o_external o)) in *. set (id0 := resolve_asset s o (w_state w)) in *.
  change (keys_of ((i, o) :: l)) with (key0 :: keys_of l).
  assert (ExternalToAsset (w_state w') !! key0 = Some id0) as Hk0.
  { apply I1. by rewrite HE, lookup_insert_eq. }
  split_and!.
  - intros key id Hid. apply I1. rewrite HE. destruct (decide (key = key0)) as [->|Hne].
    + rewrite lookup_insert_eq. f_equal. by apply resolve_asset_stable.
    + by rewrite lookup_insert_ne.
  - intros key Hk. rewrite not_elem_of_cons in Hk. destruct Hk as [Hne Hk].
    rewrite I2 by done. by rewrite HE, lookup_insert_ne.
  - intros key. rewrite I3, HC. destruct (decide (key ∈ keys_of l)) as [Hk|Hk].
    + rewrite decide_True; [done|by right].
    + destruct (decide (key = key0)) as [->|Hne].
      * rewrite lookup_insert_eq, decide_True; [done|left].
      * rewrite lookup_insert_ne by done. rewrite decide_False; [done|]. rewrite elem_of_cons. tauto.
  - intros id Hid. destruct (decide (observed_as (ExternalToAsset (w_state w')) l id)) as [Ht|Ht]; [auto|].
    rewrite (I5 id Ht). apply Exists_cons in Hid as [Hid|Hid]; [|done].
    change (ExternalToAsset (w_state w') !! key0 = Some id) in Hid.
    rewrite Hk0 in Hid. injection Hid as <-. exists a1. by rewrite HA, lookup_insert_eq.
  - intros id Hid. unfold observed_as in Hid. cbn in Hid. rewrite Exists_cons in Hid.
    rewrite (I5 id) by tauto. rewrite HA, lookup_insert_ne; [done|]. intros ->. tauto.
Qed.

End ObservationLoop.
