(* ===== verification/ReconcileOutcome.v ===== *)
(** * What one successful snapshot does to assets, absences and relationships *)
From S2P Require Import Prelude GoStrings GoJson Domain Reconcile ReconcileFrames ReconcileFacts ReconcileInv ReconcileAbsence.
Open Scope string_scope.

(** ** Assets and absence counters *)

Section Outcome.
Context `{RangeOrder} (p : Policy) (s : SnapshotEnvelope).

(** The snapshot observes asset [id], under the identities of the new state. *)
Definition observed (st' : State) (id : string) : Prop :=
  Exists (fun o => ExternalToAsset st' !! external_key s (o_external o) = Some id) (assets_of s).

(** One of the asset's known identities has been unseen for long enough. *)
Definition due_missing (st : State) (id : string) : Prop :=
  Exists (fun ki => ki.2 = id /\ targeted s (seen_keys s) ki.1 /\
    (effective_threshold p <= next_absence (SuccessfulAbsences st) ki.1)%Z) (map_to_list (ExternalToAsset st)).

#[export] Instance observed_decision st' id : Decision (observed st' id).
Proof. unfold observed. apply _. Defined.
#[export] Instance due_missing_dec st id : Decision (due_missing st id).
Proof. unfold due_missing. apply _. Defined.

Lemma keys_of_imap : keys_of s (imap pair (assets_of s)) = external_key s ∘ o_external <$> assets_of s.
Proof.
  unfold keys_of. f_equal. rewrite fmap_imap.
  rewrite <- (list_fmap_id (assets_of s)) at 2. rewrite <- imap_const. by apply imap_ext.
Qed.

Lemma observed_as_spec st' id :
  observed_as s (ExternalToAsset st') (imap pair (assets_of s)) id <-> observed st' id.
Proof. unfold observed_as, observed. rewrite keys_of_imap, Exists_fmap. done. Qed.

Lemma not_seen_keys key : key ∉ seen_keys s <-> key ∉ keys_of s (imap pair (assets_of s)).
Proof. rewrite keys_of_imap. unfold seen_keys. by rewrite elem_of_list_to_set. Qed.

(** The observation loop neither adds a targeted identity nor counts one. *)
Lemma due_missing_spec now st l :
  let w := apply_observations p s now {| w_state := st; w_summary := no_summary |} in
  wf st -> l ≡ₚ map_to_list (ExternalToAsset (w_state w)) ->
  forall id, absent_too_long s (effective_threshold p) (seen_keys s) (SuccessfulAbsences (w_state w)) l id
    <-> due_missing st id.
Proof.
  intros w W Hl id. destruct (observation_fold p s now (imap pair (assets_of s))
    {| w_state := st; w_summary := no_summary |} W) as (_ & I2 & I3 & _).
  fold (apply_observations p s now {| w_state := st; w_summary := no_summary |}) in I2, I3. fold w in I2, I3.
  unfold absent_too_long, due_missing. rewrite Hl, !Exists_exists.
  assert (forall key, targeted s (seen_keys s) key ->
    ExternalToAsset (w_state w) !! key = ExternalToAsset st !! key /\
    next_absence (SuccessfulAbsences (w_state w)) key = next_absence (SuccessfulAbsences st) key) as Hsame.
  { intros key [_ Hk%not_seen_keys]. split; [by apply I2|]. unfold next_absence. by rewrite I3, decide_False. }
  split; intros ([key i] & Hin%elem_of_map_to_list & Hi & Ht & Hn); destruct (Hsame _ Ht) as [E1 E2];
    exists (key, i); rewrite elem_of_map_to_list; cbn in *; rewrite E2 in *; [rewrite <- E1|rewrite E1]; done.
Qed.

Lemma targeted_known now st key :
  let w := apply_observations p s now {| w_state := st; w_summary := no_summary |} in
  wf st -> targeted s (seen_keys s) key ->
  (key ∈ (range 1 (ExternalToAsset (w_state w))).*1 <-> is_Some (ExternalToAsset st !! key)).
Proof.
  intros w W [_ Hk%not_seen_keys].
  destruct (observation_fold p s now (imap pair (assets_of s)) {| w_state := st; w_summary := no_summary |} W) as (_ & I2 & _).
  specialize (I2 key Hk). change (ExternalToAsset (w_state w) !! key = ExternalToAsset st !! key) in I2.
  rewrite <- I2.
  rewrite range_perm, list_elem_of_fmap. split.
  - intros ([k i] & -> & Hin%elem_of_map_to_list). by eexists.
  - intros [i Hi]. exists (key, i). split; [done|]. by apply elem_of_map_to_list.
Qed.

(** The four phases after the observation loop, read field by field. *)
Lemma apply_success_phases now st :
  let w := apply_observations p s now {| w_state := st; w_summary := no_summary |} in
  let l := range 1 (ExternalToAsset (w_state w)) in
  exists w3 w', w_state (apply_success p s now st) = record_processed s (w_state w') /\
    w' = foldl (mark_absent s now (effective_threshold p) (seen_keys s)) w3 l /\
    Assets (w_state w3) = Assets (w_state w) /\
    ExternalToAsset (w_state w3) = ExternalToAsset (w_state w) /\
    SuccessfulAbsences (w_state w3) = SuccessfulAbsences (w_state w) /\
    ExternalToAsset (w_state w') = ExternalToAsset (w_state w).
Proof.
  intros w l. unfold apply_success. fold w.
  pose proof (apply_relationships_Assets s now w) as EA.
  pose proof (apply_relationships_ExternalToAsset s now w) as EE.
  pose proof (apply_relationships_SuccessfulAbsences s now w) as EC.
  destruct (apply_relationships s now w) as [w2 seen] eqn:E. cbn [fst] in EA, EE, EC.
  exists (remove_relationships s now seen w2), (mark_absences p s now (remove_relationships s now seen w2)).
  autorewrite with rec. split_and!; try done.
  unfold mark_absences. by rewrite remove_relationships_ExternalToAsset, EE.
Qed.

End Outcome.


(** The state two successful snapshots of a sample connector start from: [c1]
    and [c2] were observed, and [c1] depends on [c2]. *)
Definition sample_policy : Policy := Build_Policy ∅ 1.
Definition sample_first : SnapshotEnvelope :=
  sample_snapshot "s1" "h1" [sample_observation "c1" ∅; sample_observation "c2" ∅]
    [sample_relationship "c1" "c2" "DEPENDS_ON"].
Definition sample_second : SnapshotEnvelope := sample_snapshot "s2" "h2" [sample_observation "c1" ∅] [].
Definition sample_state : State :=
  match @Apply sorted_range 7 (Some NewState) sample_first SnapshotSucceeded sample_policy with
  | (Some st, _) => st
  | _ => NewState
  end.

Lemma sample_state_wf : wf sample_state.
Proof.
  apply (@Apply_wf sorted_range 7 NewState sample_first SnapshotSucceeded sample_policy _ 
    (Ok {| Created := 2; Updated := 0; Unchanged := 0; Missing := 0; Conflicting := 0;
           RelationshipsCreated := 1; RelationshipsRemoved := 0; ChangeCount := 3 |}) wf_new).
  vm_compute. reflexivity.
Qed.

Definition sample_result : Work := @apply_success sorted_range sample_policy sample_second 2 sample_state.

Lemma sample_step :
  @Apply sorted_range 9 (Some sample_state) sample_second SnapshotSucceeded sample_policy =
  (Some (w_state sample_result), Ok (w_summary sample_result)).
Proof. vm_compute. reflexivity. Qed.

Lemma sample_fresh : ProcessedSnapshots sample_state !! s_id sample_second = None.
Proof. vm_compute. reflexivity. Qed.


(** The absence counters after a fresh successful snapshot: zero for each
    observed identity, one more (as a 64-bit integer) for each known identity of
    the snapshot's connector it did not observe, and untouched for every other
    identity, those of other connectors and organizations included. *)
Theorem Apply_absence_counters `{RangeOrder} clock st s p st' sum
    (W : wf st) (Hfresh : ProcessedSnapshots st !! s_id s = None)
    (Hok : Apply clock (Some st) s SnapshotSucceeded p = (Some st', Ok sum)) key :
  SuccessfulAbsences st' !! key =
    if decide (key ∈ seen_keys s) then Some 0%Z
    else if decide (has_prefix key (key_prefix s) = true /\ is_Some (ExternalToAsset st !! key))
    then Some (wrap64 (default 0%Z (SuccessfulAbsences st !! key) + 1))
    else SuccessfulAbsences st !! key.
Proof.
  unfold Apply in Hok. rewrite Hfresh, bool_decide_true in Hok by done. cbn in Hok.
  injection Hok as <- <-. set (now := snapshot_now s clock).
  destruct (apply_success_phases p s now st) as (w3 & w' & -> & -> & _ & _ & EC & _).
  set (w := apply_observations p s now _) in *. cbn [record_processed set_processed SuccessfulAbsences].
  set (l := range 1 _).
  assert (NoDup l.*1) as Hnd by (unfold l; rewrite range_perm; apply NoDup_fst_map_to_list).
  rewrite (mark_absent_fold_counters s now _ _ l w3 Hnd key).
  set (w0 := {| w_state := st; w_summary := no_summary |}) in *.
  destruct (observation_fold p s now (imap pair (assets_of s)) w0 W) as (_ & _ & I3 & _).
  specialize (I3 key). change (foldl _ w0 _) with w in I3.
  destruct (decide (key ∈ seen_keys s)) as [Hk|Hk].
  - rewrite decide_False by (intros [_ [_ Ht]]; done). rewrite EC, I3, decide_True; [done|].
    rewrite keys_of_imap. unfold seen_keys in Hk. by rewrite elem_of_list_to_set in Hk.
  - pose proof Hk as Hk'. rewrite not_seen_keys in Hk'. rewrite decide_False in I3 by done. cbn in I3.
    destruct (decide (has_prefix key (key_prefix s) = true)) as [Hp|Hp]; cycle 1.
    + rewrite !decide_False by (unfold targeted; tauto). by rewrite EC, I3.
    + assert (targeted s (seen_keys s) key) as Ht by by split.
      rewrite (decide_ext _ (has_prefix key (key_prefix s) = true /\ is_Some (ExternalToAsset st !! key))).
      2: { pose proof (targeted_known p s now st key W Ht) as Hkn. fold w0 in Hkn. fold w in Hkn. tauto. }
      destruct (decide _); unfold next_absence; by rewrite EC, I3.
Qed.

Lemma Apply_absence_counters_witness :
  SuccessfulAbsences (w_state sample_result) !! external_key sample_second "c2" = Some 1%Z.
Proof.
  rewrite (@Apply_absence_counters sorted_range 9 sample_state sample_second sample_policy _ _
      sample_state_wf sample_fresh sample_step).
  vm_compute. reflexivity.
Defined.

(** ** Relationships *)

Section RelationshipOutcome.
Context `{RangeOrder} (s : SnapshotEnvelope) (now : gotime).

(** The key of an observed relationship whose two endpoints are known. *)
Definition resolved_relationship (m : gmap string string) (ro : RelationshipObservation) : option string :=
  let from := default "" (m !! external_key s (ro_from ro)) in
  let to := default "" (m !! external_key s (ro_to ro)) in
  if bool_decide (from = "") || bool_decide (to = "") then None
  else Some (relationship_key s from to (ro_type ro)).

Definition relationship_keys (m : gmap string string) (l : list RelationshipObservation) : list string :=
  omap (resolved_relationship m) l.

Lemma apply_relationship_step w seen ro :
  let st := w_state w in
  let acc := apply_relationship s now (w, seen) ro in
  match resolved_relationship (ExternalToAsset st) ro with
  | None => acc = (w, seen)
  | Some key => acc.2 = {[key]} ∪ seen /\ exists r, r_status r = "ACTIVE" /\
      Relationships (w_state acc.1) = <[key := r]> (Relationships st) /\
      (forall r0, Relationships st !! key = Some r0 -> r = rel_seen r0 now)
  end.
Proof.
  cbn zeta. unfold resolved_relationship, apply_relationship, asset_ref.
  destruct (_ || _) eqn:E; [done|].
  destruct (Relationships (w_state w) !! relationship_key _ _ _ _) as [r|] eqn:Er; cbn [fst snd].
  - split; [done|]. exists (rel_seen r now). split; [done|]. split; [done|]. intros r0 [= ->]. done.
  - split; [done|]. eexists. split; [|split]; [|autorewrite with rec; reflexivity|]; done.
Qed.

Lemma apply_relationship_fold l w seen :
  let m := ExternalToAsset (w_state w) in
  let acc := foldl (apply_relationship s now) (w, seen) l in
  acc.2 = list_to_set (relationship_keys m l) ∪ seen /\
  (forall key, key ∈ relationship_keys m l -> exists r, Relationships (w_state acc.1) !! key = Some r /\
     r_status r = "ACTIVE" /\
     (forall r0, Relationships (w_state w) !! key = Some r0 -> r = rel_seen r0 now)) /\
  (forall key, key ∉ relationship_keys m l ->
     Relationships (w_state acc.1) !! key = Relationships (w_state w) !! key).
Proof.
  cbn zeta. revert w seen. induction l as [|ro l IH]; intros w seen; cbn [foldl].
  { unfold relationship_keys. cbn. split_and!; [set_solver| |done]. intros key Hk. by apply not_elem_of_nil in Hk. }
  pose proof (apply_relationship_step w seen ro) as Hstep. cbn zeta in Hstep.
  pose proof (apply_relationship_ExternalToAsset s now (w, seen) ro) as HE. cbn [fst] in HE.
  destruct (apply_relationship s now (w, seen) ro) as [w1 seen1]. cbn [fst snd] in *.
  unfold relationship_keys in *. cbn [omap list_omap].
  destruct (resolved_relationship _ ro) as [key0|].
  - destruct Hstep as (-> & r1 & Hr1 & HR & Hold).
    destruct (IH w1 ({[key0]} ∪ seen)) as (I1 & I2 & I3). rewrite HE in *. split_and!.
    + rewrite I1. cbn. set_solver.
    + intros key Hk. destruct (decide (key ∈ omap (resolved_relationship (ExternalToAsset (w_state w))) l)) as [Hl|Hl].
      * destruct (I2 key Hl) as (r & E & Hst & Hr). exists r. split_and!; [done|done|]. intros r0 Er0.
        rewrite HR in Hr. destruct (decide (key = key0)) as [->|Hne].
        -- rewrite (Hr r1) by apply lookup_insert_eq. by rewrite (Hold r0 Er0).
        -- apply Hr. by rewrite lookup_insert_ne.
      * apply elem_of_cons in Hk as [->|Hk]; [|done]. exists r1.
        rewrite I3, HR, lookup_insert_eq by done. done.
    + intros key [Hne Hl]%not_elem_of_cons. by rewrite I3, HR, lookup_insert_ne.
  - injection Hstep as -> ->. apply IH.
Qed.

(** What the removal loop makes of a stored relationship. *)
Definition dropped (seen : gset string) (key : string) (r : Relationship) : Relationship :=
  if decide (targeted s seen key /\ r_status r = "ACTIVE") then rel_removed r now else r.

Lemma remove_relationship_step seen w key r :
  Relationships (w_state w) !! key = Some r ->
  Relationships (w_state (remove_relationship s now seen w (key, r))) =
  <[key := dropped seen key r]> (Relationships (w_state w)).
Proof.
  intros Hk. unfold dropped. destruct (decide _) as [[[Hp Hs] Ha]|Hn].
  - unfold remove_relationship. rewrite Hp, bool_decide_false, bool_decide_true by done. cbn.
    by autorewrite with rec.
  - rewrite insert_id by done. unfold remove_relationship.
    case_match eqn:E; [done|]. exfalso. apply Hn. unfold targeted.
    apply orb_false_iff in E as [[Hp%negb_false_iff Hs%bool_decide_eq_false]%orb_false_iff
      Ha%negb_false_iff%bool_decide_eq_true]. done.
Qed.

Lemma remove_relationship_fold seen l w : NoDup l.*1 ->
  (forall key r, (key, r) ∈ l -> Relationships (w_state w) !! key = Some r) ->
  let w' := foldl (remove_relationship s now seen) w l in
  (forall key r, (key, r) ∈ l -> Relationships (w_state w') !! key = Some (dropped seen key r)) /\
  (forall key, key ∉ l.*1 -> Relationships (w_state w') !! key = Relationships (w_state w) !! key).
Proof.
  cbn zeta. revert w. induction l as [|[key0 r0] l IH]; intros w Hnd Hl; cbn [foldl].
  { split; [|done]. intros key r Hin. by apply not_elem_of_nil in Hin. }
  rewrite fmap_cons in *. apply NoDup_cons in Hnd as [Hnew Hnd]. cbn [fst] in *.
  pose proof (remove_relationship_step seen w key0 r0 (Hl _ _ ltac:(left))) as HR.
  assert (forall key r, (key, r) ∈ l -> key <> key0) as Hne.
  { intros key r Hin ->. apply Hnew. apply list_elem_of_fmap. by exists (key0, r). }
  destruct (IH (remove_relationship s now seen w (key0, r0)) Hnd) as [I1 I2].
  { intros key r Hin. rewrite HR, lookup_insert_ne by (symmetry; eauto). apply Hl. by right. }
  split.
  - intros key r [[= -> ->]|Hin]%elem_of_cons; [|auto]. by rewrite I2, HR, lookup_insert_eq.
  - intros key [Hk Hkl]%not_elem_of_cons. by rewrite I2, HR, lookup_insert_ne.
Qed.

Lemma remove_relationships_spec seen w key :
  Relationships (w_state (remove_relationships s now seen w)) !! key =
  dropped seen key <$> Relationships (w_state w) !! key.
Proof.
  unfold remove_relationships. set (l := range 0 _).
  assert (NoDup l.*1) as Hnd by (unfold l; rewrite range_perm; apply NoDup_fst_map_to_list).
  destruct (remove_relationship_fold seen l w Hnd) as [I1 I2].
  { intros k r. apply range_elem. }
  destruct (Relationships (w_state w) !! key) as [r|] eqn:E; cbn.
  - apply I1. by apply range_elem.
  - rewrite I2; [done|]. intros Hin. apply list_elem_of_fmap in Hin as ([k r] & -> & Hin).
    apply range_elem in Hin. cbn in E. congruence.
Qed.

End RelationshipOutcome.


