(* ===== verification/ReconcileLimits.v ===== *)
(** * Where the reconciliation engine falls short of its documentation

    Each theorem runs [Apply] on a small input and shows a behaviour the
    documents of the repository rule out. *)
From S2P Require Import Prelude GoStrings GoJson Domain Reconcile.
Open Scope string_scope.

Definition one_run : Policy := Build_Policy ∅ 1.

Definition run (order : RangeOrder) (st : option State) (s : SnapshotEnvelope) : option State * result string Summary :=
  @Apply order 7 st s SnapshotSucceeded one_run.

(** Two organizations report a container of the same external identifier. *)
Definition tenant_snapshot (org id : string) : SnapshotEnvelope :=
  sample_snapshot_of org "docker" id "h" [sample_observation "web" ∅] [].

(** Asset identifiers carry no tenant: after organization [a] and then
    organization [b] report the same external identifier, both identities
    refer to one asset, it now belongs to [b], and no asset of [a] is left. *)
Theorem tenants_share_assets :
  let st := (run sorted_range (run sorted_range (Some NewState) (tenant_snapshot "a" "s1")).1 (tenant_snapshot "b" "s2")).1 in
  (fun st => ExternalToAsset st !! "a|docker|web") <$> st = Some (Some "asset-web") /\
  (fun st => ExternalToAsset st !! "b|docker|web") <$> st = Some (Some "asset-web") /\
  (fun st => a_org <$> (map_to_list (Assets st)).*2) <$> st = Some ["b"].
Proof. vm_compute. done. Qed.

Definition changes_of (typ : string) (st : State) : nat :=
  length (filter (fun ch => ch_type ch = typ) (map_to_list (Changes st)).*2).

Definition hub_snapshot : SnapshotEnvelope :=
  sample_snapshot "s1" "h" [sample_observation "hub" ∅; sample_observation "db" ∅; sample_observation "mq" ∅]
    [sample_relationship "hub" "db" "DEPENDS_ON"; sample_relationship "hub" "mq" "DEPENDS_ON"].

(** Relationship changes are keyed by snapshot, source asset and change
    type: of two relationships added from one asset the summary counts both and
    the state holds both, but the history records one change only. *)
Theorem second_relationship_change_lost :
  let '(st, sum) := run sorted_range (Some NewState) hub_snapshot in
  (fun s => RelationshipsCreated s) <$> match sum with Ok s => Some s | Err _ => None end = Some 2%Z /\
  (fun st => size (Relationships st)) <$> st = Some 2%nat /\
  changes_of "RELATIONSHIP_ADDED" <$> st = Some 1%nat.
Proof. vm_compute. done. Qed.

(** Two connectors that know one asset disagree about two of its attributes. *)
Definition conflict_state : State :=
  set_external
    (set_claims
      (set_assets NewState {["asset-web" := new_asset hub_snapshot 1 (sample_observation "web" ∅) "asset-web"]})
      {[claim_key "asset-web" "image" := [new_claim one_run (sample_snapshot_of "org" "k8s" "s0" "h" [] [])
           (sample_observation "web" ∅) "asset-web" "image" (JStr "a")];
        claim_key "asset-web" "region" := [new_claim one_run (sample_snapshot_of "org" "k8s" "s0" "h" [] [])
           (sample_observation "web" ∅) "asset-web" "region" (JStr "b")]]})
    {["org|docker|web" := "asset-web"]}.

Definition conflict_snapshot : SnapshotEnvelope :=
  sample_snapshot "s1" "h" [sample_observation "web" {["image" := JStr "c"; "region" := JStr "d"]}] [].

Definition conflict_after (order : RangeOrder) : option (list string) :=
  (fun st => map ch_after (map_to_list (Changes st)).*2) <$> (run order (Some conflict_state) conflict_snapshot).1.

(** Reconciliation is not deterministic in the recorded change: when one
    snapshot makes two attributes of an asset conflict, the one that the history
    shows is the one Go's map iteration visits first. *)
Theorem conflict_change_depends_on_iteration_order :
  conflict_after sorted_range <> conflict_after reverse_range.
Proof. vm_compute. discriminate. Qed.
