(* ===== verification/Graph.v ===== *)
(** * Graph traversal ([internal/graph])

    [Traverse] is [Service.Traverse] of [service.go]: the breadth-first walk of
    a list of relationships. [TraversePostgres] is the walk of [postgres.go]
    over the rows of the tables it queries. *)
From S2P Require Import Prelude GoStrings GoNumbers GoJson Domain.
Open Scope string_scope.
Open Scope list_scope.

(** ** Data *)

Inductive graph_error :=
| ErrRequired                 (* organization and start asset are required *)
| ErrLimitExceeded
| ErrMaxNodes (nodes : Z)     (* ErrLimitExceeded, wrapped with maxNodes *)
| ErrNoRows
| ErrContext (e : string).

#[export] Instance graph_error_eq_dec : EqDecision graph_error.
Proof. solve_decision. Defined.

(** [errors.Is(err, ErrLimitExceeded)]. *)
Definition is_limit (e : graph_error) : bool :=
  match e with ErrLimitExceeded | ErrMaxNodes _ => true | _ => false end.

Record Limits := { MaxDepth : Z; MaxNodes : Z; Timeout : Z }.

Record Result := {
  Nodes : list string; res_Relationships : list Relationship; Depth : Z; Truncated : bool }.

(** [New]: a timeout that is not positive is two seconds. *)
Definition New (l : Limits) : Limits :=
  if (Timeout l <=? 0)%Z
  then {| MaxDepth := MaxDepth l; MaxNodes := MaxNodes l; Timeout := 2000000000 |} else l.

(** ** The in-memory walk *)

Section Traverse.
Variables (org : string) (reverse : bool).

(** Lines 48-54: the edges the walk follows, and their direction. *)
Definition followed (e : Relationship) : bool :=
  bool_decide (r_org e = org) && bool_decide (r_status e = "ACTIVE").
Definition source (e : Relationship) : string := if reverse then r_to e else r_from e.
Definition target (e : Relationship) : string := if reverse then r_from e else r_to e.

(** The loop variables: [seen], [out.Nodes], [out.Relationships] and [next]. *)
Record Walk := {
  g_seen : gset string; g_nodes : list string; g_rels : list Relationship; g_next : list string }.

(** What [ctx.Err()] is when the context is polled after the [n]-th edge: the
    deadline and the caller decide. *)
Variable ctx_err : nat -> option string.
Variable nodes : Z.

(** Lines 47-71. *)
Definition visit_edge (id : string) (w : Walk) (e : Relationship) : result graph_error Walk :=
  if negb (followed e) then Ok w else
  if negb (bool_decide (source e = id)) then Ok w else
  let rels := g_rels w ++ [e] in
  w ← (if bool_decide (target e ∈ g_seen w) then
         Ok {| g_seen := g_seen w; g_nodes := g_nodes w; g_rels := rels; g_next := g_next w |}
       else if (nodes <=? Z.of_nat (size (g_seen w)))%Z then Err (ErrMaxNodes nodes)
       else Ok {| g_seen := {[target e]} ∪ g_seen w; g_nodes := g_nodes w ++ [target e];
                  g_rels := rels; g_next := g_next w ++ [target e] |});
  match ctx_err (length rels) with
  | Some err => Err (ErrContext err)
  | None => Ok w
  end.

Definition visit_node (edges : list Relationship) (w : Walk) (id : string) : result graph_error Walk :=
  foldM (visit_edge id) w edges.

(** One level: the walk of every node of the frontier, [next] empty at first. *)
Definition visit_level (edges : list Relationship) (frontier : list string) (w : Walk) : result graph_error Walk :=
  foldM (visit_node edges) {| g_seen := g_seen w; g_nodes := g_nodes w; g_rels := g_rels w; g_next := [] |} frontier.

(** The loop of line 44 with [levels] iterations left; the frontier is
    [g_next], [d] the level reached. *)
Fixpoint levels_loop (edges : list Relationship) (levels : nat) (d : Z) (w : Walk) : result graph_error (Z * Walk) :=
  match levels with
  | O => Ok (d, w)
  | S levels' =>
      match g_next w with
      | [] => Ok (d, w)
      | frontier =>
          w' ← visit_level edges frontier w;
          levels_loop edges levels' (d + 1)%Z w'
      end
  end.

End Traverse.

Definition first_walk (start : string) : Walk :=
  {| g_seen := {[start]}; g_nodes := [start]; g_rels := []; g_next := [start] |}.

Definition Traverse (limits : Limits) (ctx_err : nat -> option string) (org start : string)
    (depth nodes : Z) (reverse : bool) (edges : list Relationship) : result graph_error Result :=
  if bool_decide (org = "") || bool_decide (start = "") then Err ErrRequired else
  if ((depth <? 1) || (MaxDepth limits <? depth) || (nodes <? 1) || (MaxNodes limits <? nodes))%Z
  then Err ErrLimitExceeded else
  '(d, w) ← levels_loop org reverse ctx_err nodes edges (Z.to_nat depth) 0 (first_walk start);
  Ok {| Nodes := g_nodes w; res_Relationships := g_rels w; Depth := d; Truncated := false |}.

(** ** The walk over PostgreSQL *)

(** The rows of [assets] ([id], [organization_id]) and of
    [asset_relationships] the queries read. *)
Record Tables := {
  t_assets : list (string * string);
  t_relationships : list Relationship }.

(** [ORDER BY] of a text column: the collation is the database's, so any
    order of the rows is possible; it depends on the rows only when no two have
    the same key. *)
Class SqlOrder := {
  order_by : forall {A : Type}, (A -> string) -> list A -> list A;
  order_by_perm : forall {A : Type} (key : A -> string) (l : list A), order_by key l ≡ₚ l;
  order_by_rows : forall {A : Type} (key : A -> string) (l1 l2 : list A),
    l1 ≡ₚ l2 -> NoDup (key <$> l1) -> order_by key l1 = order_by key l2 }.

Section Postgres.
Context `{SqlOrder}.
Variables (db : Tables) (org : string) (reverse : bool).

(** The query of line 101. *)
Definition asset_exists (id : string) : bool := bool_decide ((id, org) ∈ t_assets db).

(** The query of line 113: the distinct targets outside [visited], ordered, at
    most [limit] of them. *)
Definition next_targets (frontier visited : list string) (limit : nat) : list string :=
  let rows := filter (fun e => followed org e = true /\ source reverse e ∈ frontier /\ target reverse e ∉ visited)
                (t_relationships db) in
  take limit (order_by (fun id => id) (remove_dups (target reverse <$> rows))).

(** The query of line 142: the active relationships among the nodes, by id. *)
Definition edges_among (ids : list string) : list Relationship :=
  order_by r_id
    (filter (fun e => followed org e = true /\ r_from e ∈ ids /\ r_to e ∈ ids) (t_relationships db)).

Definition scan_target (acc : gset string * list string) (node : string) : gset string * list string :=
  let '(seen, next) := acc in
  if bool_decide (node ∈ seen) then acc else ({[node]} ∪ seen, next ++ [node]).

(** Lines 110-141: [nodes] is [result.Nodes], [depth] is [result.Depth]. *)
Fixpoint pg_loop (max_nodes : Z) (levels : nat) (level : Z) (seen : gset string) (frontier nodes : list string)
    (depth : Z) : result graph_error (list string * Z) :=
  match levels, frontier with
  | S levels', _ :: _ =>
      let remaining := (max_nodes - Z.of_nat (length nodes))%Z in
      let rows := next_targets frontier nodes (Z.to_nat (remaining + 1)) in
      let '(seen, next) := foldl scan_target (seen, []) rows in
      if (remaining <? Z.of_nat (length next))%Z then Err (ErrMaxNodes max_nodes) else
      match next with
      | [] => pg_loop max_nodes levels' (level + 1) seen [] nodes depth
      | _ => pg_loop max_nodes levels' (level + 1) seen next (nodes ++ next) level
      end
  | _, _ => Ok (nodes, depth)
  end.

End Postgres.

(** [TraversePostgres] on a database whose statements succeed. *)
Definition TraversePostgres `{SqlOrder} (db : Tables) (org start : string) (depth max_nodes : Z) (reverse : bool)
    : result graph_error Result :=
  if bool_decide (org = "") || bool_decide (start = "") then Err ErrRequired else
  if ((depth <? 1) || (max_nodes <? 1))%Z then Err ErrLimitExceeded else
  if negb (asset_exists db org start) then Err ErrNoRows else
  '(nodes, d) ← pg_loop db org reverse max_nodes (Z.to_nat depth) 1 {[start]} [start] [start] 0;
  Ok {| Nodes := nodes; res_Relationships := edges_among db org nodes; Depth := d; Truncated := false |}.

(** Byte order, to run the model. *)
Definition keyed_le {A} (key : A -> string) (x y : A) : Prop := string_le (key x) (key y).
#[export] Instance keyed_le_dec {A} (key : A -> string) : RelDecision (keyed_le key).
Proof. intros x y. unfold keyed_le. apply _. Defined.

#[export] Instance keyed_le_total {A} (key : A -> string) : Total (keyed_le key).
Proof. intros x y. unfold keyed_le. apply string_le_total. Qed.

Lemma keyed_le_trans {A} (key : A -> string) : Transitive (keyed_le key).
Proof. intros x y z. unfold keyed_le. apply string_le_trans. Qed.

Lemma keys_inj {A} (key : A -> string) l x y : NoDup (key <$> l) -> x ∈ l -> y ∈ l -> key x = key y -> x = y.
Proof.
  induction l as [|z l IH]; [by intros _ ?%elem_of_nil|]. rewrite fmap_cons, NoDup_cons, !elem_of_cons. intros [Hz Hn].
  assert (forall u, u ∈ l -> key z <> key u) as Hne by (intros u Hu E; apply Hz; rewrite E; by apply list_elem_of_fmap_2).
  intros [->|Hx] [->|Hy] E; [done|by destruct (Hne y)|by destruct (Hne x)|by apply IH].
Qed.

Lemma keyed_sort_rows {A} (key : A -> string) (l1 l2 : list A) :
  l1 ≡ₚ l2 -> NoDup (key <$> l1) -> merge_sort (keyed_le key) l1 = merge_sort (keyed_le key) l2.
Proof.
  intros Hp Hn. pose proof (keyed_le_trans key).
  apply (StronglySorted_unique_strong (keyed_le key)); [|apply StronglySorted_merge_sort; apply _..|by rewrite !merge_sort_Permutation].
  intros x y Hx Hy Hxy Hyx. rewrite merge_sort_Permutation in Hx. rewrite merge_sort_Permutation, <- Hp in Hy.
  apply (keys_inj key l1); [done..|]. by apply string_le_antisym.
Qed.

Definition byte_order : SqlOrder.
Proof.
  refine {| order_by := fun A key l => merge_sort (keyed_le key) l; order_by_rows := fun A => keyed_sort_rows |}.
  intros A key l. apply merge_sort_Permutation.
Defined.
