(* ===== verification/GraphFacts.v ===== *)
(** * What a graph traversal returns

    The specification of both walks: the nodes within a number of steps of the
    start along the tenant's active relationships. *)
From S2P Require Import Prelude GoStrings GoJson Domain Graph.
From stdpp Require Import relations.
Open Scope string_scope.
Open Scope list_scope.

Section Reach.
Variables (org : string) (reverse : bool) (edges : list Relationship) (start : string).

(** One step along an active relationship of the organization. *)
Definition adjacent (x y : string) : Prop :=
  exists e, e ∈ edges /\ followed org e = true /\ source reverse e = x /\ target reverse e = y.

(** The relationships that leave a set of nodes. *)
Definition leaving (X : gset string) : list Relationship :=
  filter (fun e => followed org e = true /\ source reverse e ∈ X) edges.

Definition targets (l : list Relationship) : gset string := list_to_set (target reverse <$> l).

(** The nodes at most [n] steps from the start. *)
Fixpoint ball (n : nat) : gset string :=
  match n with O => {[start]} | S n' => ball n' ∪ targets (leaving (ball n')) end.

(** The nodes expanded by a walk that has reached depth [n]. *)
Definition expanded (n : nat) : gset string := match n with O => ∅ | S n' => ball n' end.

Lemma elem_of_leaving X e : e ∈ leaving X <-> e ∈ edges /\ followed org e = true /\ source reverse e ∈ X.
Proof. unfold leaving. rewrite list_elem_of_filter. tauto. Qed.

Lemma elem_of_targets l y : y ∈ targets l <-> exists e, e ∈ l /\ target reverse e = y.
Proof.
  unfold targets. rewrite elem_of_list_to_set, list_elem_of_fmap. split; intros (e & ? & ?); eauto.
Qed.

Lemma targets_app l1 l2 : targets (l1 ++ l2) = targets l1 ∪ targets l2.
Proof. unfold targets. rewrite fmap_app. apply list_to_set_app_L. Qed.

Lemma elem_of_targets_leaving X y : y ∈ targets (leaving X) <-> exists x, x ∈ X /\ adjacent x y.
Proof.
  rewrite elem_of_targets. unfold adjacent. setoid_rewrite elem_of_leaving. naive_solver.
Qed.

Lemma ball_bsteps n y : y ∈ ball n <-> bsteps adjacent n start y.
Proof.
  split.
  - revert y. induction n as [|n IH]; intros y; cbn [ball].
    + rewrite elem_of_singleton. intros ->. constructor.
    + rewrite elem_of_union, elem_of_targets_leaving. intros [Hy|(x & Hx & Hxy)].
      * by apply bsteps_S, IH.
      * eapply bsteps_r; [by apply IH|done].
  - revert n y. apply (bsteps_ind_r (fun n y => y ∈ ball n) start).
    + intros n. induction n; cbn; set_solver.
    + intros n y z _ Hyz IH. cbn. apply elem_of_union. right. apply elem_of_targets_leaving. eauto.
Qed.

Lemma ball_mono n m : (n <= m)%nat -> ball n ⊆ ball m.
Proof. induction 1; [done|]. cbn. set_solver. Qed.

Lemma expanded_subset n : expanded n ⊆ ball n.
Proof. destruct n; cbn; set_solver. Qed.

Lemma targets_leaving_mono X Y : X ⊆ Y -> targets (leaving X) ⊆ targets (leaving Y).
Proof. intros HXY y. rewrite !elem_of_targets_leaving. set_solver. Qed.

(** Only the frontier can reach something new. *)
Lemma ball_frontier n : ball (S n) = ball n ∪ targets (leaving (ball n ∖ expanded n)).
Proof.
  apply set_eq. intros y. cbn [ball]. rewrite !elem_of_union, !elem_of_targets_leaving.
  split; [|intros [?|(x & [??]%elem_of_difference & ?)]; eauto].
  intros [Hy|(x & Hx & Hxy)]; [by left|]. destruct (decide (x ∈ expanded n)) as [He|He].
  - left. destruct n as [|n]; [by apply elem_of_empty in He|]. cbn in *.
    apply elem_of_union. right. apply elem_of_targets_leaving. eauto.
  - right. exists x. split; [|done]. by apply elem_of_difference.
Qed.

(** When a level finds nothing new the walk is complete. *)
Lemma ball_stable n : ball n ∖ expanded n = ∅ -> forall m, (n <= m)%nat -> ball m = ball n /\ expanded m = ball n.
Proof.
  intros He. assert (ball n = expanded n) as Heq.
  { apply set_eq. intros y. split; [|apply expanded_subset]. intros Hy.
    destruct (decide (y ∈ expanded n)); [done|]. exfalso. set_solver. }
  destruct n as [|n]; cbn [expanded] in *; [cbn in Heq; set_solver|].
  assert (forall m, (n <= m)%nat -> ball m = ball n) as Hk.
  { induction 1 as [|m Hm IH]; [done|]. cbn [ball]. rewrite IH. apply Heq. }
  intros [|m] Hm; [lia|]. cbn [expanded]. rewrite Heq, (Hk (S m)), (Hk m) by lia. done.
Qed.

End Reach.

(** ** The in-memory walk *)

Section Walk.
Variables (org : string) (reverse : bool) (edges : list Relationship) (start : string).
Variables (ctx_err : nat -> option string) (nodes : Z).

Abbreviation Ball := (ball org reverse edges start).
Abbreviation Expanded := (expanded org reverse edges start).
Abbreviation Targets := (targets reverse).

(** The edges a visit of node [id] follows. *)
Definition from_node (id : string) (l : list Relationship) : list Relationship :=
  filter (fun e => followed org e = true /\ source reverse e = id) l.

(** Within a level that started from the nodes [S0] and the edges [rels0],
    after following the edges [done]. *)
Record in_level (S0 : gset string) (rels0 : list Relationship) (done : list Relationship) (w : Walk) : Prop := {
  il_seen : g_seen w = S0 ∪ Targets done;
  il_nodes : forall y, y ∈ g_nodes w <-> y ∈ g_seen w;
  il_nodup : NoDup (g_nodes w);
  il_next : forall y, y ∈ g_next w <-> y ∈ g_seen w /\ y ∉ S0;
  il_next_nodup : NoDup (g_next w);
  il_rels : g_rels w = rels0 ++ done;
  il_size : (Z.of_nat (size (g_seen w)) <= nodes)%Z }.

(** Why a level fails after following [done]. *)
Definition level_failure (S0 : gset string) (done : list Relationship) (err : graph_error) : Prop :=
  match err with
  | ErrMaxNodes n => n = nodes /\ (nodes < Z.of_nat (size (S0 ∪ Targets done)))%Z
  | ErrContext e => exists n, ctx_err n = Some e
  | _ => False
  end.

Definition level_post (S0 : gset string) (rels0 done : list Relationship) (r : result graph_error Walk) : Prop :=
  match r with Ok w => in_level S0 rels0 done w | Err err => level_failure S0 done err end.

Lemma level_failure_mono S0 done more err : level_failure S0 done err -> level_failure S0 (done ++ more) err.
Proof.
  destruct err; cbn; try done. intros [-> Hn]. split; [done|].
  assert (size (S0 ∪ Targets done) <= size (S0 ∪ Targets (done ++ more)))%nat; [|lia].
  apply subseteq_size. rewrite targets_app. set_solver.
Qed.

Lemma in_level_follow S0 rels0 done w e : in_level S0 rels0 done w ->
  target reverse e ∈ g_seen w ->
  in_level S0 rels0 (done ++ [e])
    {| g_seen := g_seen w; g_nodes := g_nodes w; g_rels := g_rels w ++ [e]; g_next := g_next w |}.
Proof.
  intros [H1 H2 H3 H4 H5 H6 H7] Ht. split; cbn; try done.
  - rewrite targets_app. unfold targets at 2. cbn. rewrite H1 in Ht |- *. set_solver.
  - by rewrite H6, app_assoc.
Qed.

Lemma in_level_discover S0 rels0 done w e : in_level S0 rels0 done w ->
  target reverse e ∉ g_seen w -> (Z.of_nat (size (g_seen w)) < nodes)%Z ->
  in_level S0 rels0 (done ++ [e])
    {| g_seen := {[target reverse e]} ∪ g_seen w; g_nodes := g_nodes w ++ [target reverse e];
       g_rels := g_rels w ++ [e]; g_next := g_next w ++ [target reverse e] |}.
Proof.
  intros [H1 H2 H3 H4 H5 H6 H7] Ht Hn. split; cbn.
  - rewrite targets_app. unfold targets at 2. cbn. rewrite H1. set_solver.
  - intros y. rewrite elem_of_app, elem_of_union, list_elem_of_singleton, elem_of_singleton, H2. tauto.
  - apply NoDup_app. split_and!; [done| |apply NoDup_singleton].
    intros y Hy%H2 ->%list_elem_of_singleton. done.
  - intros y. rewrite elem_of_app, elem_of_union, list_elem_of_singleton, elem_of_singleton, H4.
    split; [|tauto]. intros [?| ->]; [tauto|]. split; [by left|]. intros Hs. apply Ht. rewrite H1. set_solver.
  - apply NoDup_app. split_and!; [done| |apply NoDup_singleton].
    intros y [Hy _]%H4 ->%list_elem_of_singleton. done.
  - by rewrite H6, app_assoc.
  - rewrite size_union, size_singleton by set_solver. lia.
Qed.

Lemma visit_edge_spec S0 rels0 done w id e : in_level S0 rels0 done w ->
  level_post S0 rels0 (done ++ from_node id [e]) (visit_edge org reverse ctx_err nodes id w e).
Proof.
  intros Hw. unfold visit_edge, from_node.
  destruct (followed org e) eqn:Ef; cbn [negb]; cycle 1.
  { rewrite filter_cons_False by (intros [? _]; congruence). by rewrite filter_nil, app_nil_r. }
  case_bool_decide as Hid; cbn [negb]; cycle 1.
  { rewrite filter_cons_False by (intros [_ ?]; congruence). by rewrite filter_nil, app_nil_r. }
  rewrite filter_cons_True, filter_nil by done.
  case_bool_decide as Ht; [|destruct (nodes <=? _)%Z eqn:En]; cbn [mbind result_bind].
  - pose proof (in_level_follow S0 rels0 done w e Hw Ht). case_match; cbn; eauto.
  - cbn. split; [done|]. rewrite targets_app. unfold targets at 2. cbn.
    destruct Hw as [H1 _ _ _ _ _ H7]. apply Z.leb_le in En.
    rewrite H1 in Ht, En. set (t := target reverse e) in *. set (X := S0 ∪ Targets done) in *.
    assert (size ({[t]} ∪ X) = S (size X)) as Hsize.
    { rewrite size_union by (by apply disjoint_singleton_l). by rewrite size_singleton. }
    assert (size ({[t]} ∪ X) <= size (S0 ∪ (Targets done ∪ ({[t]} ∪ ∅))))%nat; [|lia].
    apply subseteq_size. unfold X. set_solver.
  - apply Z.leb_gt in En. pose proof (in_level_discover S0 rels0 done w e Hw Ht En).
    case_match; cbn; eauto.
Qed.

Lemma visit_node_spec S0 rels0 id l : forall done w, in_level S0 rels0 done w ->
  level_post S0 rels0 (done ++ from_node id l) (visit_node org reverse ctx_err nodes l w id).
Proof.
  unfold visit_node. induction l as [|e l IH]; intros done w Hw; cbn [foldM].
  { unfold from_node. by rewrite filter_nil, app_nil_r. }
  pose proof (visit_edge_spec S0 rels0 done w id e Hw) as He.
  change (e :: l) with ([e] ++ l). unfold from_node in *. rewrite filter_app, app_assoc.
  destruct (visit_edge _ _ _ _ _ _ _) as [w'|err]; cbn [mbind result_bind level_post] in *.
  - by apply IH.
  - by apply level_failure_mono.
Qed.

(** The edges followed from each node of a frontier, in order. *)
Definition from_nodes (ids : list string) : list Relationship :=
  mjoin ((fun id => from_node id edges) <$> ids).

Lemma visit_nodes_spec S0 rels0 ids : forall done w, in_level S0 rels0 done w ->
  level_post S0 rels0 (done ++ from_nodes ids) (foldM (visit_node org reverse ctx_err nodes edges) w ids).
Proof.
  unfold from_nodes. induction ids as [|id ids IH]; intros done w Hw; cbn [foldM].
  { cbn. by rewrite app_nil_r. }
  pose proof (visit_node_spec S0 rels0 id edges done w Hw) as He.
  rewrite fmap_cons. cbn [mjoin list_join]. rewrite app_assoc.
  destruct (visit_node _ _ _ _ _ _ _) as [w'|err]; cbn [mbind result_bind level_post] in *.
  - by apply IH.
  - by apply level_failure_mono.
Qed.

Lemma elem_of_from_nodes ids e :
  e ∈ from_nodes ids <-> e ∈ edges /\ followed org e = true /\ source reverse e ∈ ids.
Proof.
  unfold from_nodes, from_node. rewrite list_elem_of_join. setoid_rewrite list_elem_of_fmap.
  split.
  - intros (l & He & id & -> & Hid). apply list_elem_of_filter in He as ([? <-] & ?). done.
  - intros (He & Hf & Hs). eexists. split; [|exists (source reverse e); done].
    by apply list_elem_of_filter.
Qed.

(** Distinct frontier nodes: the level follows each leaving edge once. *)
Lemma from_nodes_perm ids X : NoDup ids -> (forall y, y ∈ ids <-> y ∈ X) ->
  from_nodes ids ≡ₚ leaving org reverse edges X.
Proof.
  intros Hnd HX. unfold from_nodes, leaving.
  rewrite (list_filter_iff _ (fun e => followed org e = true /\ source reverse e ∈ ids))
    by (intros e; rewrite HX; done).
  clear HX. revert Hnd. induction ids as [|id ids IH]; intros Hnd.
  - symmetry. rewrite filter_none; [done|]. intros e. rewrite elem_of_nil. tauto.
  - apply NoDup_cons in Hnd as [Hid Hnd]. rewrite fmap_cons. cbn [mjoin list_join].
    rewrite (IH Hnd). clear IH. unfold from_node. induction edges as [|e l IH]; [done|].
    rewrite !filter_cons.
    destruct (decide (followed org e = true /\ source reverse e = id)) as [[Hf Hs]|H1],
      (decide (followed org e = true /\ source reverse e ∈ ids)) as [[Hf2 Hs2]|H2].
    + congruence.
    + rewrite decide_True by (rewrite elem_of_cons; auto). cbn. by rewrite IH.
    + rewrite decide_True by (rewrite elem_of_cons; auto). by rewrite <- Permutation_middle, IH.
    + rewrite decide_False; [done|]. rewrite elem_of_cons. tauto.
Qed.

Lemma targets_proper l1 l2 : (forall e, e ∈ l1 <-> e ∈ l2) -> Targets l1 = Targets l2.
Proof. intros Hl. apply set_eq. intros y. rewrite !elem_of_targets. setoid_rewrite Hl. done. Qed.

(** The state between two levels, [n] levels done. *)
Record at_level (n : nat) (w : Walk) : Prop := {
  al_seen : g_seen w = Ball n;
  al_nodes : forall y, y ∈ g_nodes w <-> y ∈ Ball n;
  al_nodup : NoDup (g_nodes w);
  al_next : forall y, y ∈ g_next w <-> y ∈ Ball n ∖ Expanded n;
  al_next_nodup : NoDup (g_next w);
  al_rels : g_rels w ≡ₚ leaving org reverse edges (Expanded n);
  al_size : (Z.of_nat (size (Ball n)) <= nodes)%Z }.

Lemma at_level_first : (1 <= nodes)%Z -> at_level 0 (first_walk start).
Proof.
  intros Hn. split; cbn.
  - done.
  - intros y. rewrite list_elem_of_singleton. set_solver.
  - apply NoDup_singleton.
  - intros y. rewrite list_elem_of_singleton. set_solver.
  - apply NoDup_singleton.
  - unfold leaving. rewrite filter_none; [done|]. by intros e [_ ?%elem_of_empty].
  - rewrite size_singleton. lia.
Qed.

Lemma leaving_frontier n :
  leaving org reverse edges (Expanded n) ++ leaving org reverse edges (Ball n ∖ Expanded n)
  ≡ₚ leaving org reverse edges (Ball n).
Proof.
  unfold leaving. pose proof (expanded_subset org reverse edges start n) as Hsub.
  generalize dependent (Ball n). generalize (Expanded n). intros X Y Hsub.
  induction edges as [|e l IH]; [done|]. rewrite !filter_cons.
  destruct (followed org e) eqn:Ef; cycle 1.
  { rewrite !decide_False by (intros [? _]; done). apply IH. }
  destruct (decide (source reverse e ∈ X)) as [HX|HX].
  - rewrite decide_True by done. rewrite (decide_False (P := _ /\ _ ∈ _ ∖ _)) by set_solver.
    rewrite decide_True by set_solver. cbn. by rewrite IH.
  - rewrite decide_False by tauto. destruct (decide (source reverse e ∈ Y)) as [HY|HY].
    + rewrite !decide_True by set_solver. by rewrite <- Permutation_middle, IH.
    + rewrite !decide_False by set_solver. apply IH.
Qed.

Lemma visit_level_spec n w : at_level n w ->
  match visit_level org reverse ctx_err nodes edges (g_next w) w with
  | Ok w' => at_level (S n) w'
  | Err err => level_failure (Ball n) (leaving org reverse edges (Ball n)) err
  end.
Proof.
  intros [H1 H2 H3 H4 H5 H6 H7]. unfold visit_level.
  set (w0 := {| g_seen := g_seen w |}).
  assert (in_level (Ball n) (g_rels w) [] w0) as H0.
  { split; cbn; rewrite ?H1; try done.
    - unfold targets. cbn. set_solver.
    - intros y. rewrite elem_of_nil. tauto.
    - constructor.
    - by rewrite app_nil_r. }
  pose proof (visit_nodes_spec (Ball n) (g_rels w) (g_next w) [] w0 H0) as Hpost.
  cbn [app] in Hpost. pose proof (from_nodes_perm _ _ H5 H4) as Hperm.
  pose proof (ball_frontier org reverse edges start n) as HB.
  assert (Targets (from_nodes (g_next w)) = Targets (leaving org reverse edges (Ball n ∖ Expanded n))) as HT.
  { apply targets_proper. intros e. by rewrite Hperm. }
  rewrite <- HT in HB. change (ball org reverse edges start (S n)) with (Ball (S n)) in HB.
  destruct (foldM _ w0 _) as [w'|err]; cbn [level_post] in Hpost.
  - destruct Hpost as [I1 I2 I3 I4 I5 I6 I7]. rewrite <- HB in I1. rewrite I1 in *.
    split; try done.
    + intros y. rewrite I4. cbn [expanded]. by rewrite elem_of_difference.
    + rewrite I6, H6, Hperm. apply leaving_frontier.
  - destruct err; cbn in *; try done. rewrite <- HB in Hpost. exact Hpost.
Qed.

Lemma level_failure_ball n m err : (n < m)%nat ->
  level_failure (Ball n) (leaving org reverse edges (Ball n)) err ->
  match err with
  | ErrMaxNodes k => k = nodes /\ (nodes < Z.of_nat (size (Ball m)))%Z
  | ErrContext e => exists i, ctx_err i = Some e
  | _ => False
  end.
Proof.
  intros Hnm. destruct err; cbn; try done. intros [-> Hn]. split; [done|].
  assert (size (Ball (S n)) <= size (Ball m))%nat; [|cbn [ball] in *; lia].
  apply subseteq_size, ball_mono. lia.
Qed.

(** The loop ends at the requested depth, or at a walk that is complete. *)
Lemma levels_loop_spec levels : forall n w, at_level n w ->
  match levels_loop org reverse ctx_err nodes edges levels (Z.of_nat n) w with
  | Ok (d, w') => at_level (n + levels) w' /\ (Z.of_nat n <= d <= Z.of_nat (n + levels))%Z
  | Err (ErrMaxNodes k) => k = nodes /\ (nodes < Z.of_nat (size (Ball (n + levels))))%Z
  | Err (ErrContext e) => exists i, ctx_err i = Some e
  | Err _ => False
  end.
Proof.
  induction levels as [|levels IH]; intros n w Hw; cbn [levels_loop].
  { rewrite Nat.add_0_r. split; [done|lia]. }
  destruct (g_next w) as [|x l] eqn:En.
  - split; [|lia]. destruct Hw as [H1 H2 H3 H4 H5 H6 H7].
    destruct (ball_stable org reverse edges start n) with (m := (n + S levels)%nat) as [Eb Ee]; [|lia|].
    { apply set_eq. intros y. rewrite <- H4, En, elem_of_nil. set_solver. }
    assert (Expanded n = Ball n) as Een.
    { apply set_eq. intros y. split; [apply expanded_subset|]. intros Hy.
      destruct (decide (y ∈ Expanded n)); [done|]. exfalso.
      apply (not_elem_of_nil y). rewrite <- En. apply H4. set_solver. }
    split; rewrite ?Eb, ?Ee; try done.
    + intros y. rewrite En, elem_of_nil. set_solver.
    + by rewrite <- Een.
  - pose proof (visit_level_spec n w Hw) as Hlevel. rewrite En in Hlevel.
    destruct (visit_level _ _ _ _ _ _ _) as [w'|err]; cbn [mbind result_bind].
    + specialize (IH (S n) w' Hlevel). rewrite Nat2Z.inj_succ, <- Z.add_1_r, <- plus_n_Sm in *.
      destruct (levels_loop _ _ _ _ _ _ _ _) as [[d w'']|[]]; try done. destruct IH. split; [done|lia].
    + apply (level_failure_ball n (n + S levels)) in Hlevel; [|lia]. by destruct err.
Qed.

End Walk.

(** The request passes the guards of [Traverse]. *)
Definition valid_request (limits : Limits) (org start : string) (depth nodes : Z) : Prop :=
  org <> "" /\ start <> "" /\ (1 <= depth <= MaxDepth limits)%Z /\ (1 <= nodes <= MaxNodes limits)%Z.

Lemma Traverse_valid limits ctx_err org start depth nodes reverse edges :
  valid_request limits org start depth nodes ->
  Traverse limits ctx_err org start depth nodes reverse edges =
  '(d, w) ← levels_loop org reverse ctx_err nodes edges (Z.to_nat depth) 0 (first_walk start);
  Ok {| Nodes := g_nodes w; res_Relationships := g_rels w; Depth := d; Truncated := false |}.
Proof.
  intros (Ho & Hs & Hd & Hn). unfold Traverse. rewrite !bool_decide_false by done. cbn [orb].
  replace (_ || _)%Z with false; [done|]. symmetry. rewrite !orb_false_iff, !Z.ltb_ge. lia.
Qed.

Lemma Traverse_post limits ctx_err org start depth nodes reverse edges :
  valid_request limits org start depth nodes ->
  let n := Z.to_nat depth in
  match Traverse limits ctx_err org start depth nodes reverse edges with
  | Ok r => exists w, at_level org reverse edges start nodes n w /\ Nodes r = g_nodes w /\
      res_Relationships r = g_rels w /\ (0 <= Depth r <= depth)%Z /\ Truncated r = false
  | Err (ErrMaxNodes k) => k = nodes /\ (nodes < Z.of_nat (size (ball org reverse edges start n)))%Z
  | Err (ErrContext e) => exists i, ctx_err i = Some e
  | Err _ => False
  end.
Proof.
  intros Hv n. rewrite Traverse_valid by done. destruct Hv as (_ & _ & Hd & Hn).
  pose proof (levels_loop_spec org reverse edges start ctx_err nodes n 0 (first_walk start)
    (at_level_first org reverse edges start nodes (proj1 Hn))) as Hspec. cbn [Nat.add Z.of_nat] in Hspec. fold n.
  destruct (levels_loop _ _ _ _ _ _ _ _) as [[d w]|[]]; cbn; try done.
  destruct Hspec as [Hw Hd']. exists w. unfold n in Hd'. rewrite Z2Nat.id in Hd' by lia.
  split_and!; try done; lia.
Qed.

(** C33. What a traversal returns, exactly: the nodes at most [depth] steps
    from the start along the organization's active relationships, each once;
    the relationships leaving the nodes less than [depth] steps away, each
    once; never more nodes than asked for, nor a depth beyond the request. *)
Theorem Traverse_exact limits ctx_err org start depth nodes reverse edges r
    (Hok : Traverse limits ctx_err org start depth nodes reverse edges = Ok r) :
  NoDup (Nodes r) /\
  (forall y, y ∈ Nodes r <-> bsteps (adjacent org reverse edges) (Z.to_nat depth) start y) /\
  res_Relationships r ≡ₚ leaving org reverse edges (ball org reverse edges start (Z.to_nat depth - 1)) /\
  (Z.of_nat (length (Nodes r)) <= nodes <= MaxNodes limits)%Z /\
  (0 <= Depth r <= depth)%Z /\ (depth <= MaxDepth limits)%Z.
Proof.
  assert (valid_request limits org start depth nodes) as Hv.
  { unfold Traverse in Hok. repeat case_bool_decide; cbn in Hok; try done.
    destruct (_ || _)%Z eqn:E in Hok; [done|]. rewrite !orb_false_iff, !Z.ltb_ge in E. split_and!; done || lia. }
  pose proof (Traverse_post limits ctx_err org start depth nodes reverse edges Hv) as Hpost.
  rewrite Hok in Hpost. destruct Hpost as (w & [H1 H2 H3 H4 H5 H6 H7] & -> & -> & Hd & _).
  destruct Hv as (_ & _ & Hdepth & Hn). split_and!; try lia; try done.
  - intros y. rewrite H2. apply ball_bsteps.
  - rewrite H6. destruct (Z.to_nat depth) as [|k] eqn:E; [lia|].
    by replace (S k - 1)%nat with k by lia.
  - assert (length (g_nodes w) = size (ball org reverse edges start (Z.to_nat depth))) as ->; [|done].
    rewrite <- (size_list_to_set (C := gset string)) by done. f_equal.
    apply set_eq. intros y. by rewrite elem_of_list_to_set.
Qed.

(** A chain of three assets, and one relationship of another tenant. *)
Definition sample_edge (org from to status : string) : Relationship :=
  {| r_id := from +:+ to; r_org := org; r_from := from; r_to := to; r_type := "DEPENDS_ON"; r_status := status;
     r_first_seen := 0; r_last_seen := 0; r_created := 0; r_updated := 0 |}.
Definition sample_edges : list Relationship :=
  [sample_edge "o" "a" "b" "ACTIVE"; sample_edge "o" "b" "c" "ACTIVE"; sample_edge "o" "c" "d" "REMOVED";
   sample_edge "p" "a" "x" "ACTIVE"].
Definition sample_limits : Limits := {| MaxDepth := 5; MaxNodes := 100; Timeout := 0 |}.
Definition no_deadline : nat -> option string := fun _ => None.

Lemma Traverse_exact_witness :
  exists r, Traverse sample_limits no_deadline "o" "a" 4 10 false sample_edges = Ok r /\
    Nodes r = ["a"; "b"; "c"] /\ ~ bsteps (adjacent "o" false sample_edges) 4 "a" "x".
Proof.
  eexists. split; [vm_compute; reflexivity|]. split; [reflexivity|].
  destruct (Traverse_exact sample_limits no_deadline "o" "a" 4 10 false sample_edges _
    (ltac:(vm_compute; reflexivity))) as (_ & H & _).
  rewrite <- (H "x"). apply (bool_decide_eq_false_1 _). vm_compute. reflexivity.
Defined.

(** C35. When a traversal fails: a valid request whose context is not done
    fails exactly when more nodes are within [depth] steps than asked for, with
    the limit error; otherwise it succeeds, and with a context it fails
    otherwise only with the context's error. *)
Theorem Traverse_fails_iff_too_large limits ctx_err org start depth nodes reverse edges
    (Hv : valid_request limits org start depth nodes) :
  let reachable := ball org reverse edges start (Z.to_nat depth) in
  match Traverse limits ctx_err org start depth nodes reverse edges with
  | Ok _ => (Z.of_nat (size reachable) <= nodes)%Z
  | Err (ErrMaxNodes k) => k = nodes /\ (nodes < Z.of_nat (size reachable))%Z
  | Err (ErrContext e) => exists i, ctx_err i = Some e
  | Err _ => False
  end.
Proof.
  intros reachable. pose proof (Traverse_post limits ctx_err org start depth nodes reverse edges Hv) as Hpost.
  cbn zeta in Hpost. destruct (Traverse _ _ _ _ _ _ _ _) as [r|[]]; try done.
  by destruct Hpost as (w & [_ _ _ _ _ _ Hs] & _).
Qed.

Lemma Traverse_fails_iff_too_large_witness :
  valid_request sample_limits "o" "a" 2 2 /\
  Traverse sample_limits no_deadline "o" "a" 2 2 false sample_edges = Err (ErrMaxNodes 2) /\
  (2 < Z.of_nat (size (ball "o" false sample_edges "a" 2)))%Z.
Proof.
  assert (valid_request sample_limits "o" "a" 2 2) as Hv by (split_and!; cbn; done || lia).
  split; [exact Hv|].
  pose proof (Traverse_fails_iff_too_large sample_limits no_deadline "o" "a" 2 2 false sample_edges Hv) as H.
  assert (Traverse sample_limits no_deadline "o" "a" 2 2 false sample_edges = Err (ErrMaxNodes 2)) as E
    by (vm_compute; reflexivity).
  split; [exact E|]. rewrite E in H. apply H.
Defined.

Lemma foldM_filter {E S A} (f : S -> A -> result E S) (P : A -> Prop) `{forall x, Decision (P x)} l s :
  (forall s x, ~ P x -> f s x = Ok s) -> foldM f s (filter P l) = foldM f s l.
Proof.
  intros Hf. revert s. induction l as [|x l IH]; intros s; [done|]. rewrite filter_cons. cbn [foldM].
  case_decide as Hx; cbn [foldM].
  - destruct (f s x); cbn; [apply IH|done].
  - rewrite Hf by done. cbn. apply IH.
Qed.

Lemma foldM_ext {E S A} (f g : S -> A -> result E S) l s : (forall s x, f s x = g s x) -> foldM f s l = foldM g s l.
Proof.
  intros Hfg. revert s. induction l as [|x l IH]; intros s; cbn; [done|]. rewrite Hfg.
  destruct (g s x); cbn; [apply IH|done].
Qed.

Lemma levels_loop_filter org reverse ctx_err nodes edges levels d w :
  levels_loop org reverse ctx_err nodes (filter (fun e => followed org e = true) edges) levels d w =
  levels_loop org reverse ctx_err nodes edges levels d w.
Proof.
  revert d w. induction levels as [|levels IH]; intros d w; [done|]. cbn [levels_loop].
  destruct (g_next w) as [|x l]; [done|]. unfold visit_level.
  rewrite (foldM_ext _ (visit_node org reverse ctx_err nodes edges)).
  - destruct (foldM _ _ _); cbn; [apply IH|done].
  - intros w' id. unfold visit_node. apply foldM_filter. intros w0 e He.
    unfold visit_edge. by destruct (followed org e).
Qed.

(** Tenant isolation: a traversal's outcome, errors and truncation
    included, is the one it has on the organization's own active
    relationships; no relationship of another tenant and no inactive one is
    read. *)
Theorem Traverse_tenant_isolation limits ctx_err org start depth nodes reverse edges :
  Traverse limits ctx_err org start depth nodes reverse edges =
  Traverse limits ctx_err org start depth nodes reverse
    (filter (fun e => r_org e = org /\ r_status e = "ACTIVE") edges).
Proof.
  unfold Traverse. rewrite <- (levels_loop_filter _ _ _ _ edges).
  rewrite (list_filter_iff (fun e => followed org e = true) (fun e => r_org e = org /\ r_status e = "ACTIVE")); [done|].
  intros e. unfold followed. by rewrite andb_true_iff, !bool_decide_eq_true.
Qed.
