(* ===== verification/GraphPostgres.v ===== *)
(** * The PostgreSQL traversal against the in-memory one *)
From S2P Require Import Prelude GoStrings GoJson Domain Graph GraphFacts.
From stdpp Require Import relations.
Open Scope string_scope.
Open Scope list_scope.

Section PgWalk.
Context `{SqlOrder} (db : Tables) (org : string) (reverse : bool) (start : string) (max_nodes : Z).

Abbreviation edges := (t_relationships db).
Abbreviation Ball := (ball org reverse edges start).
Abbreviation Expanded := (expanded org reverse edges start).

(** The loop variables after [n] levels; [depth] is the last level that found
    a node. *)
Record pg_at (n : nat) (seen : gset string) (frontier nodes : list string) (depth : Z) : Prop := {
  pg_seen : seen = Ball n;
  pg_nodes : forall y, y ∈ nodes <-> y ∈ Ball n;
  pg_nodup : NoDup nodes;
  pg_frontier : forall y, y ∈ frontier <-> y ∈ Ball n ∖ Expanded n;
  pg_size : (Z.of_nat (length nodes) <= max_nodes)%Z;
  pg_depth : exists d, depth = Z.of_nat d /\ (d <= n)%nat /\ Ball d = Ball n /\ Ball d <> Expanded d }.

(** Every row of the level's query, before [LIMIT]. *)
Definition new_rows (frontier nodes : list string) : list string :=
  remove_dups (target reverse <$>
    filter (fun e => followed org e = true /\ source reverse e ∈ frontier /\ target reverse e ∉ nodes) edges).

Lemma elem_of_new_rows n frontier nodes y :
  (forall y, y ∈ nodes <-> y ∈ Ball n) -> (forall y, y ∈ frontier <-> y ∈ Ball n ∖ Expanded n) ->
  y ∈ new_rows frontier nodes <-> y ∈ Ball (S n) /\ y ∉ Ball n.
Proof.
  intros Hn Hf. unfold new_rows.
  rewrite elem_of_remove_dups, (ball_frontier org reverse edges start n), elem_of_union, elem_of_targets, list_elem_of_fmap.
  split.
  - intros (e & -> & ((Hfo & Hs%Hf & Ht) & He)%list_elem_of_filter). rewrite Hn in Ht. split; [|done].
    right. exists e. by rewrite elem_of_leaving.
  - intros [[Hy|(e & (He & Hfo & Hs)%elem_of_leaving & <-)] Ht]; [done|]. exists e. split; [done|].
    apply list_elem_of_filter. by rewrite Hf, Hn.
Qed.

Lemma scan_fold rows : forall seen next, NoDup rows -> (forall y, y ∈ rows -> y ∉ seen) ->
  foldl scan_target (seen, next) rows = (list_to_set rows ∪ seen, next ++ rows).
Proof.
  induction rows as [|x rows IH]; intros seen next Hnd Hns; cbn.
  - rewrite app_nil_r. f_equal. set_solver.
  - apply NoDup_cons in Hnd as [Hx Hnd]. rewrite bool_decide_false by (apply Hns; left).
    rewrite IH, <- app_assoc; [|done|].
    + f_equal. set_solver.
    + intros y Hy. pose proof (Hns y (list_elem_of_further _ _ _ Hy)). set_solver.
Qed.

Lemma length_ball l n : NoDup l -> (forall y, y ∈ l <-> y ∈ Ball n) -> length l = size (Ball n).
Proof.
  intros Hnd Hl. rewrite <- (size_list_to_set (C := gset string)) by done. f_equal.
  apply set_eq. intros y. by rewrite elem_of_list_to_set.
Qed.

(** The nodes of a level and its new rows are the next ball. *)
Lemma new_rows_nodes n frontier nodes :
  (forall y, y ∈ nodes <-> y ∈ Ball n) -> (forall y, y ∈ frontier <-> y ∈ Ball n ∖ Expanded n) -> NoDup nodes ->
  NoDup (nodes ++ new_rows frontier nodes) /\ (forall y, y ∈ nodes ++ new_rows frontier nodes <-> y ∈ Ball (S n)).
Proof.
  intros Hn Hf Hnd. split.
  - apply NoDup_app. split_and!; [done| |apply NoDup_remove_dups].
    intros y Hy Hr. apply (elem_of_new_rows n) in Hr as [_ Hr]; [|done..]. by apply Hr, Hn.
  - intros y. rewrite elem_of_app, (elem_of_new_rows n) by done. rewrite Hn.
    pose proof (ball_mono org reverse edges start n (S n) ltac:(lia) y).
    destruct (decide (y ∈ Ball n)); tauto.
Qed.

Lemma pg_loop_spec levels : forall n seen frontier nodes depth, pg_at n seen frontier nodes depth ->
  match pg_loop db org reverse max_nodes levels (Z.of_nat n + 1) seen frontier nodes depth with
  | Ok (nodes', depth') => exists seen' frontier', pg_at (n + levels) seen' frontier' nodes' depth'
  | Err e => e = ErrMaxNodes max_nodes /\ (max_nodes < Z.of_nat (size (Ball (n + levels))))%Z
  end.
Proof.
  induction levels as [|levels IH]; intros n seen frontier nodes depth Hat; cbn [pg_loop].
  { rewrite Nat.add_0_r. eauto. }
  destruct Hat as [H1 H2 H3 H4 H5 H6].
  destruct frontier as [|x l].
  { exists (Ball (n + S levels)), [].
    assert (Ball n ∖ Expanded n = ∅) as He by (apply set_eq; intros y; rewrite <- H4, elem_of_nil; set_solver).
    destruct (ball_stable org reverse edges start n He (n + S levels) ltac:(lia)) as [Eb Ee].
    split; rewrite ?Eb, ?Ee; try done.
    - intros y. rewrite elem_of_nil. set_solver.
    - destruct H6 as (d & -> & Hd & Ed & Hne). exists d. split_and!; done || lia. }
  set (remaining := (max_nodes - Z.of_nat (length nodes))%Z).
  unfold next_targets. fold (new_rows (x :: l) nodes). set (frontier := x :: l) in *.
  destruct (new_rows_nodes n frontier nodes H2 H4 H3) as [Hnd Hmem].
  pose proof (length_ball _ (S n) Hnd Hmem) as Hlen. rewrite length_app in Hlen.
  assert (forall y, y ∈ new_rows frontier nodes -> y ∉ seen) as Hfresh.
  { intros y Hy. rewrite H1. apply (elem_of_new_rows n) in Hy; tauto. }
  set (ordered := order_by (fun id => id) (new_rows frontier nodes)).
  assert (ordered ≡ₚ new_rows frontier nodes) as Hord by apply order_by_perm.
  set (rows := take (Z.to_nat (remaining + 1)) ordered).
  assert (NoDup rows) as Hrows.
  { assert (NoDup ordered) as Ho by (rewrite Hord; by apply NoDup_app in Hnd as (_ & _ & ?)).
    eapply sublist_NoDup; [exact Ho|apply sublist_take]. }
  rewrite scan_fold; [|done|].
  2: { intros y Hy. apply Hfresh. rewrite <- Hord. by eapply subseteq_take. }
  cbn [app].
  assert (length rows = Nat.min (Z.to_nat (remaining + 1)) (length (new_rows frontier nodes))) as Hlr.
  { unfold rows. by rewrite length_take, Hord. }
  destruct (remaining <? Z.of_nat (length rows))%Z eqn:E; [apply Z.ltb_lt in E|apply Z.ltb_ge in E].
  { split; [done|]. assert (size (Ball (S n)) <= size (Ball (n + S levels)))%nat as Hm.
    { apply subseteq_size, ball_mono. lia. }
    rewrite <- Hlen in Hm. unfold remaining in *. lia. }
  assert (rows = ordered) as Erows.
  { unfold rows. apply take_ge. rewrite Hord. unfold remaining in *. lia. }
  rewrite Erows in *. clear Erows Hlr. clearbody ordered. clear rows.
  assert (forall y, y ∈ nodes ++ ordered <-> y ∈ Ball (S n)) as Hmem' by (intros y; by rewrite Hord).
  assert (NoDup (nodes ++ ordered)) as Hnd' by by rewrite Hord.
  assert (forall y, y ∈ ordered <-> y ∈ Ball (S n) ∖ Expanded (S n)) as Hfr'.
  { intros y. rewrite Hord, (elem_of_new_rows n) by done. by rewrite elem_of_difference. }
  assert (list_to_set ordered ∪ seen = Ball (S n)) as Hseen'.
  { apply set_eq. intros y. rewrite elem_of_union, elem_of_list_to_set, H1, <- H2, <- Hmem', elem_of_app. tauto. }
  assert (length (nodes ++ ordered) = length nodes + length (new_rows frontier nodes))%nat as Hl'
    by (by rewrite length_app, Hord).
  replace (Z.of_nat n + 1 + 1)%Z with (Z.of_nat (S n) + 1)%Z by lia. rewrite <- plus_n_Sm.
  rewrite Hord in E. unfold remaining in E.
  destruct ordered as [|y ys] eqn:Eo; apply (IH (S n)); split; try done; try lia.
  - intros y. rewrite <- Hmem', app_nil_r. done.
  - destruct H6 as (d & -> & Hd & Ed & Hne). exists d. split_and!; [done|lia| |done].
    rewrite Ed. apply set_eq. intros y. by rewrite <- Hmem', app_nil_r, H2.
  - exists (S n). split_and!; [lia|lia|done|]. cbn [expanded]. intros Heq.
    assert (y ∈ y :: ys) as Hy by left. rewrite Hfr', elem_of_difference in Hy. cbn [expanded] in Hy.
    rewrite Heq in Hy. tauto.
Qed.

End PgWalk.

(** The request passes the guards of [TraversePostgres]. *)
Definition pg_request (db : Tables) (org start : string) (depth max_nodes : Z) : Prop :=
  org <> "" /\ start <> "" /\ (1 <= depth)%Z /\ (1 <= max_nodes)%Z /\ (start, org) ∈ t_assets db.

Lemma pg_at_first `{SqlOrder} db org reverse start max_nodes : (1 <= max_nodes)%Z ->
  pg_at db org reverse start max_nodes 0 {[start]} [start] [start] 0.
Proof.
  intros Hn. split; cbn; try done; try lia.
  - intros y. rewrite list_elem_of_singleton. set_solver.
  - apply NoDup_singleton.
  - intros y. rewrite list_elem_of_singleton. set_solver.
  - exists 0%nat. cbn. split_and!; [done|lia|done|]. set_solver.
Qed.

Lemma TraversePostgres_post `{SqlOrder} db org start depth max_nodes reverse :
  pg_request db org start depth max_nodes ->
  let n := Z.to_nat depth in
  match TraversePostgres db org start depth max_nodes reverse with
  | Ok r => (exists seen frontier, pg_at db org reverse start max_nodes n seen frontier (Nodes r) (Depth r)) /\
      res_Relationships r = edges_among db org (Nodes r)
  | Err e => e = ErrMaxNodes max_nodes /\
      (max_nodes < Z.of_nat (size (ball org reverse (t_relationships db) start n)))%Z
  end.
Proof.
  intros (Ho & Hs & Hd & Hn & Hin) n. unfold TraversePostgres, asset_exists.
  rewrite !bool_decide_false, bool_decide_true by done. cbn [orb negb].
  replace (_ || _)%Z with false by (symmetry; rewrite orb_false_iff, !Z.ltb_ge; lia).
  pose proof (pg_loop_spec db org reverse start max_nodes n 0 _ _ _ _ (pg_at_first db org reverse start max_nodes Hn)) as Hspec.
  cbn [Z.of_nat Z.add Nat.add] in Hspec. fold n.
  by destruct (pg_loop _ _ _ _ _ _ _ _ _) as [[nodes d]|e].
Qed.

(** The PostgreSQL traversal: for a request that passes its guards and any
    collation of the database, it returns exactly the nodes within [depth]
    steps, each once, with the active relationships among them and the distance
    of the farthest one; it fails, with the limit error, exactly when those
    nodes are more than asked for. *)
Theorem TraversePostgres_exact `{SqlOrder} db org start depth max_nodes reverse
    (Hv : pg_request db org start depth max_nodes) :
  let reachable := ball org reverse (t_relationships db) start in
  let n := Z.to_nat depth in
  match TraversePostgres db org start depth max_nodes reverse with
  | Ok r =>
      NoDup (Nodes r) /\
      (forall y, y ∈ Nodes r <-> bsteps (adjacent org reverse (t_relationships db)) n start y) /\
      res_Relationships r ≡ₚ filter (fun e => followed org e = true /\ r_from e ∈ Nodes r /\ r_to e ∈ Nodes r) (t_relationships db) /\
      (exists d, Depth r = Z.of_nat d /\ (d <= n)%nat /\ reachable d = reachable n /\
         forall k, (k < d)%nat -> reachable k <> reachable n) /\
      (Z.of_nat (size (reachable n)) <= max_nodes)%Z
  | Err e => e = ErrMaxNodes max_nodes /\ (max_nodes < Z.of_nat (size (reachable n)))%Z
  end.
Proof.
  intros reachable n. pose proof (TraversePostgres_post db org start depth max_nodes reverse Hv) as Hpost.
  cbn zeta in Hpost. fold n in Hpost. fold reachable in Hpost.
  destruct (TraversePostgres _ _ _ _ _ _) as [r|e]; [|done].
  destruct Hpost as [(seen & frontier & [H1 H2 H3 H4 H5 (d & Hd & Hdn & Ed & Hne)]) Hrel].
  fold reachable in Ed, Hne. split_and!.
  - done.
  - intros y. rewrite H2. apply ball_bsteps.
  - rewrite Hrel. apply order_by_perm.
  - exists d. split_and!; try done. intros k Hk Ek. apply Hne. destruct d as [|d]; [lia|]. cbn [expanded].
    apply set_eq. intros y. split.
    + intros Hy. apply (ball_mono org reverse (t_relationships db) start k d ltac:(lia)).
      fold reachable. rewrite Ek, <- Ed. exact Hy.
    + apply (ball_mono org reverse (t_relationships db) start d (S d)). lia.
  - rewrite (length_ball db org reverse start (Nodes r) n H3 H2) in H5. exact H5.
Qed.

Definition sample_tables : Tables :=
  {| t_assets := [("a", "o"); ("b", "o"); ("c", "o"); ("x", "p")]; t_relationships := sample_edges |}.

Lemma TraversePostgres_exact_witness :
  pg_request sample_tables "o" "a" 4 10 /\
  exists r, @TraversePostgres byte_order sample_tables "o" "a" 4 10 false = Ok r /\
    Nodes r = ["a"; "b"; "c"] /\ bsteps (adjacent "o" false sample_edges) 4 "a" "c".
Proof.
  assert (pg_request sample_tables "o" "a" 4 10) as Hv by (split_and!; cbn; [done..|lia|lia|left]).
  split; [exact Hv|].
  pose proof (@TraversePostgres_exact byte_order sample_tables "o" "a" 4 10 false Hv) as Hexact.
  assert (exists r, @TraversePostgres byte_order sample_tables "o" "a" 4 10 false = Ok r /\ Nodes r = ["a"; "b"; "c"])
    as (r & Er & En) by (eexists; split; vm_compute; reflexivity).
  exists r. rewrite Er in Hexact. destruct Hexact as (_ & Hnodes & _). split_and!; [done|done|].
  apply Hnodes. rewrite En. right. right. left.
Defined.

(** C34. The two traversals agree: on the same relationships, for a request
    that both accept and a context that is not done, they succeed together,
    find the same nodes, and every relationship the in-memory walk reports is
    among those PostgreSQL reports. *)
Theorem traversals_agree `{SqlOrder} limits db org start depth nodes reverse
    (Hv : valid_request limits org start depth nodes) (Hin : (start, org) ∈ t_assets db) :
  match Traverse limits no_deadline org start depth nodes reverse (t_relationships db),
        TraversePostgres db org start depth nodes reverse with
  | Ok r, Ok r' => Nodes r ≡ₚ Nodes r' /\ forall e, e ∈ res_Relationships r -> e ∈ res_Relationships r'
  | Err e, Err e' => e = e'
  | _, _ => False
  end.
Proof.
  assert (pg_request db org start depth nodes) as Hpg by (destruct Hv as (? & ? & ? & ?); split_and!; done || lia).
  pose proof (Traverse_post limits no_deadline org start depth nodes reverse (t_relationships db) Hv) as H1.
  pose proof (TraversePostgres_post db org start depth nodes reverse Hpg) as H2. cbn zeta in H1, H2.
  destruct (Traverse _ _ _ _ _ _ _ _) as [r|e], (TraversePostgres _ _ _ _ _ _) as [r'|e'].
  - destruct H1 as (w & [A1 A2 A3 A4 A5 A6 A7] & En & Er & _).
    destruct H2 as [(seen & fr & [B1 B2 B3 B4 B5 _]) Er'].
    assert (Nodes r ≡ₚ Nodes r') as Hperm.
    { apply NoDup_Permutation; [by rewrite En|done|]. intros y. by rewrite En, A2, B2. }
    split; [done|]. intros e. rewrite Er, Er', A6. unfold edges_among. rewrite order_by_perm.
    intros (He & Hf & Hs)%elem_of_leaving. apply list_elem_of_filter. split; [|done]. split; [done|].
    assert (source reverse e ∈ Nodes r') by (apply B2; by apply expanded_subset).
    assert (target reverse e ∈ Nodes r').
    { apply B2. destruct (Z.to_nat depth) as [|k]; [by apply elem_of_empty in Hs|]. cbn in *.
      apply elem_of_union. right. apply elem_of_targets. exists e. split; [|done]. by apply elem_of_leaving. }
    unfold source, target in *. by destruct reverse.
  - destruct H1 as (w & [A1 A2 A3 A4 A5 A6 A7] & _). destruct H2 as [_ H2]. lia.
  - destruct H2 as [(seen & fr & [B1 B2 B3 B4 B5 _]) _].
    rewrite (length_ball db org reverse start (Nodes r') (Z.to_nat depth) B3 B2) in B5.
    destruct e; try done; [destruct H1; lia|]. by destruct H1 as [? [=]].
  - destruct H2 as [-> H2]. destruct e; try done; [by destruct H1 as [-> _]|]. by destruct H1 as [? [=]].
Qed.

Lemma traversals_agree_witness :
  (exists r, Traverse sample_limits no_deadline "o" "c" 3 5 true sample_edges = Ok r /\ Nodes r = ["c"; "b"; "a"]) /\
  (exists r, @TraversePostgres byte_order sample_tables "o" "c" 3 5 true = Ok r /\ Nodes r ≡ₚ ["c"; "b"; "a"]).
Proof.
  pose proof (@traversals_agree byte_order sample_limits sample_tables "o" "c" 3 5 true
    (ltac:(split_and!; cbn; done || lia)) (ltac:(cbn; right; right; left))) as Hagree.
  assert (exists r, Traverse sample_limits no_deadline "o" "c" 3 5 true sample_edges = Ok r /\ Nodes r = ["c"; "b"; "a"])
    as (r & Er & En) by (eexists; split; vm_compute; reflexivity).
  split; [eauto|]. change (t_relationships sample_tables) with sample_edges in Hagree. rewrite Er in Hagree.
  destruct (TraversePostgres _ _ _ _ _ _) as [r'|]; [|done]. exists r'. split; [done|].
  destruct Hagree as [Hp _]. by rewrite <- Hp, En.
Defined.

(** The depth they report differs: the in-memory walk also counts the last
    level it searched in vain. *)
Example depths_differ :
  (exists r, Traverse sample_limits no_deadline "o" "c" 3 5 false sample_edges = Ok r /\ Depth r = 1%Z) /\
  (exists r, @TraversePostgres byte_order sample_tables "o" "c" 3 5 false = Ok r /\ Depth r = 0%Z).
Proof. split; eexists; split; vm_compute; reflexivity. Qed.
