(* ===== verification/Resolution.v ===== *)
(** * Asset resolution ([internal/resolution/resolution.go])

    [Resolve] decides what asset an observation is about: an immutable
    identifier it knows is a match, a host name is at most a candidate. *)
From S2P Require Import Prelude GoStrings GoJson Domain.
Open Scope string_scope.
Open Scope list_scope.

Definition Match := "MATCH".
Definition NewAsset := "NEW_ASSET".
Definition Candidate := "CANDIDATE".

Record Result := { Decision : string; AssetID : string; Confidence : string; Reasons : list string }.

Definition strongKeys : list string :=
  ["cloud_id"; "kubernetes_uid"; "docker_container_id"; "vm_uuid"; "hardware_uuid";
   "terraform_resource_id"; "external_cmdb_id"].

(** [strings.TrimSpace(fmt.Sprint(m[k]))]. *)
Definition trimmed (m : gmap string json) (k : string) : string := trim_space (sprint_lookup (m !! k)).

(** One key of the loop of [StrongIdentities]. *)
Definition strong_identity (o : Observation) (identities : gmap string string) (key : string) : gmap string string :=
  let value := trimmed (hints o) key in
  if negb (bool_decide (value = "")) && negb (bool_decide (value = "<nil>"))
  then <[key := value]> identities else identities.

Definition StrongIdentities (o : Observation) : gmap string string := foldl (strong_identity o) ∅ strongKeys.

(** What one strong key resolves to, lines 29-34. *)
Definition strong_match (strong identities : gmap string string) (k : string) : option Result :=
  let v := default "" (strong !! k) in
  if bool_decide (v = "") then None else
  let id := default "" (identities !! (k +:+ ":" +:+ v)) in
  if bool_decide (id = "") then None else
  Some {| Decision := Match; AssetID := id; Confidence := "HIGH";
          Reasons := ["matching immutable identifier: " +:+ k] |}.

(** The first element on which [f] returns. *)
Fixpoint first_some {A B} (f : A -> option B) (l : list A) : option B :=
  match l with [] => None | x :: l' => match f x with Some b => Some b | None => first_some f l' end end.

Section Resolve.
Context `{UnicodeCase}.

(** What one asset's name makes of the observation, lines 37-45. *)
Definition weak_match (o : Observation) (a : Asset) : option Result :=
  if negb (equal_fold (a_canonical a) (trimmed (hints o) "hostname")) then None else
  let oe := trimmed (attrs o) "environment" in
  let reason := if negb (bool_decide (oe = "")) && negb (bool_decide (a_environment a = "")) && negb (equal_fold oe (a_environment a))
                then "hostname matches but environments differ" else "hostname is a weak identifier" in
  Some {| Decision := Candidate; AssetID := a_id a; Confidence := "LOW"; Reasons := [reason] |}.

Definition Resolve (o : Observation) (assets : list Asset) (identities : gmap string string) : Result :=
  match first_some (strong_match (StrongIdentities o) identities) strongKeys with
  | Some r => r
  | None =>
      match first_some (weak_match o) assets with
      | Some r => r
      | None => {| Decision := NewAsset; AssetID := ""; Confidence := "UNKNOWN"; Reasons := ["no known identity matched"] |}
      end
  end.

End Resolve.

(** ** Lemmas *)

Lemma first_some_Some {A B} (f : A -> option B) l b :
  first_some f l = Some b -> exists l1 x l2, l = l1 ++ x :: l2 /\ f x = Some b /\ Forall (fun y => f y = None) l1.
Proof.
  induction l as [|x l IH]; cbn; [done|]. destruct (f x) as [b'|] eqn:E.
  - intros [= ->]. by exists [], x, l.
  - intros (l1 & y & l2 & -> & Hy & Hl)%IH. exists (x :: l1), y, l2. by split_and!; [|done|constructor].
Qed.

Lemma first_some_None {A B} (f : A -> option B) l : first_some f l = None <-> Forall (fun y => f y = None) l.
Proof.
  induction l as [|x l IH]; cbn; [done|]. rewrite Forall_cons, <- IH. destruct (f x); naive_solver.
Qed.

(** The hint [key] has a usable value. *)
Definition usable (o : Observation) (key : string) : Prop :=
  trimmed (hints o) key <> "" /\ trimmed (hints o) key <> "<nil>".
#[export] Instance usable_dec o key : base.Decision (usable o key).
Proof. unfold usable. apply _. Defined.

Lemma strong_identity_lookup o m key k :
  strong_identity o m key !! k = if decide (k = key /\ usable o key) then Some (trimmed (hints o) k) else m !! k.
Proof.
  unfold strong_identity. destruct (decide (usable o key)) as [Hu|Hu].
  - pose proof Hu as [H1 H2]. rewrite !bool_decide_false by done. cbn [negb andb].
    destruct (decide (k = key)) as [->|Hne].
    + by rewrite lookup_insert_eq, decide_True.
    + rewrite lookup_insert_ne, decide_False by naive_solver. done.
  - rewrite decide_False by tauto. unfold usable in Hu. repeat case_bool_decide; cbn [negb andb]; try done.
    exfalso. tauto.
Qed.

Lemma StrongIdentities_lookup o k v :
  StrongIdentities o !! k = Some v <-> k ∈ strongKeys /\ v = trimmed (hints o) k /\ usable o k.
Proof.
  unfold StrongIdentities.
  assert (forall l m, foldl (strong_identity o) m l !! k =
    if decide (k ∈ l /\ usable o k) then Some (trimmed (hints o) k) else m !! k) as Hl.
  { induction l as [|key l IH]; intros m; cbn [foldl].
    - rewrite decide_False; [done|]. intros [?%not_elem_of_nil _]. done.
    - rewrite IH, strong_identity_lookup.
      destruct (decide (k ∈ l /\ usable o k)) as [[H1 H2]|H1].
      + rewrite decide_True; [done|]. split; [by right|done].
      + apply decide_ext. rewrite elem_of_cons. split; [intros [-> ?]; auto|]. intros [[->|?] ?]; tauto. }
  rewrite Hl, lookup_empty. case_decide as Hd; split; try done.
  - intros [= <-]. tauto.
  - intros (_ & -> & _). done.
  - intros (? & -> & ?). tauto.
Qed.

Section Theorems.
Context `{UnicodeCase}.

(** The observation's strong key [k] names asset [id]. *)
Definition names_asset (o : Observation) (identities : gmap string string) (k id : string) : Prop :=
  k ∈ strongKeys /\ usable o k /\
  identities !! (k +:+ ":" +:+ trimmed (hints o) k) = Some id /\ id <> "".

Lemma strong_match_spec o identities k r : k ∈ strongKeys ->
  strong_match (StrongIdentities o) identities k = Some r <->
  names_asset o identities k (AssetID r) /\
  r = {| Decision := Match; AssetID := AssetID r; Confidence := "HIGH";
         Reasons := ["matching immutable identifier: " +:+ k] |}.
Proof.
  intros Hk. unfold strong_match, names_asset.
  destruct (StrongIdentities o !! k) as [v|] eqn:E; cbn.
  - apply StrongIdentities_lookup in E as (_ & -> & Hu). rewrite bool_decide_false by apply Hu.
    destruct (identities !! _) as [id|]; cbn; [|split; [done|]; by intros [(_ & _ & ? & _) _]].
    case_bool_decide as Hid.
    + split; [done|]. intros [(_ & _ & [= <-] & Hne) _]. done.
    + split; [intros [= <-]; auto|]. intros [(_ & _ & [= ->] & Hne) ->]. done.
  - split; [done|]. intros [(_ & Hu & _) _]. exfalso.
    assert (StrongIdentities o !! k = Some (trimmed (hints o) k)) by by apply StrongIdentities_lookup. congruence.
Qed.

Lemma strong_match_none o identities l : (forall k, k ∈ l -> k ∈ strongKeys) ->
  Forall (fun k => strong_match (StrongIdentities o) identities k = None) l <->
  forall k id, k ∈ l -> ~ names_asset o identities k id.
Proof.
  intros Hl. rewrite Forall_forall. split.
  - intros Hn k id Hk Hna.
    assert (strong_match (StrongIdentities o) identities k =
      Some {| Decision := Match; AssetID := id; Confidence := "HIGH"; Reasons := ["matching immutable identifier: " +:+ k] |}) as E.
    { apply strong_match_spec; [auto|]. done. }
    rewrite (Hn k Hk) in E. done.
  - intros Hn k Hk. destruct (strong_match _ _ _) as [r|] eqn:E; [|done]. exfalso.
    apply strong_match_spec in E as [E _]; [|auto]. by apply (Hn k (AssetID r)).
Qed.

(** Only an immutable identifier merges: the outcome is a match exactly
    when a strong identity of the observation is a known one, and then the
    asset is that of the first such key; without one, an asset whose name is
    the observed host name is at most a low-confidence candidate, the first in
    order; otherwise the observation is a new asset. *)
Theorem Resolve_spec o assets identities :
  let r := Resolve o assets identities in
  let same_name a := equal_fold (a_canonical a) (trimmed (hints o) "hostname") in
  (Decision r = Match <-> exists k id, names_asset o identities k id) /\
  (Decision r = Match -> exists before k after, strongKeys = before ++ k :: after /\
     names_asset o identities k (AssetID r) /\ forall k' id, k' ∈ before -> ~ names_asset o identities k' id) /\
  (Decision r = Candidate <-> (forall k id, ~ names_asset o identities k id) /\ existsb same_name assets = true) /\
  (Decision r = Candidate -> Confidence r = "LOW" /\ exists before a after, assets = before ++ a :: after /\
     AssetID r = a_id a /\ same_name a = true /\ forallb (fun b => negb (same_name b)) before = true) /\
  (Decision r = NewAsset <-> (forall k id, ~ names_asset o identities k id) /\ existsb same_name assets = false) /\
  (Decision r = NewAsset -> AssetID r = "").
Proof.
  cbn zeta. unfold Resolve. destruct (first_some (strong_match _ _) strongKeys) as [r|] eqn:E.
  - apply first_some_Some in E as (l1 & k & l2 & El & Hk & Hl1).
    assert (k ∈ strongKeys) as Hin by (rewrite El; apply elem_of_app; right; left).
    apply strong_match_spec in Hk as [Hna Hr]; [|done].
    rewrite Hr. cbn. split_and!; try done.
    + split; eauto.
    + intros _. exists l1, k, l2. split_and!; [done|done|].
      intros k' id Hk'. revert k' id Hk'. apply strong_match_none; [|done].
      intros k' Hk'. rewrite El. apply elem_of_app. by left.
    + split; [done|]. intros [Hnone _]. by apply Hnone in Hna.
    + split; [done|]. intros [Hnone _]. by apply Hnone in Hna.
  - rewrite first_some_None, strong_match_none in E by done.
    assert (forall k id, ~ names_asset o identities k id) as Hnone.
    { intros k id Hna. apply (E k id); [|done]. apply Hna. }
    destruct (first_some (weak_match o) assets) as [r|] eqn:Ew.
    + apply first_some_Some in Ew as (l1 & a & l2 & El & Ha & Hl1).
      unfold weak_match in Ha. destruct (equal_fold _ _) eqn:Es; cbn [negb] in Ha; [|done].
      apply Some_inj in Ha. subst r.
      assert (existsb (fun a => equal_fold (a_canonical a) (trimmed (hints o) "hostname")) assets = true) as Hex.
      { rewrite El, existsb_app. cbn. by rewrite Es, orb_true_r. }
      cbn. rewrite Hex. split_and!; try done.
      * split; [done|]. intros (k & id & Hna). by apply Hnone in Hna.
      * intros _. split; [done|]. exists l1, a, l2. split_and!; try done.
        apply forallb_forall. intros b Hb%list_elem_of_In. rewrite Forall_forall in Hl1. specialize (Hl1 b Hb).
        unfold weak_match in Hl1. by destruct (equal_fold (a_canonical b) _).
      * split; [done|]. by intros [_ ?].
    + rewrite first_some_None in Ew.
      assert (existsb (fun a => equal_fold (a_canonical a) (trimmed (hints o) "hostname")) assets = false) as ->.
      { apply not_true_is_false. intros (a & Hin & Ha)%existsb_exists. rewrite Forall_forall in Ew.
        assert (weak_match o a = None) as Hw by (apply Ew; by apply list_elem_of_In).
        unfold weak_match in Hw. by rewrite Ha in Hw. }
      cbn. split_and!; try done.
      * split; [done|]. intros (k & id & Hna). by apply Hnone in Hna.
      * split; [done|]. by intros [_ ?].
Qed.

End Theorems.

(** An observation that says nothing of its environment is reported as one
    whose environment differs: the missing attribute prints as [<nil>]. *)
Definition plain_host : Observation :=
  {| o_id := ""; o_org := ""; o_snapshot := ""; o_connector := ""; o_collector := ""; o_external := "x";
     o_type := Container; o_observed := 0; o_attributes := Some ∅; o_hints := Some {["hostname" := JStr "db1"]};
     o_fingerprint := ""; o_status := "" |}.
Definition production_host : Asset :=
  {| a_id := "asset-1"; a_org := "o"; a_canonical := "DB1"; a_display := "DB1"; a_type := Container;
     a_status := AssetActive; a_environment := "PRODUCTION"; a_site := ""; a_owner := ""; a_criticality := "";
     a_first_seen := 0; a_last_seen := 0; a_created := 0; a_updated := 0; a_retired := None |}.

(** For an observation without an environment attribute, a host of known
    environment with its name is reported with the reason that the
    environments differ, although the observation states none. *)
Theorem missing_environment_reported_as_different :
  attrs plain_host !! "environment" = None /\
  @Resolve ascii_case plain_host [production_host] ∅ =
    {| Decision := Candidate; AssetID := "asset-1"; Confidence := "LOW";
       Reasons := ["hostname matches but environments differ"] |}.
Proof. split; vm_compute; reflexivity. Qed.
