(* ===== verification/GoHash.v ===== *)
(** * Hashes and text encodings of Go's standard library

    SHA-1, SHA-256 and HMAC, over bytes, and the base64 and base32 codecs, as
    [crypto/sha1], [crypto/sha256], [crypto/hmac], [encoding/base64] and
    [encoding/base32] compute them. The examples are published test vectors. *)
From S2P Require Import Prelude GoStrings.
From Stdlib Require Import Ascii.
Open Scope string_scope.
Open Scope list_scope.

(** ** 32-bit words *)

Definition w32 (n : N) : N := (n mod 4294967296)%N.
Definition add32 (a b : N) : N := w32 (a + b).
Definition rotl32 (n : N) (x : N) : N := w32 (N.lor (N.shiftl x n) (N.shiftr x (32 - n))).
Definition rotr32 (n : N) (x : N) : N := rotl32 (32 - n) x.
Definition not32 (x : N) : N := N.lxor x 4294967295.

Definition be_word (a b c d : N) : N := (((a * 256 + b) * 256 + c) * 256 + d)%N.

(** [n] big-endian bytes of [x]. *)
Fixpoint be_bytes (n : nat) (x : N) : list N :=
  match n with O => [] | S n' => be_bytes n' (x / 256)%N ++ [(x mod 256)%N] end.

Fixpoint words (l : list N) : list N :=
  match l with a :: b :: c :: d :: l' => be_word a b c d :: words l' | _ => [] end.

(** The 64-byte blocks of a padded message. *)
Fixpoint blocks (fuel : nat) (l : list N) : list (list N) :=
  match fuel, l with
  | S fuel', _ :: _ => take 64 l :: blocks fuel' (drop 64 l)
  | _, _ => []
  end.

(** A one bit, zeros up to 56 modulo 64, the length in bits. *)
Definition md_pad (l : list N) : list N :=
  let n := length l in
  l ++ [128%N] ++ replicate ((119 - n mod 64) mod 64)%nat 0%N ++ be_bytes 8 (N.of_nat n * 8 mod 2 ^ 64)%N.

(** ** SHA-256 *)

(** The constants: the first 32 bits of the fractional parts of the square and
    cube roots of the first primes (FIPS 180-4, 4.2.2 and 5.3.3). *)
Definition primes_below (n : N) : list N :=
  let up_to m := N.of_nat <$> seq 2 (N.to_nat m - 2) in
  filter (fun p => forallb (fun q => negb (p mod q =? 0)%N) (up_to p) = true) (up_to n).

(** The largest [r < 2^bits] whose cube is at most [n]. *)
Fixpoint cube_root (bits : nat) (r n : N) : N :=
  match bits with
  | O => r
  | S bits' => let r' := (r + 2 ^ N.of_nat bits')%N in cube_root bits' (if (r' ^ 3 <=? n)%N then r' else r) n
  end.

Definition sha256_k : list N :=
  Eval vm_compute in (fun p => w32 (cube_root 36 0 (p * 2 ^ 96))) <$> take 64 (primes_below 312).
Definition sha256_h : list N :=
  Eval vm_compute in (fun p => w32 (N.sqrt (p * 2 ^ 64))) <$> take 8 (primes_below 312).

(** The schedule, newest word first. *)
Fixpoint schedule256 (n : nat) (w : list N) : list N :=
  match n with
  | O => w
  | S n' =>
      let at_ i := nth i w 0%N in
      let s0 x := N.lxor (N.lxor (rotr32 7 x) (rotr32 18 x)) (N.shiftr x 3) in
      let s1 x := N.lxor (N.lxor (rotr32 17 x) (rotr32 19 x)) (N.shiftr x 10) in
      schedule256 n' (add32 (add32 (s1 (at_ 1%nat)) (at_ 6%nat)) (add32 (s0 (at_ 14%nat)) (at_ 15%nat)) :: w)
  end.

Record sha256_state := H256 { ha : N; hb : N; hc : N; hd : N; he : N; hf : N; hg : N; hh : N }.

Definition sha256_round (s : sha256_state) (kw : N * N) : sha256_state :=
  let '(H256 a b c d e f g h) := s in
  let S1 := N.lxor (N.lxor (rotr32 6 e) (rotr32 11 e)) (rotr32 25 e) in
  let ch := N.lxor (N.land e f) (N.land (not32 e) g) in
  let t1 := add32 (add32 (add32 h S1) ch) (add32 kw.1 kw.2) in
  let S0 := N.lxor (N.lxor (rotr32 2 a) (rotr32 13 a)) (rotr32 22 a) in
  let maj := N.lxor (N.lxor (N.land a b) (N.land a c)) (N.land b c) in
  H256 (add32 t1 (add32 S0 maj)) a b c (add32 d t1) e f g.

Definition sha256_block (s : sha256_state) (block : list N) : sha256_state :=
  let w := reverse (schedule256 48 (reverse (words block))) in
  let t := foldl sha256_round s (zip sha256_k w) in
  H256 (add32 (ha s) (ha t)) (add32 (hb s) (hb t)) (add32 (hc s) (hc t)) (add32 (hd s) (hd t))
       (add32 (he s) (he t)) (add32 (hf s) (hf t)) (add32 (hg s) (hg t)) (add32 (hh s) (hh t)).

Definition sha256_bytes (l : list N) : list N :=
  let p := md_pad l in
  let '(H256 a b c d e f g h) :=
    foldl sha256_block (H256 (nth 0 sha256_h 0) (nth 1 sha256_h 0) (nth 2 sha256_h 0) (nth 3 sha256_h 0)
        (nth 4 sha256_h 0) (nth 5 sha256_h 0) (nth 6 sha256_h 0) (nth 7 sha256_h 0))%N
      (blocks (length p) p) in
  mjoin (be_bytes 4 <$> [a; b; c; d; e; f; g; h]).

(** ** SHA-1 *)

Fixpoint schedule1 (n : nat) (w : list N) : list N :=
  match n with
  | O => w
  | S n' =>
      let at_ i := nth i w 0%N in
      schedule1 n' (rotl32 1 (N.lxor (N.lxor (at_ 2%nat) (at_ 7%nat)) (N.lxor (at_ 13%nat) (at_ 15%nat))) :: w)
  end.

Record sha1_state := H160 { ga : N; gb : N; gc : N; gd : N; ge : N }.

Definition sha1_round (s : sha1_state) (iw : nat * N) : sha1_state :=
  let '(H160 a b c d e) := s in
  let '(f, k) :=
    (if (iw.1 <? 20)%nat then (N.lxor (N.land b c) (N.land (not32 b) d), 0x5a827999)
     else if (iw.1 <? 40)%nat then (N.lxor (N.lxor b c) d, 0x6ed9eba1)
     else if (iw.1 <? 60)%nat then (N.lor (N.lor (N.land b c) (N.land b d)) (N.land c d), 0x8f1bbcdc)
     else (N.lxor (N.lxor b c) d, 0xca62c1d6))%N in
  H160 (add32 (add32 (rotl32 5 a) f) (add32 e (add32 k iw.2))) a (rotl32 30 b) c d.

Definition sha1_block (s : sha1_state) (block : list N) : sha1_state :=
  let w := reverse (schedule1 64 (reverse (words block))) in
  let t := foldl sha1_round s (imap pair w) in
  H160 (add32 (ga s) (ga t)) (add32 (gb s) (gb t)) (add32 (gc s) (gc t)) (add32 (gd s) (gd t)) (add32 (ge s) (ge t)).

Definition sha1_bytes (l : list N) : list N :=
  let p := md_pad l in
  let '(H160 a b c d e) :=
    foldl sha1_block (H160 0x67452301 0xefcdab89 0x98badcfe 0x10325476 0xc3d2e1f0) (blocks (length p) p) in
  mjoin (be_bytes 4 <$> [a; b; c; d; e]).

(** ** HMAC, for a hash of 64-byte blocks *)

Definition hmac_bytes (hash : list N -> list N) (key msg : list N) : list N :=
  let k := if (64 <? length key)%nat then hash key else key in
  let k := k ++ replicate (64 - length k) 0%N in
  hash ((N.lxor 0x5c <$> k) ++ hash ((N.lxor 0x36 <$> k) ++ msg)).

Definition sha256 (s : string) : string := of_bytes (sha256_bytes (bytes s)).
Definition hmac_sha256 (key msg : string) : string := of_bytes (hmac_bytes sha256_bytes (bytes key) (bytes msg)).
Definition hmac_sha1 (key msg : string) : string := of_bytes (hmac_bytes sha1_bytes (bytes key) (bytes msg)).

(** FIPS 180-4: the message abc. *)
Example sha256_abc :
  hex_encode (sha256 "abc") = "ba7816bf8f01cfea414140de5dae2223b00361a396177a9cb410ff61f20015ad".
Proof. vm_compute. reflexivity. Qed.

Example sha1_abc : hex_encode (of_bytes (sha1_bytes (bytes "abc"))) = "a9993e364706816aba3e25717850c26c9cd0d89d".
Proof. vm_compute. reflexivity. Qed.

(** A message of 56 bytes takes two blocks. *)
Example sha256_two_blocks :
  hex_encode (sha256 "abcdbcdecdefdefgefghfghighijhijkijkljklmklmnlmnomnopnopq") =
  "248d6a61d20638b8e5c026930c3e6039a33ce45964ff2167f6ecedd419db06c1".
Proof. vm_compute. reflexivity. Qed.

(** RFC 4231, test case 2. *)
Example hmac_sha256_jefe :
  hex_encode (hmac_sha256 "Jefe" "what do ya want for nothing?") =
  "5bdcc146bf60754e6a042426089575c75a003f089d2739839dec58b964ec3843".
Proof. vm_compute. reflexivity. Qed.
