(* ===== verification/GoEncoding.v ===== *)
(** * base64, base32 and hexadecimal, as the packages of [encoding] have them *)
From S2P Require Import Prelude GoStrings GoUtf8.
From Stdlib Require Import Ascii.
Open Scope string_scope.
Open Scope list_scope.

(** ** Alphabets *)

Definition upper_letters : list ascii := String.list_ascii_of_string "ABCDEFGHIJKLMNOPQRSTUVWXYZ".
Definition std_alphabet : list ascii :=
  upper_letters ++ String.list_ascii_of_string "abcdefghijklmnopqrstuvwxyz0123456789+/".
Definition url_alphabet : list ascii :=
  upper_letters ++ String.list_ascii_of_string "abcdefghijklmnopqrstuvwxyz0123456789-_".
Definition b32_alphabet : list ascii := upper_letters ++ String.list_ascii_of_string "234567".

(** The index of a character, as [decodeMap] has it. *)
Fixpoint index_of (c : ascii) (l : list ascii) : option N :=
  match l with
  | [] => None
  | x :: l' => if Ascii.eqb x c then Some 0%N else N.succ <$> index_of c l'
  end.

Definition char_at (alphabet : list ascii) (i : N) : ascii := nth (N.to_nat i) alphabet "?"%char.

Definition strip_newlines (l : list ascii) : list ascii :=
  filter (fun c => c <> ascii_of_N 10 /\ c <> ascii_of_N 13) l.

(** ** base64 *)

Section Base64.
Variables (alphabet : list ascii) (padded : bool).

Definition pad_char : ascii := "="%char.

Fixpoint b64_encode (l : list N) : list ascii :=
  let ch := char_at alphabet in
  match l with
  | a :: b :: c :: l' =>
      ch (a / 4)%N :: ch (a mod 4 * 16 + b / 16)%N :: ch (b mod 16 * 4 + c / 64)%N :: ch (c mod 64)%N :: b64_encode l'
  | [a; b] => [ch (a / 4)%N; ch (a mod 4 * 16 + b / 16)%N; ch (b mod 16 * 4)%N] ++ if padded then [pad_char] else []
  | [a] => [ch (a / 4)%N; ch (a mod 4 * 16)%N] ++ if padded then [pad_char; pad_char] else []
  | [] => []
  end.

Definition b64_1 (x y : ascii) : option (list N) :=
  i ← index_of x alphabet; j ← index_of y alphabet; Some [(i * 4 + j / 16)%N].

Definition b64_2 (x y z : ascii) : option (list N) :=
  i ← index_of x alphabet; j ← index_of y alphabet; k ← index_of z alphabet;
  Some [(i * 4 + j / 16)%N; (j mod 16 * 16 + k / 4)%N].

(** The quanta of [Decode], on input without newlines; the bits left over in a
    last partial quantum are ignored, as the encoding is not strict. *)
Fixpoint b64_decode (l : list ascii) : option (list N) :=
  match l with
  | [] => Some []
  | [x; y] => if padded then None else b64_1 x y
  | [x; y; z] => if padded then None else b64_2 x y z
  | x :: y :: z :: t :: l' =>
      match index_of z alphabet, index_of t alphabet with
      | Some k, Some m =>
          i ← index_of x alphabet; j ← index_of y alphabet; rest ← b64_decode l';
          Some ((i * 4 + j / 16) :: (j mod 16 * 16 + k / 4) :: (k mod 4 * 64 + m) :: rest)%N
      | Some _, None =>
          if padded && Ascii.eqb t pad_char && bool_decide (l' = []) then b64_2 x y z else None
      | None, _ =>
          if padded && Ascii.eqb z pad_char && Ascii.eqb t pad_char && bool_decide (l' = []) then b64_1 x y else None
      end
  | _ => None
  end.

End Base64.

(** [base64.StdEncoding], [RawStdEncoding] and [RawURLEncoding]. *)
Definition base64_encode (alphabet : list ascii) (padded : bool) (s : string) : string :=
  String.string_of_list_ascii (b64_encode alphabet padded (bytes s)).
Definition base64_decode (alphabet : list ascii) (padded : bool) (s : string) : option string :=
  of_bytes <$> b64_decode alphabet padded (strip_newlines (String.list_ascii_of_string s)).

Definition std_encode : string -> string := base64_encode std_alphabet true.
Definition std_decode : string -> option string := base64_decode std_alphabet true.
Definition raw_std_encode : string -> string := base64_encode std_alphabet false.
Definition raw_std_decode : string -> option string := base64_decode std_alphabet false.
Definition raw_url_encode : string -> string := base64_encode url_alphabet false.

(** ** base32 without padding *)

Definition b32_chunk (v : list N) : list N :=
  match v with
  | [a; b; c; d; e; f; g; h] =>
      [a * 8 + b / 4; b mod 4 * 64 + c * 2 + d / 16; d mod 16 * 16 + e / 2; e mod 2 * 128 + f * 4 + g / 8; g mod 8 * 32 + h]
  | [a; b; c; d; e; f; g] =>
      [a * 8 + b / 4; b mod 4 * 64 + c * 2 + d / 16; d mod 16 * 16 + e / 2; e mod 2 * 128 + f * 4 + g / 8]
  | [a; b; c; d; e] => [a * 8 + b / 4; b mod 4 * 64 + c * 2 + d / 16; d mod 16 * 16 + e / 2]
  | [a; b; c; d] => [a * 8 + b / 4; b mod 4 * 64 + c * 2 + d / 16]
  | [a; b] => [a * 8 + b / 4]
  | _ => []
  end%N.

Fixpoint b32_values (l : list ascii) : option (list N) :=
  match l with [] => Some [] | c :: l' => v ← index_of c b32_alphabet; vs ← b32_values l'; Some (v :: vs) end.

Fixpoint b32_chunks (fuel : nat) (v : list N) : list N :=
  match fuel, v with
  | S fuel', _ :: _ => b32_chunk (take 8 v) ++ b32_chunks fuel' (drop 8 v)
  | _, _ => []
  end.

(** [base32.StdEncoding.WithPadding(NoPadding).DecodeString]: the quanta of
    eight characters; a last one of 1, 3 or 6 yields no byte. *)
Definition base32_decode (s : string) : option string :=
  v ← b32_values (strip_newlines (String.list_ascii_of_string s));
  Some (of_bytes (b32_chunks (length v) v)).

(** ** Round trips *)

Lemma byte_of_bound c : (byte_of c < 256)%N.
Proof. unfold byte_of. apply N_ascii_bounded. Qed.

(** An alphabet of 64 distinct characters, without padding or newlines. *)
Definition good_alphabet (alphabet : list ascii) : bool :=
  forallb (fun i => bool_decide (index_of (char_at alphabet i) alphabet = Some i)
    && bool_decide (char_at alphabet i <> "="%char /\ char_at alphabet i <> ascii_of_N 10 /\ char_at alphabet i <> ascii_of_N 13))
    (N.of_nat <$> seq 0 64) && bool_decide (index_of "="%char alphabet = None).

Lemma std_alphabet_good : good_alphabet std_alphabet = true.
Proof. vm_compute. reflexivity. Qed.
Lemma url_alphabet_good : good_alphabet url_alphabet = true.
Proof. vm_compute. reflexivity. Qed.

(** Goals on quotients and remainders of bytes. *)
Ltac solve_div := zify; Z.to_euclidean_division_equations; lia.

Section RoundTrip.
Context (alphabet : list ascii) (Hgood : good_alphabet alphabet = true).

Lemma alphabet_char i : (i < 64)%N ->
  index_of (char_at alphabet i) alphabet = Some i /\ char_at alphabet i <> "="%char /\
  char_at alphabet i <> ascii_of_N 10 /\ char_at alphabet i <> ascii_of_N 13.
Proof.
  intros Hi. unfold good_alphabet in Hgood. apply andb_true_iff in Hgood as [H _].
  rewrite forallb_forall in H. specialize (H i).
  rewrite andb_true_iff, !bool_decide_eq_true in H. apply H.
  apply list_elem_of_In, list_elem_of_fmap. exists (N.to_nat i). split; [lia|]. apply elem_of_seq. lia.
Qed.

Lemma alphabet_index i : (i < 64)%N -> index_of (char_at alphabet i) alphabet = Some i.
Proof. apply alphabet_char. Qed.

Lemma alphabet_pad : index_of "="%char alphabet = None.
Proof. unfold good_alphabet in Hgood. apply andb_true_iff in Hgood as [_ H]. by apply bool_decide_eq_true in H. Qed.

Ltac byte_bounds := repeat match goal with
  | |- context [index_of (char_at alphabet ?i) alphabet] =>
      rewrite (alphabet_index i) by (solve_div)
  end.

Lemma b64_roundtrip padded l : Forall (fun b => (b < 256)%N) l ->
  b64_decode alphabet padded (b64_encode alphabet padded l) = Some l.
Proof.
  induction l as [l IH] using (induction_ltof1 _ length). intros Hl. unfold ltof in IH.
  destruct l as [|a [|b [|c l]]].
  - done.
  - apply Forall_cons in Hl as [Ha _]. cbn [b64_encode].
    destruct padded; cbn -[N.mul N.div N.modulo index_of char_at]; unfold b64_1.
    + unfold pad_char. rewrite alphabet_pad. cbn -[N.mul N.div N.modulo index_of char_at]. byte_bounds. cbn -[N.mul N.div N.modulo].
      repeat f_equal. solve_div.
    + byte_bounds. cbn -[N.mul N.div N.modulo]. repeat f_equal. solve_div.
  - apply Forall_cons in Hl as [Ha Hl]. apply Forall_cons in Hl as [Hb _]. cbn [b64_encode].
    destruct padded; cbn -[N.mul N.div N.modulo index_of char_at]; unfold b64_2.
    + unfold pad_char. rewrite alphabet_pad. byte_bounds. cbn -[N.mul N.div N.modulo].
      repeat f_equal; solve_div.
    + byte_bounds. cbn -[N.mul N.div N.modulo]. repeat f_equal; solve_div.
  - apply Forall_cons in Hl as [Ha Hl]. apply Forall_cons in Hl as [Hb Hl]. apply Forall_cons in Hl as [Hc Hl].
    cbn [b64_encode b64_decode]. byte_bounds. cbn [mbind option_bind].
    rewrite IH; [|cbn; lia|done]. cbn [mbind option_bind].
    repeat f_equal; solve_div.
Qed.

Ltac chars Hc := repeat (apply Forall_cons_2; [first [by left | apply Hc; solve_div]|]); try apply Forall_nil_2.

(** The characters an encoding consists of. *)
Lemma b64_encode_chars padded l : Forall (fun b => (b < 256)%N) l ->
  Forall (fun c => c = "="%char \/ exists i, (i < 64)%N /\ c = char_at alphabet i) (b64_encode alphabet padded l).
Proof.
  assert (forall i, (i < 64)%N -> char_at alphabet i = "="%char \/ exists j, (j < 64)%N /\ char_at alphabet i = char_at alphabet j) as Hc by eauto.
  induction l as [l IH] using (induction_ltof1 _ length). intros Hl. unfold ltof in IH.
  destruct l as [|a [|b [|c l]]]; cbn [b64_encode].
  - constructor.
  - apply Forall_cons in Hl as [Ha _].
    destruct padded; cbn -[N.mul N.div N.modulo char_at]; chars Hc.
  - apply Forall_cons in Hl as [Ha Hl]. apply Forall_cons in Hl as [Hb _].
    destruct padded; cbn -[N.mul N.div N.modulo char_at]; chars Hc.
  - apply Forall_cons in Hl as [Ha Hl]. apply Forall_cons in Hl as [Hb Hl]. apply Forall_cons in Hl as [Hc' Hl].
    chars Hc. apply IH; [cbn; lia|done].
Qed.

Lemma base64_roundtrip padded s : base64_decode alphabet padded (base64_encode alphabet padded s) = Some s.
Proof.
  unfold base64_decode, base64_encode. rewrite String.list_ascii_of_string_of_list_ascii.
  assert (strip_newlines (b64_encode alphabet padded (bytes s)) = b64_encode alphabet padded (bytes s)) as ->.
  { unfold strip_newlines. pose proof (b64_encode_chars padded (bytes s) (bytes_bound s)) as Hall.
    induction Hall as [|c l Hc Hall IH]; [done|]. rewrite filter_cons_True, IH; [done|].
    destruct Hc as [->|(i & Hi & ->)]; [done|]. split; apply alphabet_char; done. }
  rewrite b64_roundtrip by apply bytes_bound. cbn. by rewrite of_bytes_bytes.
Qed.

End RoundTrip.
