(* ===== verification/Security.v ===== *)
(** * Credentials, signatures and secrets ([internal/security/security.go])

    Hashes and encodings are those of [GoHash.v] and [GoEncoding.v]. Ed25519,
    Argon2 and AES-GCM are parameters, with the documented laws the code relies
    on; random bytes are arguments. *)
From S2P Require Import Prelude GoStrings GoJson GoHash GoEncoding Domain.
From Stdlib Require Import Ascii.
Open Scope string_scope.
Open Scope list_scope.

(** ** Parameters *)

(** [crypto/ed25519]: [paired] is what [GenerateKey] returns. *)
Class Ed25519 := {
  PublicKey : Type;
  PrivateKey : Type;
  ed_sign : PrivateKey -> string -> string;
  ed_verify : PublicKey -> string -> string -> bool;
  paired : PublicKey -> PrivateKey -> Prop;
  ed_sign_verify : forall pub priv m, paired pub priv -> ed_verify pub m (ed_sign priv m) = true }.

(** [argon2.IDKey(password, salt, 3, 64*1024, 2, 32)]. *)
Class Argon2 := argon2_IDKey : string -> string -> string.

(** AES-256-GCM under a key of 32 bytes: key, nonce, text, associated data. *)
Class AesGcm := {
  gcm_seal : string -> string -> string -> string -> string;
  gcm_open : string -> string -> string -> string -> option string;
  gcm_open_seal : forall key nonce text aad, gcm_open key nonce (gcm_seal key nonce text aad) aad = Some text }.

(** [rand.Read]: the bytes asked for, or an error. *)
Abbreviation random := (result string string) (only parsing).

(** ** Passwords *)

Section Passwords.
Context `{Argon2}.

Definition hash_prefix : string := "$argon2id$v=19$m=65536,t=3,p=2$".

(** [salt] are the 16 bytes [rand.Read] fills in. *)
Definition HashPassword (salt : random) (password : string) : result string string :=
  if (len password <? 12)%Z then Err "password must contain at least 12 characters" else
  salt ← salt;
  Ok (hash_prefix +:+ raw_std_encode salt +:+ "$" +:+ raw_std_encode (argon2_IDKey password salt)).

Definition VerifyPassword (encoded password : string) : bool :=
  match split_on "$" encoded with
  | [_; _; _; _; p4; p5] =>
      match raw_std_decode p4, raw_std_decode p5 with
      | Some salt, Some expected => bool_decide (argon2_IDKey password salt = expected)
      | _, _ => false
      end
  | _ => false
  end.

End Passwords.

(** ** Encrypted secrets *)

Record SecretEnvelope := { Ciphertext : string; Nonce : string; KeyVersion : Z; Metadata : option (gmap string string) }.
Record SecretStore := { ss_key : string; ss_version : Z }.

Definition NewSecretStore (key : string) (version : Z) : result string SecretStore :=
  if negb (len key =? 32)%Z then Err "AES-256-GCM requires exactly 32 key bytes"
  else Ok {| ss_key := key; ss_version := version |}.

(** An error returned, or a panic of the cipher. *)
Inductive secret_error := SecretErr (e : string) | SecretPanic (e : string).

Section Secrets.
Context `{AesGcm}.

(** [nonce] are the 12 bytes [rand.Read] fills in. *)
Definition Encrypt (s : SecretStore) (nonce : random) (plaintext : string) (metadata : option (gmap string string))
    : result string SecretEnvelope :=
  n ← nonce;
  let c := gcm_seal (ss_key s) n plaintext (format_int (ss_version s)) in
  Ok {| Ciphertext := std_encode c; Nonce := std_encode n; KeyVersion := ss_version s; Metadata := metadata |}.

(** [Open] panics on a nonce that is not 12 bytes long. *)
Definition Decrypt (s : SecretStore) (e : SecretEnvelope) : result secret_error string :=
  if negb (KeyVersion e =? ss_version s)%Z then Err (SecretErr "unsupported key version") else
  match std_decode (Ciphertext e), std_decode (Nonce e) with
  | Some c, Some n =>
      if negb (len n =? 12)%Z then Err (SecretPanic "crypto/cipher: incorrect nonce length given to GCM") else
      match gcm_open (ss_key s) n c (format_int (ss_version s)) with
      | Some text => Ok text
      | None => Err (SecretErr "cipher: message authentication failed")
      end
  | _, _ => Err (SecretErr "invalid envelope encoding")
  end.

End Secrets.

(** ** Snapshot signatures *)

Definition json_error : string := "json: error calling MarshalJSON for type time.Time".

Definition signing_bytes (s : SnapshotEnvelope) : result string string :=
  match SigningBytes s with Some b => Ok b | None => Err json_error end.

Section Snapshots.
Context `{Ed25519}.

Definition SignSnapshot (s : SnapshotEnvelope) (key : PrivateKey) : result string SnapshotEnvelope :=
  let s := with_content_hash (with_signature (with_algorithm s "Ed25519") "") "" in
  b ← signing_bytes s;
  let s := with_content_hash s (hex_encode (sha256 b)) in
  b ← signing_bytes s;
  Ok (with_signature s (std_encode (ed_sign key b))).

Definition VerifySnapshot (s : SnapshotEnvelope) (key : PublicKey) : result string unit :=
  if negb (bool_decide (s_algorithm s = "Ed25519")) then Err "unsupported signature algorithm" else
  match std_decode (s_signature s) with
  | None => Err "invalid signature encoding"
  | Some sig =>
      b ← signing_bytes s;
      if negb (ed_verify key b sig) then Err "invalid snapshot signature" else
      hash_bytes ← signing_bytes (with_content_hash (with_signature s "") "");
      if negb (bool_decide (s_content_hash s = hex_encode (sha256 hash_bytes)))
      then Err "invalid snapshot content hash" else Ok tt
  end.

End Snapshots.

(** ** Tokens *)

Definition TokenHash (token : string) : string := hex_encode (sha256 token).
Definition KeyedTokenHash (secret token : string) : string := hex_encode (hmac_sha256 secret token).
Definition RandomToken (raw : random) : result string string := b ← raw; Ok (raw_url_encode b).

Definition AuditHash (previous payload : string) : string :=
  hex_encode (sha256 (previous +:+ String (ascii_of_N 0) payload)).

(** ** One-time passwords *)

(** Seconds since 1970 of a time; the year 1 begins 62135596800 before. *)
Definition unix (t : gotime) : Z := (t / nano - 62135596800)%Z.

(** [uint64(now.Unix()/30) + uint64(d)]. *)
Definition totp_counter (now : gotime) (d : Z) : Z := wrap_u64 (Z.quot (unix now) 30 + d).

(** Lines 171-181: the code of one counter, if the truncated hash has it. *)
Definition totp_code (raw : string) (counter : Z) : option string :=
  let sum := bytes (hmac_sha1 raw (of_bytes (be_bytes 8 (Z.to_N counter)))) in
  let off := N.land (default 0%N (last sum)) 15 in
  if (length sum <? N.to_nat off + 4)%nat then None else
  match take 4 (drop (N.to_nat off) sum) with
  | [a; b; c; d] =>
      let num := N.land (be_word a b c d) 0x7fffffff in
      Some (pad_zero 6 (format_int (Z.of_N num mod 1000000)))
  | _ => None
  end.

Definition remove_spaces (s : string) : string :=
  String.string_of_list_ascii (filter (fun c => c <> " "%char) (String.list_ascii_of_string s)).

(** The key bytes of a shared secret. *)
Definition totp_secret (secret : string) : option string := base32_decode (to_upper (remove_spaces secret)).

Definition VerifyTOTP (secret code : string) (now : gotime) : bool :=
  match totp_secret secret with
  | None => false
  | Some raw => existsb (fun d => bool_decide (totp_code raw (totp_counter now d) = Some code)) [-1; 0; 1]%Z
  end.
