(* ===== verification/SecurityFacts.v ===== *)
(** * What signatures, passwords, secrets and one-time codes guarantee *)
From S2P Require Import Prelude GoStrings GoJson GoHash GoEncoding Domain Security.
From Stdlib Require Import Ascii.
Open Scope string_scope.
Open Scope list_scope.

(** ** Splitting *)

Lemma split_on_next c s t : free_of c s -> split_on c (s +:+ String c t) = s :: split_on c t.
Proof. intros Hs. by rewrite split_on_app, split_on_free. Qed.

(** An encoding holds alphabet characters only. *)
Lemma raw_std_encode_free c s : index_of c std_alphabet = None -> c <> "="%char -> free_of c (raw_std_encode s).
Proof.
  intros Hc Hp. unfold free_of, raw_std_encode, base64_encode.
  rewrite String.list_ascii_of_string_of_list_ascii. intros Hin.
  pose proof (b64_encode_chars std_alphabet false (bytes s) (bytes_bound s)) as Hall.
  rewrite Forall_forall in Hall. destruct (Hall c Hin) as [->|(i & Hi & ->)]; [done|].
  by rewrite (alphabet_index std_alphabet std_alphabet_good i Hi) in Hc.
Qed.

Lemma raw_std_roundtrip s : raw_std_decode (raw_std_encode s) = Some s.
Proof. apply base64_roundtrip, std_alphabet_good. Qed.
Lemma std_roundtrip s : std_decode (std_encode s) = Some s.
Proof. apply base64_roundtrip, std_alphabet_good. Qed.

(** ** Passwords *)

(** A stored password hash verifies the password it was made from, and
    exactly the passwords that Argon2 cannot tell from it under its salt;
    passwords of fewer than twelve bytes are refused. *)
Theorem password_hash_verifies `{Argon2} salt password encoded
    (Hok : HashPassword salt password = Ok encoded) :
  (12 <= len password)%Z /\
  exists s, salt = Ok s /\
  forall other, VerifyPassword encoded other = bool_decide (argon2_IDKey other s = argon2_IDKey password s).
Proof.
  unfold HashPassword in Hok. destruct (_ <? _)%Z eqn:E; [done|]. split; [lia|].
  apply bind_ok in Hok as (s & -> & [= <-]). exists s. split; [done|]. intros other.
  unfold VerifyPassword, hash_prefix.
  set (a := raw_std_encode s). set (b := raw_std_encode (argon2_IDKey password s)).
  change ("$argon2id$v=19$m=65536,t=3,p=2$" +:+ a +:+ "$" +:+ b)
    with ("" +:+ String "$" ("argon2id" +:+ String "$" ("v=19" +:+ String "$" ("m=65536,t=3,p=2" +:+ String "$" (a +:+ String "$" b))))).
  rewrite !split_on_next by (unfold free_of; (by apply raw_std_encode_free) || apply (bool_decide_unpack _); vm_compute; done).
  rewrite split_on_free by (by apply raw_std_encode_free).
  unfold a, b. by rewrite !raw_std_roundtrip.
Qed.

(** A stand-in for Argon2, to run the model. *)
Definition toy_argon2 : Argon2 := fun password salt => hmac_sha256 salt password.

Lemma password_hash_verifies_witness :
  exists encoded, @HashPassword toy_argon2 (Ok "0123456789abcdef") "correct horse battery" = Ok encoded /\
    @VerifyPassword toy_argon2 encoded "correct horse battery" = true /\
    @VerifyPassword toy_argon2 encoded "wrong horse battery" = false.
Proof.
  eexists. split; [vm_compute; reflexivity|].
  destruct (@password_hash_verifies toy_argon2 (Ok "0123456789abcdef") "correct horse battery" _
    (ltac:(vm_compute; reflexivity))) as (_ & s & [= <-] & Hv).
  rewrite !Hv. split; vm_compute; reflexivity.
Defined.

(** ** Secrets *)

(** A secret is recovered by the store that encrypted it: with the 12
    random bytes of the cipher's nonce, decrypting the envelope gives the
    plaintext back; an envelope of another key version is refused. *)
Theorem secret_roundtrip `{AesGcm} s n plaintext metadata e
    (Hn : len n = 12%Z) (Hok : Encrypt s (Ok n) plaintext metadata = Ok e) :
  Decrypt s e = Ok plaintext /\
  forall version, version <> ss_version s ->
    Decrypt {| ss_key := ss_key s; ss_version := version |} e = Err (SecretErr "unsupported key version").
Proof.
  unfold Encrypt in Hok. cbn in Hok. injection Hok as <-. unfold Decrypt. cbn [KeyVersion Ciphertext Nonce ss_version ss_key].
  split.
  - rewrite Z.eqb_refl, !std_roundtrip, Hn. cbn [negb Z.eqb Pos.eqb]. by rewrite gcm_open_seal.
  - intros version Hne. by rewrite (proj2 (Z.eqb_neq _ _)) by congruence.
Qed.

(** A stand-in for AES-GCM, to run the model. *)
Definition toy_gcm : AesGcm.
Proof.
  refine {| gcm_seal := fun key nonce text aad => text;
            gcm_open := fun key nonce text aad => Some text |}. done.
Defined.

Lemma secret_roundtrip_witness :
  let s := {| ss_key := "0123456789abcdef0123456789abcdef"; ss_version := 1 |} in
  exists e, @Encrypt toy_gcm s (Ok "nonce-nonce-") "JBSWY3DPEHPK3PXP" None = Ok e /\
    @Decrypt toy_gcm s e = Ok "JBSWY3DPEHPK3PXP".
Proof.
  intros s. eexists. split; [vm_compute; reflexivity|].
  by destruct (@secret_roundtrip toy_gcm s "nonce-nonce-" "JBSWY3DPEHPK3PXP" None _
    (ltac:(vm_compute; reflexivity)) (ltac:(vm_compute; reflexivity))).
Defined.

(** A stored envelope whose nonce decodes to another length makes
    [Decrypt] panic instead of returning an error. *)
Theorem Decrypt_panics_on_nonce_length `{AesGcm} s ciphertext nonce c n metadata
    (Hc : std_decode ciphertext = Some c) (Hn : std_decode nonce = Some n) (Hlen : len n <> 12%Z) :
  Decrypt s {| Ciphertext := ciphertext; Nonce := nonce; KeyVersion := ss_version s; Metadata := metadata |} =
  Err (SecretPanic "crypto/cipher: incorrect nonce length given to GCM").
Proof.
  unfold Decrypt. cbn [KeyVersion Ciphertext Nonce]. rewrite Z.eqb_refl, Hc, Hn.
  by rewrite (proj2 (Z.eqb_neq _ _)).
Qed.

Lemma Decrypt_panics_on_nonce_length_witness :
  std_decode "" = Some "" /\
  @Decrypt toy_gcm {| ss_key := ""; ss_version := 1 |} {| Ciphertext := ""; Nonce := ""; KeyVersion := 1; Metadata := None |} =
  Err (SecretPanic "crypto/cipher: incorrect nonce length given to GCM").
Proof.
  split; [reflexivity|].
  apply (@Decrypt_panics_on_nonce_length toy_gcm {| ss_key := ""; ss_version := 1 |} "" "" "" "" None);
    [reflexivity|reflexivity|done].
Defined.

(** ** Snapshot signatures *)

Lemma signing_bytes_signature s v : signing_bytes (with_signature s v) = signing_bytes s.
Proof. done. Qed.

(** Whether a snapshot can be marshalled does not depend on its hash. *)
Lemma signing_total s v : is_Some (SigningBytes s) -> is_Some (SigningBytes (with_content_hash s v)).
Proof.
  destruct s as [f1 f2 f3 f4 f5 f6 f7 started completed f10 assets relationships warnings f14 f15 f16 f17].
  unfold SigningBytes, marshal_envelope, with_content_hash, with_signature.
  cbn [s_protocol s_id s_org s_collector s_connector s_connector_type s_connector_version s_started s_completed
    s_sequence s_assets s_relationships s_warnings s_statistics s_content_hash s_algorithm s_signature].
  destruct (marshal_time started); [|by intros [? [=]]]. cbn [mbind option_bind].
  destruct (marshal_time completed); [|by intros [? [=]]]. cbn [mbind option_bind].
  destruct (marshal_slice marshal_observation assets); [|by intros [? [=]]]. cbn [mbind option_bind].
  destruct (marshal_slice marshal_relationship_observation relationships); [|by intros [? [=]]]. cbn [mbind option_bind].
  destruct (marshal_slice _ warnings); [|by intros [? [=]]]. cbn [mbind option_bind].
  intros _. by eexists.
Qed.

(** A signed envelope verifies under the public key of the pair. *)
Lemma SignSnapshot_verifies `{Ed25519} s s' pub priv : paired pub priv -> SignSnapshot s priv = Ok s' -> VerifySnapshot s' pub = Ok tt.
Proof.
  intros Hpair. unfold SignSnapshot. set (s0 := with_content_hash (with_signature (with_algorithm s "Ed25519") "") "").
  destruct (signing_bytes s0) as [b|] eqn:E0; [cbn [mbind result_bind]|done].
  set (s1 := with_content_hash s0 (hex_encode (sha256 b))). destruct (signing_bytes s1) as [b1|] eqn:E1; [cbn [mbind result_bind]|done].
  intros [= <-]. unfold VerifySnapshot. set (sig := ed_sign priv b1).
  change (s_algorithm (with_signature s1 (std_encode sig))) with "Ed25519". rewrite bool_decide_true by done. cbn [negb].
  change (s_signature (with_signature s1 (std_encode sig))) with (std_encode sig). rewrite std_roundtrip.
  rewrite signing_bytes_signature, E1. cbn [mbind result_bind]. unfold sig. rewrite ed_sign_verify by done. cbn [negb].
  change (with_content_hash (with_signature (with_signature s1 _) "") "") with s0. rewrite E0.
  cbn [mbind result_bind]. by rewrite bool_decide_true.
Qed.

(** A signed snapshot verifies: whatever the snapshot's content, the
    envelope that [SignSnapshot] returns is accepted under the public key of
    the pair, and it is the same snapshot but for the three signature fields;
    signing succeeds exactly when the content can be marshalled. *)
Theorem sign_then_verify `{Ed25519} s pub priv (Hpair : paired pub priv) :
  match SignSnapshot s priv with
  | Ok s' => VerifySnapshot s' pub = Ok tt /\
      with_signature (with_content_hash (with_algorithm s' (s_algorithm s)) (s_content_hash s)) (s_signature s) = s
  | Err e => e = json_error /\ SigningBytes (with_content_hash (with_algorithm s "Ed25519") "") = None
  end.
Proof.
  destruct (SignSnapshot s priv) as [s'|e] eqn:E.
  - split; [by eapply SignSnapshot_verifies|]. unfold SignSnapshot in E. destruct (signing_bytes _) as [b|]; [cbn [mbind result_bind] in E|done].
    destruct (signing_bytes _) as [b1|]; [|done]. injection E as <-. by destruct s.
  - unfold SignSnapshot in E. set (s0 := with_content_hash (with_signature (with_algorithm s "Ed25519") "") "") in E.
    assert (SigningBytes s0 = SigningBytes (with_content_hash (with_algorithm s "Ed25519") "")) as <- by done.
    unfold signing_bytes in E. destruct (SigningBytes s0) as [b|] eqn:E0; cbn [mbind result_bind] in E; [|split; congruence].
    destruct (signing_total s0 (hex_encode (sha256 b)) ltac:(by eexists)) as [b1 E1]. by rewrite E1 in E.
Qed.

(** A stand-in for Ed25519, to run the model. *)
Definition toy_ed25519 : Ed25519.
Proof.
  refine {| PublicKey := string; PrivateKey := string; ed_sign := hmac_sha256;
            ed_verify := fun k m sig => bool_decide (sig = hmac_sha256 k m); paired := eq |}.
  intros pub priv m ->. by apply bool_decide_true.
Defined.

Definition unsigned_snapshot : SnapshotEnvelope :=
  {| s_protocol := "1.0"; s_id := "snap-1"; s_org := "org"; s_collector := "collector"; s_connector := "docker";
     s_connector_type := "DOCKER"; s_connector_version := "1"; s_started := 63000000000000000000;
     s_completed := 63000000001000000000; s_sequence := 7; s_assets := Some []; s_relationships := Some [];
     s_warnings := Some []; s_statistics := Some {["assets" := 0%Z]}; s_content_hash := "stale";
     s_algorithm := ""; s_signature := "stale" |}.

Lemma sign_then_verify_witness :
  @paired toy_ed25519 "key" "key" /\
  exists s', @SignSnapshot toy_ed25519 unsigned_snapshot "key" = Ok s' /\ @VerifySnapshot toy_ed25519 s' "key" = Ok tt.
Proof.
  split; [done|].
  pose proof (@sign_then_verify toy_ed25519 unsigned_snapshot "key" "key" eq_refl) as Hsv.
  assert (exists s', @SignSnapshot toy_ed25519 unsigned_snapshot "key" = Ok s') as [s' E]
    by (eexists; vm_compute; reflexivity).
  exists s'. rewrite E in Hsv. split; [exact E|apply Hsv].
Defined.

Lemma hex_digit_inj m n : (m < 16)%N -> (n < 16)%N -> hex_digit m = hex_digit n -> m = n.
Proof.
  intros Hm Hn. unfold hex_digit. intros E%(f_equal N_of_ascii).
  rewrite !N_ascii_embedding in E by (repeat case_match; lia).
  destruct (m <? 10)%N eqn:E1, (n <? 10)%N eqn:E2; try apply N.ltb_lt in E1; try apply N.ltb_lt in E2;
    try apply N.ltb_ge in E1; try apply N.ltb_ge in E2; lia.
Qed.

Lemma hex_encode_inj : Inj (=) (=) hex_encode.
Proof.
  assert (forall l1 l2 : list ascii,
    (b ← l1; [hex_digit (byte_of b / 16)%N; hex_digit (byte_of b mod 16)%N]) =
    (b ← l2; [hex_digit (byte_of b / 16)%N; hex_digit (byte_of b mod 16)%N]) -> l1 = l2) as Hl.
  { induction l1 as [|x l1 IH]; intros [|y l2] E; try done. cbn in E. injection E as E1 E2 E3.
    f_equal; [|by apply IH].
    pose proof (byte_of_bound x). pose proof (byte_of_bound y).
    apply hex_digit_inj in E1; [|solve_div..]. apply hex_digit_inj in E2; [|solve_div..].
    apply byte_of_inj. solve_div. }
  intros s t E. unfold hex_encode in E. apply (f_equal String.list_ascii_of_string) in E.
  rewrite !String.list_ascii_of_string_of_list_ascii in E. apply Hl in E.
  rewrite <- (String.string_of_list_ascii_of_string s), <- (String.string_of_list_ascii_of_string t). by f_equal.
Qed.

Lemma VerifySnapshot_accepted `{Ed25519} s pub : VerifySnapshot s pub = Ok tt ->
  exists sig b h, std_decode (s_signature s) = Some sig /\ SigningBytes s = Some b /\ ed_verify pub b sig = true /\
    SigningBytes (with_content_hash s "") = Some h /\ s_content_hash s = hex_encode (sha256 h).
Proof.
  unfold VerifySnapshot. case_bool_decide; cbn [negb]; [|done].
  destruct (std_decode (s_signature s)) as [sig|]; [|done].
  change (signing_bytes (with_content_hash (with_signature s "") "")) with (signing_bytes (with_content_hash s "")).
  unfold signing_bytes.
  destruct (SigningBytes s) as [b|]; cbn [mbind result_bind]; [|done].
  destruct (ed_verify pub b sig) eqn:Ev; cbn [negb]; [|done].
  destruct (SigningBytes (with_content_hash s "")) as [h|]; cbn [mbind result_bind]; [|done].
  case_bool_decide; cbn [negb]; [|done]. intros _. eauto 10.
Qed.

(** What an accepted snapshot is bound to: the key's signature over its
    bytes, content hash included; and two accepted snapshots that claim one
    content hash, whoever signed them, have the same content to the byte,
    unless SHA-256 collides on their contents. *)
Theorem accepted_snapshots_bound `{Ed25519} s s' pub pub'
    (Hs : VerifySnapshot s pub = Ok tt) (Hs' : VerifySnapshot s' pub' = Ok tt) :
  (exists sig b, std_decode (s_signature s) = Some sig /\ SigningBytes s = Some b /\ ed_verify pub b sig = true) /\
  (s_content_hash s = s_content_hash s' ->
   SigningBytes (with_content_hash s "") = SigningBytes (with_content_hash s' "") \/
   exists x y, x <> y /\ sha256 x = sha256 y /\
     SigningBytes (with_content_hash s "") = Some x /\ SigningBytes (with_content_hash s' "") = Some y).
Proof.
  apply VerifySnapshot_accepted in Hs as (sig & b & h & H1 & H2 & H3 & H4 & H5).
  apply VerifySnapshot_accepted in Hs' as (sig' & b' & h' & _ & _ & _ & H4' & H5').
  split; [eauto|]. intros Heq. rewrite H5, H5' in Heq. apply hex_encode_inj in Heq.
  destruct (decide (h = h')) as [->|Hne]; [left; congruence|]. right. exists h, h'. by split_and!.
Qed.

Definition signed_snapshot : SnapshotEnvelope :=
  match @SignSnapshot toy_ed25519 unsigned_snapshot "key" with Ok s => s | Err _ => unsigned_snapshot end.

Lemma accepted_snapshots_bound_witness :
  @VerifySnapshot toy_ed25519 signed_snapshot "key" = Ok tt /\
  exists sig b, std_decode (s_signature signed_snapshot) = Some sig /\ SigningBytes signed_snapshot = Some b /\
    @ed_verify toy_ed25519 "key" b sig = true.
Proof.
  assert (@VerifySnapshot toy_ed25519 signed_snapshot "key" = Ok tt) as Hv by (vm_compute; reflexivity).
  split; [exact Hv|].
  exact (proj1 (@accepted_snapshots_bound toy_ed25519 signed_snapshot signed_snapshot "key" "key" Hv Hv)).
Defined.

(** ** One-time codes *)

Lemma be_bytes_length n x : length (be_bytes n x) = n.
Proof. revert x. induction n as [|n IH]; intros x; cbn; [done|]. rewrite length_app, IH. cbn. lia. Qed.

Lemma sha1_length l : length (sha1_bytes l) = 20%nat.
Proof.
  unfold sha1_bytes. destruct (foldl _ _ _) as [a b c d e]. cbn [fmap list_fmap mjoin list_join].
  by rewrite !length_app, !be_bytes_length.
Qed.

Lemma length_bytes_of l : length (bytes (of_bytes l)) = length l.
Proof.
  unfold bytes, of_bytes. by rewrite length_fmap, String.list_ascii_of_string_of_list_ascii, length_fmap.
Qed.

(** The truncated hash always holds a code: the guard of line 177 is dead. *)
Lemma totp_code_total raw counter : is_Some (totp_code raw counter).
Proof.
  unfold totp_code. set (sum := bytes _).
  assert (length sum = 20%nat) as Hlen.
  { unfold sum, hmac_sha1. rewrite length_bytes_of. apply sha1_length. }
  set (off := N.land _ 15).
  assert (off < 16)%N as Hoff.
  { unfold off. change 15%N with (N.ones 4). rewrite N.land_ones. apply N.mod_lt. done. }
  rewrite (proj2 (Nat.ltb_ge _ _)) by lia.
  assert (length (take 4 (drop (N.to_nat off) sum)) = 4%nat) as Ht by (rewrite length_take, length_drop; lia).
  destruct (take 4 _) as [|a [|b [|c [|d [|e l]]]]]; done.
Qed.

(** The 30-second step of a time, and the code of a secret at a time. *)
Definition totp_step (t : gotime) : Z := Z.quot (unix t) 30.
Definition code_at (secret : string) (t : gotime) : option string :=
  raw ← totp_secret secret; totp_code raw (totp_counter t 0).

Lemma step_time step : exists t, totp_step t = step.
Proof.
  exists ((step * 30 + 62135596800) * nano)%Z. unfold totp_step, unix.
  rewrite Z.div_mul by done. replace (step * 30 + 62135596800 - 62135596800)%Z with (step * 30)%Z by lia.
  by apply Z.quot_mul.
Qed.

(** One-time codes live for three steps: a secret that decodes has a code
    at every time, and a code is accepted at [now] exactly when it is the
    secret's code of a time whose 30-second step is that of [now], the one
    before or the one after. *)
Theorem VerifyTOTP_window secret code now :
  (is_Some (totp_secret secret) -> is_Some (code_at secret now)) /\
  (VerifyTOTP secret code now = true <->
   exists t, (Z.abs (totp_step t - totp_step now) <= 1)%Z /\ code_at secret t = Some code).
Proof.
  unfold code_at, VerifyTOTP. destruct (totp_secret secret) as [raw|]; cbn [mbind option_bind].
  2: { split; [done|]. split; [done|]. by intros (t & _ & ?). }
  split; [intros _; apply totp_code_total|].
  rewrite existsb_exists. setoid_rewrite bool_decide_eq_true.
  assert (forall t d, totp_step t = (totp_step now + d)%Z -> totp_counter t 0 = totp_counter now d) as Hc.
  { intros t d Ht. unfold totp_counter. fold (totp_step t) (totp_step now). f_equal. lia. }
  split.
  - intros (d & Hd & Hcode). destruct (step_time (totp_step now + d)) as [t Ht].
    exists t. rewrite (Hc t d Ht). split; [|done]. cbn in Hd. lia.
  - intros (t & Ht & Hcode). exists (totp_step t - totp_step now)%Z. split; [cbn; lia|].
    rewrite <- Hcode. f_equal. symmetry. apply Hc. lia.
Qed.

(** RFC 6238: the secret of the standard's SHA-1 vectors, 59 seconds after the
    epoch; the code is still accepted at 89 seconds, and not at 90. *)
Definition seconds_after_epoch (n : Z) : gotime := ((62135596800 + n) * nano)%Z.
Example totp_rfc6238 :
  code_at "GEZDGNBVGY3TQOJQGEZDGNBVGY3TQOJQ" (seconds_after_epoch 59) = Some "287082" /\
  VerifyTOTP "GEZD GNBV gy3t qojq GEZDGNBVGY3TQOJQ" "287082" (seconds_after_epoch 89) = true /\
  VerifyTOTP "GEZDGNBVGY3TQOJQGEZDGNBVGY3TQOJQ" "287082" (seconds_after_epoch 90) = false.
Proof. vm_compute. done. Qed.
