(* ===== verification/AuditChain.v ===== *)
(** * The audit chain ([internal/audit/audit.go])

    [Append] adds a row to [audit_events] under a per-organization lock;
    [Verify] recomputes the hashes of a list of events. *)
From S2P Require Import Prelude GoStrings GoJson GoHash GoEncoding Security SecurityFacts.
From Stdlib Require Import Ascii.
Open Scope string_scope.
Open Scope list_scope.

Record Event := {
  ev_id : string; ev_org : string; ev_actor : string; ev_action : string; ev_rtype : string;
  ev_rid : string; ev_request : string; ev_payload : option (gmap string json);
  ev_at : gotime; ev_prev : string; ev_hash : string }.

(** The canonical form: the JSON object of the event's fields, keys in order. *)
Definition canonical (e : Event) : string :=
  json_object [("action", json_string (ev_action e)); ("actorId", json_string (ev_actor e));
    ("id", json_string (ev_id e)); ("occurredAt", json_string (rfc3339nano (ev_at e)));
    ("organizationId", json_string (ev_org e)); ("payload", marshal_map (ev_payload e));
    ("requestId", json_string (ev_request e)); ("resourceId", json_string (ev_rid e));
    ("resourceType", json_string (ev_rtype e))].

(** ** Verification *)

(** One iteration of [Verify]; [previous] is the loop variable. *)
Definition verify_event (previous : string) (e : Event) : option string :=
  if negb (bool_decide (ev_prev e = previous)) || negb (bool_decide (ev_hash e = AuditHash previous (canonical e)))
  then None else Some (ev_hash e).

Fixpoint verify_from (previous : string) (events : list Event) : bool :=
  match events with
  | [] => true
  | e :: events' => match verify_event previous e with None => false | Some h => verify_from h events' end
  end.

Definition Verify (events : list Event) : bool := verify_from "" events.

(** ** Appending *)

(** The database: the rows of [audit_events], how the [timestamptz] column
    keeps a time, and the collation's order of identifiers. *)
Class AuditStore := {
  stored_time : gotime -> gotime;
  id_after : string -> string -> bool }.

Section Append.
Context `{AuditStore}.

(** [ORDER BY occurred_at DESC, id DESC]: [x] comes before [y]. *)
Definition later (x y : Event) : bool :=
  (ev_at y <? ev_at x)%Z || ((ev_at x =? ev_at y)%Z && id_after (ev_id x) (ev_id y)).

(** [LIMIT 1]. *)
Fixpoint latest (rows : list Event) : option Event :=
  match rows with
  | [] => None
  | x :: rows' => match latest rows' with None => Some x | Some y => Some (if later x y then x else y) end
  end.

Definition previous_hash (rows : list Event) (org : string) : string :=
  default "" (ev_hash <$> latest (filter (fun e => ev_org e = org) rows)).

Definition with_time (e : Event) (t : gotime) : Event :=
  {| ev_id := ev_id e; ev_org := ev_org e; ev_actor := ev_actor e; ev_action := ev_action e; ev_rtype := ev_rtype e;
     ev_rid := ev_rid e; ev_request := ev_request e; ev_payload := ev_payload e; ev_at := t;
     ev_prev := ev_prev e; ev_hash := ev_hash e |}.

Definition chained (e : Event) (previous : string) : Event :=
  {| ev_id := ev_id e; ev_org := ev_org e; ev_actor := ev_actor e; ev_action := ev_action e; ev_rtype := ev_rtype e;
     ev_rid := ev_rid e; ev_request := ev_request e; ev_payload := ev_payload e; ev_at := ev_at e;
     ev_prev := previous; ev_hash := AuditHash previous (canonical e) |}.

(** [Append]; [clock] is [time.Now().UTC()]. The row is appended with its time
    as the column keeps it. *)
Definition Append (clock : gotime) (rows : list Event) (e : Event) : result string (list Event) :=
  if bool_decide (ev_org e = "") || bool_decide (ev_action e = "") then Err "organization and action required" else
  let e := if time_is_zero (ev_at e) then with_time e clock else e in
  if bool_decide (ev_id e ∈ ev_id <$> rows) then Err "duplicate key value violates unique constraint" else
  let row := chained e (previous_hash rows (ev_org e)) in
  Ok (rows ++ [with_time row (stored_time (ev_at e))]).

(** A sequence of appends: the clock reading and the event of each. *)
Definition append_all (rows : list Event) (l : list (gotime * Event)) : result string (list Event) :=
  foldM (fun rows te => Append te.1 rows te.2) rows l.

End Append.

(** A column that keeps microseconds, and byte order of identifiers. *)
Definition microseconds : AuditStore :=
  {| stored_time := fun t => (t - t mod 1000)%Z; id_after := fun x y => negb (string_leb x y) |}.

(** ** The chain binds its events *)

Lemma verify_snoc previous l e :
  verify_from previous (l ++ [e]) = true <->
  verify_from previous l = true /\
  ev_prev e = default previous (ev_hash <$> last l) /\
  ev_hash e = AuditHash (ev_prev e) (canonical e).
Proof.
  revert previous. induction l as [|x l IH]; intros previous; cbn [verify_from app].
  - unfold verify_event. repeat case_bool_decide; cbn; naive_solver congruence.
  - destruct (verify_event previous x) as [h|] eqn:E; [|naive_solver].
    rewrite IH. rewrite last_cons. unfold verify_event in E. destruct (_ || _); [done|]. injection E as <-.
    destruct (last l); cbn; done.
Qed.

(** The last hash of a chain. *)
Definition chain_head (l : list Event) : string := default "" (ev_hash <$> last l).

Lemma separator_inj c a b s t : free_of c a -> free_of c b ->
  a +:+ String c s = b +:+ String c t -> a = b /\ s = t.
Proof.
  unfold free_of. revert b. induction a as [|x a IH]; intros [|y b] Ha Hb E.
  - by injection E.
  - change ("" +:+ String c s) with (String c s) in E. rewrite string_app_cons in E. injection E as <- E.
    exfalso. apply Hb. left.
  - change ("" +:+ String c t) with (String c t) in E. rewrite string_app_cons in E. injection E as -> E.
    exfalso. apply Ha. left.
  - rewrite !string_app_cons in E. injection E as -> E. cbn in Ha, Hb.
    apply not_elem_of_cons in Ha as [_ Ha]. apply not_elem_of_cons in Hb as [_ Hb].
    by destruct (IH b Ha Hb E) as [-> ->].
Qed.

Definition nul : ascii := ascii_of_N 0.

Lemma hex_free s : free_of nul (hex_encode s).
Proof.
  unfold free_of, hex_encode. rewrite String.list_ascii_of_string_of_list_ascii.
  assert (forall n, (n < 16)%N -> hex_digit n <> nul) as Hd.
  { intros n Hn E. apply (f_equal N_of_ascii) in E. unfold hex_digit, nul in E.
    rewrite !N_ascii_embedding in E by (repeat case_match; lia). destruct (n <? 10)%N; lia. }
  intros (b & Hin & _)%list_elem_of_bind. pose proof (byte_of_bound b).
  apply elem_of_cons in Hin as [Hin|Hin]; [|apply list_elem_of_singleton in Hin];
    symmetry in Hin; revert Hin; apply Hd; solve_div.
Qed.

(** The link hash of a chain: equal hashes come from equal links, unless
    SHA-256 collides. *)
Lemma AuditHash_inj p p' x x' : free_of nul p -> free_of nul p' -> AuditHash p x = AuditHash p' x' ->
  (p = p' /\ x = x') \/ exists a b, a <> b /\ sha256 a = sha256 b.
Proof.
  unfold AuditHash. intros Hp Hp' E%hex_encode_inj.
  destruct (decide (p +:+ String (ascii_of_N 0) x = p' +:+ String (ascii_of_N 0) x')) as [Heq|Hne].
  - left. by apply (separator_inj nul).
  - right. eauto.
Qed.

Lemma sha256_length l : length (sha256_bytes l) = 32%nat.
Proof.
  unfold sha256_bytes. destruct (foldl _ _ _) as [a b c d e f g h]. cbn [fmap list_fmap mjoin list_join].
  by rewrite !length_app, !be_bytes_length.
Qed.

Lemma AuditHash_nonempty p x : "" <> AuditHash p x.
Proof.
  unfold AuditHash. intros E. change "" with (hex_encode "") in E. apply hex_encode_inj in E.
  apply (f_equal (fun s => length (bytes s))) in E. unfold sha256 in E.
  rewrite length_bytes_of, sha256_length in E. done.
Qed.

Lemma chain_head_free l : Verify l = true -> free_of nul (chain_head l).
Proof.
  unfold Verify, chain_head. destruct l as [|e l _] using rev_ind; intros Hv.
  - apply not_elem_of_nil.
  - apply verify_snoc in Hv as (_ & _ & Hh). rewrite last_snoc. cbn. rewrite Hh. apply hex_free.
Qed.


(** ** Appending in order *)

Section InOrder.
Context `{AuditStore}.

Lemma latest_newest rows x : (forall y, y ∈ rows -> (ev_at y < ev_at x)%Z) -> latest (rows ++ [x]) = Some x.
Proof.
  induction rows as [|y rows IH]; intros Hlt; cbn; [done|].
  rewrite IH by (intros z Hz; apply Hlt; by right).
  unfold later. pose proof (Hlt y ltac:(left)).
  rewrite (proj2 (Z.ltb_ge _ _)), (proj2 (Z.eqb_neq _ _)) by lia. done.
Qed.

(** What an event must be for [Append] to take it as it is. *)
Definition appendable (org : string) (te : gotime * Event) : Prop :=
  ev_org te.2 = org /\ ev_action te.2 <> "" /\ ev_at te.2 <> 0%Z /\ stored_time (ev_at te.2) = ev_at te.2.

Lemma append_in_order org l : org <> "" ->
  Forall (appendable org) l -> NoDup (ev_id <$> l.*2) -> StronglySorted Z.lt (ev_at <$> l.*2) ->
  exists rows, append_all [] l = Ok rows /\ Verify rows = true /\
    ev_id <$> rows = ev_id <$> l.*2 /\ ev_at <$> rows = ev_at <$> l.*2 /\ Forall (fun e => ev_org e = org) rows.
Proof.
  intros Horg. induction l as [|[clock e] l IH] using rev_ind; intros Happ Hid Hsort.
  { exists []. split_and!; try done. }
  rewrite !(fmap_app snd), fmap_app in Hid. rewrite !(fmap_app snd), fmap_app in Hsort. cbn [fmap list_fmap snd] in Hid, Hsort.
  apply Forall_app in Happ as [Happ He]. apply Forall_singleton in He as (Ho & Ha & Ht & Hs). cbn [snd] in *.
  apply NoDup_app in Hid as (Hid & Hnew & _).
  assert (forall t, t ∈ ev_at <$> l.*2 -> (t < ev_at e)%Z) as Hlt.
  { intros t Hin. eapply (StronglySorted_app_1_elem_of Z.lt); [exact Hsort|exact Hin|left]. }
  apply StronglySorted_app_1_l in Hsort.
  destruct (IH Happ Hid Hsort) as (rows & Erows & Hv & Eid & Eat & Horgs).
  exists (rows ++ [with_time (chained e (previous_hash rows org)) (ev_at e)]).
  assert (filter (fun x => ev_org x = org) rows = rows) as Hfilter.
  { clear -Horgs. induction Horgs as [|x rows Hx Horgs IH]; [done|]. by rewrite filter_cons_True, IH. }
  assert (previous_hash rows org = chain_head rows) as Hprev.
  { unfold previous_hash, chain_head. rewrite Hfilter. clear -Eat Hsort.
    destruct rows as [|x rows _] using rev_ind; [done|]. rewrite last_snoc, latest_newest; [done|].
    intros y Hy. rewrite <- Eat, fmap_app in Hsort.
    eapply (StronglySorted_app_1_elem_of Z.lt); [exact Hsort|by apply list_elem_of_fmap_2|left]. }
  split_and!.
  - unfold append_all in *. rewrite foldM_app, Erows. cbn [mbind result_bind foldM fst snd].
    unfold Append. rewrite Ho, !bool_decide_false by done. cbn [orb].
    unfold time_is_zero. rewrite (bool_decide_false (ev_at e = 0%Z)) by done. rewrite bool_decide_false; cycle 1.
    { rewrite Eid. intros Hin. apply (Hnew _ Hin). left. }
    by rewrite Ho, Hs.
  - apply verify_snoc. split_and!; [done| |done]. cbn. rewrite Hprev. done.
  - rewrite (fmap_app snd), !(fmap_app ev_id), Eid. done.
  - rewrite (fmap_app snd), !(fmap_app ev_at), Eat. done.
  - apply Forall_app. split; [done|]. by apply Forall_singleton.
Qed.

End InOrder.

(** C25. Appending keeps the chain verifiable: events of one organization,
    appended one after the other at increasing times that the column keeps
    exactly, are all accepted, stored in order, and verify. *)
Theorem Append_in_order_verifies `{AuditStore} org l (Horg : org <> "")
    (Happ : Forall (appendable org) l) (Hid : NoDup (ev_id <$> l.*2)) (Hsort : StronglySorted Z.lt (ev_at <$> l.*2)) :
  exists rows, append_all [] l = Ok rows /\ Verify rows = true /\ ev_id <$> rows = ev_id <$> l.*2.
Proof. destruct (append_in_order org l Horg Happ Hid Hsort) as (rows & ? & ? & ? & _). eauto. Qed.

Definition sample_event (id : string) (at_ : gotime) : Event :=
  {| ev_id := id; ev_org := "org"; ev_actor := "a"; ev_action := "collector.snapshot.reconciled"; ev_rtype := "source_snapshot";
     ev_rid := "s"; ev_request := "r"; ev_payload := Some {["assets" := JInt 2]}; ev_at := at_; ev_prev := ""; ev_hash := "" |}.

Lemma Append_in_order_verifies_witness :
  exists rows, @append_all microseconds [] [(0%Z, sample_event "1" 1000); (0%Z, sample_event "2" 5000)] = Ok rows /\
    Verify rows = true /\ ev_id <$> rows = ["1"; "2"].
Proof.
  apply (@Append_in_order_verifies microseconds "org" [(0%Z, sample_event "1" 1000); (0%Z, sample_event "2" 5000)]).
  - done.
  - repeat constructor; cbn; done || congruence.
  - apply (bool_decide_unpack _). vm_compute. done.
  - repeat constructor.
Defined.

(** Two appends whose transactions take the lock in another order than they
    read the clock, and the next one. *)
Definition interleaved : list (gotime * Event) :=
  [(0%Z, sample_event "2" 9000); (0%Z, sample_event "3" 5000); (0%Z, sample_event "4" 12000)].

Definition insert_everywhere {A} (x : A) (l : list A) : list (list A) :=
  (fun i => take i l ++ x :: drop i l) <$> seq 0 (S (length l)).
Definition orders {A} (l : list A) : list (list A) := foldr (fun x ls => ls ≫= insert_everywhere x) [[]] l.

Definition rows_of (l : list (gotime * Event)) : list Event :=
  match @append_all microseconds [] l with Ok rows => rows | Err _ => [] end.

(** The chain forks when appends take the lock in another order than they
    read the clock: all three appends succeed, and no order of their rows
    verifies. *)
Theorem Append_out_of_order_forks :
  length (rows_of interleaved) = length interleaved /\
  Forall (fun l => Verify l = false) (orders (rows_of interleaved)).
Proof. split; [vm_compute; reflexivity|]. apply (bool_decide_unpack _). vm_compute. done. Qed.

(** The hash covers nanoseconds the column drops: an event recorded at a
    time that is not a whole number of microseconds does not verify when it is
    read back. *)
Theorem Append_nanoseconds_not_verifiable :
  length (rows_of [(0%Z, sample_event "1" 1001)]) = 1%nat /\ Verify (rows_of [(0%Z, sample_event "1" 1001)]) = false.
Proof. vm_compute. done. Qed.

