(* ===== verification/Scheduler.v ===== *)
(** * Scheduler leases ([internal/scheduler/scheduler.go])

    [Acquire] is one upsert of [scheduler_leases]: it takes the row when there
    is none, when its lease has passed or when the caller owns it. *)
From S2P Require Import Prelude.
Open Scope string_scope.
Open Scope list_scope.

(** A row: who holds the name, and until when. *)
Record LeaseRow := { owner_id : string; leased_until : Z }.
Abbreviation leases := (gmap string LeaseRow) (only parsing).

Record Lease := { owner : string; duration : Z }.
Definition New (owner : string) (duration : Z) : Lease := {| owner := owner; duration := duration |}.

Definition ErrNoRows : string := "no rows in result set".

(** [Acquire] at the database's [now()]: the upsert returns no row when its
    [WHERE] is false, which [Scan] reports as [ErrNoRows]. *)
Definition Acquire (l : Lease) (now : Z) (name : string) (t : leases) : leases * (bool * option string) :=
  let row := {| owner_id := owner l; leased_until := now + duration l |} in
  match t !! name with
  | None => (<[name := row]> t, (true, None))
  | Some r =>
      if ((leased_until r <? now)%Z || bool_decide (owner_id r = owner l))
      then (<[name := row]> t, (true, None)) else (t, (false, Some ErrNoRows))
  end.

(** ** Traces of calls *)

Record Call := { k_lease : Lease; k_now : Z; k_name : string }.

Definition step (t : leases) (k : Call) : leases := (Acquire (k_lease k) (k_now k) (k_name k) t).1.
Definition acquired (t : leases) (k : Call) : bool := (Acquire (k_lease k) (k_now k) (k_name k) t).2.1.

(** The calls of a trace that acquired their lease, in order. *)
Fixpoint holders (t : leases) (l : list Call) : list Call :=
  match l with
  | [] => []
  | k :: l' => (if acquired t k then [k] else []) ++ holders (step t k) l'
  end.

(** The last call that acquired [name]. *)
Definition last_holder (l : list Call) (name : string) : option Call :=
  last (filter (fun k => k_name k = name) (holders ∅ l)).

Definition row_of (k : Call) : LeaseRow :=
  {| owner_id := owner (k_lease k); leased_until := k_now k + duration (k_lease k) |}.

Lemma holders_snoc t l k : holders t (l ++ [k]) = holders t l ++ if acquired (foldl step t l) k then [k] else [].
Proof.
  revert t. induction l as [|x l IH]; intros t; cbn [holders app foldl].
  - by rewrite app_nil_r.
  - by rewrite IH, app_assoc.
Qed.

Lemma step_lookup t k name :
  step t k !! name = if decide (k_name k = name /\ acquired t k = true) then Some (row_of k) else t !! name.
Proof.
  unfold step, acquired, Acquire. destruct (decide (k_name k = name)) as [<-|Hne].
  - destruct (t !! k_name k) as [r|] eqn:E.
    + destruct (_ || _); cbn.
      * by rewrite lookup_insert_eq, decide_True.
      * rewrite decide_False; [done|]. by intros [_ ?].
    + cbn. by rewrite lookup_insert_eq, decide_True.
  - rewrite decide_False by tauto. repeat case_match; cbn; try done; by rewrite lookup_insert_ne.
Qed.

(** The table is what its last holders wrote. *)
Lemma table_spec l name : foldl step ∅ l !! name = row_of <$> last_holder l name.
Proof.
  unfold last_holder. induction l as [|k l IH] using rev_ind; [done|].
  rewrite foldl_app, holders_snoc, filter_app. cbn [foldl]. rewrite step_lookup.
  destruct (acquired _ k) eqn:Ea.
  - destruct (decide (k_name k = name)) as [Hn|Hn].
    + rewrite decide_True by done. rewrite filter_cons_True by done. by rewrite filter_nil, last_snoc.
    + rewrite decide_False by tauto. rewrite filter_cons_False by done. by rewrite filter_nil, app_nil_r.
  - rewrite decide_False by (intros [_ ?]; done). by rewrite filter_nil, app_nil_r.
Qed.

(** C36. Leases exclude each other: in any sequence of calls by any number of
    schedulers, one call acquires a name exactly when nobody has acquired it
    before, the last one that did was the same owner, or that lease had run
    out; otherwise the call changes nothing and reports the missing row as an
    error. *)
Theorem Acquire_mutual_exclusion (l : list Call) (k : Call) :
  let t := foldl step ∅ l in
  (acquired t k = true <->
   match last_holder l (k_name k) with
   | None => True
   | Some h => owner (k_lease h) = owner (k_lease k) \/ (k_now h + duration (k_lease h) < k_now k)%Z
   end) /\
  (acquired t k = false ->
   Acquire (k_lease k) (k_now k) (k_name k) t = (t, (false, Some ErrNoRows))).
Proof.
  intros t. unfold acquired, Acquire. unfold t. rewrite table_spec.
  destruct (last_holder l (k_name k)) as [h|]; cbn [fmap option_fmap option_map row_of leased_until owner_id].
  - destruct (_ || _) eqn:E; cbn.
    + split; [|done]. split; [intros _|done].
      apply orb_true_iff in E as [E%Z.ltb_lt|E%bool_decide_eq_true]; auto.
    + split; [|done]. split; [done|]. apply orb_false_iff in E as [E%Z.ltb_ge E'%bool_decide_eq_false].
      intros [Ho|Hlt]; [done|lia].
  - split; done.
Qed.

(** A scheduler keeps its lease: as long as it renews before others find
    it expired, its own calls always succeed. *)
Theorem Acquire_renews (l : list Call) (k : Call) h
    (Hlast : last_holder l (k_name k) = Some h) (Howner : owner (k_lease h) = owner (k_lease k)) :
  acquired (foldl step ∅ l) k = true /\ last_holder (l ++ [k]) (k_name k) = Some k.
Proof.
  assert (acquired (foldl step ∅ l) k = true) as Ha.
  { unfold acquired, Acquire. rewrite table_spec, Hlast. cbn. rewrite (bool_decide_true (_ = _)) by done.
    by rewrite orb_true_r. }
  split; [done|]. unfold last_holder. rewrite holders_snoc, Ha, filter_app, filter_cons_True, filter_nil by done.
  apply last_snoc.
Qed.

Definition sample_call (who : string) (now : Z) : Call :=
  {| k_lease := New who 30; k_now := now; k_name := "reconcile" |}.

Lemma Acquire_renews_witness :
  acquired (foldl step ∅ [sample_call "a" 0; sample_call "b" 10]) (sample_call "a" 20) = true.
Proof.
  apply (Acquire_renews [sample_call "a" 0; sample_call "b" 10] (sample_call "a" 20) (sample_call "a" 0));
    vm_compute; reflexivity.
Defined.
