(* ===== verification/Migrations.v ===== *)
(** * Database migrations ([internal/database/database.go])

    [Migrate] as the sequence of its calls to the server, each of which may be
    refused or lose the connection, by any number of runners at once on one
    server: the tables the files make, the table of versions, the advisory lock.
    Nothing but runners writes while the lock is held. *)
From S2P Require Import Prelude GoStrings Reconcile.
From Stdlib Require Import Ascii.
Open Scope string_scope.
Open Scope list_scope.

(** ** The files *)

(** [strings.Split(name, "_")[0]]. *)
Definition version (name : string) : string := hd "" (split_on "_"%char name).

Definition not_found (name : string) : string := "open migrations/" +:+ name +:+ ": file does not exist".
Definition no_versions : string := "relation schema_migrations does not exist".
Definition duplicate_version : string := "duplicate key value violates unique constraint schema_migrations_pkey".

Section Migrate.

(** The embedded files by name; the rest of the database, and what executing a
    file's text makes of it. *)
Context {Schema : Type} (migrationFS : gmap string string) (exec : string -> Schema -> result string Schema).

(** The files in the order they are applied. *)
Definition names : list string := sort_strings (filter (fun name => has_suffix name ".up.sql" = true) (map_to_list migrationFS).*1).

Definition ReadFile (name : string) : result string string :=
  match migrationFS !! name with Some sql => Ok sql | None => Err (not_found name) end.

(** ** The server *)

(** [sv_versions] is the table of versions, if there is one; [sv_lock] the
    session that has the lock. *)
Record Server := { sv_schema : Schema; sv_versions : option (gset string); sv_lock : option nat }.

(** What one call meets: it is executed, the server refuses it, or the
    connection is lost before or after it was executed. *)
Inductive call_fault := Fine | Refuses (e : string) | Breaks (executed : bool) (e : string).

(** ** The calls of one runner *)

(** A transaction's own view of the tables. *)
Abbreviation view := (Schema * gset string)%type (only parsing).

Inductive phase :=
| Acquiring
| Locking
| Creating
| Checking (name : string) (rest : list string)
| Beginning (name sql : string) (rest : list string)
| Executing (name sql : string) (rest : list string) (v : view)
| Recording (name : string) (rest : list string) (v : view)
| Committing (name : string) (rest : list string) (v : view)
| RollingBack (e : string)
| Unlocking (e : option string)
| Returned (e : option string).

(** The loop's next file (line 65), and the deferred unlock after the last. *)
Definition loop (rest : list string) : phase := match rest with [] => Unlocking None | name :: rest => Checking name rest end.

Definition unlocked (s : Server) : Server := {| sv_schema := sv_schema s; sv_versions := sv_versions s; sv_lock := None |}.

Definition release (i : nat) (s : Server) : Server := if bool_decide (sv_lock s = Some i) then unlocked s else s.

Definition with_lock (i : nat) (s : Server) : Server := {| sv_schema := sv_schema s; sv_versions := sv_versions s; sv_lock := Some i |}.

Definition with_table (s : Server) : Server :=
  {| sv_schema := sv_schema s; sv_versions := Some (default ∅ (sv_versions s)); sv_lock := sv_lock s |}.

Definition committed (v : view) (s : Server) : Server := {| sv_schema := v.1; sv_versions := Some v.2; sv_lock := sv_lock s |}.

(** The error of a migration. *)
Definition migration_error (name e : string) : string := "migration " +:+ name +:+ ": " +:+ e.

(** The next call of the runner whose session is [i]. A lost connection ends the
    session: its transaction is undone and its lock released. *)
Definition next_call (i : nat) (f : call_fault) (s : Server) (p : phase) : Server * phase :=
  let lost e := Returned (Some e) in
  match p, f with
  | Acquiring, Fine => (s, Locking)
  | Acquiring, (Refuses e | Breaks _ e) => (s, lost e)
  | Locking, Fine => match sv_lock s with None => (with_lock i s, Creating) | Some _ => (s, Locking) end
  | Locking, Refuses e => (s, lost e)
  | Locking, Breaks _ e => (s, lost e)
  | Creating, Fine => (with_table s, loop names)
  | Creating, Refuses e => (s, Unlocking (Some e))
  | Creating, Breaks executed e => (release i (if executed then with_table s else s), lost e)
  | Checking name rest, Fine =>
      match sv_versions s with
      | None => (s, Unlocking (Some no_versions))
      | Some versions =>
          if bool_decide (version name ∈ versions) then (s, loop rest) else
          match ReadFile name with Ok sql => (s, Beginning name sql rest) | Err e => (s, Unlocking (Some e)) end
      end
  | Checking _ _, Refuses e => (s, Unlocking (Some e))
  | Checking _ _, Breaks _ e => (release i s, lost e)
  | Beginning name sql rest, Fine => (s, Executing name sql rest (sv_schema s, default ∅ (sv_versions s)))
  | Beginning _ _ _, Refuses e => (s, Unlocking (Some e))
  | Beginning _ _ _, Breaks _ e => (release i s, lost e)
  | Executing name sql rest v, Fine =>
      match exec sql v.1 with
      | Ok schema => (s, Recording name rest (schema, v.2))
      | Err e => (s, RollingBack (migration_error name e))
      end
  | Executing name _ _ _, Refuses e => (s, RollingBack (migration_error name e))
  | Executing name _ _ _, Breaks _ e => (release i s, lost (migration_error name e))
  | Recording name rest v, Fine =>
      if bool_decide (version name ∈ v.2) then (s, RollingBack (migration_error name duplicate_version))
      else (s, Committing name rest (v.1, {[version name]} ∪ v.2))
  | Recording name _ _, Refuses e => (s, RollingBack (migration_error name e))
  | Recording name _ _, Breaks _ e => (release i s, lost (migration_error name e))
  | Committing name rest v, Fine => (committed v s, loop rest)
  | Committing _ _ _, Refuses e => (s, Unlocking (Some e))
  | Committing _ _ v, Breaks executed e => (release i (if executed then committed v s else s), lost e)
  | RollingBack e, Fine => (s, Unlocking (Some e))
  | RollingBack e, (Refuses _ | Breaks _ _) => (release i s, lost e)
  | Unlocking e, (Fine | Breaks _ _) => (release i s, Returned e)
  | Unlocking e, Refuses _ => (s, Returned e)
  | Returned e, _ => (s, Returned e)
  end.

(** ** Runners at once *)

Record World := { w_server : Server; w_runners : list phase }.

(** A runner's next call, or the end of its process. *)
Inductive event := Turn (i : nat) (f : call_fault) | Kill (i : nat).

Definition killed : phase := Returned (Some "killed").

Definition happens (w : World) (ev : event) : World :=
  match ev with
  | Turn i f =>
      match w_runners w !! i with
      | Some p => let '(s, p') := next_call i f (w_server w) p in {| w_server := s; w_runners := <[i := p']> (w_runners w) |}
      | None => w
      end
  | Kill i => {| w_server := release i (w_server w); w_runners := <[i := killed]> (w_runners w) |}
  end.

Definition migrated (w : World) (l : list event) : World := foldl happens w l.

(** Runners that begin on a server. *)
Definition starting (s : Server) (n : nat) : World := {| w_server := s; w_runners := replicate n Acquiring |}.

(** ** What is applied *)

Definition apply_file (schema : Schema) (name : string) : result string Schema := sql ← ReadFile name; exec sql schema.

Context (base : Schema).

(** The files applied so far, each once and in this order, and recorded. *)
Record applied (done : list string) (s : Server) : Prop := {
  ap_schema : foldM apply_file base done = Ok (sv_schema s);
  ap_versions : default ∅ (sv_versions s) = list_to_set (version <$> done) }.

(** What a runner knows at each of its calls. *)
Definition phase_ok (done : list string) (s : Server) (i : nat) (p : phase) : Prop :=
  match p with
  | Creating => sv_lock s = Some i
  | Checking name rest => sv_lock s = Some i /\ exists before, names = before ++ name :: rest /\ before `prefix_of` done
  | Beginning name sql rest => sv_lock s = Some i /\ names = done ++ name :: rest /\ ReadFile name = Ok sql
  | Executing name sql rest v =>
      sv_lock s = Some i /\ names = done ++ name :: rest /\ ReadFile name = Ok sql /\ v = (sv_schema s, default ∅ (sv_versions s))
  | Recording name rest v =>
      sv_lock s = Some i /\ names = done ++ name :: rest /\ foldM apply_file base (done ++ [name]) = Ok v.1 /\
      v.2 = list_to_set (version <$> done)
  | Committing name rest v =>
      sv_lock s = Some i /\ names = done ++ name :: rest /\ foldM apply_file base (done ++ [name]) = Ok v.1 /\
      v.2 = list_to_set (version <$> done ++ [name])
  | Unlocking None | Returned None => done = names
  | _ => True
  end.

Definition consistent (done0 : list string) (w : World) : Prop := exists done, done0 `prefix_of` done /\ done `prefix_of` names /\ applied done (w_server w) /\
  forall i p, w_runners w !! i = Some p -> phase_ok done (w_server w) i p.

Lemma apply_next done name sql s schema : applied done s -> ReadFile name = Ok sql -> exec sql (sv_schema s) = Ok schema ->
  foldM apply_file base (done ++ [name]) = Ok schema.
Proof. intros [Hs _] Hf He. rewrite foldM_app, Hs. cbn. unfold apply_file. rewrite Hf. cbn. by rewrite He. Qed.

Lemma applied_release done i s : applied done s -> applied done (release i s).
Proof. intros []. unfold release. case_bool_decide; by constructor. Qed.

Lemma applied_table done s : applied done s -> applied done (with_table s).
Proof. intros []. by constructor. Qed.

(** The loop goes on behind what is applied. *)
Lemma loop_ok done s i before rest : done `prefix_of` names -> sv_lock s = Some i -> names = before ++ rest -> before `prefix_of` done ->
  phase_ok done s i (loop rest).
Proof.
  intros Hd Hl Hn Hb. destruct rest as [|name rest]; cbn; [|by split; [|exists before]]. rewrite app_nil_r in Hn. subst before.
  destruct Hd as [l E%(f_equal length)], Hb as [m ->]. rewrite !length_app in E. destruct m; [by rewrite app_nil_r|cbn in E; lia].
Qed.

Context (Hversions : NoDup (version <$> names)).

(** What the check of the versions finds. *)
Lemma version_applied done before name rest : done `prefix_of` names -> names = before ++ name :: rest -> before `prefix_of` done ->
  (version name ∈ (list_to_set (version <$> done) : gset string) /\ (before ++ [name]) `prefix_of` done) \/
  (version name ∉ (list_to_set (version <$> done) : gset string) /\ done = before).
Proof.
  intros [after Hd] Hn [more ->]. rewrite Hn, <- app_assoc in Hd. apply app_inv_head in Hd. destruct more as [|x more].
  - right. rewrite app_nil_r. split; [|done]. rewrite elem_of_list_to_set. rewrite Hn, fmap_app, fmap_cons in Hversions.
    apply NoDup_app in Hversions as (_ & Hdis & _). intros Hin. apply (Hdis _ Hin). by left.
  - left. injection Hd as -> _. split; [|exists more; by rewrite <- app_assoc].
    rewrite elem_of_list_to_set, fmap_app, fmap_cons. set_solver.
Qed.

(** A runner's call keeps what is applied, or adds the next file. *)
Lemma turn_applied done i f s p s' p' : done `prefix_of` names -> applied done s -> phase_ok done s i p -> next_call i f s p = (s', p') ->
  exists done', done `prefix_of` done' /\ done' `prefix_of` names /\ (done' = done \/ sv_lock s = Some i) /\ applied done' s' /\ phase_ok done' s' i p'.
Proof.
  intros Hd Ha Hp Ht.
  assert (forall s' p', applied done s' -> phase_ok done s' i p' ->
    exists done', done `prefix_of` done' /\ done' `prefix_of` names /\ (done' = done \/ sv_lock s = Some i) /\ applied done' s' /\ phase_ok done' s' i p') as Hsame by (intros; exists done; split_and!; by try left).
  destruct p as [| | |name rest|name sql rest|name sql rest v|name rest v|name rest v|e|e|e]; cbn [next_call] in Ht.
  - destruct f; injection Ht as <- <-; by apply Hsame.
  - destruct f; [destruct (sv_lock s)|..]; injection Ht as <- <-; by apply Hsame; [destruct Ha|].
  - destruct f as [|e|[] e]; injection Ht as <- <-; apply Hsame; try done; try (by apply applied_release); try (by apply applied_table).
    + apply (loop_ok done (with_table s) i [] names); [done|exact Hp|done|apply prefix_nil].
    + by apply applied_release, applied_table.
  - destruct Hp as (Hl & before & Hn & Hb). destruct f as [|e|d e]; [|injection Ht as <- <-; by apply Hsame..|injection Ht as <- <-; apply Hsame; [by apply applied_release|done]].
    destruct (sv_versions s) as [vs|] eqn:Ev; [|injection Ht as <- <-; by apply Hsame]. destruct Ha as [Hs Hvs] eqn:Ea. clear Ea.
    rewrite Ev in Hvs. cbn in Hvs. subst vs. destruct (version_applied done before name rest Hd Hn Hb) as [[Hin Hb']|[Hin ->]].
    + rewrite bool_decide_true in Ht by done. injection Ht as <- <-. apply Hsame; [done|].
      apply (loop_ok done s i (before ++ [name])); [done|done|by rewrite <- app_assoc|done].
    + rewrite bool_decide_false in Ht by done. destruct (ReadFile name) eqn:Ef; injection Ht as <- <-; by apply Hsame.
  - destruct Hp as (Hl & Hn & Hf). destruct f; injection Ht as <- <-; apply Hsame; try done. by apply applied_release.
  - destruct Hp as (Hl & Hn & Hf & ->). destruct f; [|injection Ht as <- <-; by apply Hsame|injection Ht as <- <-; apply Hsame; [by apply applied_release|done]].
    cbn [fst snd] in Ht. destruct (exec sql (sv_schema s)) as [schema|e] eqn:Ee; injection Ht as <- <-; apply Hsame; try done.
    cbn. split_and!; [done|done|by eapply apply_next|by destruct Ha].
  - destruct Hp as (Hl & Hn & Hf & Hv). destruct f; [|injection Ht as <- <-; by apply Hsame|injection Ht as <- <-; apply Hsame; [by apply applied_release|done]].
    case_bool_decide; injection Ht as <- <-; apply Hsame; try done. cbn. split_and!; [done|done|done|].
    rewrite Hv, fmap_app, list_to_set_app_L. cbn. set_solver.
  - destruct Hp as (Hl & Hn & Hf & Hv).
    assert ((done ++ [name]) `prefix_of` names) as Hd' by (exists rest; by rewrite <- app_assoc).
    assert (applied (done ++ [name]) (committed v s)) as Ha' by (by constructor).
    assert (forall s' p', applied (done ++ [name]) s' -> phase_ok (done ++ [name]) s' i p' ->
      exists done', done `prefix_of` done' /\ done' `prefix_of` names /\ (done' = done \/ sv_lock s = Some i) /\ applied done' s' /\ phase_ok done' s' i p') as Hnext
      by (intros; exists (done ++ [name]); split_and!; [by apply prefix_app_r|done|by right|done..]).
    destruct f as [|e|[] e]; injection Ht as <- <-.
    + apply Hnext; [done|]. apply (loop_ok _ _ i (done ++ [name])); [done|done|by rewrite <- app_assoc|done].
    + by apply Hsame.
    + apply Hnext; [by apply applied_release|done].
    + apply Hsame; [by apply applied_release|done].
  - destruct f; injection Ht as <- <-; apply Hsame; try done; by apply applied_release.
  - destruct f; injection Ht as <- <-; apply Hsame; try done; by apply applied_release.
  - injection Ht as <- <-. by apply Hsame.
Qed.

(** While another session has the lock, a runner's call changes nothing. *)
Lemma turn_frame done i j f s p s' p' : sv_lock s = Some j -> j <> i -> phase_ok done s i p -> next_call i f s p = (s', p') -> s' = s.
Proof.
  intros Hl Hne Hp Ht.
  assert (release i s = s) as Hr by (unfold release; by rewrite bool_decide_false by congruence).
  assert (sv_lock s = Some i -> False) as Hno by congruence.
  destruct p as [| | |name rest|name sql rest|name sql rest v|name rest v|name rest v|e|e|e]; cbn [next_call phase_ok] in *;
    try (by destruct (Hno Hp)); try (by destruct Hp as [Hp _]; destruct (Hno Hp));
    destruct f; rewrite ?Hl, ?Hr in Ht; by injection Ht as <- <-.
Qed.

(** What a runner without the lock knows does not depend on the server. *)
Lemma phase_ok_free done done' s s' j p : phase_ok done s j p -> sv_lock s <> Some j -> done `prefix_of` done' -> done' `prefix_of` names ->
  phase_ok done' s' j p.
Proof.
  intros Hp Hl Hd Hd'.
  destruct p as [| | |name rest|name sql rest|name sql rest v|name rest v|name rest v|e|[e|]|[e|]]; cbn [phase_ok] in *; try done; try (by destruct Hp).
  all: subst done; by apply (anti_symm prefix).
Qed.

Lemma release_lock i s : sv_lock (release i s) = if bool_decide (sv_lock s = Some i) then None else sv_lock s.
Proof. unfold release. by case_bool_decide. Qed.

Lemma happens_consistent done0 w ev : consistent done0 w -> consistent done0 (happens w ev).
Proof.
  intros (done & H0 & Hd & Ha & Hps). destruct ev as [i f|i]; cbn [happens].
  - destruct (w_runners w !! i) as [p|] eqn:Ep; [|by exists done]. destruct (next_call i f (w_server w) p) as [s' p'] eqn:Et.
    destruct (turn_applied done i f _ p s' p' Hd Ha (Hps i p Ep) Et) as (done' & Hdd & Hd' & Hsame & Ha' & Hp').
    exists done'. split_and!; [by trans done|done|done|]. cbn [w_server w_runners]. intros j q Hq. destruct (decide (j = i)) as [->|Hji].
    { rewrite list_lookup_insert_eq in Hq by (by eapply lookup_lt_Some). by injection Hq as <-. }
    rewrite list_lookup_insert_ne in Hq by done. destruct (decide (sv_lock (w_server w) = Some j)) as [Hl|Hl].
    + rewrite (turn_frame done i j f _ p s' p' Hl Hji (Hps i p Ep) Et). destruct Hsame as [->|Hl']; [by apply Hps|congruence].
    + eapply phase_ok_free; [by apply Hps|done..].
  - exists done. split_and!; [done|done|by apply applied_release|]. cbn [w_server w_runners]. intros j q Hq. destruct (decide (j = i)) as [->|Hji].
    { destruct (decide (i < length (w_runners w))%nat) as [Hlt|Hge].
      - rewrite list_lookup_insert_eq in Hq by done. by injection Hq as <-.
      - rewrite list_insert_ge in Hq by lia. apply lookup_lt_Some in Hq. lia. }
    rewrite list_lookup_insert_ne in Hq by done. destruct (decide (sv_lock (w_server w) = Some j)) as [Hl|Hl].
    + assert (release i (w_server w) = w_server w) as -> by (unfold release; rewrite bool_decide_false; congruence). by apply Hps.
    + eapply phase_ok_free; [by apply Hps|done..].
Qed.

Lemma starting_consistent done s n : done `prefix_of` names -> applied done s -> consistent done (starting s n).
Proof.
  intros Hd Ha. exists done. split_and!; [done|done|done|]. cbn. intros i p [-> _]%lookup_replicate. done.
Qed.

Lemma migrated_consistent done0 w l : consistent done0 w -> consistent done0 (migrated w l).
Proof. revert w. induction l as [|ev l IH]; intros w Hw; [done|]. apply IH, happens_consistent, Hw. Qed.

(** ** One runner alone *)

(** [n] calls that all succeed. *)
Fixpoint undisturbed (i n : nat) (sp : Server * phase) : Server * phase :=
  match n with O => sp | S n => undisturbed i n (next_call i Fine sp.1 sp.2) end.

Lemma undisturbed_add i m n sp : undisturbed i (m + n) sp = undisturbed i n (undisturbed i m sp).
Proof. revert sp. induction m as [|m IH]; intros sp; [done|]. apply IH. Qed.

Lemma undisturbed_returned i n s e : undisturbed i n (s, Returned e) = (s, Returned e).
Proof. induction n as [|n IH]; [done|]. exact IH. Qed.

(** The calls for each file left: a check, and four more if it is to be applied. *)
Lemma undisturbed_loop i rest before done s schema : done `prefix_of` names -> applied done s -> names = before ++ rest ->
  before `prefix_of` done -> foldM apply_file base names = Ok schema -> sv_lock s = Some i -> is_Some (sv_versions s) ->
  exists n s', (n <= 5 * length rest)%nat /\ undisturbed i n (s, loop rest) = (s', Unlocking None) /\ applied names s' /\ sv_lock s' = Some i.
Proof.
  revert before done s. induction rest as [|name rest IH]; intros before done s Hd Ha Hn Hb Hall Hl [vs Hvs].
  { exists 0%nat, s. split_and!; [cbn; lia|done| |done]. rewrite app_nil_r in Hn. subst before. by rewrite <- (anti_symm prefix _ _ Hd Hb) at 1. }
  assert (names = (before ++ [name]) ++ rest) as Hn' by (by rewrite <- app_assoc).
  pose proof (ap_versions _ _ Ha) as Hv. rewrite Hvs in Hv. cbn in Hv. subst vs.
  destruct (version_applied done before name rest Hd Hn Hb) as [[Hin Hb']|[Hin ->]].
  - destruct (IH (before ++ [name]) done s Hd Ha Hn' Hb' Hall Hl ltac:(by rewrite Hvs)) as (n & s' & Hle & Hu & Ha' & Hl').
    exists (1 + n)%nat, s'. split_and!; [cbn; lia| |done|done]. rewrite undisturbed_add. cbn [undisturbed fst snd loop next_call].
    by rewrite Hvs, bool_decide_true.
  - rewrite Hn, cons_middle, app_assoc, foldM_app in Hall.
    destruct (foldM apply_file base (before ++ [name])) as [schema'|] eqn:Ef; [|done].
    pose proof Ef as Ef'. rewrite foldM_app, (ap_schema _ _ Ha) in Ef'. cbn in Ef'. unfold apply_file in Ef'.
    destruct (ReadFile name) as [sql|] eqn:Er; cbn in Ef'; [|done]. destruct (exec sql (sv_schema s)) as [sc|] eqn:Ee; [|done]. injection Ef' as <-.
    destruct (IH (before ++ [name]) (before ++ [name]) (committed (sc, {[version name]} ∪ list_to_set (version <$> before)) s)) as (n & s' & Hle & Hu & Ha' & Hl'); try done.
    { by exists rest. }
    { constructor; [done|]. cbn. rewrite fmap_app, list_to_set_app_L. cbn. set_solver. }
    { by rewrite <- Hn in Hall || (rewrite Hn', foldM_app, Ef; exact Hall). }
    exists (5 + n)%nat, s'. split_and!; [cbn; lia| |done|done]. rewrite undisturbed_add. rewrite <- Hu. f_equal.
    cbn [undisturbed fst snd loop next_call]. rewrite Hvs, bool_decide_false by done. rewrite Er.
    cbn [next_call fst snd]. rewrite Ee. cbn [next_call fst snd default]. rewrite Hvs. cbn [default from_option]. unfold id. by rewrite bool_decide_false.
Qed.

Lemma undisturbed_migrated i n w p : w_runners w !! i = Some p ->
  migrated w (replicate n (Turn i Fine)) =
  {| w_server := (undisturbed i n (w_server w, p)).1; w_runners := <[i := (undisturbed i n (w_server w, p)).2]> (w_runners w) |}.
Proof.
  revert w p. induction n as [|n IH]; intros w p Hp; cbn [replicate undisturbed fst snd].
  { destruct w. cbn in *. by rewrite list_insert_id. }
  cbn [migrated foldl happens]. rewrite Hp. destruct (next_call i Fine (w_server w) p) as [s' p'] eqn:Et. cbn [fst snd].
  change (foldl happens ?w' ?l) with (migrated w' l). erewrite IH; cbn [w_server w_runners].
  - by rewrite list_insert_insert_eq.
  - apply list_lookup_insert_eq. by eapply lookup_lt_Some.
Qed.

(** A run from the beginning, the lock being free. *)
Lemma undisturbed_run i done s schema : done `prefix_of` names -> applied done s -> foldM apply_file base names = Ok schema -> sv_lock s = None ->
  exists s', undisturbed i (4 + 5 * length names) (s, Acquiring) = (s', Returned None) /\ applied names s' /\ sv_lock s' = None.
Proof.
  intros Hd Ha Hall Hl.
  destruct (undisturbed_loop i names [] done (with_table (with_lock i s)) schema) as (n & s' & Hle & Hu & Ha' & Hl'); try done.
  { apply applied_table. by destruct Ha. }
  { apply prefix_nil. }
  exists (unlocked s'). split_and!; [|by destruct Ha'|done].
  replace (4 + 5 * length names)%nat with (3 + (n + (1 + (5 * length names - n))))%nat by lia.
  rewrite !undisturbed_add. cbn [undisturbed next_call fst snd]. rewrite Hl. cbn [next_call fst snd]. rewrite Hu. cbn [next_call fst snd].
  rewrite undisturbed_returned. unfold release. by rewrite bool_decide_true.
Qed.

End Migrate.

Arguments Server : clear implicits.
Arguments World : clear implicits.

(** ** Runs *)

(** The files of [internal/database/migrations], their texts shortened, on a
    server that keeps what it executed. *)
Definition sample_files : gmap string string :=
  {["0001_initial.down.sql" := "DROP"; "0001_initial.up.sql" := "CREATE";
    "0002_persistent_reconciliation.down.sql" := "UNDO"; "0002_persistent_reconciliation.up.sql" := "ALTER"]}.

Definition keep_text (sql : string) (executed : list string) : result string (list string) := Ok (executed ++ [sql]).

Definition new_server : Server (list string) := {| sv_schema := []; sv_versions := None; sv_lock := None |}.

Example files_and_versions :
  names sample_files = ["0001_initial.up.sql"; "0002_persistent_reconciliation.up.sql"] /\ version <$> names sample_files = ["0001"; "0002"].
Proof. vm_compute. done. Qed.

(** Two control planes: the first loses its connection as it commits the first
    migration, and the second, which waited for the lock, goes on after it. *)
Definition sample_events : list event :=
  [Turn 1 Fine] ++ replicate 7 (Turn 0 Fine) ++ [Turn 1 Fine; Turn 0 (Breaks true "connection reset")] ++ replicate 11 (Turn 1 Fine).

(** A second process that dies as it records the second migration. *)
Definition interrupted : list event := [Turn 1 Fine] ++ replicate 12 (Turn 0 Fine) ++ [Turn 1 Fine; Kill 0].

Lemma sample_versions : NoDup (version <$> names sample_files).
Proof. rewrite (proj2 files_and_versions). by apply (bool_decide_unpack _). Qed.

Lemma nothing_applied : applied sample_files keep_text [] [] new_server.
Proof. by constructor. Qed.

(** ** The theorems *)

(** C15. Any number of control planes that start at once, whatever calls fail, lose
    the connection or kill a process and in whatever order they come, apply
    each migration once and in the order of the names, wholly or not at all,
    and record what they applied; nothing applied is lost, and one that reports
    success has left all of them applied. *)
Theorem migrations_apply_once_in_order {Schema} migrationFS (exec : string -> Schema -> result string Schema) base done0 s n l
    (Hversions : NoDup (version <$> names migrationFS)) (Hprefix : done0 `prefix_of` names migrationFS)
    (Happlied : applied migrationFS exec base done0 s) :
  let w := migrated migrationFS exec (starting s n) l in
  exists done, done0 `prefix_of` done /\ done `prefix_of` names migrationFS /\ applied migrationFS exec base done (w_server w) /\
    (Returned None ∈ w_runners w -> done = names migrationFS).
Proof.
  intros w. destruct (migrated_consistent migrationFS exec base Hversions done0 (starting s n) l) as (done & H0 & Hd & Ha & Hps).
  { by apply starting_consistent. }
  exists done. split_and!; [done..|]. intros [i Hi]%list_elem_of_lookup. exact (Hps i _ Hi).
Qed.

Lemma migrations_apply_once_in_order_witness :
  let w := migrated sample_files keep_text (starting new_server 2) sample_events in
  w_runners w = [Returned (Some "connection reset"); Returned None] /\ sv_schema (w_server w) = ["CREATE"; "ALTER"] /\
  exists done, applied sample_files keep_text [] done (w_server w) /\ done = names sample_files.
Proof.
  intros w. assert (w_runners w = [Returned (Some "connection reset"); Returned None]) as Hw by (vm_compute; reflexivity).
  split_and!; [exact Hw|vm_compute; reflexivity|].
  destruct (migrations_apply_once_in_order sample_files keep_text [] [] new_server 2 sample_events
    sample_versions (prefix_nil _) nothing_applied) as (done & _ & _ & Ha & Hd).
  exists done. split; [exact Ha|]. apply Hd. fold w. rewrite Hw. right. left.
Defined.

(** C16. After whatever happened to earlier runs, a run that meets no failure, with
    the lock free and files the server accepts, ends in a bounded number of
    calls: it applies what was left, frees the lock and reports success. *)
Theorem migration_resumes {Schema} migrationFS (exec : string -> Schema -> result string Schema) base schema s n l
    (Hversions : NoDup (version <$> names migrationFS)) (Happlied : applied migrationFS exec base [] s)
    (Hexec : foldM (apply_file migrationFS exec) base (names migrationFS) = Ok schema) :
  let earlier := w_server (migrated migrationFS exec (starting s n) l) in
  sv_lock earlier = None ->
  let w := migrated migrationFS exec (starting earlier 1) (replicate (4 + 5 * length (names migrationFS)) (Turn 0 Fine)) in
  w_runners w = [Returned None] /\ sv_schema (w_server w) = schema /\ sv_lock (w_server w) = None.
Proof.
  intros earlier Hfree w. destruct (migrated_consistent migrationFS exec base Hversions [] (starting s n) l) as (done & _ & Hd & Ha & _).
  { apply starting_consistent; [apply prefix_nil|done]. }
  destruct (undisturbed_run migrationFS exec base Hversions 0 done earlier schema Hd Ha Hexec Hfree) as (s' & Hu & Ha' & Hl').
  unfold w. rewrite (undisturbed_migrated migrationFS exec 0 _ _ Acquiring) by done. cbn [starting w_server w_runners]. rewrite Hu. cbn.
  split_and!; [done| |done]. destruct Ha' as [Hs _]. congruence.
Qed.


Lemma migration_resumes_witness :
  let earlier := w_server (migrated sample_files keep_text (starting new_server 2) interrupted) in
  sv_schema earlier = ["CREATE"] /\
  let w := migrated sample_files keep_text (starting earlier 1) (replicate 14 (Turn 0 Fine)) in
  w_runners w = [Returned None] /\ sv_schema (w_server w) = ["CREATE"; "ALTER"].
Proof.
  split; [vm_compute; reflexivity|].
  destruct (migration_resumes sample_files keep_text [] ["CREATE"; "ALTER"] new_server 2 interrupted
    sample_versions nothing_applied) as (H1 & H2 & _); [vm_compute; reflexivity..|]. split; [exact H1|exact H2].
Defined.
