(* ===== verification/PgStore.v ===== *)
(** * The database the reconciliation writes to

    The tables of [internal/database/migrations] that [ApplyPostgres] reads and
    writes, with the columns it uses, and transactions over them: a state with
    errors, whose caller rolls back on an error. Foreign keys are not modelled:
    the rows they refer to are the caller's. PostgreSQL's own functions are the
    parameters of [Postgres]. *)
From S2P Require Import Prelude GoStrings GoJson.
Open Scope string_scope.
Open Scope list_scope.

(** ** What the statements rely on *)

Class Postgres := {
  (** How a [timestamptz] column keeps a time. *)
  column_time : gotime -> gotime;
  (** [value #>> '{}'] of a [jsonb] value: a string's text, nothing for null. *)
  jsonb_text : json -> option string;
  (** [value::text]. *)
  jsonb_cast : json -> string;
  (** [x > y] in the collation of the text columns. *)
  text_after : string -> string -> bool;
  jsonb_text_string : forall s, jsonb_text (JStr s) = Some s;
  jsonb_text_null : jsonb_text JNull = None }.

(** Microseconds, JSON text and byte order, to run the model. *)
Definition plain_postgres : Postgres.
Proof.
  refine {| column_time := fun t => (t - t mod 1000)%Z;
            jsonb_text := fun v => match v with JStr s => Some s | JNull => None | _ => Some (Marshal v) end;
            jsonb_cast := Marshal; text_after := fun x y => negb (string_leb x y) |}; done.
Defined.

(** [integer]: four bytes. *)
Definition int4_max : Z := 2 ^ 31 - 1.

(** ** Rows *)

Record AssetRow := {
  pa_org : string; pa_canonical : string; pa_display : string; pa_type : string; pa_status : string;
  pa_environment : option string; pa_first : gotime; pa_last : gotime }.

Record IdentityRow := {
  pi_org : string; pi_asset : string; pi_connector : string; pi_external : string; pi_type : string;
  pi_first : gotime; pi_last : gotime; pi_status : string; pi_absences : Z }.

Record StrongRow := { st_asset : string; st_first : gotime; st_last : gotime }.

Record ObservationRow := {
  po_org : string; po_snapshot : string; po_connector : string; po_collector : string; po_external : string;
  po_type : string; po_at : gotime; po_attributes : string; po_hints : string; po_fingerprint : string; po_status : string }.

Record ClaimRow := {
  pc_org : string; pc_asset : string; pc_key : string; pc_value : json; pc_connector : string; pc_snapshot : string;
  pc_at : gotime; pc_authority : string; pc_confidence : string; pc_active : bool }.

Record PolicyRow := {
  pp_org : string; pp_connector : option string; pp_type : option string; pp_key : option string;
  pp_authority : string; pp_precedence : Z }.

Record RelationshipRow := {
  pr_org : string; pr_from : string; pr_to : string; pr_type : string; pr_status : string;
  pr_first : gotime; pr_last : gotime }.

Record SourceRow := {
  ps_org : string; ps_connector : string; ps_relationship : string; ps_from : string; ps_to : string; ps_type : string;
  ps_status : string; ps_absences : Z; ps_first : gotime; ps_last : gotime }.

Record RelObservationRow := {
  pq_org : string; pq_relationship : string; pq_snapshot : string; pq_connector : string;
  pq_from : string; pq_to : string; pq_type : string; pq_at : gotime; pq_attributes : string }.

Record ChangeRow := {
  pg_org : string; pg_asset : string; pg_type : string; pg_before : string; pg_after : string; pg_source : string;
  pg_detected : gotime; pg_summary : string; pg_confidence : string; pg_logical : string }.

(** A table by primary key. *)
Abbreviation table := (gmap string) (only parsing).

Record DB := {
  d_assets : table AssetRow;
  d_identities : table IdentityRow;
  d_strong : gmap (string * string * string) StrongRow;
  d_observations : table ObservationRow;
  d_claims : table ClaimRow;
  d_policies : list PolicyRow;
  d_relationships : table RelationshipRow;
  d_sources : table SourceRow;
  d_relobservations : table RelObservationRow;
  d_changes : table ChangeRow;
  d_runs : table (string * string) }.   (* reconciliation_runs: organization, snapshot *)

Definition empty_db (policies : list PolicyRow) : DB := Build_DB ∅ ∅ ∅ ∅ ∅ policies ∅ ∅ ∅ ∅ ∅.

Definition on_assets (f : table AssetRow -> table AssetRow) (d : DB) : DB :=
  Build_DB (f (d_assets d)) (d_identities d) (d_strong d) (d_observations d) (d_claims d) (d_policies d)
    (d_relationships d) (d_sources d) (d_relobservations d) (d_changes d) (d_runs d).
Definition on_identities (f : table IdentityRow -> table IdentityRow) (d : DB) : DB :=
  Build_DB (d_assets d) (f (d_identities d)) (d_strong d) (d_observations d) (d_claims d) (d_policies d)
    (d_relationships d) (d_sources d) (d_relobservations d) (d_changes d) (d_runs d).
Definition on_strong (f : gmap (string * string * string) StrongRow -> gmap (string * string * string) StrongRow) (d : DB) : DB :=
  Build_DB (d_assets d) (d_identities d) (f (d_strong d)) (d_observations d) (d_claims d) (d_policies d)
    (d_relationships d) (d_sources d) (d_relobservations d) (d_changes d) (d_runs d).
Definition on_observations (f : table ObservationRow -> table ObservationRow) (d : DB) : DB :=
  Build_DB (d_assets d) (d_identities d) (d_strong d) (f (d_observations d)) (d_claims d) (d_policies d)
    (d_relationships d) (d_sources d) (d_relobservations d) (d_changes d) (d_runs d).
Definition on_claims (f : table ClaimRow -> table ClaimRow) (d : DB) : DB :=
  Build_DB (d_assets d) (d_identities d) (d_strong d) (d_observations d) (f (d_claims d)) (d_policies d)
    (d_relationships d) (d_sources d) (d_relobservations d) (d_changes d) (d_runs d).
Definition on_relationships (f : table RelationshipRow -> table RelationshipRow) (d : DB) : DB :=
  Build_DB (d_assets d) (d_identities d) (d_strong d) (d_observations d) (d_claims d) (d_policies d)
    (f (d_relationships d)) (d_sources d) (d_relobservations d) (d_changes d) (d_runs d).
Definition on_sources (f : table SourceRow -> table SourceRow) (d : DB) : DB :=
  Build_DB (d_assets d) (d_identities d) (d_strong d) (d_observations d) (d_claims d) (d_policies d)
    (d_relationships d) (f (d_sources d)) (d_relobservations d) (d_changes d) (d_runs d).
Definition on_relobservations (f : table RelObservationRow -> table RelObservationRow) (d : DB) : DB :=
  Build_DB (d_assets d) (d_identities d) (d_strong d) (d_observations d) (d_claims d) (d_policies d)
    (d_relationships d) (d_sources d) (f (d_relobservations d)) (d_changes d) (d_runs d).
Definition on_changes (f : table ChangeRow -> table ChangeRow) (d : DB) : DB :=
  Build_DB (d_assets d) (d_identities d) (d_strong d) (d_observations d) (d_claims d) (d_policies d)
    (d_relationships d) (d_sources d) (d_relobservations d) (f (d_changes d)) (d_runs d).
Definition on_runs (f : table (string * string) -> table (string * string)) (d : DB) : DB :=
  Build_DB (d_assets d) (d_identities d) (d_strong d) (d_observations d) (d_claims d) (d_policies d)
    (d_relationships d) (d_sources d) (d_relobservations d) (d_changes d) (f (d_runs d)).

(** ** Transactions *)

Definition tx (A : Type) : Type := DB -> result string (A * DB).

#[export] Instance tx_ret : MRet tx := fun A a d => Ok (a, d).
#[export] Instance tx_bind : MBind tx := fun A B f m d =>
  match m d with Ok (a, d') => f a d' | Err e => Err e end.

Definition fail {A} (e : string) : tx A := fun _ => Err e.
(** A query. *)
Definition select {A} (q : DB -> A) : tx A := fun d => Ok (q d, d).
(** A statement that cannot violate a constraint. *)
Definition modify (f : DB -> DB) : tx unit := fun d => Ok (tt, f d).

Definition duplicate_key : string := "duplicate key value violates unique constraint".

(** [INSERT] of a row with primary key [k]. *)
Definition insert_row {A} (get : DB -> table A) (on : (table A -> table A) -> DB -> DB) (k : string) (row : A) : tx unit :=
  fun d => match get d !! k with Some _ => Err duplicate_key | None => Ok (tt, on (<[k := row]>) d) end.

(** [UPDATE ... WHERE p]; the number of rows affected. *)
Definition update_rows {A} (p : string -> A -> bool) (f : A -> A) (t : table A) : table A :=
  map_imap (fun k r => Some (if p k r then f r else r)) t.
Definition affected {A} (p : string -> A -> bool) (t : table A) : Z :=
  Z.of_nat (size (filter (fun kr => p kr.1 kr.2 = true) t)).

(** The row a unique key refers to. *)
Definition find_row {A} (p : A -> bool) (t : table A) : option (string * A) :=
  head (filter (fun kr => p kr.2 = true) (map_to_list t)).

(** [for _, x := range l { ... }] over statements. *)
Fixpoint tx_each {A S} (f : S -> A -> tx S) (s : S) (l : list A) : tx S :=
  match l with [] => mret s | x :: l' => s' ← f s x; tx_each f s' l' end.

(** ** Properties of transactions *)

(** A relation between the database before and after, whenever a transaction
    succeeds. *)
Definition tx_rel {A} (R : DB -> DB -> Prop) (m : tx A) : Prop :=
  forall d a d', m d = Ok (a, d') -> R d d'.

Create HintDb tx discriminated.

Section TxRel.
Context (R : DB -> DB -> Prop) `{!PreOrder R}.

Lemma tx_rel_ret {A} (a : A) : tx_rel R (mret a).
Proof. intros d a' d' [= -> ->]. reflexivity. Qed.

Lemma tx_rel_fail {A} e : tx_rel R (@fail A e).
Proof. by intros d a d' [=]. Qed.

Lemma tx_rel_select {A} (q : DB -> A) : tx_rel R (select q).
Proof. intros d a d' [= _ ->]. reflexivity. Qed.

Lemma tx_rel_bind {A B} (m : tx A) (f : A -> tx B) :
  tx_rel R m -> (forall a, tx_rel R (f a)) -> tx_rel R (m ≫= f).
Proof.
  intros Hm Hf d b d' E. unfold mbind, tx_bind in E. destruct (m d) as [[a d1]|] eqn:E1; [|done].
  transitivity d1; [by eapply Hm|by eapply Hf].
Qed.

Lemma tx_rel_modify f : (forall d, R d (f d)) -> tx_rel R (modify f).
Proof. intros Hf d a d' [= _ <-]. apply Hf. Qed.

Lemma tx_rel_insert {A} (get : DB -> table A) on k row :
  (forall d, get d !! k = None -> R d (on (<[k := row]>) d)) -> tx_rel R (insert_row get on k row).
Proof.
  intros Hi d a d' E. unfold insert_row in E. destruct (get d !! k) eqn:Ek; [done|].
  injection E as _ <-. by apply Hi.
Qed.

Lemma tx_rel_each {A S} (f : S -> A -> tx S) l : forall s,
  (forall s x, tx_rel R (f s x)) -> tx_rel R (tx_each f s l).
Proof.
  induction l as [|x l IH]; intros s Hf; cbn [tx_each].
  - apply tx_rel_ret.
  - apply tx_rel_bind; [apply Hf|]. intros s'. by apply IH.
Qed.

End TxRel.

Lemma update_rows_lookup {A} (p : string -> A -> bool) f (t : table A) k :
  update_rows p f t !! k = (fun r => if p k r then f r else r) <$> t !! k.
Proof. unfold update_rows. rewrite map_lookup_imap. by destruct (t !! k). Qed.
