(* ===== verification/ReconcilePg.v ===== *)
(** * Reconciliation in PostgreSQL ([internal/reconcile/postgres.go])

    [ApplyPostgres] as a transaction over the tables of [PgStore.v]. Rows and
    map entries that come in no stated order come in an order of
    [RangeOrder]. *)
From S2P Require Import Prelude GoStrings GoJson GoHash Domain Resolution Reconcile PgStore.
From Stdlib Require Import Ascii.
Open Scope string_scope.
Open Scope list_scope.

(** ** Names and values *)

(** [stableID]: the values, each ended by a zero byte, hashed. *)
Definition stableID (prefix : string) (values : list string) : string :=
  prefix +:+ "-" +:+ String.substring 0 32
    (hex_encode (sha256 (String.concat "" ((fun v => v +:+ String (ascii_of_N 0) "") <$> values)))).

Definition stringAttribute (attributes : gmap string json) (key : string) : string :=
  match attributes !! key with Some (JStr s) => trim_space s | _ => "" end.

Definition observationName (o : Observation) : string :=
  match find (fun k => negb (bool_decide (stringAttribute (attrs o) k = ""))) ["name"; "hostname"; "display_name"] with
  | Some k => stringAttribute (attrs o) k
  | None => o_external o
  end.

Definition or_now (now t : gotime) : gotime := if time_is_zero t then now else t.

Section Pg.
Context `{Postgres, RangeOrder}.

(** [GREATEST(column, $n)]. *)
Definition greatest (column t : gotime) : gotime := Z.max column (column_time t).

(** ** Changes *)

Definition insertChange (s : SnapshotEnvelope) (assetID changeType before after reason : string) : tx unit :=
  let logical := join "|" [s_id s; assetID; changeType] in
  existing ← select (fun d => find_row (fun c => bool_decide (pg_org c = s_org s) && bool_decide (pg_logical c = logical)) (d_changes d));
  match existing with
  | Some _ => mret tt
  | None => insert_row d_changes on_changes (stableID "change" [logical])
      {| pg_org := s_org s; pg_asset := assetID; pg_type := changeType; pg_before := before; pg_after := after;
         pg_source := s_connector s; pg_detected := column_time (s_completed s); pg_summary := reason;
         pg_confidence := "DETERMINISTIC"; pg_logical := logical |}
  end.

(** ** The asset's own columns *)

(** [x] precedes [y] in lines 297 and 298's order. *)
Definition claim_before (x y : string * ClaimRow) : bool :=
  let rx := rank (pc_authority x.2) in let ry := rank (pc_authority y.2) in
  (ry <? rx)%Z || ((rx =? ry)%Z &&
    ((pc_at y.2 <? pc_at x.2)%Z || ((pc_at x.2 =? pc_at y.2)%Z && text_after x.1 y.1))).

Fixpoint first_claim (l : list (string * ClaimRow)) : option ClaimRow :=
  match l with
  | [] => None
  | x :: l' =>
      let best := foldl (fun b y => if claim_before y b then y else b) x l' in Some best.2
  end.

Definition active_rows (d : DB) (org asset : string) : list (string * ClaimRow) :=
  filter (fun kc => pc_org kc.2 = org /\ pc_asset kc.2 = asset /\ pc_active kc.2 = true) (map_to_list (d_claims d)).

(** The text of the best active claim on one of the attributes. *)
Definition effective_text (d : DB) (org asset : string) (keys : list string) : option string :=
  c ← first_claim (filter (fun kc => pc_key kc.2 ∈ keys) (active_rows d org asset));
  jsonb_text (pc_value c).

(** Line 300: some attribute has more than one active value. *)
Definition claims_conflict (d : DB) (org asset : string) : bool :=
  let rows := (active_rows d org asset).*2 in
  existsb (fun c => (1 <? size (list_to_set (C := gset string)
    (jsonb_cast ∘ pc_value <$> filter (fun c' => pc_key c' = pc_key c) rows)))%nat) rows.

Definition effective_asset (environment display : option string) (status : string) (a : AssetRow) : AssetRow :=
  let name old := match display with Some n => if bool_decide (n = "") then old else n | None => old end in
  {| pa_org := pa_org a; pa_canonical := name (pa_canonical a); pa_display := name (pa_display a);
     pa_type := pa_type a; pa_status := status;
     pa_environment := match environment with Some e => Some e | None => pa_environment a end;
     pa_first := pa_first a; pa_last := pa_last a |}.

Definition updateEffectiveAsset (org assetID : string) : tx bool :=
  environment ← select (fun d => effective_text d org assetID ["environment"]);
  display ← select (fun d => effective_text d org assetID ["name"; "hostname"; "display_name"]);
  conflict ← select (fun d => claims_conflict d org assetID);
  _ ← modify (on_assets (update_rows (fun k a => bool_decide (k = assetID) && bool_decide (pa_org a = org))
        (effective_asset environment display (if conflict : bool then "CONFLICTING" else "ACTIVE"))));
  mret conflict.

(** ** One observation *)

(** Line 52. *)
Definition known_identity (d : DB) (s : SnapshotEnvelope) (external : string) : option string :=
  pi_asset ∘ snd <$> find_row (fun i => bool_decide (pi_org i = s_org s) && bool_decide (pi_connector i = s_connector s)
    && bool_decide (pi_external i = external)) (d_identities d).

(** Lines 55-67: the strong identifiers, in the map's order. *)
Definition resolve_strong (s : SnapshotEnvelope) (assetID : string) (kv : string * string) : tx string :=
  resolved ← select (fun d => default "" (st_asset <$> d_strong d !! (s_org s, kv.1, kv.2)));
  if negb (bool_decide (resolved = "")) && negb (bool_decide (assetID = "")) && negb (bool_decide (resolved = assetID))
  then fail "strong identifiers resolve to conflicting canonical assets"
  else mret (if bool_decide (resolved = "") then assetID else resolved).

Definition touch_asset (org assetID : string) (at_ : gotime) : tx unit :=
  modify (on_assets (update_rows (fun k a => bool_decide (k = assetID) && bool_decide (pa_org a = org))
    (fun a => {| pa_org := pa_org a; pa_canonical := pa_canonical a; pa_display := pa_display a; pa_type := pa_type a;
                 pa_status := "ACTIVE"; pa_environment := pa_environment a; pa_first := pa_first a;
                 pa_last := greatest (pa_last a) at_ |}))).

(** Lines 51-103: the asset of an observation, whether it is new. *)
Definition locate_asset (s : SnapshotEnvelope) (site : nat) (o : Observation) (at_ : gotime) (sum : Summary)
    : tx (string * bool * Summary) :=
  known ← select (fun d => known_identity d s (o_external o));
  match known with
  | None =>
      assetID ← tx_each (resolve_strong s) "" (range site (StrongIdentities o));
      if bool_decide (assetID = "") then
        let assetID := stableID "asset" [s_org s; s_connector s; o_external o] in
        let display := observationName o in
        let environment := stringAttribute (attrs o) "environment" in
        _ ← insert_row d_assets on_assets assetID
          {| pa_org := s_org s; pa_canonical := display; pa_display := display; pa_type := o_type o; pa_status := "ACTIVE";
             pa_environment := if bool_decide (environment = "") then None else Some environment;
             pa_first := column_time at_; pa_last := column_time at_ |};
        mret (assetID, true, bump CCreated sum)
      else
        _ ← touch_asset (s_org s) assetID at_;
        mret (assetID, false, bump CUnchanged sum)
  | Some assetID =>
      prior ← select (fun d => a ← d_assets d !! assetID; if bool_decide (pa_org a = s_org s) then Some (pa_status a) else None);
      match prior with
      | None => fail "no rows in result set"
      | Some prior =>
          _ ← touch_asset (s_org s) assetID at_;
          if bool_decide (prior = AssetMissing) || bool_decide (prior = AssetStale) then
            _ ← insertChange s assetID "ASSET_RETURNED" (json_string prior) (json_string AssetActive) "asset returned in a successful snapshot";
            mret (assetID, false, bump CChanges (bump CUpdated sum))
          else mret (assetID, false, bump CUnchanged sum)
      end
  end.

(** Line 106. *)
Definition upsert_identity (s : SnapshotEnvelope) (o : Observation) (assetID : string) (at_ : gotime) : tx unit :=
  existing ← select (fun d => find_row (fun i => bool_decide (pi_org i = s_org s) && bool_decide (pi_connector i = s_connector s)
    && bool_decide (pi_external i = o_external o)) (d_identities d));
  match existing with
  | Some (k, i) => modify (on_identities (<[k :=
      {| pi_org := pi_org i; pi_asset := pi_asset i; pi_connector := pi_connector i; pi_external := pi_external i;
         pi_type := pi_type i; pi_first := pi_first i; pi_last := greatest (pi_last i) at_; pi_status := "ACTIVE"; pi_absences := 0 |}]>))
  | None => insert_row d_identities on_identities (stableID "identity" [s_org s; s_connector s; o_external o])
      {| pi_org := s_org s; pi_asset := assetID; pi_connector := s_connector s; pi_external := o_external o; pi_type := o_type o;
         pi_first := column_time at_; pi_last := column_time at_; pi_status := "ACTIVE"; pi_absences := 0 |}
  end.

(** Lines 110-119: bind one strong identifier to the asset. *)
Definition bind_strong (s : SnapshotEnvelope) (assetID : string) (at_ : gotime) (_ : unit) (kv : string * string) : tx unit :=
  let key := (s_org s, kv.1, kv.2) in
  existing ← select (fun d => d_strong d !! key);
  match existing with
  | Some r =>
      _ ← modify (on_strong (<[key := {| st_asset := st_asset r; st_first := st_first r; st_last := greatest (st_last r) at_ |}]>));
      if bool_decide (st_asset r = assetID) then mret tt
      else fail "strong identifier is already bound to another canonical asset"
  | None => modify (on_strong (<[key := {| st_asset := assetID; st_first := column_time at_; st_last := column_time at_ |}]>))
  end.

(** Line 134. *)
Definition insert_observation (s : SnapshotEnvelope) (o : Observation) (at_ : gotime) : tx unit :=
  let attributes := marshal_map (o_attributes o) in
  let fingerprint := if bool_decide (o_fingerprint o = "") then hex_encode (sha256 attributes) else o_fingerprint o in
  insert_row d_observations on_observations (stableID "observation" [s_id s; o_external o])
    {| po_org := s_org s; po_snapshot := s_id s; po_connector := s_connector s; po_collector := s_collector s;
       po_external := o_external o; po_type := o_type o; po_at := column_time at_; po_attributes := attributes;
       po_hints := marshal_map (o_hints o); po_fingerprint := fingerprint; po_status := "OBSERVED" |}.

(** Line 150: the most specific policy's authority. Among equally specific
    policies of the same precedence any may come first. *)
Definition policy_matches (s : SnapshotEnvelope) (typ key : string) (p : PolicyRow) : bool :=
  let allows (c : option string) v := match c with None => true | Some x => bool_decide (x = v) end in
  bool_decide (pp_org p = s_org s) && allows (pp_connector p) (s_connector s) && allows (pp_type p) typ && allows (pp_key p) key.

Definition policy_before (x y : PolicyRow) : bool :=
  let set (c : option string) := (if c then 1 else 0)%Z in
  let score p := [set (pp_connector p); set (pp_type p); set (pp_key p); pp_precedence p] in
  (fix lex (a b : list Z) := match a, b with
     | u :: a', v :: b' => if (u =? v)%Z then lex a' b' else (v <? u)%Z
     | _, _ => false end) (score x) (score y).

Definition claim_authority (d : DB) (s : SnapshotEnvelope) (typ key : string) : string :=
  match filter (fun p => policy_matches s typ key p = true) (d_policies d) with
  | [] => "OBSERVED"
  | p :: l => pp_authority (foldl (fun b q => if policy_before q b then q else b) p l)
  end.

(** Lines 138-158: one attribute. *)
Definition claim_attribute (s : SnapshotEnvelope) (o : Observation) (assetID : string) (at_ : gotime)
    (_ : unit) (kv : string * json) : tx unit :=
  let '(key, value) := kv in
  if (200 <? len key)%Z then fail "attribute key exceeds 200 characters" else
  _ ← modify (on_claims (update_rows (fun _ c => bool_decide (pc_org c = s_org s) && bool_decide (pc_asset c = assetID)
        && bool_decide (pc_connector c = s_connector s) && bool_decide (pc_key c = key) && pc_active c)
      (fun c => {| pc_org := pc_org c; pc_asset := pc_asset c; pc_key := pc_key c; pc_value := pc_value c;
         pc_connector := pc_connector c; pc_snapshot := pc_snapshot c; pc_at := pc_at c; pc_authority := pc_authority c;
         pc_confidence := pc_confidence c; pc_active := false |})));
  authority ← select (fun d => claim_authority d s (o_type o) key);
  insert_row d_claims on_claims (stableID "claim" [s_id s; o_external o; key])
    {| pc_org := s_org s; pc_asset := assetID; pc_key := key; pc_value := value; pc_connector := s_connector s;
       pc_snapshot := s_id s; pc_at := column_time at_; pc_authority := authority; pc_confidence := "OBSERVED"; pc_active := true |}.

(** What the loop of line 35 keeps: [assets], [seenAssets], [summary]. *)
Record Progress := { g_assets : gmap string string; g_seen : gset string; g_sum : Summary }.

(** Lines 36-44. *)
Definition check_observation (g : Progress) (o : Observation) : tx unit :=
  if bool_decide (o_external o = "") || (1024 <? len (o_external o))%Z then fail "every observation requires a bounded external ID" else
  if negb (known_type (o_type o)) then fail ("unknown asset type " +:+ o_type o) else
  if bool_decide (o_external o ∈ g_seen g) then fail ("duplicate asset external ID " +:+ o_external o) else mret tt.

(** Lines 159-176: the effective columns, the changes, the map of assets. *)
Definition finish_observation (s : SnapshotEnvelope) (g : Progress) (o : Observation) (assetID : string) (created : bool)
    (sum : Summary) : tx Progress :=
  conflict ← updateEffectiveAsset (s_org s) assetID;
  sum ← (if conflict : bool then
           _ ← insertChange s assetID "SOURCE_CONFLICT" "null" "null" "active source claims conflict";
           mret (bump CChanges (bump CConflicting sum))
         else mret sum);
  sum ← (if created then
           _ ← insertChange s assetID "ASSET_DISCOVERED" "null"
             (json_object [("assetType", json_string (o_type o)); ("externalId", json_string (o_external o))]) "asset discovered";
           mret (bump CChanges sum)
         else mret sum);
  mret {| g_assets := <[o_external o := assetID]> (g_assets g); g_seen := {[o_external o]} ∪ g_seen g; g_sum := sum |}.

Definition apply_observation_pg (s : SnapshotEnvelope) (now : gotime) (g : Progress) (io : nat * Observation) : tx Progress :=
  let '(i, o) := io in
  _ ← check_observation g o;
  let at_ := or_now now (o_observed o) in
  '(assetID, created, sum) ← locate_asset s (3 * i) o at_ (g_sum g);
  _ ← upsert_identity s o assetID at_;
  _ ← tx_each (bind_strong s assetID at_) tt (range (3 * i + 1) (StrongIdentities o));
  _ ← insert_observation s o at_;
  _ ← tx_each (claim_attribute s o assetID at_) tt (range (3 * i + 2) (attrs o));
  finish_observation s g o assetID created sum.

(** ** One relationship *)

Definition same_edge (s : SnapshotEnvelope) (from to typ : string) (r : RelationshipRow) : bool :=
  bool_decide (pr_org r = s_org s) && bool_decide (pr_from r = from) && bool_decide (pr_to r = to) && bool_decide (pr_type r = typ).

(** Line 194. *)
Definition upsert_relationship (s : SnapshotEnvelope) (id from to typ : string) (at_ : gotime) : tx unit :=
  existing ← select (fun d => find_row (same_edge s from to typ) (d_relationships d));
  match existing with
  | Some (k, r) => modify (on_relationships (<[k :=
      {| pr_org := pr_org r; pr_from := pr_from r; pr_to := pr_to r; pr_type := pr_type r; pr_status := "ACTIVE";
         pr_first := pr_first r; pr_last := greatest (pr_last r) at_ |}]>))
  | None => insert_row d_relationships on_relationships id
      {| pr_org := s_org s; pr_from := from; pr_to := to; pr_type := typ; pr_status := "ACTIVE";
         pr_first := column_time at_; pr_last := column_time at_ |}
  end.

(** Line 206. *)
Definition upsert_source (s : SnapshotEnvelope) (ro : RelationshipObservation) (id : string) (at_ : gotime) : tx unit :=
  existing ← select (fun d => find_row (fun r => bool_decide (ps_org r = s_org s) && bool_decide (ps_connector r = s_connector s)
    && bool_decide (ps_from r = ro_from ro) && bool_decide (ps_to r = ro_to ro) && bool_decide (ps_type r = ro_type ro)) (d_sources d));
  match existing with
  | Some (k, r) => modify (on_sources (<[k :=
      {| ps_org := ps_org r; ps_connector := ps_connector r; ps_relationship := id; ps_from := ps_from r; ps_to := ps_to r;
         ps_type := ps_type r; ps_status := "ACTIVE"; ps_absences := 0; ps_first := ps_first r; ps_last := greatest (ps_last r) at_ |}]>))
  | None => insert_row d_sources on_sources
      (stableID "relationship-source" [s_org s; s_connector s; ro_from ro; ro_to ro; ro_type ro])
      {| ps_org := s_org s; ps_connector := s_connector s; ps_relationship := id; ps_from := ro_from ro; ps_to := ro_to ro;
         ps_type := ro_type ro; ps_status := "ACTIVE"; ps_absences := 0; ps_first := column_time at_; ps_last := column_time at_ |}
  end.

(** Lines 179-215. *)
Definition apply_relationship_pg (s : SnapshotEnvelope) (now : gotime) (assets : gmap string string)
    (sum : Summary) (ro : RelationshipObservation) : tx Summary :=
  match assets !! ro_from ro, assets !! ro_to ro with
  | Some from, Some to =>
      if bool_decide (ro_type ro = "") || (160 <? len (ro_type ro))%Z
      then fail "relationship endpoints and bounded type must reference assets in the snapshot" else
      let at_ := or_now now (ro_observed ro) in
      let id := stableID "relationship" [s_org s; from; to; ro_type ro] in
      existing ← select (fun d => find_row (same_edge s from to (ro_type ro)) (d_relationships d));
      _ ← upsert_relationship s id from to (ro_type ro) at_;
      sum ← (match existing with
             | Some _ => mret sum
             | None =>
                 _ ← insertChange s from "RELATIONSHIP_ADDED" "null"
                   (json_object [("relationshipId", json_string id); ("toAssetId", json_string to); ("type", json_string (ro_type ro))])
                   "observed relationship added";
                 mret (bump CChanges (bump CRelCreated sum))
             end);
      _ ← upsert_source s ro id at_;
      _ ← insert_row d_relobservations on_relobservations
        (stableID "relationship-observation" [s_id s; ro_from ro; ro_to ro; ro_type ro])
        {| pq_org := s_org s; pq_relationship := id; pq_snapshot := s_id s; pq_connector := s_connector s; pq_from := ro_from ro;
           pq_to := ro_to ro; pq_type := ro_type ro; pq_at := column_time at_; pq_attributes := marshal_map (ro_attributes ro) |};
      mret sum
  | _, _ => fail "relationship endpoints and bounded type must reference assets in the snapshot"
  end.

(** ** What the snapshot no longer reports *)

Definition out_of_range : string := "integer out of range".

(** Line 227: identities of the connector without an observation in the
    snapshot. *)
Definition identity_absent (s : SnapshotEnvelope) (d : DB) (i : IdentityRow) : bool :=
  bool_decide (pi_org i = s_org s) && bool_decide (pi_connector i = s_connector s) &&
  match find_row (fun o => bool_decide (po_snapshot o = s_id s) && bool_decide (po_external o = pi_external i)) (d_observations d) with
  | Some _ => false | None => true end.

Definition count_absences (s : SnapshotEnvelope) : tx unit :=
  d ← select id;
  if bool_decide (map_Exists (fun _ i => identity_absent s d i = true /\ (int4_max <= pi_absences i)%Z) (d_identities d))
  then fail out_of_range else
  modify (on_identities (update_rows (fun _ i => identity_absent s d i)
    (fun i => {| pi_org := pi_org i; pi_asset := pi_asset i; pi_connector := pi_connector i; pi_external := pi_external i;
       pi_type := pi_type i; pi_first := pi_first i; pi_last := pi_last i; pi_status := pi_status i; pi_absences := pi_absences i + 1 |}))).

Definition identity_due (s : SnapshotEnvelope) (threshold : Z) (i : IdentityRow) : bool :=
  bool_decide (pi_org i = s_org s) && bool_decide (pi_connector i = s_connector s) && bool_decide (pi_status i = "ACTIVE")
  && (threshold <=? pi_absences i)%Z.

(** Lines 231-244: the assets of the identities that go missing. *)
Definition expire_identities (s : SnapshotEnvelope) (threshold : Z) (site : nat) : tx (list string) :=
  rows ← select (fun d => filter (fun ki => identity_due s threshold ki.2 = true) (range site (d_identities d)));
  _ ← modify (on_identities (update_rows (fun _ i => identity_due s threshold i)
    (fun i => {| pi_org := pi_org i; pi_asset := pi_asset i; pi_connector := pi_connector i; pi_external := pi_external i;
       pi_type := pi_type i; pi_first := pi_first i; pi_last := pi_last i; pi_status := "MISSING"; pi_absences := pi_absences i |})));
  mret (pi_asset ∘ snd <$> rows).

(** Line 246: no active identity of the connector keeps the asset's claims. *)
Definition deactivate_claims (s : SnapshotEnvelope) (assetID : string) : tx unit :=
  kept ← select (fun d => find_row (fun i => bool_decide (pi_org i = s_org s) && bool_decide (pi_connector i = s_connector s)
    && bool_decide (pi_asset i = assetID) && bool_decide (pi_status i = "ACTIVE")) (d_identities d));
  match kept with
  | Some _ => mret tt
  | None => modify (on_claims (update_rows (fun _ c => bool_decide (pc_org c = s_org s) && bool_decide (pc_connector c = s_connector s)
        && bool_decide (pc_asset c = assetID) && pc_active c)
      (fun c => {| pc_org := pc_org c; pc_asset := pc_asset c; pc_key := pc_key c; pc_value := pc_value c;
         pc_connector := pc_connector c; pc_snapshot := pc_snapshot c; pc_at := pc_at c; pc_authority := pc_authority c;
         pc_confidence := pc_confidence c; pc_active := false |})))
  end.

(** Line 252: the asset goes missing when no source has it active; whether a
    row was affected. *)
Definition asset_unseen (s : SnapshotEnvelope) (assetID : string) (d : DB) (k : string) (a : AssetRow) : bool :=
  bool_decide (k = assetID) && bool_decide (pa_org a = s_org s)
  && negb (bool_decide (pa_status a = AssetMissing)) && negb (bool_decide (pa_status a = AssetRetired))
  && match find_row (fun i => bool_decide (pi_asset i = assetID) && bool_decide (pi_status i = "ACTIVE")) (d_identities d) with
     | Some _ => false | None => true end.

Definition with_status (status : string) (a : AssetRow) : AssetRow :=
  {| pa_org := pa_org a; pa_canonical := pa_canonical a; pa_display := pa_display a; pa_type := pa_type a; pa_status := status;
     pa_environment := pa_environment a; pa_first := pa_first a; pa_last := pa_last a |}.

Definition mark_asset_missing (s : SnapshotEnvelope) (assetID : string) : tx bool :=
  d ← select id;
  _ ← modify (on_assets (update_rows (asset_unseen s assetID d) (with_status AssetMissing)));
  mret (0 <? affected (asset_unseen s assetID d) (d_assets d))%Z.

(** Lines 245-263. *)
Definition asset_gone (s : SnapshotEnvelope) (sum : Summary) (assetID : string) : tx Summary :=
  _ ← deactivate_claims s assetID;
  _ ← updateEffectiveAsset (s_org s) assetID;
  changed ← mark_asset_missing s assetID;
  if changed : bool then
    _ ← insertChange s assetID "ASSET_MISSING" (json_string AssetActive) (json_string AssetMissing) "absent from sufficient successful snapshots";
    mret (bump CChanges (bump CMissing sum))
  else mret sum.

(** Lines 265-282, the same for relationships. *)
Definition source_absent (s : SnapshotEnvelope) (d : DB) (r : SourceRow) : bool :=
  bool_decide (ps_org r = s_org s) && bool_decide (ps_connector r = s_connector s) &&
  match find_row (fun o => bool_decide (pq_snapshot o = s_id s) && bool_decide (pq_from o = ps_from r)
    && bool_decide (pq_to o = ps_to r) && bool_decide (pq_type o = ps_type r)) (d_relobservations d) with
  | Some _ => false | None => true end.

Definition with_source (status : string) (absences : Z) (r : SourceRow) : SourceRow :=
  {| ps_org := ps_org r; ps_connector := ps_connector r; ps_relationship := ps_relationship r; ps_from := ps_from r;
     ps_to := ps_to r; ps_type := ps_type r; ps_status := status; ps_absences := absences; ps_first := ps_first r; ps_last := ps_last r |}.

Definition count_source_absences (s : SnapshotEnvelope) : tx unit :=
  d ← select id;
  if bool_decide (map_Exists (fun _ r => source_absent s d r = true /\ (int4_max <= ps_absences r)%Z) (d_sources d))
  then fail out_of_range else
  modify (on_sources (update_rows (fun _ r => source_absent s d r) (fun r => with_source (ps_status r) (ps_absences r + 1) r))).

Definition source_due (s : SnapshotEnvelope) (threshold : Z) (r : SourceRow) : bool :=
  bool_decide (ps_org r = s_org s) && bool_decide (ps_connector r = s_connector s) && bool_decide (ps_status r = "ACTIVE")
  && (threshold <=? ps_absences r)%Z.

Definition expire_sources (s : SnapshotEnvelope) (threshold : Z) (site : nat) : tx (list string) :=
  rows ← select (fun d => filter (fun kr => source_due s threshold kr.2 = true) (range site (d_sources d)));
  _ ← modify (on_sources (update_rows (fun _ r => source_due s threshold r) (fun r => with_source "REMOVED" (ps_absences r) r)));
  mret (ps_relationship ∘ snd <$> rows).

(** Line 284. *)
Definition relationship_unseen (s : SnapshotEnvelope) (id : string) (d : DB) (k : string) (r : RelationshipRow) : bool :=
  bool_decide (k = id) && bool_decide (pr_org r = s_org s) && bool_decide (pr_status r = "ACTIVE")
  && match find_row (fun i => bool_decide (ps_relationship i = id) && bool_decide (ps_status i = "ACTIVE")) (d_sources d) with
     | Some _ => false | None => true end.

Definition relationship_gone (s : SnapshotEnvelope) (sum : Summary) (id_ : string) : tx Summary :=
  d ← select id;
  _ ← modify (on_relationships (update_rows (relationship_unseen s id_ d)
    (fun r => {| pr_org := pr_org r; pr_from := pr_from r; pr_to := pr_to r; pr_type := pr_type r; pr_status := "REMOVED";
                 pr_first := pr_first r; pr_last := pr_last r |})));
  mret (if (0 <? affected (relationship_unseen s id_ d) (d_relationships d))%Z then bump CRelRemoved sum else sum).

Definition markMissing (s : SnapshotEnvelope) (threshold : Z) (site : nat) (sum : Summary) : tx Summary :=
  _ ← count_absences s;
  missing ← expire_identities s threshold site;
  sum ← tx_each (asset_gone s) sum missing;
  _ ← count_source_absences s;
  removed ← expire_sources s threshold (S site);
  tx_each (relationship_gone s) sum removed.

(** ** The whole snapshot *)

(** The row of the run, with its counts left out. *)
Definition record_run (s : SnapshotEnvelope) : tx unit :=
  insert_row d_runs on_runs (stableID "reconciliation" [s_id s]) (s_org s, s_id s).

Definition ApplyPostgres (clock : gotime) (s : SnapshotEnvelope) (missingThreshold : Z) : tx Summary :=
  if bool_decide (s_org s = "") || bool_decide (s_connector s = "") || bool_decide (s_id s = "")
  then fail "snapshot organization, connector, and ID are required" else
  let threshold := if (missingThreshold <? 1)%Z then 2%Z else missingThreshold in
  let now := snapshot_now s clock in
  g ← tx_each (apply_observation_pg s now) {| g_assets := ∅; g_seen := ∅; g_sum := no_summary |} (imap pair (assets_of s));
  sum ← tx_each (apply_relationship_pg s now (g_assets g)) (g_sum g) (relationships_of s);
  sum ← markMissing s threshold (3 * length (assets_of s)) sum;
  _ ← record_run s;
  mret sum.

End Pg.
