(* ===== verification/PgFacts.v ===== *)
(** * What a snapshot may change in the database *)
From S2P Require Import Prelude GoStrings GoJson GoHash Domain Resolution Reconcile PgStore ReconcilePg.
Open Scope string_scope.
Open Scope list_scope.

Lemma find_row_Some {A} (p : A -> bool) (t : gmap string A) k r :
  find_row p t = Some (k, r) -> t !! k = Some r /\ p r = true.
Proof.
  unfold find_row. intros E%head_Some_elem_of. apply list_elem_of_filter in E as [Hp Hin].
  by apply elem_of_map_to_list in Hin.
Qed.

Lemma find_row_is_Some {A} (p : A -> bool) (t : gmap string A) k r : t !! k = Some r -> p r = true -> is_Some (find_row p t).
Proof.
  intros Hk Hp. unfold find_row. destruct (filter _ _) as [|kr l] eqn:E; [|by eexists]. exfalso.
  assert ((k, r) ∈ filter (fun kr : string * A => p kr.2 = true) (map_to_list t)) as Hin
    by (apply list_elem_of_filter; split; [done|by apply elem_of_map_to_list]).
  rewrite E in Hin. by apply not_elem_of_nil in Hin.
Qed.

(** ** Relations on tables *)

(** The rows of the tenants other than [org] are the same in both. *)
Definition same_others {A} (org_of : A -> string) (org : string) (t t' : gmap string A) : Prop :=
  forall k r, org_of r <> org -> t !! k = Some r <-> t' !! k = Some r.

Section SameOthers.
Context {A : Type} (org_of : A -> string) (org : string).

#[export] Instance same_others_preorder : PreOrder (same_others org_of org).
Proof.
  split; [done|]. intros t1 t2 t3 H1 H2 k r Hr. by rewrite (H1 k r Hr), (H2 k r Hr).
Qed.

Lemma same_others_insert t k row : t !! k = None \/ (exists r, t !! k = Some r /\ org_of r = org) ->
  org_of row = org -> same_others org_of org t (<[k := row]> t).
Proof.
  intros Hk Hrow k' r Hr. destruct (decide (k' = k)) as [->|Hne]; [|by rewrite lookup_insert_ne].
  rewrite lookup_insert_eq. split; [|congruence]. destruct Hk as [Hk|(r0 & Hk & Hr0)]; congruence.
Qed.

Lemma same_others_update p f t : (forall k r, p k r = true -> org_of r = org /\ org_of (f r) = org) ->
  same_others org_of org t (update_rows p f t).
Proof.
  intros Hp k r Hr. rewrite update_rows_lookup. destruct (t !! k) as [r0|]; cbn; [|done].
  destruct (p k r0) eqn:E; [|done]. destruct (Hp _ _ E). split; congruence.
Qed.

End SameOthers.

(** No table holds a different row of another tenant. *)
Record tenant_frame (org : string) (d d' : DB) : Prop := {
  tf_assets : same_others pa_org org (d_assets d) (d_assets d');
  tf_identities : same_others pi_org org (d_identities d) (d_identities d');
  tf_strong : forall o k v, o <> org -> d_strong d' !! (o, k, v) = d_strong d !! (o, k, v);
  tf_observations : same_others po_org org (d_observations d) (d_observations d');
  tf_claims : same_others pc_org org (d_claims d) (d_claims d');
  tf_policies : d_policies d' = d_policies d;
  tf_relationships : same_others pr_org org (d_relationships d) (d_relationships d');
  tf_sources : same_others ps_org org (d_sources d) (d_sources d');
  tf_relobservations : same_others pq_org org (d_relobservations d) (d_relobservations d');
  tf_changes : same_others pg_org org (d_changes d) (d_changes d');
  tf_runs : same_others fst org (d_runs d) (d_runs d') }.

#[export] Instance tenant_frame_preorder org : PreOrder (tenant_frame org).
Proof.
  split.
  - intros d. split; done.
  - intros d1 d2 d3 [H1 H2 H3 H4 H5 H6 H7 H8 H9 H10 H11] [K1 K2 K3 K4 K5 K6 K7 K8 K9 K10 K11].
    split; try (by etrans; eauto). intros o k v Ho. by rewrite K3, H3.
Qed.

(** A statement on one table. *)
Lemma tenant_frame_on org d d' :
  same_others pa_org org (d_assets d) (d_assets d') ->
  same_others pi_org org (d_identities d) (d_identities d') ->
  (forall o k v, o <> org -> d_strong d' !! (o, k, v) = d_strong d !! (o, k, v)) ->
  same_others po_org org (d_observations d) (d_observations d') ->
  same_others pc_org org (d_claims d) (d_claims d') ->
  d_policies d' = d_policies d ->
  same_others pr_org org (d_relationships d) (d_relationships d') ->
  same_others ps_org org (d_sources d) (d_sources d') ->
  same_others pq_org org (d_relobservations d) (d_relobservations d') ->
  same_others pg_org org (d_changes d) (d_changes d') ->
  same_others fst org (d_runs d) (d_runs d') -> tenant_frame org d d'.
Proof. intros. by split. Qed.

(** Splits a guard made of equality tests. *)
Ltac split_guard := repeat match goal with
  | H : _ && _ = true |- _ => apply andb_true_iff in H as [? ?]
  | H : bool_decide _ = true |- _ => apply bool_decide_eq_true in H
  end.

(** A statement that writes rows of [org] only. *)
Ltac own_rows := intros; apply tenant_frame_on; cbn; try done;
  first [ apply same_others_update; intros ? ? ?; split_guard; cbn; auto
        | apply same_others_insert; [by left|done]
        | idtac ].

(** Decomposes a transaction into its statements. *)
Ltac tx_steps := repeat first
  [ solve [auto with tx nocore]
  | apply tx_rel_bind; [typeclasses eauto| |intros]
  | apply tx_rel_select; typeclasses eauto
  | apply tx_rel_ret; typeclasses eauto
  | apply tx_rel_fail
  | apply tx_rel_each; [typeclasses eauto|intros]
  | apply tx_rel_modify; [intros]
  | apply tx_rel_insert; [intros]
  | case_match ].

Section Tenant.
Context `{Postgres, RangeOrder} (s : SnapshotEnvelope).

Abbreviation keeps := (tx_rel (tenant_frame (s_org s))).

Lemma insertChange_tenant a t b af r : keeps (insertChange s a t b af r).
Proof. unfold insertChange. tx_steps; own_rows. Qed.
Hint Resolve insertChange_tenant : tx.

Lemma updateEffectiveAsset_tenant a : keeps (updateEffectiveAsset (s_org s) a).
Proof. unfold updateEffectiveAsset. tx_steps; own_rows. Qed.
Hint Resolve updateEffectiveAsset_tenant : tx.

Lemma touch_asset_tenant a t : keeps (touch_asset (s_org s) a t).
Proof. unfold touch_asset. tx_steps; own_rows. Qed.
Hint Resolve touch_asset_tenant : tx.

Lemma resolve_strong_tenant a kv : keeps (resolve_strong s a kv).
Proof. unfold resolve_strong. tx_steps. Qed.
Hint Resolve resolve_strong_tenant : tx.

Lemma locate_asset_tenant site o t sum : keeps (locate_asset s site o t sum).
Proof. unfold locate_asset. tx_steps; own_rows. Qed.
Hint Resolve locate_asset_tenant : tx.

(** An upsert: the row found is the organization's, or the new one is. *)
Lemma upsert_tenant {A} (get : DB -> gmap string A) (on : (gmap string A -> gmap string A) -> DB -> DB)
    (org_of : A -> string) (p : A -> bool) (k0 : string) (row : A) (f : A -> A) :
  (forall d row k, (get d !! k = None \/ exists r, get d !! k = Some r /\ org_of r = s_org s) -> org_of row = s_org s ->
     tenant_frame (s_org s) d (on (<[k := row]>) d)) ->
  (forall r, p r = true -> org_of r = s_org s) -> (forall r, org_of (f r) = org_of r) -> org_of row = s_org s ->
  keeps (existing ← select (fun d => find_row p (get d));
    match existing with
    | Some (k, r) => modify (on (<[k := f r]>))
    | None => insert_row get on k0 row
    end).
Proof.
  intros Hframe Hp Hf Hrow d u d' E. unfold mbind, tx_bind, select in E.
  destruct (find_row p (get d)) as [[k r]|] eqn:Ef.
  - apply find_row_Some in Ef as [Hk Hr]. injection E as _ <-. apply Hframe; [|by rewrite Hf, Hp].
    right. eauto.
  - unfold insert_row in E. destruct (get d !! k0) eqn:Ek; [done|]. injection E as _ <-. apply Hframe; auto.
Qed.

Lemma upsert_identity_tenant o a t : keeps (upsert_identity s o a t).
Proof.
  unfold upsert_identity.
  apply (upsert_tenant d_identities on_identities pi_org _ _ _
    (fun i => {| pi_org := pi_org i; pi_asset := pi_asset i; pi_connector := pi_connector i; pi_external := pi_external i;
       pi_type := pi_type i; pi_first := pi_first i; pi_last := greatest (pi_last i) t; pi_status := "ACTIVE"; pi_absences := 0 |})); try done.
  - intros. apply tenant_frame_on; cbn; try done. by apply same_others_insert.
  - intros r Hr. by split_guard.
Qed.
Hint Resolve upsert_identity_tenant : tx.

Lemma strong_frame f d : (forall o k v, o <> s_org s -> f (d_strong d) !! (o, k, v) = d_strong d !! (o, k, v)) ->
  tenant_frame (s_org s) d (on_strong f d).
Proof. intros Hf. by apply tenant_frame_on. Qed.

Lemma bind_strong_tenant a t u kv : keeps (bind_strong s a t u kv).
Proof.
  unfold bind_strong. tx_steps; apply strong_frame; intros o k v Ho; apply lookup_insert_ne; congruence.
Qed.
Hint Resolve bind_strong_tenant : tx.

Lemma insert_observation_tenant o t : keeps (insert_observation s o t).
Proof. unfold insert_observation. tx_steps; own_rows. Qed.
Hint Resolve insert_observation_tenant : tx.

Lemma claim_attribute_tenant o a t u kv : keeps (claim_attribute s o a t u kv).
Proof. unfold claim_attribute. tx_steps; own_rows. Qed.
Hint Resolve claim_attribute_tenant : tx.

Lemma finish_observation_tenant g o a c sum : keeps (finish_observation s g o a c sum).
Proof. unfold finish_observation. tx_steps. Qed.
Hint Resolve finish_observation_tenant : tx.

Lemma check_observation_tenant g o : keeps (check_observation g o).
Proof. unfold check_observation. tx_steps. Qed.
Hint Resolve check_observation_tenant : tx.

Lemma apply_observation_tenant now g io : keeps (apply_observation_pg s now g io).
Proof. unfold apply_observation_pg. tx_steps. Qed.
Hint Resolve apply_observation_tenant : tx.

Lemma upsert_relationship_tenant id from to typ t : keeps (upsert_relationship s id from to typ t).
Proof.
  unfold upsert_relationship.
  apply (upsert_tenant d_relationships on_relationships pr_org (same_edge s from to typ) id _
    (fun r => {| pr_org := pr_org r; pr_from := pr_from r; pr_to := pr_to r; pr_type := pr_type r; pr_status := "ACTIVE";
                 pr_first := pr_first r; pr_last := greatest (pr_last r) t |})); try done.
  - intros. apply tenant_frame_on; cbn; try done. by apply same_others_insert.
  - unfold same_edge. intros r Hr. by split_guard.
Qed.
Hint Resolve upsert_relationship_tenant : tx.

Lemma upsert_source_tenant ro id t : keeps (upsert_source s ro id t).
Proof.
  unfold upsert_source.
  apply (upsert_tenant d_sources on_sources ps_org _ _ _
    (fun r => {| ps_org := ps_org r; ps_connector := ps_connector r; ps_relationship := id; ps_from := ps_from r; ps_to := ps_to r;
                 ps_type := ps_type r; ps_status := "ACTIVE"; ps_absences := 0; ps_first := ps_first r; ps_last := greatest (ps_last r) t |})); try done.
  - intros. apply tenant_frame_on; cbn; try done. by apply same_others_insert.
  - intros r Hr. by split_guard.
Qed.
Hint Resolve upsert_source_tenant : tx.

Lemma apply_relationship_tenant now assets sum ro : keeps (apply_relationship_pg s now assets sum ro).
Proof. unfold apply_relationship_pg. tx_steps; own_rows. Qed.
Hint Resolve apply_relationship_tenant : tx.

Lemma markMissing_tenant n site sum : keeps (markMissing s n site sum).
Proof.
  unfold markMissing, count_absences, expire_identities, asset_gone, deactivate_claims, mark_asset_missing,
    count_source_absences, expire_sources, relationship_gone, identity_absent, identity_due, asset_unseen,
    source_absent, source_due, relationship_unseen.
  tx_steps; own_rows.
Qed.
Hint Resolve markMissing_tenant : tx.

Lemma ApplyPostgres_tenant clock n : keeps (ApplyPostgres clock s n).
Proof. unfold ApplyPostgres, record_run. tx_steps; own_rows. Qed.

End Tenant.

(** C40. Tenant isolation of the persistent engine: whatever the snapshot and
    whatever the database holds, reconciling it changes, adds and removes no
    row of another organization, in any table. *)
Theorem ApplyPostgres_tenant_isolation `{Postgres, RangeOrder} clock s n d sum d'
    (Hok : ApplyPostgres clock s n d = Ok (sum, d')) : tenant_frame (s_org s) d d'.
Proof. by eapply ApplyPostgres_tenant. Qed.

(** ** Strong identifiers *)

(** Every bound strong identifier keeps its asset. *)
Definition bindings_kept (d d' : DB) : Prop :=
  forall key r, d_strong d !! key = Some r -> exists r', d_strong d' !! key = Some r' /\ st_asset r' = st_asset r.

#[export] Instance bindings_kept_preorder : PreOrder bindings_kept.
Proof.
  split; [intros d key r ->; eauto|]. intros d1 d2 d3 H1 H2 key r Hr.
  destruct (H1 key r Hr) as (r2 & E2 & A2). destruct (H2 key r2 E2) as (r3 & E3 & A3). exists r3. split; congruence.
Qed.

Section Bindings.
Context `{Postgres, RangeOrder} (s : SnapshotEnvelope).

Lemma bind_strong_kept a t u kv : tx_rel bindings_kept (bind_strong s a t u kv).
Proof.
  unfold bind_strong. intros d u' d' E. unfold mbind, tx_bind, select in E.
  destruct (d_strong d !! (s_org s, kv.1, kv.2)) as [r|] eqn:Er.
  - unfold modify in E. case_bool_decide; [|done]. injection E as _ <-. intros key r0 Hr0. cbn.
    destruct (decide (key = (s_org s, kv.1, kv.2))) as [->|Hne].
    + rewrite lookup_insert_eq. eexists. split; [done|]. cbn. congruence.
    + rewrite lookup_insert_ne by done. eauto.
  - injection E as _ <-. intros key r0 Hr0. cbn. rewrite lookup_insert_ne by congruence. eauto.
Qed.
Hint Resolve bind_strong_kept : tx.

Lemma ApplyPostgres_bindings clock n : tx_rel bindings_kept (ApplyPostgres clock s n).
Proof.
  unfold ApplyPostgres, record_run, apply_observation_pg, check_observation, locate_asset, resolve_strong, touch_asset, upsert_identity,
    insert_observation, claim_attribute, finish_observation, updateEffectiveAsset, insertChange, apply_relationship_pg,
    upsert_relationship, upsert_source, markMissing, count_absences, expire_identities, asset_gone, deactivate_claims,
    mark_asset_missing, updateEffectiveAsset, insertChange, count_source_absences, expire_sources, relationship_gone.
  tx_steps; intros ky rw Hrw; exists rw; done.
Qed.

End Bindings.

(** An immutable identifier is never rebound: once a cloud, container or
    machine identifier of an organization refers to an asset it refers to that
    asset after every reconciled snapshot. *)
Theorem ApplyPostgres_never_rebinds `{Postgres, RangeOrder} clock s n d sum d' key asset
    (Hok : ApplyPostgres clock s n d = Ok (sum, d')) (Hbound : st_asset <$> d_strong d !! key = Some asset) :
  st_asset <$> d_strong d' !! key = Some asset.
Proof.
  apply fmap_Some in Hbound as (r & Hr & ->).
  destruct (ApplyPostgres_bindings s clock n d sum d' Hok key r Hr) as (r' & -> & E). cbn. by rewrite E.
Qed.

(** ** The summary *)

Definition observations_counted (s : Summary) : Z := (Created s + Updated s + Unchanged s)%Z.

Lemma counted_bump c s : observations_counted (bump c s) =
  (observations_counted s + match c with CCreated | CUpdated | CUnchanged => 1 | _ => 0 end)%Z.
Proof.
  unfold observations_counted, bump. cbn [Created Updated Unchanged].
  destruct c; repeat case_bool_decide; try congruence; lia.
Qed.

(** Whenever a transaction succeeds its result satisfies [P]. *)
Definition tx_returns {A} (P : A -> Prop) (m : tx A) : Prop := forall d a d', m d = Ok (a, d') -> P a.

Lemma tx_returns_bind {A B} (P : B -> Prop) (m : tx A) (f : A -> tx B) :
  (forall a, tx_returns P (f a)) -> tx_returns P (m ≫= f).
Proof.
  intros Hf d b d' E. unfold mbind, tx_bind in E. destruct (m d) as [[a d1]|]; [|done]. by eapply Hf.
Qed.

Lemma tx_returns_bind' {A B} (Q : A -> Prop) (P : B -> Prop) (m : tx A) (f : A -> tx B) :
  tx_returns Q m -> (forall a, Q a -> tx_returns P (f a)) -> tx_returns P (m ≫= f).
Proof.
  intros Hm Hf d b d' E. unfold mbind, tx_bind in E. destruct (m d) as [[a d1]|] eqn:Em; [|done].
  by eapply Hf; [eapply Hm|].
Qed.

Lemma tx_returns_ret {A} (P : A -> Prop) a : P a -> tx_returns P (mret a).
Proof. by intros HP d a' d' [= -> _]. Qed.

Lemma tx_returns_fail {A} (P : A -> Prop) e : tx_returns P (@fail A e).
Proof. by intros d a d' [=]. Qed.

(** An invariant of the accumulated value, indexed by what is left to do. *)
Lemma tx_returns_each {A S} (f : S -> A -> tx S) (P : list A -> S -> Prop) (l : list A) : forall s,
  (forall x l s, P (x :: l) s -> tx_returns (P l) (f s x)) -> P l s -> tx_returns (P []) (tx_each f s l).
Proof.
  induction l as [|x l IH]; intros s Hf Hs; cbn [tx_each].
  - by apply tx_returns_ret.
  - eapply tx_returns_bind'; [by apply Hf|]. intros s' Hs'. by apply IH.
Qed.

Ltac counted := cbn [fst snd g_sum]; rewrite ?counted_bump; lia.

Section Counts.
Context `{Postgres, RangeOrder} (s : SnapshotEnvelope).

Lemma locate_asset_counts site o t sum :
  tx_returns (fun r => observations_counted r.2 = observations_counted sum + 1)%Z (locate_asset s site o t sum).
Proof.
  unfold locate_asset. apply tx_returns_bind. intros [a|].
  - apply tx_returns_bind. intros [prior|]; [|apply tx_returns_fail]. apply tx_returns_bind. intros _.
    case_match; [apply tx_returns_bind; intros _|]; apply tx_returns_ret; counted.
  - apply tx_returns_bind. intros a. case_match; apply tx_returns_bind; intros _; apply tx_returns_ret; counted.
Qed.

Lemma finish_observation_counts g o a c sum :
  tx_returns (fun g' => observations_counted (g_sum g') = observations_counted sum) (finish_observation s g o a c sum).
Proof.
  unfold finish_observation. apply tx_returns_bind. intros conflict.
  apply (tx_returns_bind' (fun sum' => observations_counted sum' = observations_counted sum)).
  { destruct conflict; [apply tx_returns_bind; intros _|]; apply tx_returns_ret; counted. }
  intros sum1 H1.
  apply (tx_returns_bind' (fun sum' => observations_counted sum' = observations_counted sum)).
  { destruct c; [apply tx_returns_bind; intros _|]; apply tx_returns_ret; counted. }
  intros sum2 H2. by apply tx_returns_ret.
Qed.

Lemma apply_observation_counts now g io :
  tx_returns (fun g' => observations_counted (g_sum g') = observations_counted (g_sum g) + 1)%Z (apply_observation_pg s now g io).
Proof.
  destruct io as [i o]. unfold apply_observation_pg. apply tx_returns_bind. intros _.
  eapply tx_returns_bind'; [apply locate_asset_counts|]. intros [[a c] sum] Hsum.
  do 4 (apply tx_returns_bind; intros _). cbn in Hsum.
  intros d g' d' E. rewrite (finish_observation_counts _ _ _ _ _ _ _ _ E). exact Hsum.
Qed.

Lemma apply_relationship_counts now assets sum ro :
  tx_returns (fun sum' => observations_counted sum' = observations_counted sum) (apply_relationship_pg s now assets sum ro).
Proof.
  unfold apply_relationship_pg. destruct (assets !! ro_from ro), (assets !! ro_to ro); try apply tx_returns_fail.
  case_match; [apply tx_returns_fail|]. apply tx_returns_bind. intros existing. apply tx_returns_bind. intros _.
  apply (tx_returns_bind' (fun sum' => observations_counted sum' = observations_counted sum)).
  { destruct existing; [by apply tx_returns_ret|]. apply tx_returns_bind. intros _. apply tx_returns_ret.
    counted. }
  intros sum' Hs. do 2 (apply tx_returns_bind; intros _). by apply tx_returns_ret.
Qed.

Lemma markMissing_counts n site sum :
  tx_returns (fun sum' => observations_counted sum' = observations_counted sum) (markMissing s n site sum).
Proof.
  unfold markMissing. do 2 (apply tx_returns_bind; intros ?).
  apply (tx_returns_bind' (fun sum' => observations_counted sum' = observations_counted sum)).
  { apply (tx_returns_each _ (fun _ sum' => observations_counted sum' = observations_counted sum)); [|done].
    intros x l sum' Hs. unfold asset_gone. do 3 (apply tx_returns_bind; intros ?).
    case_match; [apply tx_returns_bind; intros _|]; apply tx_returns_ret; counted. }
  intros sum1 H1. do 2 (apply tx_returns_bind; intros ?).
  apply (tx_returns_each _ (fun _ sum' => observations_counted sum' = observations_counted sum)); [|done].
  intros x l sum' Hs. unfold relationship_gone. do 2 (apply tx_returns_bind; intros ?).
  apply tx_returns_ret. case_match; counted.
Qed.

End Counts.

(** The summary accounts for every observation: of the assets a
    successfully reconciled snapshot reports, each is counted exactly once, as
    created, updated or unchanged. *)
Theorem ApplyPostgres_counts_observations `{Postgres, RangeOrder} clock s n d sum d'
    (Hok : ApplyPostgres clock s n d = Ok (sum, d')) :
  (Created sum + Updated sum + Unchanged sum)%Z = Z.of_nat (length (assets_of s)).
Proof.
  change (observations_counted sum = Z.of_nat (length (assets_of s))). revert d sum d' Hok.
  change (tx_returns (fun sum => observations_counted sum = Z.of_nat (length (assets_of s))) (ApplyPostgres clock s n)).
  unfold ApplyPostgres. case_match; [apply tx_returns_fail|].
  apply (tx_returns_bind' (fun g => (observations_counted (g_sum g) + 0)%Z = Z.of_nat (length (assets_of s)))).
  { apply (tx_returns_each _ (fun l g => observations_counted (g_sum g) + Z.of_nat (length l) = Z.of_nat (length (assets_of s)))%Z) .
    2: { rewrite length_imap. done. }
    intros x l g Hg dd g' dd' E. apply apply_observation_counts in E. cbn [length] in Hg. lia. }
  intros g Hg. rewrite Z.add_0_r in Hg.
  apply (tx_returns_bind' (fun sum => observations_counted sum = Z.of_nat (length (assets_of s)))).
  { apply (tx_returns_each _ (fun _ sum => observations_counted sum = Z.of_nat (length (assets_of s)))); [|done].
    intros ro l sum Hs dd sum' dd' E. apply apply_relationship_counts in E. lia. }
  intros sum1 Hsum1.
  eapply tx_returns_bind'; [apply markMissing_counts|]. intros sum2 Hsum2. cbn in Hsum2.
  apply tx_returns_bind. intros _. apply tx_returns_ret. by rewrite Hsum2.
Qed.
