(* ===== verification/PgLimits.v ===== *)
(** * Where the persistent engine falls short of its documentation

    Each theorem runs [ApplyPostgres] on a small database. The witnesses of the
    theorems of [PgFacts.v] are here too. *)
From S2P Require Import Prelude GoStrings GoJson Domain Reconcile PgStore ReconcilePg PgFacts.
Open Scope string_scope.
Open Scope list_scope.

(** Runs snapshots one after the other, with a threshold of one. *)
Definition pg_apply (s : SnapshotEnvelope) : tx Summary := @ApplyPostgres plain_postgres sorted_range 1000 s 1.
Definition run_pg (d : DB) (l : list SnapshotEnvelope) : option (Summary * DB) :=
  foldl (fun acc s => '(_, d) ← acc; match pg_apply s d with Ok r => Some r | Err _ => None end) (Some (no_summary, d)) l.

Definition db_after (l : list SnapshotEnvelope) : DB := match run_pg (empty_db []) l with Some (_, d) => d | None => empty_db [] end.

Definition web (id : string) : SnapshotEnvelope := sample_snapshot id id [sample_observation "web" ∅] [].
Definition nothing (id : string) : SnapshotEnvelope := sample_snapshot id id [] [].

Definition statuses (d : DB) : list string := pa_status <$> (map_to_list (d_assets d)).*2.
Definition rows_of_type (typ : string) (d : DB) : nat := length (filter (fun c => pg_type c = typ) (map_to_list (d_changes d)).*2).

Definition retire (d : DB) : DB := on_assets (fmap (with_status AssetRetired)) d.

(** A retired asset does not stay retired: the statement that marks an
    asset missing excludes retired ones, but the one before it has set the
    status to active, so the absence of a retired asset's identity makes it
    missing. *)
Theorem retired_asset_goes_missing :
  (fun r => statuses r.2) <$> run_pg (retire (db_after [web "s1"])) [nothing "s2"] = Some [AssetMissing].
Proof. vm_compute. reflexivity. Qed.

(** One host reported under two names that share an immutable identifier. *)
Definition same_machine (ext : string) : Observation :=
  {| o_id := ""; o_org := ""; o_snapshot := ""; o_connector := ""; o_collector := ""; o_external := ext;
     o_type := Container; o_observed := 5; o_attributes := Some ∅; o_hints := Some {["vm_uuid" := JStr "u-1"]};
     o_fingerprint := ""; o_status := "" |}.

(** An asset with two identities is counted missing twice: when both go
    unseen in one snapshot the summary reports two missing assets and two
    changes for the one asset and the one change that are stored. *)
Theorem two_identities_counted_twice :
  match run_pg (db_after [sample_snapshot "s1" "s1" [same_machine "a"; same_machine "b"] []]) [nothing "s2"] with
  | Some (sum, d) => Missing sum = 2%Z /\ ChangeCount sum = 2%Z /\ statuses d = [AssetMissing] /\ rows_of_type "ASSET_MISSING" d = 1%nat
  | None => False
  end.
Proof. vm_compute. done. Qed.

(** The history misses relationship changes: of two relationships added
    from one asset one change is stored, though the summary counts two, and
    removing them stores none. *)
Theorem relationship_changes_missing :
  let added := sample_snapshot "s1" "s1" [sample_observation "hub" ∅; sample_observation "db" ∅; sample_observation "mq" ∅]
    [sample_relationship "hub" "db" "DEPENDS_ON"; sample_relationship "hub" "mq" "DEPENDS_ON"] in
  let removed := sample_snapshot "s2" "s2" [sample_observation "hub" ∅; sample_observation "db" ∅; sample_observation "mq" ∅] [] in
  match pg_apply added (empty_db []) with
  | Ok (sum, d) =>
      RelationshipsCreated sum = 2%Z /\ ChangeCount sum = 5%Z /\ rows_of_type "RELATIONSHIP_ADDED" d = 1%nat /\
      match pg_apply removed d with
      | Ok (sum', d') => RelationshipsRemoved sum' = 2%Z /\ rows_of_type "RELATIONSHIP_REMOVED" d' = 0%nat
      | Err _ => False
      end
  | Err _ => False
  end.
Proof. vm_compute. done. Qed.

(** ** Witnesses *)

Definition other_tenant : DB := db_after [sample_snapshot_of "other" "docker" "t1" "t1" [same_machine "a"] []].
Definition second_tenant : SnapshotEnvelope := sample_snapshot "s1" "s1" [same_machine "a"] [].
Definition db_of (r : result string (Summary * DB)) : DB := match r with Ok (_, d) => d | Err _ => empty_db [] end.
Definition summary_of (r : result string (Summary * DB)) : Summary := match r with Ok (s, _) => s | Err _ => no_summary end.
Definition both_tenants : DB := db_of (pg_apply second_tenant other_tenant).
Definition both_summary : Summary := summary_of (pg_apply second_tenant other_tenant).

Lemma both_tenants_run : pg_apply second_tenant other_tenant = Ok (both_summary, both_tenants).
Proof. vm_compute. reflexivity. Qed.

Lemma ApplyPostgres_tenant_isolation_witness :
  pg_apply second_tenant other_tenant = Ok (both_summary, both_tenants) /\
  tenant_frame "org" other_tenant both_tenants.
Proof.
  split; [exact both_tenants_run|].
  exact (@ApplyPostgres_tenant_isolation plain_postgres sorted_range 1000 second_tenant 1
    other_tenant both_summary both_tenants both_tenants_run).
Defined.

Definition first_asset (d : DB) (org : string) : string := default "" (st_asset <$> d_strong d !! (org, "vm_uuid", "u-1")).

Lemma ApplyPostgres_never_rebinds_witness :
  first_asset other_tenant "other" <> "" /\
  st_asset <$> d_strong both_tenants !! ("other", "vm_uuid", "u-1") = Some (first_asset other_tenant "other").
Proof.
  split; [vm_compute; discriminate|].
  apply (@ApplyPostgres_never_rebinds plain_postgres sorted_range 1000 second_tenant 1
    other_tenant both_summary both_tenants).
  - exact both_tenants_run.
  - vm_compute. reflexivity.
Defined.

Lemma ApplyPostgres_counts_observations_witness :
  (Created both_summary + Updated both_summary + Unchanged both_summary)%Z = 1%Z.
Proof.
  exact (@ApplyPostgres_counts_observations plain_postgres sorted_range 1000 second_tenant 1
    other_tenant both_summary both_tenants both_tenants_run).
Defined.
