(* ===== verification/RateLimit.v ===== *)
(** * The gateway's rate limiter ([limiter] of [internal/app/app.go])

    Fixed windows per key, under a mutex: one call is one step. *)
From S2P Require Import Prelude.
Open Scope string_scope.
Open Scope list_scope.
Open Scope Z_scope.

Record window := { start : gotime; count : Z }.
Record limiter := { windows : gmap string window; limit : Z; period : Z }.

Definition no_window : window := {| start := 0; count := 0 |}.

(** Lines 87-93: stale windows are dropped when there are too many. *)
Definition prune (now : gotime) (l : limiter) : gmap string window :=
  if 10000 <? Z.of_nat (size (windows l))
  then filter (fun kw => ~ 2 * period l < now - start kw.2) (windows l) else windows l.

(** Lines 94-98: the window a call at [now] falls in, with the call counted. *)
Definition next_window (now period : Z) (w : window) : window :=
  let w := if period <? now - start w then {| start := now; count := 0 |} else w in
  {| start := start w; count := count w + 1 |}.

(** [allow]; [now] is [time.Now()]. *)
Definition allow (now : gotime) (key : string) (l : limiter) : limiter * bool :=
  let ws := prune now l in
  let w := next_window now (period l) (default no_window (ws !! key)) in
  ({| windows := <[key := w]> ws; limit := limit l; period := period l |}, count w <=? limit l).

Definition new_limiter (limit period : Z) : limiter := {| windows := ∅; limit := limit; period := period |}.

(** ** Traces *)

(** The calls of a trace, with what each was answered. *)
Fixpoint answers (l : limiter) (calls : list (gotime * string)) : list (gotime * string * bool) :=
  match calls with
  | [] => []
  | (now, key) :: calls' => let '(l', ok) := allow now key l in (now, key, ok) :: answers l' calls'
  end.

(** The calls on [key] from [a] on, one period long, that were allowed. *)
Definition allowed_in (key : string) (a p : Z) (l : list (gotime * string * bool)) : list (gotime * string * bool) :=
  filter (fun c => c.1.2 = key /\ c.2 = true /\ a <= c.1.1 <= a + p) l.

(** The window is over at [now]. *)
Definition expired (p now : Z) (w : window) : bool := p <? now - start w.

(** What a key's window at [now] still admits in the period that starts at [a]. *)
Definition admits (a p n now : Z) (w : window) : Z :=
  if now <? a then 2 * n else if a + p <? now then 0 else
  if expired p now w then n else Z.max 0 (n - count w) + if a <=? start w then 0 else n.

(** The key's window, as a call at [now] would find it. *)
Definition window_of (l : limiter) (key : string) : window := default no_window (windows l !! key).

Lemma prune_lookup now l key :
  prune now l !! key = windows l !! key \/
  (prune now l !! key = None /\ exists w, windows l !! key = Some w /\ 2 * period l < now - start w).
Proof.
  unfold prune. destruct (_ <? _); [|by left].
  rewrite map_lookup_filter. destruct (windows l !! key) as [w|]; cbn; [|by left].
  destruct (decide (2 * period l < now - start w)) as [Hs|Hs].
  - right. split; [by rewrite option_guard_False by tauto|]. eauto.
  - left. by rewrite option_guard_True.
Qed.

(** A pruned window is one the next call would start again anyway. *)
Lemma next_window_pruned now l key : 0 <= period l -> 0 <= now -> period l < now ->
  next_window now (period l) (default no_window (prune now l !! key)) = next_window now (period l) (window_of l key).
Proof.
  intros Hp Hn Hpn. unfold window_of. destruct (prune_lookup now l key) as [->|(-> & w & -> & Hw)]; [done|].
  unfold next_window. cbn. rewrite (proj2 (Z.ltb_lt _ _)) by lia. by rewrite (proj2 (Z.ltb_lt (period l) (now - start w))) by lia.
Qed.

Lemma allow_window now key l key' : 0 <= period l -> period l < now ->
  let l' := (allow now key l).1 in
  (key' = key -> window_of l' key' = next_window now (period l) (window_of l key')) /\
  (key' <> key -> window_of l' key' = window_of l key' \/
     (window_of l' key' = no_window /\ 2 * period l < now - start (window_of l key'))).
Proof.
  intros Hp Hn l'. unfold l', allow. split.
  - intros ->. unfold window_of at 1. cbn. rewrite lookup_insert_eq. cbn. apply next_window_pruned; lia.
  - intros Hne. unfold window_of. cbn. rewrite lookup_insert_ne by done.
    destruct (prune_lookup now l key') as [->|(-> & w & -> & Hw)]; [by left|]. right. by cbn.
Qed.

Lemma allow_answer now key l : 0 <= period l -> period l < now ->
  (allow now key l).2 = (count (next_window now (period l) (window_of l key)) <=? limit l).
Proof. intros Hp Hn. unfold allow. cbn [snd]. rewrite next_window_pruned by lia. done. Qed.

(** Splits the comparisons of the goal. *)
Ltac compare := unfold admits, expired, next_window in *; cbn [start count] in *;
  repeat match goal with
  | |- context [?x <? ?y] => destruct (Z.ltb_spec x y)
  | |- context [?x <=? ?y] => destruct (Z.leb_spec x y)
  end; cbn [start count] in *.

Section Bound.
Context (a p n : Z) (Hp : 0 <= p) (Ha : p < a) (Hn : 0 <= n).

Lemma admits_bound now w : 0 <= count w -> admits a p n now w <= 2 * n.
Proof. intros Hc. compare; lia. Qed.

(** Time only takes away. *)
Lemma admits_later now now' w : now <= now' -> 0 <= count w -> admits a p n now' w <= admits a p n now w.
Proof. intros Hle Hc. compare; lia. Qed.

(** A call takes what it is granted. *)
Lemma admits_step now w : 0 <= count w ->
  (if (count (next_window now p w) <=? n) && (a <=? now) && (now <=? a + p) then 1 else 0)
    + admits a p n now (next_window now p w) <= admits a p n now w.
Proof. intros Hc. compare; cbn [andb]; lia. Qed.

(** Dropping a window that is over changes nothing. *)
Lemma admits_expired now w : p < now -> 2 * p < now - start w -> admits a p n now no_window = admits a p n now w.
Proof. intros Hnow Hw. unfold no_window. compare; lia. Qed.

Lemma allowed_bound key calls : forall l now,
  period l = p -> limit l = n -> (forall k, 0 <= count (window_of l k)) ->
  StronglySorted (fun x y => x.1 <= y.1) calls -> Forall (fun c => p < c.1 /\ now <= c.1) calls ->
  Z.of_nat (length (allowed_in key a p (answers l calls))) <= admits a p n now (window_of l key).
Proof.
  induction calls as [|[t k] calls IH]; intros l now Hper Hlim Hcount Hsort Hall; cbn [answers].
  { pose proof (Hcount key). cbn. compare; lia. }
  apply Forall_cons in Hall as [[Ht Hnow] Hall]. cbn [fst] in *.
  apply StronglySorted_cons in Hsort as [Hle Hsort].
  destruct (allow t k l) as [l' ok] eqn:E.
  pose proof (allow_window t k l) as Hw. pose proof (allow_answer t k l) as Hok. rewrite E in Hw, Hok. cbn [fst snd] in Hw, Hok.
  assert (period l' = p /\ limit l' = n) as [Hper' Hlim'] by (unfold allow in E; injection E as <- _; done).
  assert (forall k', 0 <= count (window_of l' k')) as Hcount'.
  { intros k'. destruct (Hw k' ltac:(lia) ltac:(lia)) as [H1 H2]. pose proof (Hcount k').
    destruct (decide (k' = k)) as [->|Hne]; [rewrite H1 by done; compare; lia|].
    destruct (H2 Hne) as [->|[-> _]]; [done|cbn; lia]. }
  assert (Forall (fun c => p < c.1 /\ t <= c.1) calls) as Hall'.
  { rewrite Forall_forall in Hall, Hle |- *. intros c Hc. split; [by apply Hall|]. by apply (Hle c). }
  specialize (IH l' t Hper' Hlim' Hcount' Hsort Hall').
  pose proof (admits_later now t (window_of l key) Hnow (Hcount key)).
  unfold allowed_in in *. rewrite filter_cons.
  destruct (Hw key ltac:(lia) ltac:(lia)) as [H1 H2].
  destruct (decide (key = k)) as [<-|Hne].
  - rewrite H1, Hper in IH by done. pose proof (admits_step t (window_of l key) (Hcount key)) as Hstep.
    rewrite Hok, Hper, Hlim by lia. cbn [fst snd].
    destruct (decide _) as [(_ & Hc & Hin1 & Hin2)|Hno].
    + rewrite Hc, (proj2 (Z.leb_le a t)), (proj2 (Z.leb_le t (a + p))) in Hstep by lia. cbn [andb length] in *. lia.
    + destruct (_ && _); lia.
  - rewrite decide_False by (intros [? _]; cbn in *; congruence).
    destruct (H2 Hne) as [E2|[E2 Hexp]]; rewrite E2 in IH; [lia|].
    rewrite (admits_expired t (window_of l key)) in IH by lia. lia.
Qed.

End Bound.

(** The limiter bounds every client: for any calls by any clients at
    times that do not go back, from an empty limiter, a client is granted at
    most twice the limit within any span of one period, wherever it starts;
    dropping stale windows grants nothing more. *)
Theorem allow_bound key calls a p n (Hp : 0 <= p) (Ha : p < a) (Hn : 0 <= n)
    (Hsort : StronglySorted (fun x y => x.1 <= y.1) calls) (Htimes : Forall (fun c => p < c.1) calls) :
  Z.of_nat (length (allowed_in key a p (answers (new_limiter n p) calls))) <= 2 * n.
Proof.
  transitivity (admits a p n p (window_of (new_limiter n p) key)).
  - apply allowed_bound; try done. eapply Forall_impl; [exact Htimes|]. cbn. lia.
  - by apply admits_bound.
Qed.

Lemma allow_bound_witness :
  Z.of_nat (length (allowed_in "ip" 100 60 (answers (new_limiter 1 60)
    [(99, "ip"); (100, "ip"); (101, "other"); (160, "ip"); (161, "ip")]))) <= 2 * 1.
Proof. apply allow_bound; [lia..| |]; repeat constructor; cbn; lia. Defined.

(** Within a window the first [limit] calls are granted and no other: the
    answer to a call depends on the key's own calls only, through its window. *)
Theorem allow_exact now key l (Hp : 0 <= period l) (Hn : period l < now) :
  (allow now key l).2 =
    (if expired (period l) now (window_of l key) then 1 <=? limit l else count (window_of l key) + 1 <=? limit l).
Proof. rewrite allow_answer by done. unfold next_window, expired. by destruct (_ <? _). Qed.

Lemma allow_exact_witness :
  let l := (allow 1000 "a" (new_limiter 1 60)).1 in
  (allow 1001 "a" l).2 = false /\ (allow 1001 "b" l).2 = true /\ (allow 1061 "a" l).2 = true.
Proof.
  intros l. split; [|split].
  - rewrite (allow_exact 1001 "a" l); [vm_compute; reflexivity|vm_compute; discriminate|vm_compute; reflexivity].
  - vm_compute. reflexivity.
  - vm_compute. reflexivity.
Defined.
