(* ===== verification/Gateway.v ===== *)
(** * The collector gateway ([internal/app/app.go])

    [collectorSnapshot] receives a signed snapshot and reconciles it in one
    transaction; [collectorPrincipal], [validSnapshotContract] and [decode] are
    its guards. The tables of the reconciliation are those of [PgStore.v]; the
    gateway's own are here. *)
From S2P Require Import Prelude GoStrings GoJson GoHash Domain Security AuditChain Reconcile PgStore ReconcilePg RateLimit.
Open Scope string_scope.
Open Scope list_scope.

(** ** Tables *)

Record CollectorRow := {
  co_org : string; co_name : string; co_key : string; co_fingerprint : string; co_status : string;
  co_version : option string; co_protocol : option string; co_compatibility : string; co_os : option string;
  co_architecture : option string; co_capabilities : string; co_heartbeat : option gotime; co_enrolled : gotime;
  co_revoked : option gotime }.
Record CredentialRow := { cr_collector : string; cr_hash : string; cr_revoked : option gotime; cr_expires : option gotime }.
Record ConnectorRow := {
  cn_org : string; cn_collector : option string; cn_name : string; cn_type : string; cn_enabled : bool; cn_level : string;
  cn_status : option string; cn_synced : option gotime; cn_created : gotime }.
Record SnapshotRow := {
  sn_org : string; sn_connector : string; sn_collector : string; sn_status : string; sn_sequence : Z;
  sn_started : gotime; sn_completed : gotime; sn_assets : Z; sn_relationships : Z; sn_hash : string; sn_protocol : string }.

Record GatewayDB := {
  gd_collectors : gmap string CollectorRow;
  gd_credentials : gmap string CredentialRow;
  gd_connectors : gmap string ConnectorRow;
  gd_snapshots : gmap string SnapshotRow;
  gd_thresholds : list (string * option string * Z);   (* reconciliation_policies: organization, connector, missing_success_threshold *)
  gd_inventory : DB;
  gd_audit : list Event }.

Definition with_snapshots (v : gmap string SnapshotRow) (inventory : DB) (audit : list Event) (g : GatewayDB) : GatewayDB :=
  {| gd_collectors := gd_collectors g; gd_credentials := gd_credentials g; gd_connectors := gd_connectors g;
     gd_snapshots := v; gd_thresholds := gd_thresholds g; gd_inventory := inventory; gd_audit := audit |}.

(** ** Guards *)

(** [validSnapshotContract]: the envelope's own limits. *)
Definition valid_envelope (s : SnapshotEnvelope) : bool :=
  negb (bool_decide (s_id s = "")) && (len (s_id s) <=? 160)%Z && negb (bool_decide (s_org s = ""))
  && negb (bool_decide (s_collector s = "")) && negb (bool_decide (s_connector s = "")) && (1 <=? s_sequence s)%Z
  && bool_decide (s_protocol s = "1.0") && (Z.of_nat (length (assets_of s)) <=? 100000)%Z
  && (Z.of_nat (length (relationships_of s)) <=? 250000)%Z && (Z.of_nat (length (default [] (s_warnings s))) <=? 1000)%Z
  && (Z.of_nat (size (default ∅ (s_statistics s))) <=? 32)%Z && negb (time_is_zero (s_started s))
  && negb (time_is_zero (s_completed s)) && (s_started s <=? s_completed s)%Z
  && forallb (fun w => len w <=? 2000)%Z (default [] (s_warnings s))
  && forallb (fun kc => 0 <=? kc.2)%Z (map_to_list (default ∅ (s_statistics s))).

(** Lines 743-748: one observation, and the identifiers seen so far. *)
Definition valid_observation (seen : gset string) (o : Observation) : bool :=
  negb (bool_decide (o_external o = "")) && (len (o_external o) <=? 1024)%Z && (len (o_type o) <=? 80)%Z
  && negb (time_is_zero (o_observed o)) && (Z.of_nat (size (attrs o)) <=? 128)%Z && (Z.of_nat (size (hints o)) <=? 32)%Z
  && (len (o_fingerprint o) <=? 128)%Z && (bool_decide (o_status o = "OBSERVED") || bool_decide (o_status o = "UNKNOWN"))
  && negb (bool_decide (o_external o ∈ seen)).

Fixpoint valid_observations (seen : gset string) (l : list Observation) : option (gset string) :=
  match l with
  | [] => Some seen
  | o :: l' => if valid_observation seen o then valid_observations ({[o_external o]} ∪ seen) l' else None
  end.

Definition nul_string : string := String (Ascii.ascii_of_N 0) "".

Definition relationship_id (ro : RelationshipObservation) : string :=
  ro_from ro +:+ nul_string +:+ ro_to ro +:+ nul_string +:+ ro_type ro.

(** Lines 750-756. *)
Definition valid_relationship (assets seen : gset string) (ro : RelationshipObservation) : bool :=
  negb (bool_decide (ro_from ro = "")) && (len (ro_from ro) <=? 1024)%Z && negb (bool_decide (ro_to ro = ""))
  && (len (ro_to ro) <=? 1024)%Z && negb (bool_decide (ro_type ro = "")) && (len (ro_type ro) <=? 80)%Z
  && negb (time_is_zero (ro_observed ro)) && (Z.of_nat (size (default ∅ (ro_attributes ro))) <=? 64)%Z
  && bool_decide (ro_from ro ∈ assets) && bool_decide (ro_to ro ∈ assets) && negb (bool_decide (relationship_id ro ∈ seen)).

Fixpoint valid_relationships (assets seen : gset string) (l : list RelationshipObservation) : bool :=
  match l with
  | [] => true
  | ro :: l' => valid_relationship assets seen ro && valid_relationships assets ({[relationship_id ro]} ∪ seen) l'
  end.

Definition validSnapshotContract (s : SnapshotEnvelope) : bool :=
  valid_envelope s &&
  match valid_observations ∅ (assets_of s) with
  | None => false
  | Some seen => valid_relationships seen ∅ (relationships_of s)
  end.

(** ** Answers *)

(** A status with an error code, or 202 with the snapshot's identifier and
    status, and either its summary or, for a repetition, ["idempotent": true]. *)
Inductive answer :=
| Refused (status : Z) (code : string)
| Accepted (id status : string) (summary : option Summary).

Definition hour : Z := 3600 * nano.
Definition minute : Z := 60 * nano.

Section Gateway.
Context `{Postgres, RangeOrder, Ed25519, UnicodeCase, AuditStore}.

(** The key column read as a public key. *)
Variable public_key : string -> PublicKey.

(** [collectorPrincipal], on the value of the Authorization header. *)
Definition collectorPrincipal (g : GatewayDB) (now : gotime) (header : string) : option (string * string * PublicKey) :=
  let auth := trim_prefix header "Bearer " in
  if bool_decide (auth = "") then None else
  '(_, c) ← find_row (fun c => bool_decide (cr_hash c = TokenHash auth) && bool_decide (cr_revoked c = None)
      && match cr_expires c with None => true | Some t => (now <? t)%Z end
      && bool_decide (is_Some (gd_collectors g !! cr_collector c))) (gd_credentials g);
  collector ← gd_collectors g !! cr_collector c;
  if bool_decide (co_revoked collector = None)
  then Some (cr_collector c, co_org collector, public_key (co_key collector)) else None.

(** Line 662-663: the connector is the collector's, enabled and of the type. *)
Definition connector_bound (g : GatewayDB) (s : SnapshotEnvelope) (id org : string) : bool :=
  match gd_connectors g !! s_connector s with
  | None => false
  | Some c => bool_decide (cn_org c = org) && bool_decide (default "" (cn_collector c) = id) && cn_enabled c
      && equal_fold (cn_type c) (s_connector_type s)
  end.

(** Line 692. *)
Definition max_sequence (g : GatewayDB) (org connector : string) : Z :=
  match filter (fun r => sn_org r = org /\ sn_connector r = connector) (map_to_list (gd_snapshots g)).*2 with
  | [] => 0
  | r :: l => foldl Z.max (sn_sequence r) (sn_sequence <$> l)
  end.

Definition new_snapshot_row (s : SnapshotEnvelope) (id org : string) : SnapshotRow :=
  {| sn_org := org; sn_connector := s_connector s; sn_collector := id; sn_status := "RUNNING"; sn_sequence := s_sequence s;
     sn_started := column_time (s_started s); sn_completed := column_time (s_completed s);
     sn_assets := Z.of_nat (length (assets_of s)); sn_relationships := Z.of_nat (length (relationships_of s));
     sn_hash := s_content_hash s; sn_protocol := s_protocol s |}.

(** Line 700: the primary key and the two unique constraints of the table. *)
Definition snapshot_unique (g : GatewayDB) (s : SnapshotEnvelope) (org : string) : bool :=
  bool_decide (gd_snapshots g !! s_id s = None) &&
  bool_decide (map_Forall (fun _ r => ~ (sn_org r = org /\ sn_connector r = s_connector s /\
    (sn_sequence r = s_sequence s \/ sn_hash r = s_content_hash s))) (gd_snapshots g)).

(** Line 706. *)
Definition missing_threshold (g : GatewayDB) (s : SnapshotEnvelope) (org : string) : Z :=
  match filter (fun p => p.1.1 = org /\ (p.1.2 = None \/ p.1.2 = Some (s_connector s))) (gd_thresholds g) with
  | [] => 2
  | p :: l => foldl Z.min p.2 l.*2
  end.

Definition succeeded (r : SnapshotRow) : SnapshotRow :=
  {| sn_org := sn_org r; sn_connector := sn_connector r; sn_collector := sn_collector r; sn_status := "SUCCEEDED";
     sn_sequence := sn_sequence r; sn_started := sn_started r; sn_completed := sn_completed r; sn_assets := sn_assets r;
     sn_relationships := sn_relationships r; sn_hash := sn_hash r; sn_protocol := sn_protocol r |}.

(** The [Summary] struct: its fields in declaration order. *)
Definition marshal_summary (s : Summary) : list (string * json) :=
  [("Created", JInt (Created s)); ("Updated", JInt (Updated s)); ("Unchanged", JInt (Unchanged s));
   ("Missing", JInt (Missing s)); ("Conflicting", JInt (Conflicting s)); ("RelationshipsCreated", JInt (RelationshipsCreated s));
   ("RelationshipsRemoved", JInt (RelationshipsRemoved s)); ("Changes", JInt (ChangeCount s))].

Definition snapshot_event (s : SnapshotEnvelope) (id org audit_id request : string) (sum : Summary) : Event :=
  {| ev_id := audit_id; ev_org := org; ev_actor := id; ev_action := "collector.snapshot.reconciled";
     ev_rtype := "source_snapshot"; ev_rid := s_id s; ev_request := request;
     ev_payload := Some {["connectorId" := JStr (s_connector s); "assets" := JInt (Z.of_nat (length (assets_of s)));
       "relationships" := JInt (Z.of_nat (length (relationships_of s))); "summary" := JObj (marshal_summary sum)]};
     ev_at := 0; ev_prev := ""; ev_hash := "" |}.

(** Lines 677-725, inside the transaction: on an error it is rolled back. *)
Definition ingest (now : gotime) (g : GatewayDB) (s : SnapshotEnvelope) (id org audit_id request : string) : GatewayDB * answer :=
  let refuse status code := (g, Refused status code) in
  match (r ← gd_snapshots g !! s_id s; if bool_decide (sn_org r = org) then Some r else None) with
  | Some r =>
      if bool_decide (sn_hash r = s_content_hash s) then (g, Accepted (s_id s) (sn_status r) None)
      else refuse 409%Z "snapshot_identity_conflict"
  | None =>
      if (s_sequence s <=? max_sequence g org (s_connector s))%Z then refuse 409%Z "snapshot_replay" else
      if negb (snapshot_unique g s org) then refuse 422%Z "snapshot_rejected" else
      match ApplyPostgres now s (missing_threshold g s org) (gd_inventory g) with
      | Err _ => refuse 422%Z "snapshot_rejected"
      | Ok (sum, inventory) =>
          match Append now (gd_audit g) (snapshot_event s id org audit_id request sum) with
          | Err _ => refuse 500%Z "internal_error"
          | Ok audit =>
              (with_snapshots (<[s_id s := succeeded (new_snapshot_row s id org)]> (gd_snapshots g)) inventory audit g,
               Accepted (s_id s) "SUCCEEDED" (Some sum))
          end
      end
  end.

(** [collectorSnapshot]: [body] is what [decode] made of the request's body. *)
Definition collectorSnapshot (now : gotime) (g : GatewayDB) (l : limiter) (header : string)
    (body : result (Z * string) SnapshotEnvelope) (audit_id request : string) : GatewayDB * limiter * answer :=
  match collectorPrincipal g now header with
  | None => (g, l, Refused 401 "collector_unauthorized")
  | Some (id, org, pub) =>
      let '(l, ok) := allow now id l in
      if negb ok then (g, l, Refused 429 "rate_limited") else
      match body with
      | Err (status, code) => (g, l, Refused status code)
      | Ok s =>
          if negb (bool_decide (s_collector s = id)) || negb (bool_decide (s_org s = org))
          then (g, l, Refused 403 "collector_binding_mismatch") else
          if negb (validSnapshotContract s) then (g, l, Refused 422 "snapshot_contract_invalid") else
          if ((24 * hour <? now - s_completed s) || (now + 5 * minute <? s_completed s))%Z
          then (g, l, Refused 409 "snapshot_timestamp_invalid") else
          match VerifySnapshot s pub with
          | Err _ => (g, l, Refused 401 "invalid_snapshot_signature")
          | Ok _ =>
              if negb (connector_bound g s id org) then (g, l, Refused 403 "connector_binding_mismatch") else
              let '(g, a) := ingest now g s id org audit_id request in (g, l, a)
          end
      end
  end.

End Gateway.
