(* ===== verification/GatewayFacts.v ===== *)
(** * What the gateway lets through *)
From S2P Require Import Prelude GoStrings GoJson GoHash Domain Security SecurityFacts AuditChain Reconcile PgStore ReconcilePg PgFacts RateLimit Gateway.
Open Scope string_scope.
Open Scope list_scope.

Lemma foldl_max_mono (l : list Z) b b' : (b <= b')%Z -> (b <= foldl Z.max b' l)%Z.
Proof. revert b'. induction l as [|x l IH]; intros b' Hb; cbn; [done|]. apply IH. lia. Qed.

Lemma foldl_max_elem (l : list Z) b x : x = b \/ x ∈ l -> (x <= foldl Z.max b l)%Z.
Proof.
  revert b. induction l as [|y l IH]; intros b Hx; cbn.
  - destruct Hx as [->|Hx]; [done|by apply not_elem_of_nil in Hx].
  - destruct Hx as [->|[->|Hx]%elem_of_cons].
    + apply foldl_max_mono. lia.
    + apply foldl_max_mono. lia.
    + apply IH. by right.
Qed.

Lemma foldl_max_in (l : list Z) b : foldl Z.max b l = b \/ foldl Z.max b l ∈ l.
Proof.
  revert b. induction l as [|y l IH]; intros b; cbn; [by left|].
  destruct (IH (Z.max b y)) as [E|E].
  - rewrite E. destruct (Z.max_spec b y) as [[_ ->]|[_ ->]]; [right; left|by left].
  - right. by right.
Qed.

Section Facts.
Context `{Postgres, RangeOrder, Ed25519, UnicodeCase, AuditStore} (public_key : string -> PublicKey).

(** The header carries a live credential of collector [id] of [org]. *)
Definition live_credential (g : GatewayDB) (now : gotime) (header id org : string) (pub : PublicKey) : Prop :=
  exists k c collector, gd_credentials g !! k = Some c /\ cr_hash c = TokenHash (trim_prefix header "Bearer ") /\
    cr_revoked c = None /\ (forall t, cr_expires c = Some t -> (now < t)%Z) /\ cr_collector c = id /\
    gd_collectors g !! id = Some collector /\ co_revoked collector = None /\ co_org collector = org /\
    pub = public_key (co_key collector).

Lemma collectorPrincipal_live g now header id org pub :
  collectorPrincipal public_key g now header = Some (id, org, pub) -> live_credential g now header id org pub.
Proof.
  unfold collectorPrincipal. case_bool_decide; [done|].
  destruct (find_row _ _) as [[k c]|] eqn:Ef; cbn; [|done].
  apply find_row_Some in Ef as [Hk Hc].
  apply andb_true_iff in Hc as [Hc Hjoin]. apply andb_true_iff in Hc as [Hc Hexp]. apply andb_true_iff in Hc as [Hh Hr].
  apply bool_decide_eq_true in Hh, Hr, Hjoin.
  destruct (gd_collectors g !! cr_collector c) as [co|] eqn:Eco; cbn; [|done].
  case_bool_decide as Hrev; [|done]. intros [= <- <- <-].
  exists k, c, co. split_and!; try done. intros t Ht. rewrite Ht in Hexp. lia.
Qed.

(** Everything the gateway requires of a snapshot it applies. *)
Definition admissible (g : GatewayDB) (now : gotime) (header : string) (s : SnapshotEnvelope) : Prop :=
  exists pub, live_credential g now header (s_collector s) (s_org s) pub /\
    VerifySnapshot s pub = Ok tt /\ validSnapshotContract s = true /\
    (now - 24 * hour <= s_completed s <= now + 5 * minute)%Z /\
    connector_bound g s (s_collector s) (s_org s) = true /\
    gd_snapshots g !! s_id s = None /\ (max_sequence g (s_org s) (s_connector s) < s_sequence s)%Z.

(** The answer to a snapshot that was applied, not repeated. *)
Definition applied_as (id : string) (a : answer) : Prop := exists st sum, a = Accepted id st (Some sum).

#[export] Instance applied_as_dec id a : Decision (applied_as id a).
Proof.
  destruct a as [?|id' st [sum|]]; [right; by intros (?&?&?)| |right; by intros (?&?&?)].
  destruct (decide (id' = id)) as [->|Hne]; [left; by exists st, sum|right; intros (?&?&?); congruence].
Defined.

(** A request is refused or repeated, and changes nothing, or it applies a new snapshot. *)
Lemma ingest_cases now g s id org audit_id request g' a :
  ingest now g s id org audit_id request = (g', a) ->
  (g' = g /\ forall i, ~ applied_as i a) \/
  (gd_snapshots g !! s_id s = None /\ (max_sequence g org (s_connector s) < s_sequence s)%Z /\
   exists sum inventory audit, ApplyPostgres now s (missing_threshold g s org) (gd_inventory g) = Ok (sum, inventory) /\
     Append now (gd_audit g) (snapshot_event s id org audit_id request sum) = Ok audit /\
     a = Accepted (s_id s) "SUCCEEDED" (Some sum) /\
     g' = with_snapshots (<[s_id s := succeeded (new_snapshot_row s id org)]> (gd_snapshots g)) inventory audit g).
Proof.
  assert (Hno : forall i st code, ~ applied_as i (Refused st code)) by (intros ? ? ? (?&?&?); done).
  assert (Hno' : forall i j st, ~ applied_as i (Accepted j st None)) by (intros ? ? ? (?&?&?); done).
  unfold ingest. case_match.
  { case_bool_decide; intros [= <- <-]; left; eauto. }
  destruct (_ <=? _)%Z eqn:E1; [intros [= <- <-]; left; eauto|].
  destruct (snapshot_unique g s org) eqn:E2; cbn [negb]; [|intros [= <- <-]; left; eauto].
  destruct (ApplyPostgres _ _ _ _) as [[sum inventory]|] eqn:E3; [|intros [= <- <-]; left; eauto].
  destruct (Append _ _ _) as [audit|] eqn:E4; [|intros [= <- <-]; left; eauto].
  intros [= <- <-]. right. apply Z.leb_gt in E1.
  unfold snapshot_unique in E2. apply andb_true_iff in E2 as [E2%bool_decide_eq_true _]. eauto 10.
Qed.

Lemma collectorSnapshot_cases now g l header body audit_id request g' l' a :
  collectorSnapshot public_key now g l header body audit_id request = (g', l', a) ->
  (g' = g /\ forall i, ~ applied_as i a) \/
  exists s sum, body = Ok s /\ admissible g now header s /\ a = Accepted (s_id s) "SUCCEEDED" (Some sum) /\
    ingest now g s (s_collector s) (s_org s) audit_id request = (g', a).
Proof.
  assert (Hno : forall i st code, ~ applied_as i (Refused st code)) by (intros ? ? ? (?&?&?); done).
  unfold collectorSnapshot.
  destruct (collectorPrincipal _ _ _ _) as [[[id org] pub]|] eqn:Ep; [|intros [= <- _ <-]; left; eauto].
  destruct (allow now id l) as [l1 ok]. destruct ok; cbn [negb]; [|intros [= <- _ <-]; left; eauto].
  destruct body as [s|[st code]]; [|intros [= <- _ <-]; left; eauto].
  destruct (_ || _) eqn:Eb; [intros [= <- _ <-]; left; eauto|].
  apply orb_false_iff in Eb as [Hid%negb_false_iff%bool_decide_eq_true Horg%negb_false_iff%bool_decide_eq_true].
  destruct (validSnapshotContract s) eqn:Ec; cbn [negb]; [|intros [= <- _ <-]; left; eauto].
  destruct (_ || _)%Z eqn:Et; [intros [= <- _ <-]; left; eauto|].
  apply orb_false_iff in Et as [Et1%Z.ltb_ge Et2%Z.ltb_ge].
  destruct (VerifySnapshot s pub) as [[]|] eqn:Ev; [|intros [= <- _ <-]; left; eauto].
  destruct (connector_bound g s id org) eqn:Ecb; cbn [negb]; [|intros [= <- _ <-]; left; eauto].
  destruct (ingest _ _ _ _ _ _ _) as [g1 a1] eqn:Ei. intros [= <- <- <-].
  apply collectorPrincipal_live in Ep.
  destruct (ingest_cases _ _ _ _ _ _ _ _ _ Ei) as [[-> ?]|(Hnew & Hseq & sum & ? & ? & _ & _ & -> & _)]; [left; eauto|]. right.
  exists s, sum. rewrite Hid, Horg. split_and!; try done. exists pub. rewrite Hid, Horg. split_and!; try done; lia.
Qed.

End Facts.

(** C1. Nothing enters the inventory unauthenticated: if a request changes
    anything in the database, then it carried a live credential of the
    snapshot's own collector and organization, the snapshot verified under that
    collector's key, kept the contract's limits, was at most a day old, came
    from an enabled connector bound to the collector, and was new, with a
    sequence number above all the connector's earlier ones; it was then
    reconciled, recorded as succeeded and audited in one step. *)
Theorem collectorSnapshot_guards `{Postgres, RangeOrder, Ed25519, UnicodeCase, AuditStore} public_key
    now g l header body audit_id request g' l' a
    (Hstep : collectorSnapshot public_key now g l header body audit_id request = (g', l', a)) (Hchanged : g' <> g) :
  exists s sum audit, body = Ok s /\ admissible public_key g now header s /\
    a = Accepted (s_id s) "SUCCEEDED" (Some sum) /\
    ApplyPostgres now s (missing_threshold g s (s_org s)) (gd_inventory g) = Ok (sum, gd_inventory g') /\
    Append now (gd_audit g) (snapshot_event s (s_collector s) (s_org s) audit_id request sum) = Ok audit /\
    gd_audit g' = audit /\
    gd_snapshots g' = <[s_id s := succeeded (new_snapshot_row s (s_collector s) (s_org s))]> (gd_snapshots g).
Proof.
  apply collectorSnapshot_cases in Hstep as [[-> _]|(s & sum & -> & Hadm & -> & Hi)]; [done|].
  apply ingest_cases in Hi as [[-> _]|(_ & _ & sum' & inventory & audit & Happly & Haudit & [= <-] & ->)]; [done|].
  exists s, sum, audit. done.
Qed.

(** ** Sequences of requests *)

Record Request := {
  rq_now : gotime; rq_header : string; rq_body : result (Z * string) SnapshotEnvelope; rq_audit : string; rq_id : string }.

(** The answers that applied a snapshot of this identifier. *)
Definition applications (id : string) (answers : list answer) : nat :=
  length (filter (applied_as id) answers).

Lemma applications_cons id a l : applications id (a :: l) = (applications id [a] + applications id l)%nat.
Proof. unfold applications. cbn. by case_decide. Qed.

Definition recorded (g : GatewayDB) (id : string) : nat := if gd_snapshots g !! id then 1 else 0.

(** The sequence number of the snapshot a request applied, if it is of this connector. *)
Definition applied_sequence (org connector : string) (r : Request) (a : answer) : list Z :=
  match rq_body r, a with
  | Ok s, Accepted _ _ (Some _) => if decide (s_org s = org /\ s_connector s = connector) then [s_sequence s] else []
  | _, _ => []
  end.

Definition applied_sequences (org connector : string) (requests : list Request) (answers : list answer) : list Z :=
  concat (zip_with (applied_sequence org connector) requests answers).

Section Trace.
Context `{Postgres, RangeOrder, Ed25519, UnicodeCase, AuditStore} (public_key : string -> PublicKey).

Definition serve (g : GatewayDB) (l : limiter) (r : Request) : GatewayDB * limiter * answer :=
  collectorSnapshot public_key (rq_now r) g l (rq_header r) (rq_body r) (rq_audit r) (rq_id r).

(** The answers to a sequence of requests, and the database they leave. *)
Fixpoint serve_all (g : GatewayDB) (l : limiter) (requests : list Request) : GatewayDB * list answer :=
  match requests with
  | [] => (g, [])
  | r :: requests' =>
      let '(g', l', a) := serve g l r in
      let '(g'', answers) := serve_all g' l' requests' in (g'', a :: answers)
  end.

(** What one request does to the snapshots' table. *)
Lemma serve_snapshots g l r g' l' a :
  serve g l r = (g', l', a) ->
  (gd_snapshots g' = gd_snapshots g /\ forall i, ~ applied_as i a) \/
  exists s sum, rq_body r = Ok s /\ a = Accepted (s_id s) "SUCCEEDED" (Some sum) /\ gd_snapshots g !! s_id s = None /\
    (max_sequence g (s_org s) (s_connector s) < s_sequence s)%Z /\
    gd_snapshots g' = <[s_id s := succeeded (new_snapshot_row s (s_collector s) (s_org s))]> (gd_snapshots g).
Proof.
  intros [[-> Hno]|(s & sum & Hb & _ & -> & Hi)]%collectorSnapshot_cases; [by left|].
  apply ingest_cases in Hi as [[-> Hno]|(Hnew & Hseq & sum' & inventory & audit & _ & _ & [= <-] & ->)].
  { left. by split. }
  right. by exists s, sum.
Qed.

Lemma serve_keeps g l r g' l' a k row :
  serve g l r = (g', l', a) -> gd_snapshots g !! k = Some row -> gd_snapshots g' !! k = Some row.
Proof.
  intros [[-> _]|(s & sum & _ & _ & Hnew & _ & ->)]%serve_snapshots Hk; [done|].
  rewrite lookup_insert_ne; [done|]. intros <-. congruence.
Qed.

Lemma serve_all_keeps requests g l g' answers k row :
  serve_all g l requests = (g', answers) -> gd_snapshots g !! k = Some row -> gd_snapshots g' !! k = Some row.
Proof.
  revert g l g' answers. induction requests as [|r requests IH]; intros g l g' answers; cbn; [by intros [= <- _]|].
  destruct (serve g l r) as [[g1 l1] a] eqn:Es. destruct (serve_all g1 l1 requests) as [g2 as2] eqn:Ea.
  intros [= <- _] Hk. eapply IH; [done|]. by eapply serve_keeps.
Qed.

End Trace.

Section Sequences.
(** The largest sequence number of a connector. *)

Lemma max_sequence_eq g org connector :
  (max_sequence g org connector = 0 /\ filter (fun r => sn_org r = org /\ sn_connector r = connector) (map_to_list (gd_snapshots g)).*2 = [])%Z \/
  (exists k r, gd_snapshots g !! k = Some r /\ sn_org r = org /\ sn_connector r = connector /\ max_sequence g org connector = sn_sequence r).
Proof.
  unfold max_sequence. destruct (filter _ _) as [|r l] eqn:Ef; [by left|]. right.
  assert (Hin : forall x, x ∈ r :: l -> exists k, gd_snapshots g !! k = Some x /\ sn_org x = org /\ sn_connector x = connector).
  { intros x. rewrite <- Ef. intros [Hx [[k y] [-> Hy%elem_of_map_to_list]]%list_elem_of_fmap]%list_elem_of_filter. by exists k. }
  destruct (foldl_max_in (sn_sequence <$> l) (sn_sequence r)) as [E|E].
  - destruct (Hin r) as (k & ? & ? & ?); [left|]. by exists k, r.
  - apply list_elem_of_fmap in E as [y [E Hy]]. destruct (Hin y) as (k & ? & ? & ?); [by right|]. by exists k, y.
Qed.

Lemma max_sequence_ge g k r :
  gd_snapshots g !! k = Some r -> (sn_sequence r <= max_sequence g (sn_org r) (sn_connector r))%Z.
Proof.
  intros Hk. unfold max_sequence.
  assert (Hin : r ∈ filter (fun x => sn_org x = sn_org r /\ sn_connector x = sn_connector r) (map_to_list (gd_snapshots g)).*2).
  { apply list_elem_of_filter. split; [done|]. apply list_elem_of_fmap. exists (k, r). by rewrite elem_of_map_to_list. }
  destruct (filter _ _) as [|x l]; [by apply not_elem_of_nil in Hin|]. apply foldl_max_elem.
  apply elem_of_cons in Hin as [->|Hin]; [by left|]. right. apply list_elem_of_fmap. by exists r.
Qed.

Context `{Postgres, RangeOrder, Ed25519, UnicodeCase, AuditStore} (public_key : string -> PublicKey).

(** A request never lowers the largest sequence number; what it applies lies above
    the old one and within the new one. *)
Lemma serve_sequence org connector g l r g' l' a :
  serve public_key g l r = (g', l', a) ->
  (max_sequence g org connector <= max_sequence g' org connector)%Z /\
  (applied_sequence org connector r a = [] \/ exists z, applied_sequence org connector r a = [z] /\
    (max_sequence g org connector < z <= max_sequence g' org connector)%Z).
Proof.
  intros Hs. pose proof (fun k row => serve_keeps public_key _ _ _ _ _ _ k row Hs) as Hkeep.
  apply serve_snapshots in Hs as [[Heq Hno]|(s & sum & Hb & -> & Hnew & Hseq & Hins)].
  - unfold max_sequence. rewrite Heq. split; [lia|]. left. unfold applied_sequence. destruct (rq_body r); [|done].
    destruct a as [|i st [sum|]]; [done| |done]. destruct (Hno i). by exists st, sum.
  - unfold applied_sequence. rewrite Hb.
    assert (Hge : (s_sequence s <= max_sequence g' (s_org s) (s_connector s))%Z).
    { apply (max_sequence_ge g' (s_id s) (succeeded (new_snapshot_row s (s_collector s) (s_org s)))).
      by rewrite Hins, lookup_insert_eq. }
    case_decide as Hc; [destruct Hc as [<- <-]; split; [lia|]; right; eexists; split; [done|lia]|].
    split; [|by left].
    destruct (max_sequence_eq g org connector) as [[-> Hnone]|(k & row & Hk & <- & <- & ->)].
    + destruct (max_sequence_eq g' org connector) as [[-> _]|(k & row & Hk & Ho & Hcn & _)]; [lia|]. exfalso.
      rewrite Hins in Hk. apply lookup_insert_Some in Hk as [[_ <-]|[_ Hk]]; [by destruct Hc|].
      apply (not_elem_of_nil row). rewrite <- Hnone. apply list_elem_of_filter. split; [done|].
      apply list_elem_of_fmap. exists (k, row). by rewrite elem_of_map_to_list.
    + apply (max_sequence_ge g' k). by apply Hkeep.
Qed.

Lemma serve_all_sequences org connector requests g l :
  StronglySorted Z.lt (max_sequence g org connector
    :: applied_sequences org connector requests (serve_all public_key g l requests).2).
Proof.
  revert g l. induction requests as [|r requests IH]; intros g l; [by repeat constructor|].
  cbn [serve_all]. destruct (serve public_key g l r) as [[g1 l1] a] eqn:Es.
  specialize (IH g1 l1). destruct (serve_all public_key g1 l1 requests) as [g2 answers]. cbn in IH |- *.
  change (applied_sequences org connector (r :: requests) (a :: answers))
    with (applied_sequence org connector r a ++ applied_sequences org connector requests answers).
  apply StronglySorted_inv in IH as [IH Hall].
  apply (serve_sequence org connector) in Es as [Hmono [->|(z & -> & Hz)]]; cbn.
  - constructor; [done|]. eapply Forall_impl; [exact Hall|]. cbn. lia.
  - constructor; [constructor; [done|]|constructor; [lia|]]; (eapply Forall_impl; [exact Hall|]); cbn; lia.
Qed.

Lemma serve_recorded id g l r g' l' a :
  serve public_key g l r = (g', l', a) -> (applications id [a] + recorded g id = recorded g' id)%nat.
Proof.
  unfold applications, recorded. rewrite filter_cons, filter_nil.
  intros [[-> Hno]|(s & sum & _ & -> & Hnew & _ & ->)]%serve_snapshots.
  - by rewrite decide_False by done.
  - destruct (decide (s_id s = id)) as [<-|Hne].
    + rewrite decide_True by (by eexists _, _). by rewrite Hnew, lookup_insert_eq.
    + rewrite decide_False by (intros (?&?&[=]); done). by rewrite lookup_insert_ne.
Qed.

Lemma serve_all_recorded id requests g l :
  (applications id (serve_all public_key g l requests).2 + recorded g id
  = recorded (serve_all public_key g l requests).1 id)%nat.
Proof.
  revert g l. induction requests as [|r requests IH]; intros g l; [done|].
  cbn [serve_all]. destruct (serve public_key g l r) as [[g1 l1] a] eqn:Es.
  apply (serve_recorded id) in Es. specialize (IH g1 l1).
  destruct (serve_all public_key g1 l1 requests) as [g2 answers]. cbn [fst snd] in IH |- *.
  rewrite <- IH, <- Es, applications_cons. lia.
Qed.

End Sequences.

(** C2. Exactly once, in order: over any sequence of requests (retried,
    duplicated or reordered by collectors and the network), the answers that
    applied a snapshot of an identifier are as many as the rows recorded for
    it, hence at most one, none when it was recorded before, and one for each
    new row; and the sequence numbers applied for one connector, after the
    largest recorded at the start, strictly increase. *)
Theorem snapshots_applied_once_in_order `{Postgres, RangeOrder, Ed25519, UnicodeCase, AuditStore} public_key g l requests :
  (forall id, (applications id (serve_all public_key g l requests).2 + recorded g id
      = recorded (serve_all public_key g l requests).1 id)%nat) /\
  (forall org connector, StronglySorted Z.lt (max_sequence g org connector
      :: applied_sequences org connector requests (serve_all public_key g l requests).2)).
Proof. split; intros; [apply serve_all_recorded|apply serve_all_sequences]. Qed.


(** ** A collector, to run the gateway *)

#[local] Existing Instances plain_postgres sorted_range toy_ed25519 ascii_case microseconds.

Definition sample_gateway : GatewayDB :=
  {| gd_collectors := {["collector" := {| co_org := "org"; co_name := "c"; co_key := "key"; co_fingerprint := ""; co_status := "ACTIVE"; co_version := None;
       co_protocol := None; co_compatibility := "COMPATIBLE"; co_os := None; co_architecture := None; co_capabilities := "[]";
       co_heartbeat := None; co_enrolled := 0; co_revoked := None |}]};
     gd_credentials := {["credential" := {| cr_collector := "collector"; cr_hash := TokenHash "token"; cr_revoked := None; cr_expires := None |}]};
     gd_connectors := {["docker" := {| cn_org := "org"; cn_collector := Some "collector"; cn_name := "d"; cn_type := "docker"; cn_enabled := true;
       cn_level := "OBSERVED"; cn_status := None; cn_synced := None; cn_created := 0 |}]};
     gd_snapshots := ∅; gd_thresholds := []; gd_inventory := empty_db []; gd_audit := [] |}.

Definition column_key (k : string) : @PublicKey toy_ed25519 := k.

Definition just_after : gotime := 63000000001000000001.


Lemma collectorSnapshot_guards_witness :
  exists g' l' a s sum, collectorSnapshot column_key just_after sample_gateway (new_limiter 30 minute)
    "Bearer token" (Ok signed_snapshot) "audit-1" "r1" = (g', l', a) /\ g' <> sample_gateway /\
    @Ok (Z * string) _ signed_snapshot = Ok s /\ a = Accepted (s_id s) "SUCCEEDED" (Some sum).
Proof.
  destruct (collectorSnapshot column_key just_after sample_gateway (new_limiter 30 minute)
    "Bearer token" (Ok signed_snapshot) "audit-1" "r1") as [[g' l'] a] eqn:E.
  assert (Hchanged : g' <> sample_gateway).
  { assert (is_Some (gd_snapshots (collectorSnapshot column_key just_after sample_gateway (new_limiter 30 minute)
      "Bearer token" (Ok signed_snapshot) "audit-1" "r1").1.1 !! "snap-1")) as Hsome
      by (refine (proj1 (bool_decide_eq_true _) _); vm_compute; reflexivity).
    rewrite E in Hsome. clear E. cbn [fst] in Hsome. intros ->. destruct Hsome as [row Hrow]. discriminate Hrow. }
  destruct (collectorSnapshot_guards column_key just_after sample_gateway (new_limiter 30 minute)
    "Bearer token" (Ok signed_snapshot) "audit-1" "r1" g' l' a E Hchanged) as (s & sum & audit & Hs & _ & Ha & _).
  exists g', l', a, s, sum. exact (conj eq_refl (conj Hchanged (conj Hs Ha))).
Defined.
