(* ===== verification/Collector.v ===== *)
(** * The collector agent ([cmd/infragraph-collector/main.go])

    The agent's loop: heartbeat, flush the spool, discover, sign, queue, flush.
    Its state is the data directory; every system call may succeed, fail or be
    the last one before the process dies, so a run is a computation over the
    directory and a list of ticks, one per system call, that say what happened.
    A run that is out of ticks was killed there. What a discovery found is in
    the tick; the discovery itself, the environment and enrolment are in
    CollectorSetup.v. *)
From S2P Require Import Prelude GoStrings GoJson GoHash Domain Security.
Open Scope string_scope.
Open Scope list_scope.

(** ** The world *)

Inductive Entry := Directory | Regular (content : string) (modified : gotime).

#[export] Instance entry_eq_dec : EqDecision Entry.
Proof. solve_decision. Defined.

(** The data directory, its [spool] directory, and what the control plane has
    answered to the snapshots posted so far: body and status. *)
Record World := {
  data : gmap string Entry;
  spool : option (gmap string Entry);
  answered : list (string * Z) }.

Inductive place := Data | Spool.

Definition files (p : place) (w : World) : gmap string Entry :=
  match p with Data => data w | Spool => default ∅ (spool w) end.

Definition set_files (p : place) (m : gmap string Entry) (w : World) : World :=
  match p with
  | Data => {| data := m; spool := spool w; answered := answered w |}
  | Spool => {| data := data w; spool := Some m; answered := answered w |}
  end.

Definition is_dir (e : Entry) : bool := match e with Directory => true | _ => false end.

(** ** System calls *)

(** How far a call that did not return normally got: not at all, or up to the
    content it left. [Dying] calls are not returned from. *)
Inductive fault := NoFault | Failing (partial : option string) | Dying (partial : option string).

(** What one system call meets: its fault, whether a file can be read, the
    time, the control plane's status, what a discovery found. *)
Record Tick := {
  tk_fault : fault; tk_unreadable : bool; tk_clock : gotime; tk_status : Z;
  tk_found : result string (list Observation * list RelationshipObservation) }.

Inductive outcome (A : Type) :=
| Done (a : A) (rest : list Tick)
| Raised (e : string) (rest : list Tick)
| Killed.
Arguments Done {A}. Arguments Raised {A}. Arguments Killed {A}.

Definition io (A : Type) := World -> list Tick -> World * outcome A.

#[export] Instance io_ret : MRet io := fun A a w ticks => (w, Done a ticks).
#[export] Instance io_bind : MBind io := fun A B f m w ticks =>
  match m w ticks with
  | (w, Done a rest) => f a w rest
  | (w, Raised e rest) => (w, Raised e rest)
  | (w, Killed) => (w, Killed)
  end.

Definition raise {A} (e : string) : io A := fun w ticks => (w, Raised e ticks).

(** The error as a value, as [if err := f(); err != nil]. *)
Definition attempt {A} (m : io A) : io (result string A) := fun w ticks =>
  match m w ticks with
  | (w, Done a rest) => (w, Done (Ok a) rest)
  | (w, Raised e rest) => (w, Done (Err e) rest)
  | (w, Killed) => (w, Killed)
  end.

Inductive verdict (A : Type) := Value (a : A) | Failure (e : string) | Death.
Arguments Value {A}. Arguments Failure {A}. Arguments Death {A}.

Definition call {A} (f : Tick -> World -> World * verdict A) : io A := fun w ticks =>
  match ticks with
  | [] => (w, Killed)
  | t :: rest =>
      match f t w with
      | (w, Value a) => (w, Done a rest)
      | (w, Failure e) => (w, Raised e rest)
      | (w, Death) => (w, Killed)
      end
  end.

(** A call that changes the world at once: a fault leaves it undone or done. *)
Definition atomic (change : World -> result string World) (t : Tick) (w : World) : World * verdict unit :=
  let done_ := match change w with Ok w' => w' | Err _ => w end in
  match tk_fault t with
  | NoFault => match change w with Ok w' => (w', Value tt) | Err e => (w, Failure e) end
  | Failing _ => (w, Failure "input/output error")
  | Dying None => (w, Death)
  | Dying (Some _) => (done_, Death)
  end.

(** A call that only reads. *)
Definition reading {A} (read : World -> result string A) (t : Tick) (w : World) : World * verdict A :=
  match tk_fault t with
  | Dying _ => (w, Death)
  | _ => if tk_unreadable t then (w, Failure "input/output error") else
         match read w with Ok a => (w, Value a) | Err e => (w, Failure e) end
  end.

Definition now : io gotime := call (fun t w => match tk_fault t with Dying _ => (w, Death) | _ => (w, Value (tk_clock t)) end).

(** [os.ReadFile]. *)
Definition read_file (p : place) (name : string) : io string :=
  call (reading (fun w => match files p w !! name with
    | Some (Regular c _) => Ok c | Some Directory => Err "is a directory" | None => Err "no such file or directory" end)).

(** [os.WriteFile]: truncates, then writes; a fault leaves any content. *)
Definition write_file (p : place) (name content : string) : io unit :=
  call (fun t w =>
    let put c := set_files p (<[name := Regular c (tk_clock t)]> (files p w)) w in
    let part c := match c with Some c => put c | None => w end in
    match tk_fault t with
    | NoFault => if bool_decide (files p w !! name = Some Directory) then (w, Failure "is a directory")
                 else (put content, Value tt)
    | Failing c => (part c, Failure "input/output error")
    | Dying c => (part c, Death)
    end).

(** [os.Rename] within a directory. *)
Definition rename (p : place) (old new : string) : io unit :=
  call (atomic (fun w =>
    match files p w !! old with
    | None => Err "no such file or directory"
    | Some e => if bool_decide (files p w !! new = Some Directory) then Err "file exists"
                else Ok (set_files p (<[new := e]> (delete old (files p w))) w)
    end)).

(** [os.Remove]. *)
Definition remove (p : place) (name : string) : io unit :=
  call (atomic (fun w =>
    match files p w !! name with
    | None => Err "no such file or directory"
    | Some _ => Ok (set_files p (delete name (files p w)) w)
    end)).

(** [os.MkdirAll] of the spool. *)
Definition make_spool : io unit := call (atomic (fun w => Ok (set_files Spool (files Spool w) w))).

(** [os.ReadDir] of the spool: the names in order, [None] when it does not exist. *)
Definition read_spool : io (option (list (string * Entry))) :=
  call (reading (fun w => Ok (sorted_entries <$> spool w))).

(** [entry.Info()]: of an entry another process removed there is none. *)
Definition info (name : string) : io Entry :=
  call (reading (fun w => match files Spool w !! name with Some e => Ok e | None => Err "no such file or directory" end)).

(** [postBytes] to the snapshot endpoint: a fault may lose the answer after
    the control plane has it. *)
Definition status_error (status : Z) : result string unit :=
  if ((status <? 200) || (300 <=? status))%Z then Err ("control plane returned " +:+ format_int status) else Ok tt.

Definition post_snapshot (raw : string) : io unit :=
  call (fun t w =>
    let sent := {| data := data w; spool := spool w; answered := answered w ++ [(raw, tk_status t)] |} in
    let part c := match c : option string with Some _ => sent | None => w end in
    match tk_fault t with
    | NoFault => (sent, match status_error (tk_status t) with Ok _ => Value tt | Err e => Failure e end)
    | Failing c => (part c, Failure "connection lost")
    | Dying c => (part c, Death)
    end).

(** [heartbeat]: its body carries no snapshot. *)
Definition heartbeat : io unit :=
  call (fun t w => match tk_fault t with
    | NoFault => (w, match status_error (tk_status t) with Ok _ => Value tt | Err e => Failure e end)
    | Failing _ => (w, Failure "connection lost")
    | Dying _ => (w, Death)
    end).

Definition discover : io (list Observation * list RelationshipObservation) :=
  call (fun t w => match tk_fault t with
    | Dying _ => (w, Death)
    | _ => match tk_found t with Ok found => (w, Value found) | Err e => (w, Failure e) end
    end).

(** ** Numbers and times *)

(** Nanoseconds from Go's zero time to the Unix epoch. *)
Definition unix_epoch : gotime := 62135596800 * nano.

(** [t.UnixNano()]. *)
Definition unix_nano (t : gotime) : Z := wrap64 (t - unix_epoch).

(** [fmt.Sprintf("%020d", n)]. *)
Definition pad20 (n : Z) : string :=
  if (n <? 0)%Z then "-" +:+ pad_zero 19 (format_int (- n)) else pad_zero 20 (format_int n).

(** ** Sequence numbers *)

Definition parsed_sequence (raw : result string string) : Z :=
  match raw with Ok raw => (parse_int (trim_space raw)).1 | Err _ => 0%Z end.

Definition next_after (previous unix : Z) : Z :=
  if (unix <=? previous)%Z then wrap64 (previous + 1) else unix.

Definition nextSequence : io Z :=
  raw ← attempt (read_file Data "sequence");
  t ← now;
  let sequence := next_after (parsed_sequence raw) (unix_nano t) in
  _ ← write_file Data "sequence.pending" (format_int sequence);
  moved ← attempt (rename Data "sequence.pending" "sequence");
  match moved with
  | Err e => _ ← attempt (remove Data "sequence.pending"); raise e
  | Ok _ => mret sequence
  end.

(** ** The spool *)

Definition spool_name (s : SnapshotEnvelope) : string := pad20 (s_sequence s) +:+ "-" +:+ s_id s +:+ ".json".

Definition entry_size (e : Entry) : Z := match e with Directory => 0 | Regular c _ => len c end.

(** The files' sizes; an entry whose information cannot be read is skipped. *)
Fixpoint used_bytes (used : Z) (entries : list (string * Entry)) : io Z :=
  match entries with
  | [] => mret used
  | (name, e) :: entries' =>
      i ← attempt (info name);
      used_bytes (match i with Ok i => if is_dir e then used else used + entry_size i | Err _ => used end)%Z entries'
  end.

(** [max_bytes] is [INFRAGRAPH_COLLECTOR_MAX_SPOOL_BYTES]. *)
Definition queueSnapshot (max_bytes : Z) (s : SnapshotEnvelope) : io unit :=
  match marshal_envelope s with
  | None => raise json_error
  | Some raw =>
      _ ← make_spool;
      entries ← read_spool;
      used ← used_bytes 0 (default [] entries);
      if (max_bytes <? used + len raw)%Z then raise "collector spool limit exceeded" else
      _ ← write_file Spool (spool_name s +:+ ".pending") raw;
      moved ← attempt (rename Spool (spool_name s +:+ ".pending") (spool_name s));
      match moved with
      | Err e => _ ← attempt (remove Spool (spool_name s +:+ ".pending")); raise e
      | Ok _ => mret tt
      end
  end.

(** Lines 330-352; [max_age] is [INFRAGRAPH_COLLECTOR_MAX_SPOOL_AGE]. *)
Definition modified_at (e : Entry) : gotime := match e with Directory => 0 | Regular _ t => t end.

Fixpoint flush_entries (max_age : Z) (entries : list (string * Entry)) : io unit :=
  match entries with
  | [] => mret tt
  | (name, e) :: entries' =>
      if is_dir e || negb (has_suffix name ".json") then flush_entries max_age entries' else
      i ← info name;
      t ← now;
      if (max_age <? t - modified_at i)%Z then raise ("collector spool contains an old snapshot: " +:+ name) else
      raw ← read_file Spool name;
      _ ← post_snapshot raw;
      _ ← remove Spool name;
      flush_entries max_age entries'
  end.

Definition flushSpool (max_age : Z) : io unit :=
  entries ← read_spool;
  match entries with
  | None => mret tt
  | Some entries => flush_entries max_age entries
  end.

(** ** One discovery *)

Record identity := { id_collector : string; id_connector : string; id_org : string; id_credential : string; id_key : string; id_type : string }.

(** The environment variables' values. *)
Record settings := { max_bytes : Z; max_age : Z; connector_id : string }.

Definition version : string := "1.0.0-rc.1".

Definition fingerprint (o : Observation) (attributes hints_ : gmap string json) : string :=
  hex_encode (sha256 (json_object [("assetType", json_string (o_type o)); ("attributes", marshal_map (Some attributes));
    ("externalId", json_string (o_external o)); ("identityHints", marshal_map (Some hints_))])).

(** Lines 142-156. *)
Definition normalize_asset (o : Observation) : Observation :=
  {| o_id := o_id o; o_org := o_org o; o_snapshot := o_snapshot o; o_connector := o_connector o; o_collector := o_collector o;
     o_external := o_external o; o_type := o_type o; o_observed := o_observed o;
     o_attributes := Some (attrs o); o_hints := Some (hints o);
     o_fingerprint := fingerprint o (attrs o) (hints o); o_status := "OBSERVED" |}.

(** Lines 157-161. *)
Definition normalize_relationship (r : RelationshipObservation) : RelationshipObservation :=
  {| ro_relationship := ro_relationship r; ro_snapshot := ro_snapshot r; ro_connector := ro_connector r;
     ro_from := ro_from r; ro_to := ro_to r; ro_type := ro_type r; ro_observed := ro_observed r;
     ro_attributes := Some (default ∅ (ro_attributes r)) |}.

(** Line 173. *)
Definition new_snapshot (id : identity) (connector : string) (started completed : gotime) (sequence : Z)
    (assets : list Observation) (relationships : list RelationshipObservation) : SnapshotEnvelope :=
  {| s_protocol := "1.0"; s_id := "snapshot-" +:+ format_int sequence; s_org := id_org id; s_collector := id_collector id;
     s_connector := connector; s_connector_type := id_type id; s_connector_version := version;
     s_started := started; s_completed := completed; s_sequence := sequence;
     s_assets := Some assets; s_relationships := Some relationships; s_warnings := Some [];
     s_statistics := Some {["assets" := Z.of_nat (length assets); "relationships" := Z.of_nat (length relationships)]};
     s_content_hash := ""; s_algorithm := ""; s_signature := "" |}.

Section Agent.
Context `{Ed25519}.

(** Base64 decoding of the identity's key, and its bytes read as a key. *)
Variable private_key : string -> result string PrivateKey.

Definition lift {A} (r : result string A) : io A := match r with Ok a => mret a | Err e => raise e end.

Definition runOnce (c : settings) (id : identity) : io unit :=
  started ← now;
  found ← discover;
  let assets := normalize_asset <$> found.1 in
  let relationships := normalize_relationship <$> found.2 in
  sequence ← nextSequence;
  let connector := if bool_decide (id_connector id = "") then connector_id c else id_connector id in
  if bool_decide (connector = "") then raise "collector identity does not contain a connector ID" else
  completed ← now;
  key ← lift (private_key (id_key id));
  s ← lift (SignSnapshot (new_snapshot id connector started completed sequence assets relationships) key);
  _ ← queueSnapshot (max_bytes c) s;
  flushSpool (max_age c).

(** One turn of the loop of [main]; its last call is the wait. *)
Definition turn (c : settings) (id : identity) : io unit :=
  _ ← attempt heartbeat;
  _ ← attempt (_ ← flushSpool (max_age c); runOnce c id);
  _ ← attempt heartbeat;
  _ ← now;
  mret tt.

(** The loop, [fuel] turns of it at most. *)
Fixpoint agent (fuel : nat) (c : settings) (id : identity) : io unit :=
  match fuel with
  | O => mret tt
  | S fuel' => _ ← turn c id; agent fuel' c id
  end.

End Agent.
