(* ===== verification/CollectorLogic.v ===== *)
(** * A crash logic for the collector

    Triples over the agent's computations: a postcondition for a normal return
    and one that holds wherever the computation stops otherwise, by an error or
    because the process dies. Conditions may mention the ticks that are left. *)
From S2P Require Import Prelude GoStrings GoNumbers GoJson Domain Collector.
Open Scope string_scope.
Open Scope list_scope.

(** The file system serves what it stores, and the clock shows a time before 2116. *)
Definition fine (t : Tick) : Prop := tk_unreadable t = false /\ (unix_nano (tk_clock t) < 2 ^ 62)%Z.

Definition assertion := nat -> World -> Prop.

(** [Q] holds after a return, [E] after an error, [C] where the process died. *)
Definition hoare {A} (P : assertion) (m : io A) (Q : A -> assertion) (E : assertion) (C : World -> Prop) : Prop :=
  forall w ticks, Forall fine ticks -> P (length ticks) w ->
    match m w ticks with
    | (w', Done a rest) => Forall fine rest /\ Q a (length rest) w'
    | (w', Raised _ rest) => Forall fine rest /\ E (length rest) w'
    | (w', Killed) => C w'
    end.

Definition implies (P Q : assertion) : Prop := forall n w, P n w -> Q n w.

Section Rules.
Context {A B : Type} (P E : assertion) (C : World -> Prop).

Lemma hoare_ret (a : A) (Q : A -> assertion) : implies P (Q a) -> hoare P (mret a) Q E C.
Proof. intros HP w ticks Ht Hw. split; [done|]. by apply HP. Qed.

Lemma hoare_raise e (Q : A -> assertion) : implies P E -> hoare P (raise e) Q E C.
Proof. intros HP w ticks Ht Hw. split; [done|]. by apply HP. Qed.

Lemma hoare_bind (m : io A) (f : A -> io B) (R : A -> assertion) (Q : B -> assertion) :
  hoare P m R E C -> (forall a, hoare (R a) (f a) Q E C) -> hoare P (m ≫= f) Q E C.
Proof.
  intros Hm Hf w ticks Ht Hw. specialize (Hm w ticks Ht Hw). unfold mbind, io_bind.
  destruct (m w ticks) as [w1 [a rest|e rest|]]; [|done|done]. destruct Hm as [Hrest Ha]. by apply Hf.
Qed.

(** An error handled as a value. *)
Lemma hoare_attempt (m : io A) (R : result string A -> assertion) :
  hoare P m (fun a => R (Ok a)) (fun n w => forall e, R (Err e) n w) C -> hoare P (attempt m) R E C.
Proof.
  intros Hm w ticks Ht Hw. specialize (Hm w ticks Ht Hw). unfold attempt.
  destruct (m w ticks) as [w1 [a rest|e rest|]]; [done| |done]. by destruct Hm.
Qed.

(** An error ignored. *)
Lemma hoare_ignore (m : io A) (R : assertion) : hoare P m (fun _ => R) R C -> hoare P (attempt m) (fun _ => R) E C.
Proof.
  intros Hm w ticks Ht Hw. specialize (Hm w ticks Ht Hw). unfold attempt.
  by destruct (m w ticks) as [w1 [a rest|e rest|]].
Qed.

Lemma hoare_call (f : Tick -> World -> World * verdict A) (Q : A -> assertion) :
  (forall w, P 0%nat w -> C w) ->
  (forall n t w, fine t -> P (S n) w -> match f t w with
     | (w', Value a) => Q a n w' | (w', Failure _) => E n w' | (w', Death) => C w' end) ->
  hoare P (call f) Q E C.
Proof.
  intros H0 Hf w ticks Ht Hw. unfold call. destruct ticks as [|t rest]; [by apply H0|].
  apply Forall_cons in Ht as [Ht Hrest]. specialize (Hf _ t w Ht Hw). by destruct (f t w) as [w' [a|e|]].
Qed.

Lemma hoare_pre (P' : assertion) (m : io A) (Q : A -> assertion) : hoare P' m Q E C -> implies P P' -> hoare P m Q E C.
Proof. intros Hm HP w ticks Ht Hw. by apply Hm, HP. Qed.

Lemma hoare_post (m : io A) (Q Q' : A -> assertion) : hoare P m Q' E C -> (forall a, implies (Q' a) (Q a)) -> hoare P m Q E C.
Proof.
  intros Hm HQ w ticks Ht Hw. specialize (Hm w ticks Ht Hw).
  destruct (m w ticks) as [w1 [a rest|e rest|]]; [|done|done]. destruct Hm; split; [done|]. by apply HQ.
Qed.

(** A fact about the values alone. *)
Lemma hoare_pure (p : Prop) (P' : assertion) (m : io A) (Q : A -> assertion) :
  (forall n w, P n w -> p /\ P' n w) -> (p -> hoare P' m Q E C) -> hoare P m Q E C.
Proof. intros Hp Hm w ticks Ht Hw. apply Hp in Hw as [H Hw]. by apply (Hm H). Qed.

Lemma hoare_if (b : bool) (m1 m2 : io A) (Q : A -> assertion) :
  (b = true -> hoare P m1 Q E C) -> (b = false -> hoare P m2 Q E C) -> hoare P (if b then m1 else m2) Q E C.
Proof. destruct b; auto. Qed.

End Rules.

(** ** Calls *)

Section Calls.
Context (P E : assertion) (C : World -> Prop) (HC : forall n w, P n w -> C w).

(** A call that reads leaves the world alone. *)
Lemma hoare_reading {A} (read : World -> result string A) (Q : A -> assertion) :
  (forall n w, P (S n) w -> match read w with Ok a => Q a n w | Err _ => E n w end) ->
  hoare P (call (reading read)) Q E C.
Proof.
  intros HQ. apply hoare_call; [by apply HC|]. intros n t w [Hr _] Hw. unfold reading. rewrite Hr.
  specialize (HQ n w Hw). destruct (tk_fault t); [| |by eapply HC]; by destruct (read w).
Qed.

(** A call that happens at once or not at all. *)
Lemma hoare_atomic (change : World -> result string World) (Q : assertion) :
  (forall n w, P (S n) w -> E n w) ->
  (forall n w w', P (S n) w -> change w = Ok w' -> Q n w' /\ C w') ->
  hoare P (call (atomic change)) (fun _ => Q) E C.
Proof.
  intros HE HQ. apply hoare_call; [by apply HC|]. intros n t w _ Hw. unfold atomic.
  specialize (HQ n w). destruct (tk_fault t) as [|p|[p|]]; [|by apply HE| |by eapply HC].
  - destruct (change w); [by apply HQ|by apply HE].
  - destruct (change w); [by apply HQ|by eapply HC].
Qed.

Lemma hoare_now (Q : gotime -> assertion) :
  (forall n w t, P (S n) w -> (unix_nano t < 2 ^ 62)%Z -> Q t n w) -> hoare P now Q E C.
Proof.
  intros HQ. apply hoare_call; [by apply HC|]. intros n t w [_ Ht] Hw.
  destruct (tk_fault t); [by apply HQ|by apply HQ|by eapply HC].
Qed.

(** A write leaves any content behind when it fails. *)
Lemma hoare_write p name content (Q : assertion) :
  (forall n w, P (S n) w -> E n w) ->
  (forall n w c t, P (S n) w -> let w' := set_files p (<[name := Regular c t]> (files p w)) w in
     C w' /\ E n w' /\ (c = content -> Q n w')) ->
  hoare P (write_file p name content) (fun _ => Q) E C.
Proof.
  intros HE HQ. apply hoare_call; [by apply HC|]. intros n t w _ Hw.
  destruct (tk_fault t) as [|[c|]|[c|]]; [|by apply (HQ n w c)|by apply HE|by apply (HQ n w c)|by eapply HC].
  case_bool_decide; [by apply HE|]. by apply (HQ n w content).
Qed.

End Calls.
