(* ===== verification/CollectorInv.v ===== *)
(** * The invariant of the collector's data directory

    What holds of the directory at every point where the process may die, and
    that every operation of the agent keeps it. *)
From S2P Require Import Prelude GoStrings GoNumbers GoJson Domain Security Collector CollectorLogic.
Open Scope string_scope.
Open Scope list_scope.

(** The number the sequence file holds, as [nextSequence] reads it. *)
Definition stored (w : World) : Z :=
  match data w !! "sequence" with Some (Regular c _) => (parse_int (trim_space c)).1 | _ => 0%Z end.

Definition is_json (name : string) : bool := has_suffix name ".json".

Definition spooled (w : World) (name : string) : option Entry := files Spool w !! name.

(** The spool holds the snapshot, whole, under its own name. *)
Definition queued (w : World) (s : SnapshotEnvelope) : Prop :=
  (0 <= s_sequence s <= stored w)%Z /\
  exists raw t, spooled w (spool_name s) = Some (Regular raw t) /\ marshal_envelope s = Some raw.

(** Every file the flush would send is a whole snapshot. *)
Definition whole (w : World) : Prop :=
  forall name c t, spooled w name = Some (Regular c t) -> is_json name = true ->
    exists s, queued w s /\ name = spool_name s.

(** The snapshots the control plane answered to, in order: none comes after one
    of a larger sequence number, nor is one still queued of a smaller. *)
Definition in_order (w : World) : Prop :=
  exists sent, Forall2 (fun s a => marshal_envelope s = Some a.1) sent (answered w) /\
    StronglySorted Z.le (s_sequence <$> sent) /\
    Forall (fun s => (s_sequence s <= stored w)%Z /\ forall s', queued w s' -> (s_sequence s <= s_sequence s')%Z) sent.

Record sound (w : World) : Prop := {
  sound_stored : (0 <= stored w)%Z; sound_whole : whole w; sound_order : in_order w }.

Definition accepted (status : Z) : Prop := (200 <= status < 300)%Z.

(** From [w] to [w']: numbers only grow, answers are only added, and a snapshot
    leaves the spool only after the control plane accepted exactly its bytes. *)
Record kept (w w' : World) : Prop := {
  kept_stored : (stored w <= stored w')%Z;
  kept_answers : answered w `prefix_of` answered w';
  kept_files : forall name c t, spooled w name = Some (Regular c t) -> is_json name = true ->
    spooled w' name = Some (Regular c t) \/ exists status, accepted status /\ (c, status) ∈ answered w' }.

#[export] Instance kept_preorder : PreOrder kept.
Proof.
  split; [by split; auto|]. intros w1 w2 w3 [A1 B1 C1] [A2 B2 C2]. split; [lia|by etrans|].
  intros name c t Hn Hj. destruct (C1 name c t Hn Hj) as [H|(st & Hst & Hin)]; [by apply C2|].
  right. exists st. split; [done|]. destruct B2 as [k ->]. apply elem_of_app. by left.
Qed.

(** Numbers are left for every call that is, and [k] more. *)
Definition budget (k n : nat) (w : World) : Prop :=
  (stored w + Z.of_nat (n + k) <= max_int64)%Z /\ (Z.of_nat (n + k) < 2 ^ 62)%Z.

Definition inv (k : nat) (w0 : World) : assertion := fun n w => sound w /\ kept w0 w /\ budget k n w.

Lemma budget_le k n m w : (m <= n)%nat -> budget k n w -> budget k m w.
Proof. unfold budget. lia. Qed.

Lemma inv_le k w0 n m w : (m <= n)%nat -> inv k w0 n w -> inv k w0 m w.
Proof. intros Hle (?&?&?). split_and!; try done. by eapply budget_le. Qed.


(** ** Names *)

#[export] Instance entry_le_trans {A} : Transitive (@entry_le A).
Proof. intros x y z. apply (string_le_trans x.1 y.1 z.1). Qed.

#[export] Instance entry_le_total {A} : Total (@entry_le A).
Proof. intros x y. apply string_leb_total. Qed.

Lemma pad20_compare a b : (0 <= a <= max_int64)%Z -> (0 <= b <= max_int64)%Z ->
  String.compare (pad20 a) (pad20 b) = (a ?= b)%Z /\ String.length (pad20 a) = 20%nat.
Proof.
  intros Ha Hb. unfold pad20. rewrite !(proj2 (Z.ltb_ge _ _)) by lia. unfold max_int64 in *.
  destruct (format_int_digits a) as [Da _]; [lia|]. destruct (format_int_digits b) as [Db _]; [lia|].
  assert (forall n, (0 <= n <= 2 ^ 63 - 1)%Z -> (String.length (format_int n) <= 20)%nat) as Hlen
    by (intros n Hn; apply format_int_length; lia).
  destruct (pad_zero_digits 20 _ Da) as [Pa Va]. destruct (pad_zero_digits 20 _ Db) as [Pb Vb].
  split; [|apply pad_zero_length; by apply Hlen].
  eapply digits_compare; [rewrite !pad_zero_length by (by apply Hlen); done|done|done| |].
  - apply Va. apply digits_value_format. lia.
  - apply Vb. apply digits_value_format. lia.
Qed.

Lemma compare_app a b x y : String.length a = String.length b ->
  String.compare (a +:+ x) (b +:+ y) = match String.compare a b with Eq => String.compare x y | c => c end.
Proof.
  revert b. induction a as [|c a IH]; intros [|d b] Hlen; try done. injection Hlen as Hlen.
  rewrite !string_app_cons. cbn. destruct (Ascii.compare c d); [by apply IH|done|done].
Qed.

(** The order of the names is the order of the sequence numbers. *)
Lemma spool_name_le s s' : (0 <= s_sequence s <= max_int64)%Z -> (0 <= s_sequence s' <= max_int64)%Z ->
  string_le (spool_name s) (spool_name s') -> (s_sequence s <= s_sequence s')%Z.
Proof.
  intros Hs Hs'. unfold string_le, String.leb, spool_name.
  destruct (pad20_compare _ _ Hs Hs') as [Hc Hl]. destruct (pad20_compare _ _ Hs' Hs) as [_ Hl'].
  rewrite compare_app by congruence. rewrite Hc. destruct (Z.compare_spec (s_sequence s) (s_sequence s')); [lia|lia|done].
Qed.

Lemma spool_name_inj s s' : (0 <= s_sequence s <= max_int64)%Z -> (0 <= s_sequence s' <= max_int64)%Z ->
  spool_name s = spool_name s' -> s_sequence s = s_sequence s'.
Proof.
  intros Hs Hs' E. apply Z.le_antisymm; apply spool_name_le; try done; rewrite E; apply string_le_refl.
Qed.

Lemma spool_name_json s : is_json (spool_name s) = true.
Proof. unfold is_json, spool_name. rewrite <- !string_app_assoc. by rewrite has_suffix_same. Qed.

Lemma pending_not_json name : is_json (name +:+ ".pending") = false.
Proof.
  unfold is_json. change ".pending" with (".pe" +:+ "nding"). rewrite <- string_app_assoc. by rewrite has_suffix_same.
Qed.

(** ** Changes of the world *)

(** [w'] has the answers and the snapshots of [w]. *)
Definition same_spool (w w' : World) : Prop :=
  answered w' = answered w /\ forall name, is_json name = true -> spooled w' name = spooled w name.

Lemma queued_mono w w' s : same_spool w w' -> (stored w <= stored w')%Z -> queued w s -> queued w' s.
Proof.
  intros [_ Hs] Hle [Hseq (raw & t & Hf & Hm)]. split; [lia|]. exists raw, t. split; [|done].
  by rewrite Hs by apply spool_name_json.
Qed.

Lemma queued_name_unique w s s' : (stored w <= max_int64)%Z -> queued w s -> queued w s' ->
  spool_name s = spool_name s' -> s_sequence s = s_sequence s'.
Proof. intros Hb [Hs _] [Hs' _]. apply spool_name_inj; lia. Qed.

(** Whatever touches neither the snapshots nor the answers may raise the number. *)
Lemma advance k w0 w w' n m : inv k w0 n w -> same_spool w w' -> (stored w <= stored w')%Z -> budget k m w' -> inv k w0 m w'.
Proof.
  intros ([Hst Hwhole (sent & Hf & Hsort & Hall)] & Hkept & [Hbud _]) Hsame Hle Hbud'.
  pose proof Hsame as [Hans Hsp]. split_and!; [split|..]; [lia|..|done].
  - intros name c t Hn Hj. rewrite Hsp in Hn by done. destruct (Hwhole _ _ _ Hn Hj) as (s & Hq & ->).
    exists s. split; [|done]. by apply (queued_mono w).
  - exists sent. rewrite Hans. split_and!; [done|done|]. eapply Forall_impl; [exact Hall|].
    intros s [Hs Hmin]. split; [lia|]. intros s' Hq'.
    assert (spooled w (spool_name s') = spooled w' (spool_name s')) as E by (symmetry; apply Hsp, spool_name_json).
    destruct Hq' as [Hseq' (raw & t & Hf' & Hm')]. rewrite <- E in Hf'.
    destruct (Hwhole _ _ _ Hf' (spool_name_json s')) as (s2 & Hq2 & Hname).
    rewrite (spool_name_inj s' s2); [by apply Hmin|split; [lia|]|destruct Hq2; lia|done].
    destruct Hbud'. lia.
  - etrans; [exact Hkept|]. split; [done|by rewrite Hans|]. intros name c t Hn Hj. left. by rewrite Hsp.
Qed.

(** A change elsewhere. *)
Lemma inv_frame k w0 w w' n : inv k w0 n w -> same_spool w w' -> stored w' = stored w -> inv k w0 n w'.
Proof. intros Hw Hs E. eapply advance; [done|done|lia|]. destruct Hw as (_ & _ & Hb). unfold budget. by rewrite E. Qed.

(** A new snapshot enters, numbered above all that are queued. *)
Lemma enqueue k w0 w w' n s raw t : inv k w0 n w -> stored w' = stored w -> answered w' = answered w ->
  (forall name, is_json name = true -> spooled w' name = if decide (name = spool_name s) then Some (Regular raw t) else spooled w name) ->
  marshal_envelope s = Some raw -> s_sequence s = stored w -> (forall s', queued w s' -> (s_sequence s' < stored w)%Z) ->
  inv k w0 n w' /\ queued w' s.
Proof.
  intros ([Hst Hwhole (sent & Hf & Hsort & Hall)] & Hkept & Hbud) Est Eans Hsp Hm Hseq Hfresh.
  assert (Hnew : queued w' s).
  { split; [lia|]. exists raw, t. split; [|done]. rewrite Hsp by apply spool_name_json. by rewrite decide_True. }
  assert (Hold : forall s', queued w s' -> spool_name s' <> spool_name s).
  { intros s' Hq E. pose proof (Hfresh s' Hq). destruct Hq as [Hq _], Hbud as [Hb _].
    apply spool_name_inj in E; lia. }
  assert (Hkeep : forall s', queued w s' -> queued w' s').
  { intros s' Hq. pose proof (Hold s' Hq) as Hne. destruct Hq as [Hq (r & t' & Hf' & Hm')]. split; [lia|].
    exists r, t'. split; [|done]. rewrite Hsp by apply spool_name_json. by rewrite decide_False. }
  assert (Hcases : forall name c t', spooled w' name = Some (Regular c t') -> is_json name = true ->
    name = spool_name s \/ exists s', queued w s' /\ name = spool_name s').
  { intros name c t' Hn Hj. rewrite Hsp in Hn by done. case_decide; [by left|right; by eapply Hwhole]. }
  split; [|done]. split_and!; [split|..].
  - lia.
  - intros name c t' Hn Hj. destruct (Hcases _ _ _ Hn Hj) as [->|(s' & Hq & ->)]; [by exists s|].
    exists s'. split; [by apply Hkeep|done].
  - exists sent. rewrite Eans. split_and!; [done|done|]. eapply Forall_impl; [exact Hall|].
    intros x [Hx Hmin]. split; [lia|]. intros s' [Hs' (r & t' & Hf' & _)].
    destruct Hbud as [Hb _]. destruct (Hcases _ _ _ Hf' (spool_name_json s')) as [E|(s2 & Hq2 & E)].
    + apply spool_name_inj in E; lia.
    + apply spool_name_inj in E; [|lia|destruct Hq2; lia]. rewrite E. by apply Hmin.
  - etrans; [exact Hkept|]. split; [lia|by rewrite Eans|]. intros name c t' Hn Hj. left.
    rewrite Hsp by done. rewrite decide_False; [done|]. intros ->.
    destruct (Hwhole _ _ _ Hn Hj) as (s' & Hq & E). by apply (Hold s').
  - unfold budget in *. by rewrite Est.
Qed.

(** The first snapshot of the queue is answered. *)
Lemma answer k w0 w n s raw status : inv k w0 n w -> queued w s -> marshal_envelope s = Some raw ->
  (forall s', queued w s' -> (s_sequence s <= s_sequence s')%Z) ->
  inv k w0 n {| data := data w; spool := spool w; answered := answered w ++ [(raw, status)] |}.
Proof.
  intros ([Hst Hwhole (sent & Hf & Hsort & Hall)] & Hkept & Hbud) Hq Hm Hmin. split_and!; [split|..]; try done.
  - exists (sent ++ [s]). cbn [answered]. split_and!.
    + apply Forall2_app; [done|]. by constructor.
    + rewrite fmap_app. apply StronglySorted_app_2; [|exact Hsort|by repeat constructor].
      intros x y [x' [-> Hx]]%list_elem_of_fmap Hy%list_elem_of_singleton. subst y.
      rewrite Forall_forall in Hall. by apply (Hall x' Hx).
    + apply Forall_app. split; [exact Hall|]. constructor; [|constructor]. destruct Hq as [Hs _]. split; [apply Hs|exact Hmin].
  - etrans; [exact Hkept|]. split; cbn; [done|by eexists|]. intros name c t Hn Hj. by left.
Qed.

(** An accepted snapshot leaves the spool. *)
Lemma dequeue k w0 w w' n name c t status : inv k w0 n w -> stored w' = stored w -> answered w' = answered w ->
  (forall x, spooled w' x = if decide (x = name) then None else spooled w x) ->
  spooled w name = Some (Regular c t) -> accepted status -> (c, status) ∈ answered w -> inv k w0 n w'.
Proof.
  intros ([Hst Hwhole (sent & Hf & Hsort & Hall)] & Hkept & Hbud) Est Eans Hsp Hn Hacc Hin.
  assert (Hback : forall s', queued w' s' -> queued w s').
  { intros s' [Hs' (r & t' & Hf' & Hm')]. rewrite Hsp in Hf'. case_decide; [done|]. split; [lia|eauto]. }
  split_and!; [split|..].
  - lia.
  - intros x c' t' Hx Hj. rewrite Hsp in Hx. case_decide as Hd; [done|].
    destruct (Hwhole _ _ _ Hx Hj) as (s & [Hs (r & t2 & Hf' & Hm')] & ->). exists s. split; [|done].
    split; [lia|]. exists r, t2. split; [|done]. rewrite Hsp. by rewrite decide_False.
  - exists sent. rewrite Eans. split_and!; [done|done|]. eapply Forall_impl; [exact Hall|].
    intros s [Hs Hmin]. split; [lia|]. intros s' Hq. by apply Hmin, Hback.
  - etrans; [exact Hkept|]. split; [lia|by rewrite Eans|]. intros x c' t' Hx Hj. rewrite Hsp.
    case_decide as Hd; [|by left]. right. subst x. rewrite Hn in Hx. injection Hx as <- <-.
    exists status. by rewrite Eans.
  - unfold budget in *. by rewrite Est.
Qed.
