(* ===== verification/CollectorFacts.v ===== *)
(** * What the collector guarantees

    Every operation keeps the invariant of [CollectorInv.v], so a run of the
    agent keeps it wherever it stops; the theorems read it off. *)
From S2P Require Import Prelude GoStrings GoNumbers GoJson Domain Security Collector CollectorLogic CollectorInv.
Open Scope string_scope.
Open Scope list_scope.

Section Operations.
Context (k : nat) (w0 : World).

Notation I := (inv k w0).
Definition crashed (w : World) : Prop := sound w /\ kept w0 w /\ budget k 0 w.

Lemma inv_crashed n w : I n w -> crashed w.
Proof. intros (?&?&?). split_and!; [done|done|]. by eapply (budget_le k n); [lia|]. Qed.

Lemma inv_S n w : I (S n) w -> I n w.
Proof. apply inv_le. lia. Qed.

(** A name that is neither the sequence file's nor a snapshot's. *)
Definition untracked (p : place) (name : string) : Prop :=
  match p with Data => name <> "sequence" | Spool => is_json name = false end.

Lemma frame_files p w m : (forall name, untracked p name \/ m !! name = files p w !! name) ->
  same_spool w (set_files p m w) /\ stored (set_files p m w) = stored w.
Proof.
  intros Hm. destruct p; cbn in *.
  - split; [by split|]. unfold stored. cbn. destruct (Hm "sequence") as [|E]; [done|]. by rewrite E.
  - split; [|done]. split; [done|]. intros name Hj. unfold spooled. cbn. destruct (Hm name) as [|E]; [congruence|done].
Qed.

Lemma frame_put p w name e : untracked p name ->
  same_spool w (set_files p (<[name := e]> (files p w)) w) /\ stored (set_files p (<[name := e]> (files p w)) w) = stored w.
Proof.
  intros Hn. apply frame_files. intros x. destruct (decide (x = name)) as [->|Hne]; [by left|]. right. by rewrite lookup_insert_ne.
Qed.

Lemma frame_delete p w name : untracked p name ->
  same_spool w (set_files p (delete name (files p w)) w) /\ stored (set_files p (delete name (files p w)) w) = stored w.
Proof.
  intros Hn. apply frame_files. intros x. destruct (decide (x = name)) as [->|Hne]; [by left|]. right. by rewrite lookup_delete_ne.
Qed.

(** Giving up on a temporary file. *)
Lemma discard_spec {A} p name e (Q : A -> assertion) : untracked p name ->
  hoare I (_ ← attempt (remove p name); raise e) Q I crashed.
Proof.
  intros Hn. eapply hoare_bind with (R := fun _ => I); [|by intros _; apply hoare_raise; intros n w].
  apply hoare_ignore, hoare_atomic; [apply inv_crashed|by intros n w ?%inv_S|].
  intros n w w' Hw%inv_S Hok. case_match; [|done].
  assert (w' = set_files p (delete name (files p w)) w) as -> by congruence.
  destruct (frame_delete p w name Hn) as [Hs E]. pose proof (inv_frame _ _ _ _ _ Hw Hs E). split; [done|by eapply inv_crashed].
Qed.

(** ** Sequence numbers *)

Lemma next_after_spec n w unix : I (S n) w -> (unix < 2 ^ 62)%Z ->
  (stored w < next_after (stored w) unix)%Z /\ (next_after (stored w) unix + Z.of_nat (n + k) <= max_int64)%Z.
Proof.
  intros ([Hst _ _] & _ & [Hb Hn]) Hu. unfold next_after, max_int64 in *.
  destruct (Z.leb_spec unix (stored w)); [|lia]. rewrite wrap64_id; unfold min_int64, max_int64; lia.
Qed.

(** A number above all that are queued, and the sequence file holds it. *)
Definition fresh (v : Z) : assertion := fun n w => I n w /\ stored w = v /\ forall s, queued w s -> (s_sequence s < v)%Z.

Lemma nextSequence_spec : hoare I nextSequence fresh I crashed.
Proof.
  unfold nextSequence.
  eapply hoare_bind with (R := fun raw n w => I n w /\ parsed_sequence raw = stored w).
  { apply hoare_attempt. apply hoare_reading; [apply inv_crashed|]. intros n w Hw%inv_S. unfold stored.
    change (files Data w) with (data w). by destruct (data w !! "sequence") as [[]|]. }
  intros raw. eapply hoare_bind with (R := fun t n w => I n w /\
    (stored w < next_after (parsed_sequence raw) (unix_nano t))%Z /\ (next_after (parsed_sequence raw) (unix_nano t) + Z.of_nat (n + k) <= max_int64)%Z).
  { apply hoare_now; [by intros n w [?%inv_crashed _]|]. intros n w t [Hw ->] Ht.
    pose proof (next_after_spec n w _ Hw Ht). split; [by apply inv_S|done]. }
  intros t. set (v := next_after _ _).
  eapply hoare_bind with (R := fun _ n w => I n w /\ (stored w < v)%Z /\ (v + Z.of_nat (n + k) <= max_int64)%Z /\
    exists at_, data w !! "sequence.pending" = Some (Regular (format_int v) at_)).
  { apply hoare_write; [by intros n w [?%inv_crashed _]|by intros n w [?%inv_S _]|].
    intros n w c at_ (Hw%inv_S & Hlt & Hmax).
    destruct (frame_put Data w "sequence.pending" (Regular c at_) ltac:(done)) as [Hs E].
    pose proof (inv_frame _ _ _ _ _ Hw Hs E) as Hw'. split_and!; [by eapply inv_crashed|done|]. intros ->.
    split_and!; [done|by rewrite E|lia|]. exists at_. cbn. by rewrite lookup_insert_eq. }
  intros []. eapply hoare_bind with (R := fun r n w => match r with Ok _ => fresh v n w | Err _ => I n w end).
  { apply hoare_attempt, hoare_atomic; [by intros n w [?%inv_crashed _]|by intros n w [?%inv_S _]|].
    intros n w w' (Hw & Hlt & Hmax & at_ & Hp). cbn [files]. rewrite Hp. case_bool_decide; [done|]. intros Hok.
    assert (w' = set_files Data (<[("sequence"):=Regular (format_int v) at_]> (delete "sequence.pending" (data w))) w) as Ew by congruence.
    assert (stored w' = v) as Hv.
    { unfold stored. rewrite Ew. cbn. rewrite lookup_insert_eq. destruct Hw as ([Hst _ _] & _).
      rewrite parse_format; [done|lia]. }
    assert (I n w') as Hw'.
    { eapply advance; [exact Hw|by rewrite Ew|lia|]. destruct Hw as (_ & _ & Hb). unfold budget in *. lia. }
    split; [|by eapply inv_crashed]. split_and!; [done|done|].
    intros s [Hs (raw' & t' & Hf & Hm)]. rewrite Ew in Hf. destruct Hw as ([_ Hwhole _] & _).
    destruct (Hwhole (spool_name s) raw' t' Hf (spool_name_json s)) as (s' & [Hs' _] & E).
    apply spool_name_inj in E; lia. }
  intros [[]|e]; [by apply hoare_ret; intros n w|by apply discard_spec].
Qed.

(** The number is above the stored one. *)
Lemma nextSequence_raises v0 : hoare (fun n w => I n w /\ stored w = v0) nextSequence (fun n _ _ => (v0 < n)%Z) (fun _ _ => True) (fun _ => True).
Proof.
  unfold nextSequence. eapply hoare_bind with (R := fun raw n w => I n w /\ stored w = v0 /\ parsed_sequence raw = v0).
  { apply hoare_attempt. apply hoare_reading; [done|]. intros n w [Hw%inv_S <-]. unfold stored.
    change (files Data w) with (data w). by destruct (data w !! "sequence") as [[]|]. }
  intros raw. eapply hoare_bind with (R := fun t _ _ => (v0 < next_after (parsed_sequence raw) (unix_nano t))%Z).
  { apply hoare_now; [done|]. intros n w t (Hw & Hv & ->) Ht. rewrite <- Hv. by apply (next_after_spec n w). }
  intros t. set (v := next_after _ _). eapply hoare_bind with (R := fun _ _ _ => (v0 < v)%Z).
  { by apply hoare_write. }
  intros _. eapply hoare_bind with (R := fun _ _ _ => (v0 < v)%Z); [by apply hoare_ignore, hoare_atomic|].
  intros [[]|e]; [by apply hoare_ret; intros n w|]. eapply hoare_bind with (R := fun _ _ _ => (v0 < v)%Z); [by apply hoare_ignore, hoare_atomic|].
  intros ?. by apply hoare_raise; intros n w.
Qed.

(** ** Queueing *)

Lemma fresh_frame v n w w' : fresh v n w -> same_spool w w' -> stored w' = stored w -> fresh v n w'.
Proof.
  intros (Hw & Hv & Hq) Hs E. split_and!; [by eapply inv_frame|lia|]. intros s Hs'. apply Hq.
  apply (queued_mono w'); [|lia|done]. destruct Hs as [Ha Hn]. split; [done|]. intros name Hj. by rewrite Hn.
Qed.

Lemma fresh_S v n w : fresh v (S n) w -> fresh v n w.
Proof. intros (Hw%inv_S & ? & ?). by split_and!. Qed.

Lemma fresh_inv v n w : fresh v n w -> I n w.
Proof. by intros [? _]. Qed.

Lemma fresh_crashed v n w : fresh v n w -> crashed w.
Proof. by intros [?%inv_crashed _]. Qed.

Lemma used_bytes_spec v entries used : hoare (fresh v) (used_bytes used entries) (fun _ => fresh v) I crashed.
Proof.
  revert used. induction entries as [|[name e] entries IH]; intros used; cbn [used_bytes].
  { apply hoare_ret. by intros n w. }
  eapply hoare_bind with (R := fun _ => fresh v); [|intros i; apply IH].
  apply hoare_attempt, hoare_reading; [apply fresh_crashed|]. intros n w Hw%fresh_S. by destruct (files Spool w !! name).
Qed.

Lemma queueSnapshot_spec max_bytes s :
  hoare (fresh (s_sequence s)) (queueSnapshot max_bytes s) (fun _ n w => I n w /\ queued w s) I crashed.
Proof.
  unfold queueSnapshot. destruct (marshal_envelope s) as [raw|] eqn:Em; [|apply hoare_raise; by intros n w ?%fresh_inv].
  set (v := s_sequence s). eapply hoare_bind with (R := fun _ => fresh v).
  { apply hoare_atomic; [apply fresh_crashed|by intros n w ?%fresh_S%fresh_inv|].
    intros n w w' Hw%fresh_S [= <-]. assert (fresh v n (set_files Spool (files Spool w) w)) as Hw'.
    { eapply fresh_frame; [exact Hw|by split|done]. }
    split; [exact Hw'|by eapply fresh_crashed]. }
  intros _. eapply hoare_bind with (R := fun _ => fresh v).
  { apply hoare_reading; [apply fresh_crashed|]. by intros n w Hw%fresh_S. }
  intros entries. eapply hoare_bind; [apply used_bytes_spec|]. intros used.
  apply hoare_if; [intros _; apply hoare_raise; by intros n w ?%fresh_inv|intros _].
  set (pending := spool_name s +:+ ".pending"). assert (is_json pending = false) as Hp by apply pending_not_json.
  eapply hoare_bind with (R := fun _ n w => fresh v n w /\ exists t, spooled w pending = Some (Regular raw t)).
  { apply hoare_write; [apply fresh_crashed|by intros n w ?%fresh_S%fresh_inv|]. intros n w c t Hw%fresh_S.
    destruct (frame_put Spool w pending (Regular c t) Hp) as [Hs E]. pose proof (fresh_frame _ _ _ _ Hw Hs E) as Hw'.
    split_and!; [by eapply fresh_crashed|by eapply fresh_inv|]. intros ->. split; [exact Hw'|].
    exists t. unfold spooled. cbn. by rewrite lookup_insert_eq. }
  intros []. eapply hoare_bind with (R := fun r n w => match r with Ok _ => I n w /\ queued w s | Err _ => I n w end).
  { apply hoare_attempt, hoare_atomic; [by intros n w [?%fresh_crashed _]|by intros n w [?%fresh_S%fresh_inv _]|].
    intros n w w' [Hw%fresh_S [t Ht]] Hok. unfold spooled in Ht. rewrite Ht in Hok. case_bool_decide; [done|].
    assert (w' = set_files Spool (<[spool_name s := Regular raw t]> (delete pending (files Spool w))) w) as Ew by congruence.
    destruct Hw as (Hw & Hv & Hq). rewrite <- Hv in Hq.
    destruct (enqueue k w0 w w' n s raw t) as [Hw' Hs]; try (by rewrite Ew); try done.
    { intros x Hx. rewrite Ew. unfold spooled. cbn. case_decide as Hd; [subst x; by rewrite lookup_insert_eq|].
      rewrite lookup_insert_ne by done. rewrite lookup_delete_ne; [done|]. intros <-. congruence. }
    split; [by split|by eapply inv_crashed]. }
  intros [[]|e]; [apply hoare_ret; by intros n w|by apply discard_spec].
Qed.

(** ** Flushing *)

Definition name_le (x y : string * Entry) : Prop := string_le x.1 y.1.

(** What is left to flush: every queued snapshot, in the order of the names. *)
Definition pending (l : list (string * Entry)) (w : World) : Prop :=
  StronglySorted name_le l /\ (forall name e, (name, e) ∈ l -> spooled w name = Some e) /\
  NoDup l.*1 /\ forall s, queued w s -> spool_name s ∈ l.*1.

Definition flushing (l : list (string * Entry)) : assertion := fun n w => I n w /\ pending l w.

Lemma flushing_S l n w : flushing l (S n) w -> flushing l n w.
Proof. by intros [?%inv_S ?]. Qed.

Lemma flushing_crashed l n w : flushing l n w -> crashed w.
Proof. by intros [?%inv_crashed _]. Qed.

Lemma pending_skip name e l w : pending ((name, e) :: l) w -> is_dir e || negb (is_json name) = true -> pending l w.
Proof.
  intros (Hsort & Hent & Hnd & Hall) Hskip. apply StronglySorted_inv in Hsort as [Hsort _].
  rewrite fmap_cons, NoDup_cons in Hnd. destruct Hnd as [_ Hnd]. split_and!; [done| |done|].
  - intros x e' Hin. apply Hent. by right.
  - intros s Hs. specialize (Hall s Hs). rewrite fmap_cons in Hall. apply elem_of_cons in Hall as [E|]; [|done]. exfalso.
    cbn in E. subst name. rewrite spool_name_json in Hskip. destruct e; [|done]. destruct Hs as [_ (raw & t & Hf & _)].
    rewrite (Hent (spool_name s) Directory) in Hf; [done|left].
Qed.

(** The first of them has the least number. *)
Lemma pending_least name e l w s : pending ((name, e) :: l) w -> (stored w <= max_int64)%Z -> queued w s -> name = spool_name s ->
  forall s', queued w s' -> (s_sequence s <= s_sequence s')%Z.
Proof.
  intros (Hsort & _ & _ & Hall) Hb Hs -> s' Hs'. specialize (Hall s' Hs'). rewrite fmap_cons in Hall.
  apply StronglySorted_inv in Hsort as [_ Hle]. rewrite Forall_forall in Hle.
  assert (string_le (spool_name s) (spool_name s')) as Hn.
  { apply elem_of_cons in Hall as [->|([x e'] & -> & Hin)%list_elem_of_fmap]; [apply string_le_refl|]. by apply (Hle (x, e')). }
  destruct Hs as [Hs _], Hs' as [Hs' _]. apply spool_name_le; [lia|lia|done].
Qed.

Lemma pending_remove name c t l w s : pending ((name, Regular c t) :: l) w -> name = spool_name s ->
  pending l (set_files Spool (delete name (files Spool w)) w).
Proof.
  intros (Hsort & Hent & Hnd & Hall) ->. apply StronglySorted_inv in Hsort as [Hsort _].
  rewrite fmap_cons, NoDup_cons in Hnd. destruct Hnd as [Hnot Hnd]. split_and!; [done| |done|].
  - intros x e' Hin. unfold spooled. cbn. rewrite lookup_delete_ne; [apply Hent; by right|].
    intros <-. apply Hnot. apply list_elem_of_fmap. by exists (spool_name s, e').
  - intros s' [Hs' (raw & t' & Hf & Hm)]. unfold spooled in Hf. cbn in Hf. apply lookup_delete_Some in Hf as [Hne Hf].
    assert (queued w s') as Hq by (split; [done|by exists raw, t']). specialize (Hall s' Hq).
    rewrite fmap_cons in Hall. by apply elem_of_cons in Hall as [|].
Qed.

(** The snapshot at the head of the queue, and after it was posted. *)
Definition at_head name c t l : assertion := fun n w => I n w /\ pending ((name, Regular c t) :: l) w.

Definition sent_head name c t l : assertion := fun n w => at_head name c t l n w /\ exists status, accepted status /\ (c, status) ∈ answered w.

Lemma pending_same l w w' : pending l w -> (forall name, spooled w' name = spooled w name) -> stored w' = stored w -> pending l w'.
Proof.
  intros (Hsort & Hent & Hnd & Hall) Hs E. split_and!; [done| |done|].
  - intros x e Hin. rewrite Hs. by apply Hent.
  - intros s [Hb (raw & t & Hf & Hm)]. apply Hall. rewrite Hs in Hf. split; [lia|by exists raw, t].
Qed.

Lemma head_queued name c t l n w : at_head name c t l n w -> is_json name = true ->
  exists s, queued w s /\ name = spool_name s /\ marshal_envelope s = Some c.
Proof.
  intros ([[_ Hwhole _] _] & (_ & Hent & _)) Hj. pose proof (Hent name (Regular c t) ltac:(left)) as Hn.
  destruct (Hwhole _ _ _ Hn Hj) as (s & Hq & ->). exists s. split_and!; [done|done|].
  destruct Hq as [_ (raw & t' & Hf & Hm)]. congruence.
Qed.

Lemma post_spec name c t l : is_json name = true ->
  hoare (at_head name c t l) (post_snapshot c) (fun _ => sent_head name c t l) I crashed.
Proof.
  intros Hj. apply hoare_call; [by intros w [?%inv_crashed _]|]. intros n tk w _ [Hw%inv_S Hp].
  destruct (head_queued name c t l n w (conj Hw Hp) Hj) as (s & Hq & Hname & Hm).
  assert (stored w <= max_int64)%Z as Hb by (destruct Hw as (_ & _ & [Hb _]); lia).
  pose proof (answer k w0 w n s c (tk_status tk) Hw Hq Hm (pending_least _ _ _ _ _ Hp Hb Hq Hname)) as Hw'.
  destruct (tk_fault tk) as [|[p|]|[p|]]; [|done|done|by eapply inv_crashed|by eapply inv_crashed].
  unfold status_error. destruct (_ || _)%Z eqn:Es; [done|]. apply orb_false_iff in Es as [E1%Z.ltb_ge E2%Z.leb_gt].
  split; [split; [done|by eapply pending_same]|]. exists (tk_status tk). split; [done|]. cbn. apply elem_of_app. right. left.
Qed.

Lemma remove_spec name c t l : is_json name = true ->
  hoare (sent_head name c t l) (remove Spool name) (fun _ => flushing l) I crashed.
Proof.
  intros Hj. apply hoare_atomic; [by intros n w [[?%inv_crashed _] _]|by intros n w [[?%inv_S _] _]|].
  intros n w w' [[Hw%inv_S Hp] (status & Hacc & Hin)] Hok. case_match; [|done].
  assert (w' = set_files Spool (delete name (files Spool w)) w) as -> by congruence.
  destruct (head_queued name c t l n w (conj Hw Hp) Hj) as (s & Hq & Hname & Hm).
  assert (I n (set_files Spool (delete name (files Spool w)) w)) as Hw'.
  { eapply (dequeue k w0 w _ n name c t status); try done.
    - intros x. unfold spooled. cbn. case_decide as Hd; [subst x; by rewrite lookup_delete_eq|by rewrite lookup_delete_ne].
    - destruct Hp as (_ & Hent & _). apply Hent. left. }
  split; [split; [done|by eapply pending_remove]|by eapply inv_crashed].
Qed.

Lemma flush_entries_spec max_age l : hoare (flushing l) (flush_entries max_age l) (fun _ => I) I crashed.
Proof.
  induction l as [|[name e] l IH]; cbn [flush_entries]; [apply hoare_ret; by intros n w []|].
  apply hoare_if; intros Hskip.
  { eapply hoare_pre; [apply IH|]. intros n w [Hw Hp]. split; [done|by eapply pending_skip]. }
  apply orb_false_iff in Hskip as [Hdir Hj%negb_false_iff]. destruct e as [|c t]; [done|].
  eapply hoare_bind with (R := fun _ => at_head name c t l).
  { apply hoare_reading; [by intros n w [?%inv_crashed _]|]. intros n w [Hw%inv_S Hp]. by case_match. }
  intros i. eapply hoare_bind with (R := fun _ => at_head name c t l).
  { apply hoare_now; [by intros n w [?%inv_crashed _]|]. by intros n w at_ [Hw%inv_S Hp] _. }
  intros at_. apply hoare_if; [intros _; apply hoare_raise; by intros n w []|intros _].
  eapply hoare_bind with (R := fun c' n w => c' = c /\ at_head name c t l n w).
  { apply hoare_reading; [by intros n w [?%inv_crashed _]|]. intros n w [Hw%inv_S Hp].
    pose proof Hp as (_ & Hent & _). specialize (Hent name (Regular c t) ltac:(left)). unfold spooled in Hent. by rewrite Hent. }
  intros c'. apply (hoare_pure _ _ _ (c' = c) (at_head name c t l)); [by intros n w [-> ?]|]. intros ->.
  eapply hoare_bind; [by apply post_spec|]. intros []. eapply hoare_bind; [by apply remove_spec|]. intros []. apply IH.
Qed.

(** The listing [os.ReadDir] makes is in order. *)
Lemma listing_pending w m : spool w = Some m -> pending (sorted_entries m) w.
Proof.
  intros Hs. assert (sorted_entries m ≡ₚ map_to_list m) as Hperm by apply merge_sort_Permutation.
  assert (forall name e, (name, e) ∈ sorted_entries m <-> spooled w name = Some e) as Hin.
  { intros name e. rewrite Hperm, elem_of_map_to_list. unfold spooled. cbn. by rewrite Hs. }
  split_and!.
  - apply (StronglySorted_merge_sort entry_le).
  - intros name e. apply Hin.
  - rewrite Hperm. apply NoDup_fst_map_to_list.
  - intros s [_ (raw & t & Hf & _)]. apply list_elem_of_fmap. exists (spool_name s, Regular raw t). split; [done|by apply Hin].
Qed.

Lemma flushSpool_spec max_age : hoare I (flushSpool max_age) (fun _ => I) I crashed.
Proof.
  unfold flushSpool. eapply hoare_bind with (R := fun l n w => match l with None => I n w | Some l => flushing l n w end).
  { apply hoare_reading; [apply inv_crashed|]. intros n w Hw%inv_S. destruct (spool w) as [m|] eqn:Es; [|done].
    split; [done|by apply listing_pending]. }
  intros [l|]; [apply flush_entries_spec|apply hoare_ret; by intros n w].
Qed.

End Operations.

Lemma nextSequence_above k w ticks : Forall fine ticks -> inv k w (length ticks) w ->
  match nextSequence w ticks with
  | (w', Done n _) => (stored w < n)%Z /\ stored w' = n /\ forall s, queued w' s -> (s_sequence s < n)%Z
  | _ => True
  end.
Proof.
  intros Ht Hi. pose proof (nextSequence_spec k w w ticks Ht Hi) as H1.
  pose proof (nextSequence_raises k w (stored w) w ticks Ht (conj Hi eq_refl)) as H2.
  destruct (nextSequence w ticks) as [w' [n rest|e rest|]]; [|done|done].
  destruct H1 as (_ & _ & ? & ?), H2 as [_ ?]. done.
Qed.
