(* ===== verification/CollectorRuns.v ===== *)
(** * Runs of the collector: its theorems *)
From S2P Require Import Prelude GoStrings GoNumbers GoJson Domain Security SecurityFacts Collector CollectorLogic CollectorInv CollectorFacts.
Open Scope string_scope.
Open Scope list_scope.

Section Runs.
Context `{Ed25519} (private_key : string -> result string PrivateKey) (k : nat) (w0 : World).

Notation I := (inv k w0).
Notation crashed := (crashed k w0).

Lemma SignSnapshot_sequence s key s' : SignSnapshot s key = Ok s' -> s_sequence s' = s_sequence s.
Proof.
  unfold SignSnapshot. intros (b & _ & (b' & _ & [= <-])%bind_ok)%bind_ok. done.
Qed.

Lemma hoare_lift {A} (r : result string A) (Q : A -> assertion) (P : assertion) :
  (forall a, r = Ok a -> implies P (Q a)) -> implies P I -> hoare P (lift r) Q I crashed.
Proof. intros HQ HI. destruct r; [by apply hoare_ret, HQ|by apply hoare_raise]. Qed.

Lemma discover_spec : hoare I discover (fun _ => I) I crashed.
Proof.
  apply hoare_call; [by intros w ?%inv_crashed|]. intros n t w _ Hw%inv_S.
  destruct (tk_fault t); [| |by eapply inv_crashed]; by destruct (tk_found t).
Qed.

Lemma heartbeat_spec : hoare I (attempt heartbeat) (fun _ => I) I crashed.
Proof.
  apply hoare_ignore, hoare_call; [by intros w ?%inv_crashed|]. intros n t w _ Hw%inv_S.
  destruct (tk_fault t); [|done|by eapply inv_crashed]. by destruct (status_error _).
Qed.

Lemma now_spec P : (forall n w, P (S n) w -> P n w) -> (forall n w, P n w -> crashed w) -> hoare P now (fun _ => P) I crashed.
Proof. intros HS HC. apply hoare_now; [done|]. intros n w t Hw _. by apply HS. Qed.

Lemma runOnce_spec c id : hoare I (runOnce private_key c id) (fun _ => I) I crashed.
Proof.
  unfold runOnce. eapply hoare_bind; [apply now_spec; [apply inv_S|apply inv_crashed]|]. intros started.
  eapply hoare_bind; [apply discover_spec|]. intros found.
  eapply hoare_bind; [apply nextSequence_spec|]. intros sequence.
  apply hoare_if; [intros _; apply hoare_raise; by intros n w ?%fresh_inv|intros _].
  eapply hoare_bind; [apply now_spec; [apply fresh_S|apply fresh_crashed]|]. intros completed.
  eapply hoare_bind; [apply hoare_lift with (Q := fun _ => fresh k w0 sequence); [by intros a _ n w|by intros n w ?%fresh_inv]|].
  intros key. eapply hoare_bind with (R := fun s n w => s_sequence s = sequence /\ fresh k w0 sequence n w).
  { apply hoare_lift; [|by intros n w ?%fresh_inv]. intros s Hs%SignSnapshot_sequence n w Hw. by split. }
  intros s. eapply (hoare_pure _ _ _ (s_sequence s = sequence)); [intros n w Hw; exact Hw|]. intros <-.
  eapply hoare_bind; [apply queueSnapshot_spec|]. intros []. eapply hoare_pre; [apply flushSpool_spec|]. by intros n w [].
Qed.

Lemma turn_spec c id : hoare I (turn private_key c id) (fun _ => I) I crashed.
Proof.
  unfold turn. eapply hoare_bind; [apply heartbeat_spec|]. intros ?. eapply hoare_bind with (R := fun _ => I).
  { apply hoare_ignore. eapply hoare_bind; [apply flushSpool_spec|]. intros []. apply runOnce_spec. }
  intros ?. eapply hoare_bind; [apply heartbeat_spec|]. intros ?.
  eapply hoare_bind; [apply now_spec; [apply inv_S|apply inv_crashed]|]. intros ?. apply hoare_ret. by intros n w.
Qed.

Lemma agent_spec fuel c id : hoare I (agent private_key fuel c id) (fun _ => I) I crashed.
Proof.
  induction fuel as [|fuel IH]; [apply hoare_ret; by intros n w|].
  cbn [agent]. eapply hoare_bind; [apply turn_spec|]. intros []. apply IH.
Qed.

End Runs.

(** ** Termination *)

Section Fuel.
Context `{Ed25519} (private_key : string -> result string PrivateKey).

(** The ticks a computation leaves are a proper part of those it had, or the
    process was killed. *)
Definition consumes {A} (strict : bool) (m : io A) : Prop :=
  forall w ticks, match (m w ticks).2 with
    | Done _ rest | Raised _ rest => if strict then (length rest < length ticks)%nat else (length rest <= length ticks)%nat
    | Killed => True end.

Lemma consumes_weaken {A} (m : io A) b : consumes b m -> consumes false m.
Proof. intros Hm w ticks. specialize (Hm w ticks). destruct b; [|done]. destruct (m w ticks).2; lia. Qed.

Lemma consumes_bind {A B} (m : io A) (f : A -> io B) b : consumes b m -> (forall a, consumes false (f a)) -> consumes b (m ≫= f).
Proof.
  intros Hm Hf w ticks. specialize (Hm w ticks). unfold mbind, io_bind. destruct (m w ticks) as [w1 [a rest|e rest|]]; cbn in *; [|done|done].
  specialize (Hf a w1 rest). destruct (f a w1 rest).2, b; lia.
Qed.

Lemma consumes_attempt {A} (m : io A) b : consumes b m -> consumes b (attempt m).
Proof. intros Hm w ticks. specialize (Hm w ticks). unfold attempt. by destruct (m w ticks) as [w1 []]. Qed.

Lemma consumes_call {A} (f : Tick -> World -> World * verdict A) b : consumes b (call f).
Proof. intros w [|t ticks]; unfold call; cbn; [done|]. destruct (f t w) as [w1 []], b; cbn; lia. Qed.

Lemma consumes_ret {A} (a : A) : consumes false (mret a).
Proof. intros w ticks. cbn. lia. Qed.

Lemma consumes_raise {A} e : consumes false (raise (A := A) e).
Proof. intros w ticks. cbn. lia. Qed.

Lemma consumes_lift {A} (r : result string A) : consumes false (lift r).
Proof. destruct r; [apply consumes_ret|apply consumes_raise]. Qed.

(** Splits a computation into its calls. *)
Ltac consume :=
  repeat (intros;
    first [ solve [auto] | apply consumes_call | apply consumes_ret | apply consumes_raise | apply consumes_lift
          | apply consumes_attempt | apply consumes_bind | case_match ]).

Lemma consumes_used used l : consumes false (used_bytes used l).
Proof. revert used. induction l as [|[name e] l IH]; intros used; cbn [used_bytes]; consume; apply IH. Qed.

Lemma consumes_flush max_age : consumes false (flushSpool max_age).
Proof.
  assert (forall l, consumes false (flush_entries max_age l)) as Hl.
  { induction l as [|[name e] l IH]; cbn [flush_entries]; consume. }
  unfold flushSpool. consume; apply Hl.
Qed.

Lemma consumes_queue max_bytes s : consumes false (queueSnapshot max_bytes s).
Proof. pose proof consumes_used. unfold queueSnapshot. consume. Qed.

Lemma consumes_sequence : consumes false nextSequence.
Proof. unfold nextSequence. consume. Qed.

Lemma consumes_turn c id : consumes true (turn private_key c id).
Proof.
  assert (consumes false (runOnce private_key c id)) as Hrun.
  { unfold runOnce. pose proof consumes_sequence. pose proof (consumes_flush (max_age c)).
    pose proof (fun s => consumes_queue (max_bytes c) s). consume. }
  unfold turn. apply consumes_bind; [apply consumes_attempt, consumes_call|].
  pose proof (consumes_flush (max_age c)). consume.
Qed.

End Fuel.

(** ** Lifetimes of the process *)

Section Lives.
Context `{Ed25519} (private_key : string -> result string PrivateKey) (c : settings) (id : identity).

(** One lifetime: the loop with a turn for every system call, and one. *)
Definition life (w : World) (ticks : list Tick) : World * outcome unit :=
  agent private_key (S (length ticks)) c id w ticks.

Lemma turn_never_raises w ticks e rest : (turn private_key c id w ticks).2 <> Raised e rest.
Proof.
  unfold turn. assert (forall A (m : io A) w ticks e rest, (attempt m w ticks).2 <> Raised e rest) as Ha.
  { intros A m w1 t1 e1 r1. unfold attempt. by destruct (m w1 t1) as [w2 []]. }
  unfold mbind, io_bind. repeat match goal with
    | |- context [attempt ?m ?w ?t] => pose proof (Ha _ m w t); destruct (attempt m w t) as [? []]; cbn in *; [|naive_solver|done]
    end.
  unfold now, call. destruct rest2 as [|t rest2]; [done|]. by destruct (tk_fault t).
Qed.

Lemma agent_killed fuel w ticks : (length ticks < fuel)%nat -> (agent private_key fuel c id w ticks).2 = Killed.
Proof.
  revert w ticks. induction fuel as [|fuel IH]; intros w ticks Hlt; [lia|]. cbn [agent]. unfold mbind, io_bind.
  pose proof (consumes_turn private_key c id w ticks) as Hc. pose proof (turn_never_raises w ticks) as Hr.
  destruct (turn private_key c id w ticks) as [w1 [a rest|e rest|]]; cbn in *; [|by destruct (Hr e rest)|done].
  apply IH. lia.
Qed.

(** The process restarted after each of its lifetimes. *)
Definition lives (w : World) (scripts : list (list Tick)) : World := foldl (fun w ticks => (life w ticks).1) w scripts.

Definition calls (scripts : list (list Tick)) : nat := sum_list (length <$> scripts).

Lemma lives_within scripts k w0 : sound w0 -> Forall (Forall fine) scripts -> budget k (calls scripts) w0 ->
  sound (lives w0 scripts) /\ kept w0 (lives w0 scripts) /\ budget k 0 (lives w0 scripts).
Proof.
  revert w0. induction scripts as [|ticks scripts IH]; intros w0 Hs Hf Hb; [done|]. cbn [lives foldl].
  apply Forall_cons in Hf as [Ht Hf]. change (calls (ticks :: scripts)) with (length ticks + calls scripts)%nat in Hb.
  assert (inv (calls scripts + k) w0 (length ticks) w0) as Hi.
  { split_and!; [done|done|]. unfold budget in *. by rewrite Nat.add_assoc. }
  pose proof (agent_spec private_key (calls scripts + k) w0 (S (length ticks)) c id w0 ticks Ht Hi) as Hrun.
  pose proof (agent_killed (S (length ticks)) w0 ticks ltac:(lia)) as Hkill. unfold life at 2 4 6.
  destruct (agent private_key _ c id w0 ticks) as [w1 o]. cbn in Hkill. subst o. destruct Hrun as (Hs1 & Hk1 & Hb1).
  destruct (IH w1 Hs1 Hf Hb1) as (Hs2 & Hk2 & Hb2). split_and!; [done|by etrans|done].
Qed.

Lemma lives_spec scripts w0 : sound w0 -> Forall (Forall fine) scripts -> budget 0 (calls scripts) w0 ->
  sound (lives w0 scripts) /\ kept w0 (lives w0 scripts) /\ budget 0 0 (lives w0 scripts).
Proof. apply lives_within. Qed.

End Lives.
