(* ===== verification/CollectorDelivery.v ===== *)
(** * What the collector delivers, and when it is stuck *)
From S2P Require Import Prelude GoStrings GoNumbers GoJson Domain Security SecurityFacts Collector CollectorLogic CollectorInv CollectorFacts CollectorRuns.
Open Scope string_scope.
Open Scope list_scope.

(** The files of a listing that a flush sends. *)
Definition sends (x : string * Entry) : Prop := is_dir x.2 = false /\ is_json x.1 = true.
#[export] Instance sends_dec x : Decision (sends x).
Proof. apply _. Defined.

Definition content (e : Entry) : string := match e with Directory => "" | Regular c _ => c end.

(** A call that succeeds: the control plane accepts, and no listed file is too old. *)
Definition calm (max_age : Z) (l : list (string * Entry)) (t : Tick) : Prop :=
  tk_fault t = NoFault /\ tk_unreadable t = false /\ accepted (tk_status t) /\
  Forall (fun x => (tk_clock t - modified_at x.2 <= max_age)%Z) l.

(** The world a flush of the listing leaves. *)
Record delivered (l : list (string * Entry)) (w w' : World) : Prop := {
  del_data : data w' = data w;
  del_spool : forall name, spooled w' name = if decide (name ∈ (filter sends l).*1) then None else spooled w name;
  del_answers : (answered w').*1 = (answered w).*1 ++ (content ∘ snd <$> filter sends l);
  del_accepted : forall a, a ∈ answered w' -> a ∈ answered w \/ accepted a.2 }.

Section Calm.
Context (max_age : Z).

(** One file: read, posted, accepted, removed. *)
Lemma flush_one name c t l w t1 t2 t3 t4 t5 ticks :
  spooled w name = Some (Regular c t) -> is_json name = true ->
  Forall (calm max_age ((name, Regular c t) :: l)) [t1; t2; t3; t4; t5] ->
  flush_entries max_age ((name, Regular c t) :: l) w (t1 :: t2 :: t3 :: t4 :: t5 :: ticks) =
  flush_entries max_age l {| data := data w; spool := Some (delete name (files Spool w)); answered := answered w ++ [(c, tk_status t4)] |} ticks.
Proof.
  intros Hn Hj Ht. unfold is_json in Hj. rewrite !Forall_cons in Ht.
  destruct Ht as ((F1 & U1 & _ & _) & (F2 & _ & _ & Hage) & (F3 & U3 & _ & _) & (F4 & _ & [S1 S2] & _) & (F5 & _) & _).
  apply Forall_cons in Hage as [Hage _]. unfold spooled in Hn. cbn in Hn, Hage.
  cbn [flush_entries is_dir]. rewrite Hj. cbn [orb negb].
  unfold info, now, read_file, post_snapshot, remove, call, reading, atomic, mbind, io_bind. cbn [files].
  rewrite F1, U1. cbn [files]. rewrite Hn, F2. cbn [modified_at]. rewrite (proj2 (Z.ltb_ge _ _)) by lia.
  rewrite F3, U3. cbn [files]. rewrite Hn, F4. unfold status_error.
  rewrite (proj2 (Z.ltb_ge _ _)), (proj2 (Z.leb_gt _ _)) by lia. cbn [orb].
  rewrite F5. cbn [files spool]. by rewrite Hn.
Qed.

Lemma calm_tail x l t : calm max_age (x :: l) t -> calm max_age l t.
Proof. intros (?&?&?&Ha). apply Forall_cons in Ha as [_ Ha]. done. Qed.

Lemma flush_calm l : forall w ticks, (forall x, x ∈ l -> spooled w x.1 = Some x.2) -> NoDup l.*1 ->
  Forall (calm max_age l) ticks -> (5 * length (filter sends l) <= length ticks)%nat ->
  exists w' rest, flush_entries max_age l w ticks = (w', Done tt rest) /\ delivered l w w'.
Proof.
  induction l as [|[name e] l IH]; intros w ticks Hl Hnd Ht Hlen.
  { exists w, ticks. split; [done|]. split; [done|done|by rewrite app_nil_r|by left]. }
  rewrite fmap_cons, NoDup_cons in Hnd. destruct Hnd as [Hnot Hnd]. cbn in Hnot.
  assert (Htail : forall ts, Forall (calm max_age ((name, e) :: l)) ts -> Forall (calm max_age l) ts).
  { intros ts Hts. eapply Forall_impl; [exact Hts|]. intros x. apply calm_tail. }
  destruct (decide (sends (name, e))) as [Hs|Hs].
  - rewrite filter_cons_True in Hlen by done. destruct Hs as [Hd Hj]. cbn in Hd, Hj. destruct e as [|c t]; [done|].
    destruct ticks as [|t1 [|t2 [|t3 [|t4 [|t5 ticks]]]]]; cbn [length] in Hlen; try lia.
    pose proof (Hl (name, Regular c t) ltac:(left)) as Hn. cbn in Hn.
    pose proof (proj1 (Forall_app _ [t1; t2; t3; t4; t5] ticks) Ht) as [Ht5 Htk].
    rewrite flush_one by done.
    destruct (IH {| data := data w; spool := Some (delete name (files Spool w)); answered := answered w ++ [(c, tk_status t4)] |} ticks)
      as (w' & rest & -> & [D1 D2 D3 D4]); [|done|by apply Htail|lia|].
    { intros x Hx. unfold spooled. cbn. rewrite lookup_delete_ne; [apply Hl; by right|].
      intros ->. apply Hnot. apply list_elem_of_fmap. by exists x. }
    exists w', rest. split; [done|]. split.
    + done.
    + intros x. rewrite D2. rewrite filter_cons_True by done. rewrite fmap_cons. cbn [fst].
      change (spooled {| data := data w; spool := Some (delete name (files Spool w)); answered := answered w ++ [(c, tk_status t4)] |} x)
        with (delete name (files Spool w) !! x). change (spooled w x) with (files Spool w !! x).
      destruct (decide (x ∈ (filter sends l).*1)) as [Hx|Hx]; [by rewrite decide_True by by right|].
      destruct (decide (x = name)) as [->|Hne]; [by rewrite lookup_delete_eq, decide_True by left|].
      rewrite lookup_delete_ne by done. rewrite decide_False; [done|]. by intros [->|?]%elem_of_cons.
    + rewrite D3. rewrite filter_cons_True by done. cbn. rewrite fmap_app, <- app_assoc. done.
    + intros a [Ha|]%D4; [|by right]. cbn in Ha. apply elem_of_app in Ha as [Ha|Ha%list_elem_of_singleton]; [by left|]. right. subst a.
      rewrite !Forall_cons in Ht5. apply Ht5.
  - rewrite filter_cons_False in Hlen by done.
    destruct (IH w ticks) as (w' & rest & Hf & [D1 D2 D3 D4]); [intros x Hx; apply Hl; by right|done|by apply Htail|done|].
    exists w', rest. split.
    + cbn [flush_entries]. rewrite <- Hf. unfold sends, is_json in Hs. cbn in Hs.
      destruct (is_dir e), (has_suffix name ".json"); try done. by destruct Hs.
    + split; [done| |by rewrite filter_cons_False|exact D4]. intros x. rewrite filter_cons_False by done. apply D2.
Qed.

End Calm.


(** ** A refused snapshot *)

Definition refused (t : Tick) : Prop := ~ accepted (tk_status t).

(** The computation changes no file, and returns normally if [ok] only. *)
Definition stalls {A} (ok : bool) (m : io A) (w : World) : Prop :=
  forall w1 ticks, Forall refused ticks -> data w1 = data w -> spool w1 = spool w ->
  match m w1 ticks with
  | (w', o) => data w' = data w /\ spool w' = spool w /\
      match o with Done _ rest => ok = true /\ Forall refused rest | Raised _ rest => Forall refused rest | Killed => True end
  end.

Section Stalls.
Context {A B : Type} (w : World).

(** A call that leaves the files alone. *)
Lemma stalls_call (f : Tick -> World -> World * verdict A) :
  (forall t w1, refused t -> data (f t w1).1 = data w1 /\ spool (f t w1).1 = spool w1) -> stalls true (call f) w.
Proof.
  intros Hf w1 ticks Ht Hd Hs. unfold call. destruct ticks as [|t ticks]; [done|]. apply Forall_cons in Ht as [Ht Hts].
  destruct (Hf t w1 Ht) as [Hd' Hs']. destruct (f t w1) as [w2 []]; cbn in *; split_and!; try done; congruence.
Qed.

Lemma stalls_reading (read : World -> result string A) : stalls true (call (reading read)) w.
Proof.
  apply stalls_call. intros t w1 _. unfold reading. destruct (tk_fault t), (tk_unreadable t); try done; by destruct (read w1).
Qed.

Lemma stalls_bind (m : io A) (f : A -> io B) ok : stalls true m w -> (forall a, stalls ok (f a) w) -> stalls ok (m ≫= f) w.
Proof.
  intros Hm Hf w1 ticks Ht Hd Hs. specialize (Hm w1 ticks Ht Hd Hs). unfold mbind, io_bind.
  destruct (m w1 ticks) as [w2 [a rest|e rest|]]; destruct Hm as (Hd2 & Hs2 & Hm); [|done|done]. destruct Hm as [_ Hr].
  by apply Hf.
Qed.

(** What follows a computation that never returns does not run. *)
Lemma stalls_before (m : io A) (f : A -> io B) : stalls false m w -> stalls false (m ≫= f) w.
Proof.
  intros Hm w1 ticks Ht Hd Hs. specialize (Hm w1 ticks Ht Hd Hs). unfold mbind, io_bind.
  destruct (m w1 ticks) as [w2 [a rest|e rest|]]; [by destruct Hm as (_ & _ & ? & _)|done|done].
Qed.

Lemma stalls_attempt (m : io A) ok : stalls ok m w -> stalls true (attempt m) w.
Proof.
  intros Hm w1 ticks Ht Hd Hs. specialize (Hm w1 ticks Ht Hd Hs). unfold attempt.
  destruct (m w1 ticks) as [w2 [a rest|e rest|]]; naive_solver.
Qed.

Lemma stalls_raise e ok : stalls ok (raise (A := A) e) w.
Proof. intros w1 ticks Ht Hd Hs. done. Qed.

Lemma stalls_ret (a : A) : stalls true (mret a) w.
Proof. intros w1 ticks Ht Hd Hs. done. Qed.

End Stalls.

Section Blocked.
Context `{Ed25519} (private_key : string -> result string PrivateKey) (c : settings) (id : identity).

Lemma stalls_post w raw : stalls false (post_snapshot raw) w.
Proof.
  intros w1 ticks Ht Hd Hs. unfold post_snapshot, call. destruct ticks as [|t ticks]; [done|].
  apply Forall_cons in Ht as [Ht Hts]. unfold status_error. destruct (_ || _)%Z eqn:E.
  - by destruct (tk_fault t) as [|[]|[]].
  - apply orb_false_iff in E as [E1%Z.ltb_ge E2%Z.leb_gt]. by destruct Ht.
Qed.

Lemma stalls_flush w max_age l x : x ∈ l -> sends x -> stalls false (flush_entries max_age l) w.
Proof.
  intros Hx Hs. induction l as [|[name e] l IH]; [by apply not_elem_of_nil in Hx|]. cbn [flush_entries].
  destruct (is_dir e || negb (has_suffix name ".json")) eqn:Hskip.
  - apply IH. apply elem_of_cons in Hx as [->|]; [|done]. destruct Hs as [Hd Hj]. unfold is_json in Hj. cbn in Hd, Hj.
    by rewrite Hd, Hj in Hskip.
  - apply stalls_bind; [apply stalls_reading|]. intros i.
    apply stalls_bind; [apply stalls_call; intros t w1 _; by destruct (tk_fault t)|]. intros t.
    destruct (_ <? _)%Z; [apply stalls_raise|]. apply stalls_bind; [apply stalls_reading|]. intros raw.
    apply stalls_before, stalls_post.
Qed.

Lemma stalls_flushSpool w max_age m x : spool w = Some m -> x ∈ map_to_list m -> sends x -> stalls false (flushSpool max_age) w.
Proof.
  intros Hm Hx Hs w1 ticks Ht Hd Hsp. unfold flushSpool, read_spool, call, reading, mbind, io_bind.
  destruct ticks as [|t ticks]; [done|]. apply Forall_cons in Ht as [_ Ht].
  rewrite Hsp, Hm. cbn [fmap option_fmap option_map].
  assert (stalls false (flush_entries max_age (sorted_entries m)) w) as Hf.
  { eapply stalls_flush; [|exact Hs]. unfold sorted_entries. by rewrite merge_sort_Permutation. }
  specialize (Hf w1 ticks Ht Hd Hsp). destruct (tk_fault t), (tk_unreadable t); try done; rewrite ?Hm; try done; by rewrite <- Hm.
Qed.

Lemma stalls_turn w m x : spool w = Some m -> x ∈ map_to_list m -> sends x -> stalls true (turn private_key c id) w.
Proof.
  intros Hm Hx Hs. assert (stalls true heartbeat w) as Hb.
  { apply stalls_call. intros t w1 _. by destruct (tk_fault t). }
  unfold turn. apply stalls_bind; [by eapply stalls_attempt|]. intros _. apply stalls_bind.
  { eapply stalls_attempt, stalls_before, stalls_flushSpool; done. }
  intros _. apply stalls_bind; [by eapply stalls_attempt|]. intros _.
  apply stalls_bind; [apply stalls_call; intros t w1 _; by destruct (tk_fault t)|]. intros _. apply stalls_ret.
Qed.

Lemma stalls_agent w m x fuel : spool w = Some m -> x ∈ map_to_list m -> sends x -> stalls true (agent private_key fuel c id) w.
Proof.
  intros Hm Hx Hs. induction fuel as [|fuel IH]; [apply stalls_ret|]. cbn [agent].
  apply stalls_bind; [by eapply stalls_turn|]. by intros [].
Qed.

End Blocked.

(** C28. A refused snapshot stops the collector: as long as the control plane
    answers nothing with success, whatever else happens to the process and
    however often it restarts, a spool with one snapshot in it stays as it is
    and so does the sequence file; nothing is discovered, nothing is dropped. *)
Theorem refused_snapshot_blocks `{Ed25519} private_key c id w m name content at_ scripts
    (Hspool : spool w = Some m) (Hfile : m !! name = Some (Regular content at_)) (Hjson : is_json name = true)
    (Hrefused : Forall (Forall refused) scripts) :
  data (lives private_key c id w scripts) = data w /\ spool (lives private_key c id w scripts) = spool w.
Proof.
  assert (forall w1, data w1 = data w -> spool w1 = spool w ->
    data (lives private_key c id w1 scripts) = data w /\ spool (lives private_key c id w1 scripts) = spool w) as Hall; [|by apply Hall].
  induction Hrefused as [|ticks scripts Ht _ IH]; intros w1 Hd Hs; [done|]. cbn [lives foldl]. unfold life.
  pose proof (stalls_agent private_key c id w m (name, Regular content at_) (S (length ticks)) Hspool) as Ha.
  specialize (Ha ltac:(by apply elem_of_map_to_list) (conj eq_refl Hjson) w1 ticks Ht Hd Hs).
  destruct (agent private_key _ c id w1 ticks) as [w2 o]. destruct Ha as (Hd2 & Hs2 & _). by apply IH.
Qed.

(** ** What holds of every run *)

(** The collector keeps its evidence: from a sound data directory, across
    any number of lifetimes and wherever each is killed (between system calls
    or within one, leaving any partial file), the directory stays sound (the
    sequence number valid, every snapshot in the spool whole and under the name
    of its number, what was sent in order) and no snapshot leaves the spool
    before the control plane has accepted exactly its bytes. *)
Theorem collector_keeps_evidence `{Ed25519} private_key c id w0 scripts (Hsound : sound w0)
    (Hfine : Forall (Forall fine) scripts) (Hbudget : budget 0 (calls scripts) w0) :
  let w := lives private_key c id w0 scripts in sound w /\ kept w0 w.
Proof. intros w. destruct (lives_spec private_key c id scripts w0 Hsound Hfine Hbudget) as (Hs & Hk & _). by split. Qed.


(** The agent's loop ends with the process only: whatever the system calls
    return, it runs until it is killed. *)
Theorem agent_runs_until_killed `{Ed25519} private_key c id w ticks : (life private_key c id w ticks).2 = Killed.
Proof. apply agent_killed. lia. Qed.

(** ** A run, for the witnesses *)

Definition sample_tick (status : Z) : Tick :=
  {| tk_fault := NoFault; tk_unreadable := false; tk_clock := unix_epoch + 5; tk_status := status; tk_found := Ok ([], []) |}.

Definition torn_tick : Tick :=
  {| tk_fault := Dying (Some "12"); tk_unreadable := false; tk_clock := unix_epoch + 5; tk_status := 0; tk_found := Ok ([], []) |}.

Definition empty_world : World := {| data := ∅; spool := None; answered := [] |}.
Definition spooled_files : gmap string Entry := {["00000000000000000001-snapshot-1.json" := Regular "{}" unix_epoch]}.
Definition spooled_world : World := {| data := ∅; spool := Some spooled_files; answered := [] |}.

Definition sample_settings : settings := {| max_bytes := 1000; max_age := 60; connector_id := "" |}.
Definition sample_identity : identity :=
  {| id_collector := "collector"; id_connector := "docker"; id_org := "org"; id_credential := "credential"; id_key := "key"; id_type := "DOCKER" |}.
Definition sample_key (k : string) : result string (@PrivateKey toy_ed25519) := Ok k.

(** A life that dies while it writes the next sequence number. *)
Definition torn_life : list Tick := replicate 6 (sample_tick 202) ++ [torn_tick].

Lemma empty_sound : sound empty_world.
Proof.
  split; [done|by intros name c t H|]. exists []. split_and!; constructor.
Qed.

Lemma torn_life_fine : Forall (Forall fine) [torn_life; torn_life].
Proof. repeat constructor. Qed.

Lemma collector_keeps_evidence_witness :
  let w := @lives toy_ed25519 sample_key sample_settings sample_identity empty_world [torn_life; torn_life] in
  is_Some (data w !! "sequence.pending") /\ sound w /\ kept empty_world w.
Proof.
  intros w. split; [exists (Regular "12" (unix_epoch + 5)); vm_compute; reflexivity|].
  exact (@collector_keeps_evidence toy_ed25519 sample_key sample_settings sample_identity empty_world [torn_life; torn_life]
    empty_sound torn_life_fine ltac:(vm_compute; split; [discriminate|reflexivity])).
Defined.


Lemma refused_snapshot_blocks_witness :
  let w := @lives toy_ed25519 sample_key sample_settings sample_identity spooled_world [replicate 20 (sample_tick 409)] in
  data w = data spooled_world /\ spool w = spool spooled_world.
Proof.
  apply (@refused_snapshot_blocks toy_ed25519 sample_key sample_settings sample_identity spooled_world
    spooled_files "00000000000000000001-snapshot-1.json" "{}" unix_epoch).
  - reflexivity.
  - vm_compute. reflexivity.
  - vm_compute. reflexivity.
  - constructor; [|constructor]. apply Forall_replicate. intros [_ Hlt]. vm_compute in Hlt. discriminate.
Defined.

Lemma spooled_listing : sorted_entries spooled_files = [("00000000000000000001-snapshot-1.json", Regular "{}" unix_epoch)].
Proof. vm_compute. reflexivity. Qed.

