(* ===== verification/SnapshotContract.v ===== *)
(** * What a connector must find for the gateway to accept it

    [found_well] states of a connector's result what the collector's snapshot
    needs to satisfy [validSnapshotContract]: the interface between the
    connectors, the collector and the gateway. *)
From S2P Require Import Prelude GoStrings GoNumbers GoJson GoHash Domain Security SecurityFacts AuditChain Collector RateLimit Gateway.
Open Scope string_scope.
Open Scope list_scope.

Definition good_asset (o : Observation) : Prop :=
  o_external o <> "" /\ (len (o_external o) <= 1024)%Z /\ (len (o_type o) <= 80)%Z /\ o_observed o <> 0%Z /\
  (Z.of_nat (size (attrs o)) <= 128)%Z /\ (Z.of_nat (size (hints o)) <= 32)%Z.

Definition good_relationship (r : RelationshipObservation) : Prop :=
  ro_type r <> "" /\ (len (ro_type r) <= 80)%Z /\ ro_observed r <> 0%Z /\
  (Z.of_nat (size (default ∅ (ro_attributes r))) <= 64)%Z.

(** The endpoints are assets of the same result, and nothing occurs twice. *)
Record found_well (assets : list Observation) (rels : list RelationshipObservation) : Prop := {
  fw_ids : NoDup (o_external <$> assets);
  fw_assets : Forall good_asset assets;
  fw_ends : forall r, r ∈ rels -> ro_from r ∈ (o_external <$> assets) /\ ro_to r ∈ (o_external <$> assets);
  fw_rels : Forall good_relationship rels;
  fw_keys : NoDup (relationship_id <$> rels) }.

(** ** The gateway's loops *)

Lemma valid_observations_ok l seen : NoDup (o_external <$> l) -> Forall (fun o => o_external o ∉ seen) l ->
  Forall (fun o => good_asset o /\ (len (o_fingerprint o) <= 128)%Z /\ o_status o = "OBSERVED") l ->
  valid_observations seen l = Some (list_to_set (o_external <$> l) ∪ seen).
Proof.
  revert seen. induction l as [|o l IH]; intros seen Hnd Hseen Hall; cbn [valid_observations]; [f_equal; cbn; set_solver|].
  rewrite fmap_cons, NoDup_cons in Hnd. destruct Hnd as [Hnot Hnd].
  apply Forall_cons in Hseen as [Ho Hseen]. apply Forall_cons in Hall as [((H1 & H2 & H3 & H4 & H5 & H6) & H7 & H8) Hall].
  assert (valid_observation seen o = true) as ->.
  { unfold valid_observation, time_is_zero. rewrite H8, (bool_decide_true ("OBSERVED" = "OBSERVED")) by done. rewrite !bool_decide_false by done.
    rewrite !(proj2 (Z.leb_le _ _)) by lia. done. }
  rewrite IH; [f_equal; rewrite fmap_cons; cbn; set_solver|done| |done].
  rewrite Forall_forall in Hseen |- *. intros x Hx. rewrite elem_of_union, elem_of_singleton.
  intros [E|Hin]; [|by apply (Hseen x)]. apply Hnot. rewrite <- E. by apply list_elem_of_fmap_2.
Qed.

Lemma valid_relationships_ok assets l seen : NoDup (relationship_id <$> l) -> Forall (fun r => relationship_id r ∉ seen) l ->
  Forall good_relationship l ->
  Forall (fun r => ro_from r <> "" /\ (len (ro_from r) <= 1024)%Z /\ ro_to r <> "" /\ (len (ro_to r) <= 1024)%Z /\
    ro_from r ∈ assets /\ ro_to r ∈ assets) l ->
  valid_relationships assets seen l = true.
Proof.
  revert seen. induction l as [|r l IH]; intros seen Hnd Hseen Hgood Hends; cbn [valid_relationships]; [done|].
  rewrite fmap_cons, NoDup_cons in Hnd. destruct Hnd as [Hnot Hnd].
  apply Forall_cons in Hseen as [Hr Hseen]. apply Forall_cons in Hgood as [(H1 & H2 & H3 & H4) Hgood].
  apply Forall_cons in Hends as [(E1 & E2 & E3 & E4 & E5 & E6) Hends].
  assert (valid_relationship assets seen r = true) as ->.
  { unfold valid_relationship, time_is_zero.
    rewrite (bool_decide_true (ro_from r ∈ assets)), (bool_decide_true (ro_to r ∈ assets)) by done.
    rewrite !bool_decide_false by done. rewrite !(proj2 (Z.leb_le _ _)) by lia. done. }
  apply IH; [done| |done|done].
  rewrite Forall_forall in Hseen |- *. intros x Hx. rewrite elem_of_union, elem_of_singleton.
  intros [E|Hin]; [|by apply (Hseen x)]. apply Hnot. rewrite <- E. by apply list_elem_of_fmap_2.
Qed.

(** ** The collector's normalisation *)

Lemma normalize_external (assets : list Observation) : o_external <$> (normalize_asset <$> assets) = o_external <$> assets.
Proof. by rewrite <- list_fmap_compose. Qed.

Lemma hex_encode_length s : String.length (hex_encode s) = (2 * String.length s)%nat.
Proof. unfold hex_encode. induction s as [|c s IH]; [done|]. cbn in *. lia. Qed.

Lemma fingerprint_length o a h : len (fingerprint o a h) = 64%Z.
Proof.
  unfold len, fingerprint. rewrite hex_encode_length. unfold sha256.
  assert (forall l, String.length (of_bytes l) = length l) as -> by (intros l; unfold of_bytes; induction l; cbn; congruence).
  by rewrite sha256_length.
Qed.

Lemma valid_found assets rels : found_well assets rels ->
  match valid_observations ∅ (normalize_asset <$> assets) with
  | None => False | Some seen => valid_relationships seen ∅ (normalize_relationship <$> rels) = true end.
Proof.
  intros [Hids Hassets Hends Hrels Hkeys]. rewrite valid_observations_ok.
  - rewrite normalize_external. apply valid_relationships_ok.
    + by rewrite <- list_fmap_compose.
    + apply Forall_forall. intros r _. apply not_elem_of_empty.
    + apply Forall_fmap. eapply Forall_impl; [exact Hrels|]. done.
    + apply Forall_fmap, Forall_forall. intros r Hr. destruct (Hends r Hr) as [Hf Ht]. cbn.
      rewrite Forall_forall in Hassets.
      assert (forall x, x ∈ (o_external <$> assets) -> x <> "" /\ (len x <= 1024)%Z /\ x ∈ (list_to_set (o_external <$> assets) ∪ ∅ : gset string)) as Hx.
      { intros x (o & -> & Ho)%list_elem_of_fmap. destruct (Hassets o Ho) as (? & ? & _). split_and!; [done|done|].
        rewrite union_empty_r_L. apply elem_of_list_to_set. by apply list_elem_of_fmap_2. }
      destruct (Hx _ Hf) as (?&?&?), (Hx _ Ht) as (?&?&?). done.
  - by rewrite normalize_external.
  - apply Forall_forall. intros o _. apply not_elem_of_empty.
  - apply Forall_fmap. eapply Forall_impl; [exact Hassets|]. intros o Ho. cbn.
    split_and!; [exact Ho|rewrite fingerprint_length; lia|done].
Qed.

(** The identity, the number and the times of the envelope. *)
Record envelope_well (id : identity) (connector : string) (started completed : gotime) (sequence : Z)
    (assets : list Observation) (rels : list RelationshipObservation) : Prop := {
  ew_org : id_org id <> ""; ew_collector : id_collector id <> ""; ew_connector : connector <> "";
  ew_sequence : (1 <= sequence <= max_int64)%Z;
  ew_times : started <> 0%Z /\ completed <> 0%Z /\ (started <= completed)%Z;
  ew_assets : (Z.of_nat (length assets) <= 100000)%Z; ew_rels : (Z.of_nat (length rels) <= 250000)%Z }.

(** What is found well makes a snapshot the gateway's contract admits. *)
Lemma found_snapshot_valid id connector started completed sequence assets rels :
  envelope_well id connector started completed sequence assets rels -> found_well assets rels ->
  validSnapshotContract (new_snapshot id connector started completed sequence (normalize_asset <$> assets) (normalize_relationship <$> rels)) = true.
Proof.
  intros [Ho Hc Hcn Hseq (Ht1 & Ht2 & Ht3) Ha Hr] Hfound. unfold validSnapshotContract.
  pose proof (valid_found assets rels Hfound) as Hv.
  change (assets_of (new_snapshot _ _ _ _ _ _ _)) with (normalize_asset <$> assets).
  change (relationships_of (new_snapshot _ _ _ _ _ _ _)) with (normalize_relationship <$> rels).
  destruct (valid_observations ∅ (normalize_asset <$> assets)); [|done]. rewrite Hv, andb_true_r.
  unfold valid_envelope, time_is_zero.
  change (assets_of (new_snapshot _ _ _ _ _ _ _)) with (normalize_asset <$> assets).
  change (relationships_of (new_snapshot _ _ _ _ _ _ _)) with (normalize_relationship <$> rels).
  cbn [s_id s_org s_collector s_connector s_sequence s_protocol s_warnings s_statistics s_started s_completed new_snapshot default].
  assert (len ("snapshot-" +:+ format_int sequence) <= 160)%Z as Hlen.
  { unfold len. rewrite string_length_app. pose proof (format_int_length sequence 19) as Hf. unfold max_int64 in Hseq. cbn in *. lia. }
  rewrite (bool_decide_true ("1.0" = "1.0")) by done. rewrite !bool_decide_false by done. rewrite !length_fmap.
  unfold Datatypes.id. set (stats := (<["assets":=_]> _ : gmap string Z)).
  assert (Z.of_nat (size stats) <= 32)%Z as Hsize by (unfold stats; rewrite map_size_insert_None, map_size_singleton; [lia|done]).
  rewrite (proj2 (Z.leb_le _ _) Hlen), (proj2 (Z.leb_le _ _) Hsize), (proj2 (Z.leb_le _ _) Ht3).
  rewrite !(proj2 (Z.leb_le _ _)) by (cbn; lia). cbn [andb negb forallb].
  apply forallb_forall. intros [key n] Hin%list_elem_of_In%elem_of_map_to_list. cbn [snd].
  repeat (apply lookup_insert_Some in Hin as [[_ <-]|[_ Hin]]; [apply Z.leb_le; lia|]).
  apply lookup_singleton_Some in Hin as [_ <-]. apply Z.leb_le. lia.
Qed.

(** ** Keys *)

(** Identifiers without a NUL keep relationships apart. *)
Lemma relationship_id_inj r r' : free_of nul (ro_from r) -> free_of nul (ro_to r) -> free_of nul (ro_from r') -> free_of nul (ro_to r') ->
  relationship_id r = relationship_id r' -> ro_from r = ro_from r' /\ ro_to r = ro_to r' /\ ro_type r = ro_type r'.
Proof.
  intros H1 H2 H3 H4 E. apply separator_inj in E as [E1 E]; [|done|done]. by apply separator_inj in E as [E2 E3].
Qed.

Lemma keys_nodup rels : NoDup rels -> (forall r, r ∈ rels -> free_of nul (ro_from r) /\ free_of nul (ro_to r)) ->
  (forall r r', r ∈ rels -> r' ∈ rels -> ro_from r = ro_from r' -> ro_to r = ro_to r' -> ro_type r = ro_type r' -> r = r') ->
  NoDup (relationship_id <$> rels).
Proof.
  intros Hnd Hfree Hext. apply NoDup_fmap_2_strong; [|done]. intros r r' Hr Hr' E.
  destruct (Hfree r Hr), (Hfree r' Hr'). apply relationship_id_inj in E as (E1 & E2 & E3); [|done..]. by apply Hext.
Qed.

Lemma free_of_app c a b : free_of c a -> free_of c b -> free_of c (a +:+ b).
Proof.
  unfold free_of. intros Ha Hb. induction a as [|x a IH]; [done|]. cbn in *.
  apply not_elem_of_cons in Ha as [Hx Ha]. apply not_elem_of_cons. by split; [|apply IH].
Qed.

(** Signing changes nothing the contract looks at. *)
Lemma sign_keeps_contract `{Ed25519} s key s' : SignSnapshot s key = Ok s' -> validSnapshotContract s' = validSnapshotContract s.
Proof. intros (b & _ & (b' & _ & [= <-])%bind_ok)%bind_ok. reflexivity. Qed.
