(* ===== verification/GoUrl.v ===== *)
(** * URLs

    [url.QueryEscape] is modelled; [url.Parse] and [net.ParseIP] are parameters,
    of which only the parts the source reads are kept. *)
From S2P Require Import Prelude GoStrings.
From Stdlib Require Import Ascii.
Open Scope string_scope.

(** [url.QueryEscape]. *)
Definition unreserved (c : ascii) : bool :=
  let n := byte_of c in
  ((48 <=? n) && (n <=? 57) || (65 <=? n) && (n <=? 90) || (97 <=? n) && (n <=? 122)
   || (n =? 45) || (n =? 46) || (n =? 95) || (n =? 126))%N.

Definition upper_hex (n : N) : ascii := ascii_of_N (if (n <? 10)%N then 48 + n else 55 + n)%N.

Fixpoint query_escape (s : string) : string :=
  match s with
  | EmptyString => ""
  | String c s' =>
      if unreserved c then String c (query_escape s')
      else if (byte_of c =? 32)%N then String "+" (query_escape s')
      else String "%" (String (upper_hex (byte_of c / 16)) (String (upper_hex (byte_of c mod 16)) (query_escape s')))
  end.

(** What [url.Parse] makes of a string, and its query parameters. *)
Record Url := {
  u_scheme : string; u_host : string; u_hostname : string; u_user : bool; u_path : string;
  u_raw_query : string; u_fragment : string; u_query : gmap string string }.

Class UrlParser := {
  url_parse : string -> option Url;
  (** Whether an address is a loopback address, when it is an address. *)
  ip_loopback : string -> option bool }.
