(* ===== verification/GoNetip.v ===== *)
(** * Network addresses

    [net/netip]'s addresses and prefixes, and [net.SplitHostPort]: parsing,
    membership and printing. *)
From S2P Require Import Prelude GoStrings.
From Stdlib Require Import Ascii.
Open Scope string_scope.
Open Scope list_scope.

(** ** Addresses *)

(** An IPv4 address as 32 bits; an IPv6 address as 128 bits with its zone,
    empty when there is none. *)
Inductive Addr := V4 (n : N) | V6 (n : N) (zone : string).

#[export] Instance addr_eq_dec : EqDecision Addr.
Proof. solve_decision. Defined.

(** Big-endian digits in base [b]. *)
Definition big_endian (b : N) (l : list N) : N := foldl (fun acc d => acc * b + d)%N 0%N l.

Definition decimal_value (c : ascii) : option N :=
  let n := byte_of c in if ((48 <=? n) && (n <=? 57))%N then Some (n - 48)%N else None.

Definition hex_value (c : ascii) : option N :=
  let n := byte_of c in
  if ((48 <=? n) && (n <=? 57))%N then Some (n - 48)%N else
  if ((97 <=? n) && (n <=? 102))%N then Some (n - 87)%N else
  if ((65 <=? n) && (n <=? 70))%N then Some (n - 55)%N else None.

(** [parseIPv4Fields]: the octet read so far, its number of digits, and the
    octets before it. *)
Fixpoint v4_fields (s : string) (val : N) (digits : nat) (before : list N) : option (list N) :=
  match s with
  | EmptyString => if (length before <? 3)%nat then None else Some (before ++ [val])
  | String c s' =>
      match decimal_value c with
      | Some d =>
          if (digits =? 1)%nat && (val =? 0)%N then None else
          let val := (val * 10 + d)%N in
          if (255 <? val)%N then None else v4_fields s' val (S digits) before
      | None =>
          if negb (Ascii.eqb c ".") then None else
          if (digits =? 0)%nat || bool_decide (s' = "") then None else
          if (length before =? 3)%nat then None else v4_fields s' 0 0 (before ++ [val])
      end
  end.

Definition parse_v4 (s : string) : option Addr := V4 ∘ big_endian 256 <$> v4_fields s 0 0 [].

(** The hexadecimal digits a text starts with, as values, and the rest. *)
Fixpoint hex_digits (s : string) : list N * string :=
  match s with
  | EmptyString => ([], "")
  | String c s' => match hex_value c with
                   | Some d => let '(ds, rest) := hex_digits s' in (d :: ds, rest)
                   | None => ([], s) end
  end.

(** The loop of [parseIPv6]: the 16-bit groups so far, and where the ellipsis
    is among them. Eight turns fill the address. *)
Fixpoint v6_groups (turns : nat) (s : string) (groups : list N) (ellipsis : option nat) : option (list N * option nat) :=
  match turns with
  | O => if bool_decide (s = "") then Some (groups, ellipsis) else None
  | S turns' =>
      let '(ds, rest) := hex_digits s in
      if (length ds =? 0)%nat || (4 <? length ds)%nat then None else
      match rest with
      | EmptyString => Some (groups ++ [big_endian 16 ds], ellipsis)
      | String c rest' =>
          if Ascii.eqb c "." then
            if bool_decide (ellipsis = None) && negb (length groups =? 6)%nat then None else
            if (6 <? length groups)%nat then None else
            match v4_fields s 0 0 [] with
            | Some [a; b; x; y] => Some (groups ++ [a * 256 + b; x * 256 + y]%N, ellipsis)
            | _ => None
            end
          else
          let groups := groups ++ [big_endian 16 ds] in
          if negb (Ascii.eqb c ":") then None else
          match rest' with
          | EmptyString => None
          | String d rest'' =>
              if negb (Ascii.eqb d ":") then v6_groups turns' rest' groups ellipsis else
              if bool_decide (is_Some ellipsis) then None else
              if bool_decide (rest'' = "") then Some (groups, Some (length groups))
              else v6_groups turns' rest'' groups (Some (length groups))
          end
      end
  end.

(** The ellipsis expanded: it stands for one group of zeros at least. *)
Definition v6_expand (r : list N * option nat) : option (list N) :=
  let '(groups, ellipsis) := r in
  match ellipsis with
  | None => if (length groups =? 8)%nat then Some groups else None
  | Some e => if (length groups <? 8)%nat then Some (take e groups ++ replicate (8 - length groups) 0%N ++ drop e groups) else None
  end.

Definition parse_v6 (s : string) : option Addr :=
  let cut := match String.index 0 "%" s with
    | Some i => (String.substring 0 i s, Some (String.substring (S i) (String.length s) s))
    | None => (s, None) end in
  if bool_decide (cut.2 = Some "") then None else
  let zone := default "" cut.2 in
  let s := cut.1 in
  let r := if has_prefix s "::" then
             let s := trim_prefix s "::" in
             if bool_decide (s = "") then Some ([], Some 0%nat) else v6_groups 8 s [] (Some 0%nat)
           else v6_groups 8 s [] None in
  groups ← r;
  full ← v6_expand groups;
  Some (V6 (big_endian 65536 full) zone).

(** [netip.ParseAddr]: the first dot, colon or percent sign tells the family. *)
Fixpoint family (s : string) : option ascii :=
  match s with
  | EmptyString => None
  | String c s' => if Ascii.eqb c "." || Ascii.eqb c ":" || Ascii.eqb c "%" then Some c else family s'
  end.

Definition ParseAddr (s : string) : option Addr :=
  match family s with
  | Some c => if Ascii.eqb c "." then parse_v4 s else if Ascii.eqb c ":" then parse_v6 s else None
  | None => None
  end.

(** ** Printing *)

Definition format_N (n : N) : string := format_int (Z.of_N n).

(** The digits of [n] in base [b], at least [width] of them. *)
Fixpoint digits_of (b : N) (width : nat) (n : N) (acc : list N) : list N :=
  match width with O => acc | S width' => digits_of b width' (n / b)%N ((n mod b)%N :: acc) end.

Definition string4 (n : N) : string := join "." (format_N <$> digits_of 256 4 n []).

(** A 16-bit group in hexadecimal, without leading zeros. *)
Definition hex_group (n : N) : string :=
  match drop_while (fun d => d =? 0)%N (digits_of 16 4 n []) with
  | [] => "0"
  | ds => String.string_of_list_ascii (hex_digit <$> ds)
  end.

(** The first of the longest runs of two or more zero groups. *)
Fixpoint zero_run (l : list N) : nat :=
  match l with 0%N :: l' => S (zero_run l') | _ => 0 end.

Definition longest_run (groups : list N) : nat * nat :=
  foldl (fun best i => let l := zero_run (drop i groups) in if (2 <=? l)%nat && (best.2 <? l)%nat then (i, l) else best)
    (8, 0)%nat (seq 0 8).

Definition string6 (groups : list N) : string :=
  let '(i, l) := longest_run groups in
  if (l =? 0)%nat then join ":" (hex_group <$> groups)
  else join ":" (hex_group <$> take i groups) +:+ "::" +:+ join ":" (hex_group <$> drop (i + l) groups).

(** [Addr.String]; an IPv4 address within IPv6 keeps its prefix. *)
Definition addr_string (a : Addr) : string :=
  match a with
  | V4 n => string4 n
  | V6 n zone =>
      (if (N.shiftr n 32 =? 65535)%N then "::ffff:" +:+ string4 (n mod 2 ^ 32) else string6 (digits_of 65536 8 n []))
      +:+ (if bool_decide (zone = "") then "" else "%" +:+ zone)
  end.

(** ** Prefixes *)

Record Prefix := { p_addr : Addr; p_bits : N }.

(** The text after the last [c], and what comes before it. *)
Fixpoint cut_last (c : ascii) (s : string) : option (string * string) :=
  match s with
  | EmptyString => None
  | String d s' =>
      match cut_last c s' with
      | Some (a, b) => Some (String d a, b)
      | None => if Ascii.eqb d c then Some ("", s') else None
      end
  end.

Definition has_zone (a : Addr) : bool := match a with V6 _ z => negb (bool_decide (z = "")) | V4 _ => false end.

Definition ParsePrefix (s : string) : option Prefix :=
  '(addr, bits) ← cut_last "/" s;
  ip ← ParseAddr addr;
  if has_zone ip then None else
  let signed := match bits with String c (String _ _) => negb (bool_decide (is_Some (decimal_value c))) || Ascii.eqb c "0" | _ => false end in
  if signed then None else
  let '(n, failed) := parse_int bits in
  let most := match ip with V4 _ => 32 | V6 _ _ => 128 end%Z in
  if failed || (n <? 0)%Z || (most <? n)%Z then None else Some {| p_addr := ip; p_bits := Z.to_N n |}.

(** [Prefix.Contains]: the families agree, and so do the leading bits. *)
Definition prefix_contains (p : Prefix) (a : Addr) : bool :=
  match p_addr p, a with
  | V4 n, V4 m => (N.shiftr (N.lxor n m) (32 - p_bits p) =? 0)%N
  | V6 n _, V6 m z => bool_decide (z = "") && (N.shiftr (N.lxor n m) (128 - p_bits p) =? 0)%N
  | _, _ => false
  end.

(** A prefix of an address without zone, no longer than it. *)
Definition prefix_valid (p : Prefix) : Prop :=
  has_zone (p_addr p) = false /\ (p_bits p <= match p_addr p with V4 _ => 32 | V6 _ _ => 128 end)%N.

Lemma ParsePrefix_valid s p : ParsePrefix s = Some p -> prefix_valid p.
Proof.
  unfold ParsePrefix. destruct (cut_last _ _) as [[addr bits]|]; [cbn [mbind option_bind]|done].
  destruct (ParseAddr addr) as [ip|]; [cbn [mbind option_bind]|done]. destruct (has_zone ip) eqn:Hz; [done|].
  destruct (match bits with "" => false | _ => _ end); [done|]. destruct (parse_int bits) as [n failed].
  destruct (failed || (n <? 0)%Z || _) eqn:Hn; [done|]. intros [= <-]. apply orb_false_iff in Hn as [[_ Hn]%orb_false_iff Hmost].
  split; [done|]. cbn [p_addr p_bits]. destruct ip; lia.
Qed.

(** ** Host and port *)

Definition has_byte (c : ascii) (s : string) : bool := bool_decide (c ∈ String.list_ascii_of_string s).

(** [net.SplitHostPort], its host; [None] is an error. *)
Definition split_host (s : string) : option string :=
  '(before, port) ← cut_last ":" s;
  match before with
  | String "[" inner =>
      match split_on "]" inner with
      | [host; ""] => if has_byte "[" host || has_byte "[" port || has_byte "]" port then None else Some host
      | _ => None
      end
  | _ => if has_byte ":" before || has_byte "[" s || has_byte "]" s then None else Some before
  end.

Example addresses :
  addr_string <$> ParseAddr "10.1.2.3" = Some "10.1.2.3" /\
  ParseAddr "10.01.2.3" = None /\ ParseAddr "256.1.1.1" = None /\ ParseAddr "1.2.3" = None /\
  addr_string <$> ParseAddr "2001:DB8:0:0:1::1" = Some "2001:db8::1:0:0:1" /\
  addr_string <$> ParseAddr "::ffff:192.0.2.1" = Some "::ffff:192.0.2.1" /\
  addr_string <$> ParseAddr "fe80::1%eth0" = Some "fe80::1%eth0" /\
  addr_string <$> ParseAddr "1:0:0:2:0:0:0:3" = Some "1:0:0:2::3" /\
  addr_string <$> ParseAddr "::" = Some "::" /\ ParseAddr "1::2::3" = None /\ ParseAddr "1:2:3:4:5:6:7:8:9" = None /\
  ParseAddr "1:2:3:4:5:6:7:8::" = None /\ ParseAddr "12345::" = None.
Proof. repeat split; vm_compute; reflexivity. Qed.

Example prefixes :
  (p ← ParsePrefix "10.0.0.0/8"; a ← ParseAddr "10.200.3.4"; Some (prefix_contains p a)) = Some true /\
  (p ← ParsePrefix "10.0.0.0/8"; a ← ParseAddr "11.0.0.1"; Some (prefix_contains p a)) = Some false /\
  (p ← ParsePrefix "fd00::/8"; a ← ParseAddr "fd12::1"; Some (prefix_contains p a)) = Some true /\
  ParsePrefix "10.0.0.0/33" = None /\ ParsePrefix "10.0.0.0/08" = None /\ ParsePrefix "10.0.0.0" = None.
Proof. repeat split; vm_compute; reflexivity. Qed.

Example hosts :
  split_host "192.0.2.1:4000" = Some "192.0.2.1" /\ split_host "[::1]:80" = Some "::1" /\
  split_host "::1:80" = None /\ split_host "localhost" = None.
Proof. repeat split; vm_compute; reflexivity. Qed.
