(* ===== verification/Docker.v ===== *)
(** * The Docker connector ([internal/connectors/docker/docker.go])

    [Discover] makes one request to the Docker API and turns its containers
    into observations. The API is a parameter: a path to what came back. *)
From S2P Require Import Prelude GoStrings GoJson GoUrl Domain Reconcile.
From Stdlib Require Import Ascii.
Open Scope string_scope.
Open Scope list_scope.

(** ** The connector *)

Record Connector := { baseURL : string; label : string }.

Definition NewUnix (socket label : string) : result string (string * Connector) :=
  let socket := if bool_decide (socket = "") then "/var/run/docker.sock" else socket in
  if bool_decide (label = "") then Err "a label scope is required"
  else Ok (socket, {| baseURL := "http://docker"; label := label |}).

Definition NewHTTP `{UrlParser} (base label : string) : result string Connector :=
  match url_parse base with
  | None => Err "invalid Docker API URL"
  | Some u =>
      if negb (bool_decide (u_scheme u = "http")) && negb (bool_decide (u_scheme u = "https")) then Err "invalid Docker API URL" else
      if bool_decide (label = "") then Err "a label scope is required" else
      Ok {| baseURL := trim_right_cut ["/"%char] base; label := label |}
  end.

(** One container of the API's list, as decoded. *)
Record Mount := { m_name : string; m_type : string }.

Record item := {
  i_id : string; i_names : list string; i_image : string; i_image_id : string;
  i_labels : gmap string string; i_networks : gmap string json; i_mounts : list Mount }.

(** An answer: its status line and code, and what its body decodes to. *)
Record Response := { rs_code : Z; rs_status : string; rs_body : result string (list item) }.

Definition get (api : string -> result string Response) (c : Connector) (p : string) : result string (list item) :=
  res ← api (baseURL c +:+ p);
  if negb (rs_code res =? 200)%Z then Err ("Docker API returned " +:+ rs_status res) else rs_body res.

Definition containers_path (c : Connector) : string :=
  "/containers/json?all=1&filters=" +:+ query_escape ("{" +:+ quote +:+ "label" +:+ quote +:+ ":[" +:+ quote +:+ label c +:+ quote +:+ "]}").

(** ** Helpers *)

(** [path.Base] of a string that is not empty. *)
Definition base_name (s : string) : string :=
  let s := trim_right_cut ["/"%char] s in
  if bool_decide (s = "") then "/" else default "" (last (split_on "/" s)).

Definition first (v : list string) : string :=
  match find (fun s => negb (bool_decide (s = ""))) v with Some s => base_name s | None => "" end.

Definition relation (a b t : string) (at_ : gotime) : RelationshipObservation :=
  {| ro_relationship := ""; ro_snapshot := ""; ro_connector := ""; ro_from := a; ro_to := b; ro_type := t;
     ro_observed := at_; ro_attributes := Some ∅ |}.

Definition observation (id typ name : string) (hints : option (gmap string json)) (now : gotime) : Observation :=
  {| o_id := ""; o_org := ""; o_snapshot := ""; o_connector := ""; o_collector := ""; o_external := id; o_type := typ;
     o_observed := now; o_attributes := Some {["name" := JStr name]}; o_hints := hints; o_fingerprint := ""; o_status := "" |}.

(** ** [Discover] *)

(** [assets], [rels] and [seen]. *)
Record Found := { f_assets : list Observation; f_rels : list RelationshipObservation; f_seen : gset string }.

Definition host : string := "docker-host".

Definition add (now : gotime) (id typ name : string) (hints : option (gmap string json)) (f : Found) : Found :=
  if bool_decide (id ∈ f_seen f) then f
  else {| f_assets := f_assets f ++ [observation id typ name hints now]; f_rels := f_rels f; f_seen := {[id]} ∪ f_seen f |}.

Definition relate (now : gotime) (a b t : string) (f : Found) : Found :=
  {| f_assets := f_assets f; f_rels := f_rels f ++ [relation a b t now]; f_seen := f_seen f |}.

Definition container_name (v : item) : string := trim_prefix (first (i_names v)) "/".

Definition by_name (containers : list item) : gmap string string :=
  foldl (fun m v => <[container_name v := i_id v]> m) ∅ containers.

Definition network (now : gotime) (v : item) (f : Found) (n : string * json) : Found :=
  let id := "network:" +:+ n.1 in relate now (i_id v) id "CONNECTED_TO" (add now id Network n.1 None f).

Definition mount (now : gotime) (v : item) (f : Found) (m : Mount) : Found :=
  if bool_decide (m_type m = "volume") && negb (bool_decide (m_name m = ""))
  then let id := "volume:" +:+ m_name m in relate now (i_id v) id "USES_VOLUME" (add now id Volume (m_name m) None f)
  else f.

Definition dependency (now : gotime) (names : gmap string string) (v : item) (f : Found) : Found :=
  let target := default "" (names !! default "" (i_labels v !! "com.infragraph.depends-on")) in
  if bool_decide (target = "") then f else relate now (i_id v) target "CONNECTED_TO" f.

Section Discover.
Context `{RangeOrder}.

(** One iteration of the second loop; the networks' map is ranged over. *)
Definition container (now : gotime) (names : gmap string string) (f : Found) (iv : nat * item) : Found :=
  let '(i, v) := iv in
  let f := add now (i_id v) Container (container_name v) (Some {["docker_container_id" := JStr (i_id v)]}) f in
  let f := add now (i_image_id v) ContainerImage (i_image v) (Some {["docker_image_id" := JStr (i_image_id v)]}) f in
  let f := relate now (i_id v) (i_image_id v) "USES_IMAGE" (relate now (i_id v) host "RUNS_ON" f) in
  let f := foldl (network now v) f (range i (i_networks v)) in
  let f := foldl (mount now v) f (i_mounts v) in
  dependency now names v f.

Definition discover_all (now : gotime) (containers : list item) : Found :=
  foldl (container now (by_name containers))
    {| f_assets := [observation host PhysicalHost "Docker Host" (Some ∅) now]; f_rels := []; f_seen := {[host]} |}
    (imap pair containers).

Definition Discover (api : string -> result string Response) (now : gotime) (c : Connector)
    : result string (list Observation * list RelationshipObservation) :=
  containers ← get api c (containers_path c);
  let f := discover_all now containers in
  Ok (f_assets f, f_rels f).

End Discover.
