(* ===== verification/DockerFacts.v ===== *)
(** * What the Docker connector finds *)
From S2P Require Import Prelude GoStrings GoNumbers GoJson Domain Security SecurityFacts AuditChain Reconcile Collector RateLimit Gateway SnapshotContract Docker.
From Stdlib Require Import Ascii.
Open Scope string_scope.
Open Scope list_scope.

(** ** Loops that append *)

Lemma foldl_appends {S A B} (p : S -> list B) (step : S -> A -> S) (g : A -> list B) l s :
  (forall s x, p (step s x) = p s ++ g x) -> p (foldl step s l) = p s ++ (l ≫= g).
Proof.
  intros Hstep. revert s. induction l as [|x l IH]; intros s; cbn; [by rewrite app_nil_r|].
  rewrite IH, Hstep, <- app_assoc. done.
Qed.

(** The identifiers of the assets found are those seen, each once. *)
Definition tracked (f : Found) : Prop :=
  NoDup (o_external <$> f_assets f) /\ forall x, x ∈ (o_external <$> f_assets f) <-> x ∈ f_seen f.

Definition extends (ids : list string) (f f' : Found) : Prop :=
  tracked f -> tracked f' /\ forall x, x ∈ f_seen f' <-> x ∈ f_seen f \/ x ∈ ids.

Lemma extends_trans ids1 ids2 f1 f2 f3 : extends ids1 f1 f2 -> extends ids2 f2 f3 -> extends (ids1 ++ ids2) f1 f3.
Proof.
  intros H1 H2 Ht. destruct (H1 Ht) as [Ht2 S2]. destruct (H2 Ht2) as [Ht3 S3]. split; [done|].
  intros x. rewrite S3, S2, elem_of_app. tauto.
Qed.

Lemma extends_foldl {A} (step : Found -> A -> Found) (g : A -> list string) l f :
  (forall f x, extends (g x) f (step f x)) -> extends (l ≫= g) f (foldl step f l).
Proof.
  intros Hstep. revert f. induction l as [|x l IH]; intros f; cbn.
  - intros Ht. split; [done|]. intros x. rewrite elem_of_nil. tauto.
  - eapply extends_trans; [apply Hstep|apply IH].
Qed.

Lemma add_extends now id typ name hints f : extends [id] f (add now id typ name hints f).
Proof.
  intros [Hnd Hin]. unfold add. case_bool_decide as Hd.
  - split; [done|]. intros x. rewrite list_elem_of_singleton. split; [tauto|]. intros [?| ->]; done.
  - split; [split|]; cbn.
    + rewrite fmap_app, NoDup_app. split_and!; [done| |apply NoDup_singleton].
      intros x Hx ->%list_elem_of_singleton. by apply Hd, Hin.
    + intros x. rewrite fmap_app, elem_of_app, Hin, elem_of_union, elem_of_singleton. cbn. rewrite list_elem_of_singleton. tauto.
    + intros x. rewrite elem_of_union, elem_of_singleton, list_elem_of_singleton. tauto.
Qed.

Lemma relate_extends now a b t f : extends [] f (relate now a b t f).
Proof. intros Ht. split; [done|]. intros x. cbn. rewrite elem_of_nil. tauto. Qed.

(** ** One container *)

Definition volume_mounts (v : item) : list string :=
  m_name <$> filter (fun m => m_type m = "volume" /\ m_name m <> "") (i_mounts v).

Definition target (names : gmap string string) (v : item) : string :=
  default "" (names !! default "" (i_labels v !! "com.infragraph.depends-on")).

(** The assets a container stands for. *)
Definition container_ids (v : item) : list string :=
  [i_id v; i_image_id v] ++ ((fun n => "network:" +:+ n.1) <$> map_to_list (i_networks v))
  ++ ((fun n => "volume:" +:+ n) <$> volume_mounts v).

Section Spec.
Context `{RangeOrder}.

(** The relationships of a container, in the order they are found. *)
Definition container_rels (now : gotime) (names : gmap string string) (iv : nat * item) : list RelationshipObservation :=
  let '(i, v) := iv in
  [relation (i_id v) host "RUNS_ON" now; relation (i_id v) (i_image_id v) "USES_IMAGE" now]
  ++ ((fun n => relation (i_id v) ("network:" +:+ n.1) "CONNECTED_TO" now) <$> range i (i_networks v))
  ++ ((fun n => relation (i_id v) ("volume:" +:+ n) "USES_VOLUME" now) <$> volume_mounts v)
  ++ (if decide (target names v = "") then [] else [relation (i_id v) (target names v) "CONNECTED_TO" now]).

Lemma add_rels now id typ name hints f : f_rels (add now id typ name hints f) = f_rels f.
Proof. unfold add. by case_bool_decide. Qed.

Lemma bind_singletons {A B} (g : A -> B) (l : list A) : (l ≫= fun x => [g x]) = g <$> l.
Proof. induction l as [|x l IH]; [done|]. cbn. by rewrite <- IH. Qed.

Lemma bind_mounts {B} (g : string -> B) v :
  (i_mounts v ≫= fun m => if bool_decide (m_type m = "volume") && negb (bool_decide (m_name m = "")) then [g (m_name m)] else [])
  = g <$> volume_mounts v.
Proof.
  unfold volume_mounts. induction (i_mounts v) as [|m l IH]; [done|]. rewrite bind_cons, filter_cons, IH.
  do 2 case_bool_decide; cbn [andb negb].
  - rewrite decide_False by tauto. done.
  - by rewrite decide_True.
  - rewrite decide_False by tauto. done.
  - rewrite decide_False by tauto. done.
Qed.

Lemma container_rels_spec now names f iv : f_rels (container now names f iv) = f_rels f ++ container_rels now names iv.
Proof.
  destruct iv as [i v]. unfold container, dependency, container_rels. fold (target names v).
  assert (forall f, f_rels (if bool_decide (target names v = "") then f else relate now (i_id v) (target names v) "CONNECTED_TO" f)
    = f_rels f ++ (if decide (target names v = "") then [] else [relation (i_id v) (target names v) "CONNECTED_TO" now])) as Hdep.
  { intros g. case_bool_decide; [rewrite decide_True by done; by rewrite app_nil_r|by rewrite decide_False]. }
  rewrite Hdep.
  rewrite (foldl_appends f_rels (mount now v) (fun m => if bool_decide (m_type m = "volume") && negb (bool_decide (m_name m = ""))
    then [relation (i_id v) ("volume:" +:+ m_name m) "USES_VOLUME" now] else [])).
  2:{ intros g m. unfold mount. destruct (_ && _); [|by rewrite app_nil_r]. cbn. by rewrite add_rels. }
  rewrite (foldl_appends f_rels (network now v) (fun n => [relation (i_id v) ("network:" +:+ n.1) "CONNECTED_TO" now])).
  2:{ intros g n. cbn. by rewrite add_rels. }
  cbn [relate f_rels]. rewrite !add_rels, bind_singletons, (bind_mounts (fun n => relation (i_id v) ("volume:" +:+ n) "USES_VOLUME" now)).
  by rewrite <- !app_assoc.
Qed.

Lemma container_extends now names f iv : extends (container_ids iv.2) f (container now names f iv).
Proof.
  destruct iv as [i v]. cbn [snd]. unfold container, dependency. fold (target names v).
  set (f1 := add now (i_id v) Container _ _ f). set (f2 := add now (i_image_id v) ContainerImage _ _ f1).
  set (f3 := relate _ _ _ _ (relate _ _ _ _ f2)). set (f4 := foldl (network now v) f3 _). set (f5 := foldl (mount now v) f4 _).
  assert (extends ([i_id v] ++ [i_image_id v] ++ [] ++ []) f f3) as H3.
  { eapply extends_trans; [apply add_extends|]. eapply extends_trans; [apply add_extends|].
    eapply extends_trans; apply relate_extends. }
  assert (extends (range i (i_networks v) ≫= fun n => ["network:" +:+ n.1]) f3 f4) as H4.
  { apply extends_foldl. intros g n. eapply (extends_trans [_] []); [apply add_extends|apply relate_extends]. }
  assert (extends (i_mounts v ≫= fun m => if bool_decide (m_type m = "volume") && negb (bool_decide (m_name m = ""))
    then ["volume:" +:+ m_name m] else []) f4 f5) as H5.
  { apply extends_foldl. intros g m. unfold mount. destruct (_ && _).
    - eapply (extends_trans [_] []); [apply add_extends|apply relate_extends].
    - intros Ht. split; [done|]. intros x. rewrite elem_of_nil. tauto. }
  rewrite bind_singletons in H4. rewrite (bind_mounts (fun n => "volume:" +:+ n)) in H5.
  intros Ht. destruct (extends_trans _ _ _ _ _ H3 (extends_trans _ _ _ _ _ H4 H5) Ht) as [Ht5 S5].
  assert (forall x, x ∈ f_seen f5 <-> x ∈ f_seen f \/ x ∈ container_ids v) as Hspec.
  { intros x. rewrite S5. unfold container_ids. rewrite !elem_of_app, (range_perm i (i_networks v)). cbn [app].
    rewrite !elem_of_cons, !elem_of_nil. tauto. }
  case_bool_decide; [by split|]. by split.
Qed.

(** ** All of them *)

Definition found (now : gotime) (containers : list item) : Found := discover_all now containers.

Lemma imap_pair_snd {A} (l : list A) (k : nat) : snd <$> imap (fun i x => ((k + i)%nat, x)) l = l.
Proof. rewrite fmap_imap. apply list_eq. intros i. rewrite list_lookup_imap. by destruct (l !! i). Qed.

Lemma discover_rels now containers :
  f_rels (discover_all now containers) = imap pair containers ≫= container_rels now (by_name containers).
Proof. unfold discover_all. by rewrite (foldl_appends f_rels _ _ _ _ (container_rels_spec now (by_name containers))). Qed.

Lemma discover_ids now containers :
  NoDup (o_external <$> f_assets (discover_all now containers)) /\
  forall x, x ∈ (o_external <$> f_assets (discover_all now containers)) <-> x = host \/ exists v, v ∈ containers /\ x ∈ container_ids v.
Proof.
  unfold discover_all.
  pose proof (extends_foldl (container now (by_name containers)) (container_ids ∘ snd) (imap pair containers)
    {| f_assets := [observation host PhysicalHost "Docker Host" (Some ∅) now]; f_rels := []; f_seen := {[host]} |}
    (fun f iv => container_extends now (by_name containers) f iv)) as Hext.
  destruct Hext as [[Hnd Hin] Hseen].
  { split; [apply NoDup_singleton|]. intros x. cbn. by rewrite list_elem_of_singleton, elem_of_singleton. }
  split; [done|]. intros x. rewrite Hin, Hseen. cbn [f_seen]. rewrite elem_of_singleton, list_elem_of_bind. split.
  - intros [->|(iv & Hx & Hiv)]; [by left|]. right. exists iv.2. split; [|done].
    apply elem_of_lookup_imap in Hiv as (i & v & -> & Hv). by eapply list_elem_of_lookup_2.
  - intros [->|(v & [i Hv]%list_elem_of_lookup & Hx)]; [by left|]. right. exists (i, v). split; [done|].
    apply elem_of_lookup_imap. by exists i, v.
Qed.

(** The name table holds identifiers of containers only. *)
Lemma by_name_ids containers n id : by_name containers !! n = Some id -> exists v, v ∈ containers /\ i_id v = id.
Proof.
  unfold by_name. assert (forall (l : list item) (m : gmap string string), (forall n id, m !! n = Some id -> exists v, v ∈ containers /\ i_id v = id) ->
    (forall v, v ∈ l -> v ∈ containers) -> forall n id, foldl (fun m v => <[container_name v := i_id v]> m) m l !! n = Some id ->
    exists v, v ∈ containers /\ i_id v = id) as Hall.
  { induction l as [|v l IH]; intros m Hm Hl; [done|]. cbn. apply IH; [|intros x Hx; apply Hl; by right].
    intros n' id' [[_ <-]|[_ Hn]]%lookup_insert_Some; [exists v; split; [apply Hl; left|done]|by eapply Hm]. }
  apply Hall; [|done]. intros n' id' Hn. by rewrite lookup_empty in Hn.
Qed.

Lemma target_container containers v : target (by_name containers) v <> "" ->
  exists w, w ∈ containers /\ i_id w = target (by_name containers) v.
Proof.
  unfold target. destruct (by_name containers !! _) as [id|] eqn:E; [|done]. intros _. by eapply by_name_ids.
Qed.

Lemma discover_ends now containers r : r ∈ f_rels (discover_all now containers) ->
  ro_from r ∈ (o_external <$> f_assets (discover_all now containers)) /\ ro_to r ∈ (o_external <$> f_assets (discover_all now containers)).
Proof.
  destruct (discover_ids now containers) as [_ Hids]. rewrite discover_rels, !Hids, list_elem_of_bind.
  intros ([i w] & Hr & Hw). apply elem_of_lookup_imap in Hw as (j & v & [= <- <-] & Hv%list_elem_of_lookup_2).
  assert (forall x, x ∈ container_ids w -> x = host \/ exists v, v ∈ containers /\ x ∈ container_ids v) as Hin by (intros x Hx; right; by exists w).
  assert (i_id w ∈ container_ids w) as Hid by left.
  unfold container_rels in Hr. rewrite !elem_of_app in Hr. destruct Hr as [Hr|[Hr|[Hr|Hr]]].
  - apply elem_of_cons in Hr as [->|Hr]; [split; [by apply Hin|by left]|].
    apply list_elem_of_singleton in Hr as ->. split; [by apply Hin|]. apply Hin. right. left.
  - apply list_elem_of_fmap in Hr as (n & -> & Hn). split; [by apply Hin|]. apply Hin. unfold container_ids. rewrite !elem_of_app.
    right. left. apply list_elem_of_fmap. exists n. split; [done|]. by rewrite <- (range_perm i).
  - apply list_elem_of_fmap in Hr as (n & -> & Hn). split; [by apply Hin|]. apply Hin. unfold container_ids. rewrite !elem_of_app.
    right. right. apply list_elem_of_fmap. by exists n.
  - case_decide as Hd; [by apply elem_of_nil in Hr|]. apply list_elem_of_singleton in Hr as ->. split; [by apply Hin|].
    destruct (target_container containers w Hd) as (u & Hu & E). right. exists u. split; [done|]. cbn. rewrite <- E. left.
Qed.

End Spec.

(** ** The gateway accepts what is found *)

Definition good_id (x : string) : Prop := x <> "" /\ (len x <= 1024)%Z /\ free_of nul x.

(** What the Docker API promises of its list: identifiers of containers are
    unique and are no network names; and no volume is mounted twice in a
    container. *)
Record answers_well (containers : list item) : Prop := {
  aw_ids : NoDup (i_id <$> containers);
  aw_good : forall v x, v ∈ containers -> x ∈ container_ids v -> good_id x;
  aw_networks : forall v n, v ∈ containers -> i_id v <> "network:" +:+ n;
  aw_mounts : forall v, v ∈ containers -> NoDup (volume_mounts v) }.

Section Accepted.
Context `{RangeOrder}.

Lemma relation_eta now names iv r : r ∈ container_rels now names iv -> r = relation (ro_from r) (ro_to r) (ro_type r) now /\ ro_from r = i_id iv.2.
Proof.
  destruct iv as [i v]. unfold container_rels. rewrite !elem_of_app. intros [Hr|[Hr|[Hr|Hr]]].
  - apply elem_of_cons in Hr as [->|Hr%list_elem_of_singleton]; [done|]. by subst r.
  - by apply list_elem_of_fmap in Hr as (n & -> & _).
  - by apply list_elem_of_fmap in Hr as (n & -> & _).
  - case_decide; [by apply elem_of_nil in Hr|]. by apply list_elem_of_singleton in Hr as ->.
Qed.

(** One container's relationships are distinct. *)
Lemma container_rels_nodup now containers i v : answers_well containers -> v ∈ containers ->
  NoDup (container_rels now (by_name containers) (i, v)).
Proof.
  intros [_ _ Hnet Hmnt] Hv. unfold container_rels. rewrite !NoDup_app. split_and!.
  - rewrite NoDup_cons. split; [|apply NoDup_singleton]. by intros [=]%list_elem_of_singleton.
  - intros r Hr. assert (ro_type r = "RUNS_ON" \/ ro_type r = "USES_IMAGE") as Ht.
    { apply elem_of_cons in Hr as [->|Hr%list_elem_of_singleton]; [by left|]. subst r. by right. }
    rewrite !elem_of_app. intros [Hc|[Hc|Hc]].
    + apply list_elem_of_fmap in Hc as (n & -> & _). by destruct Ht.
    + apply list_elem_of_fmap in Hc as (n & -> & _). by destruct Ht.
    + case_decide; [by apply elem_of_nil in Hc|]. apply list_elem_of_singleton in Hc as ->. by destruct Ht.
  - apply NoDup_fmap_2_strong.
    + intros [n a] [m b] Hn Hm E%(f_equal ro_to)%string_app_inj_l. cbn in E. subst m. rewrite (range_perm i), elem_of_map_to_list in Hn, Hm. congruence.
    + rewrite (range_perm i). apply NoDup_map_to_list.
  - intros r (n & -> & _)%list_elem_of_fmap. rewrite elem_of_app. intros [Hc|Hc].
    + by apply list_elem_of_fmap in Hc as (m & [=] & _).
    + case_decide as Hd; [by apply elem_of_nil in Hc|]. apply list_elem_of_singleton in Hc. injection Hc as Hc.
      destruct (target_container containers v Hd) as (w & Hw & E). apply (Hnet w n.1 Hw). by rewrite E.
  - apply NoDup_fmap_2_strong; [|by apply Hmnt]. by intros n m _ _ ?%(f_equal ro_to)%string_app_inj_l.
  - intros r (n & -> & _)%list_elem_of_fmap. case_decide; [by intros ?%elem_of_nil|]. by intros [=]%list_elem_of_singleton.
  - case_decide; [constructor|apply NoDup_singleton].
Qed.

Lemma discover_nodup now containers : answers_well containers -> NoDup (f_rels (discover_all now containers)).
Proof.
  intros Haw. rewrite discover_rels. apply NoDup_bind.
  - intros [i v] [j w] r Hv Hw Hr1 Hr2. apply relation_eta in Hr1 as [_ E1], Hr2 as [_ E2].
    apply elem_of_lookup_imap in Hv as (i' & v' & [= <- <-] & Hv). apply elem_of_lookup_imap in Hw as (j' & w' & [= <- <-] & Hw).
    cbn in E1, E2. assert (i = j) as ->; [|congruence].
    eapply (NoDup_lookup (i_id <$> containers)); [apply Haw|..]; rewrite list_lookup_fmap; [by rewrite Hv|rewrite Hw; cbn; congruence].
  - intros [i v] Hv. apply elem_of_lookup_imap in Hv as (i' & v' & [= <- <-] & Hv%list_elem_of_lookup_2). by apply container_rels_nodup.
  - apply NoDup_fmap_1 with (f := fst). rewrite fmap_imap. apply NoDup_alt. intros i j x Hi Hj.
    rewrite list_lookup_imap in Hi, Hj. destruct (containers !! i), (containers !! j); cbn in Hi, Hj; congruence.
Qed.

Lemma good_host : good_id host.
Proof. split_and!; [done|done|]. unfold free_of. by repeat (apply not_elem_of_cons; split; [done|]); apply not_elem_of_nil. Qed.

Lemma external_good now containers x : answers_well containers ->
  x ∈ (o_external <$> f_assets (discover_all now containers)) -> good_id x.
Proof.
  intros Haw Hx. apply discover_ids in Hx as [->|(v & Hv & Hx)]; [apply good_host|]. by eapply Haw.
Qed.

Lemma asset_shape now names f iv :
  (forall o, o ∈ f_assets f -> o_observed o = now /\ (len (o_type o) <= 80)%Z /\ (size (attrs o) <= 1)%nat /\ (size (hints o) <= 1)%nat) ->
  forall o, o ∈ f_assets (container now names f iv) ->
    o_observed o = now /\ (len (o_type o) <= 80)%Z /\ (size (attrs o) <= 1)%nat /\ (size (hints o) <= 1)%nat.
Proof.
  set (P := fun f => forall o, o ∈ f_assets f -> o_observed o = now /\ (len (o_type o) <= 80)%Z /\ (size (attrs o) <= 1)%nat /\ (size (hints o) <= 1)%nat).
  assert (forall id typ nm h f, (len typ <= 80)%Z -> (size (default ∅ h) <= 1)%nat -> P f -> P (add now id typ nm h f)) as Hadd.
  { intros id typ nm h g Ht Hh Hg. unfold add. case_bool_decide; [done|]. intros o [Ho| ->%list_elem_of_singleton]%elem_of_app; [by apply Hg|].
    split_and!; [done|done| |done]. unfold attrs. cbn. by rewrite map_size_singleton. }
  intros Hf. change (P (container now names f iv)). destruct iv as [i v]. unfold container, dependency.
  match goal with |- P (if ?b then ?g else ?r) => assert (P g) as Hg; [|by destruct b] end.
  apply foldl_inv.
  - intros g m _ Hg. unfold mount. destruct (_ && _); [|done]. change (P (add now ("volume:" +:+ m_name m) Volume (m_name m) None g)).
    apply Hadd; [done|vm_compute; lia|done].
  - apply foldl_inv.
    + intros g n _ Hg. change (P (add now ("network:" +:+ n.1) Network n.1 None g)). apply Hadd; [done|vm_compute; lia|done].
    + change (P (add now (i_image_id v) ContainerImage (i_image v) (Some {["docker_image_id" := JStr (i_image_id v)]})
        (add now (i_id v) Container (container_name v) (Some {["docker_container_id" := JStr (i_id v)]}) f))).
      apply Hadd; [done|cbn; by rewrite map_size_singleton|]. apply Hadd; [done|cbn; by rewrite map_size_singleton|done].
Qed.

Lemma discover_well now containers : now <> 0%Z -> answers_well containers ->
  found_well (f_assets (discover_all now containers)) (f_rels (discover_all now containers)).
Proof.
  intros Hnow Haw. destruct (discover_ids now containers) as [Hnd _].
  assert (forall r, r ∈ f_rels (discover_all now containers) -> r = relation (ro_from r) (ro_to r) (ro_type r) now) as Heta.
  { intros r. rewrite discover_rels, list_elem_of_bind. intros (iv & Hr & _). by apply relation_eta in Hr as [? _]. }
  split.
  - exact Hnd.
  - apply Forall_forall. intros o Ho. pose proof (list_elem_of_fmap_2 o_external _ _ Ho) as Hx.
    destruct (external_good now containers _ Haw Hx) as (H1 & H2 & _).
    assert (o_observed o = now /\ (len (o_type o) <= 80)%Z /\ (size (attrs o) <= 1)%nat /\ (size (hints o) <= 1)%nat) as (H3 & H4 & H5 & H6).
    { revert o Ho Hx H1 H2. intros o Ho _ _ _. revert o Ho. unfold discover_all. apply (foldl_inv _ (fun f => forall o, o ∈ f_assets f -> _)).
      - intros f iv _. apply asset_shape.
      - intros o ->%list_elem_of_singleton. split_and!; [done|done| |vm_compute; lia]. unfold attrs. cbn. by rewrite map_size_singleton. }
    unfold good_asset. rewrite H3. split_and!; try done; lia.
  - apply discover_ends.
  - apply Forall_forall. intros r. rewrite discover_rels, list_elem_of_bind. intros ([i v] & Hr & _).
    assert (ro_type r <> "" /\ (len (ro_type r) <= 80)%Z) as [Ht Hl].
    { revert Hr. unfold container_rels. rewrite !elem_of_app. intros [Hr|[Hr|[Hr|Hr]]].
      - apply elem_of_cons in Hr as [->|Hr%list_elem_of_singleton]; [done|]. by subst r.
      - by apply list_elem_of_fmap in Hr as (n & -> & _).
      - by apply list_elem_of_fmap in Hr as (n & -> & _).
      - case_decide; [by apply elem_of_nil in Hr|]. by apply list_elem_of_singleton in Hr as ->. }
    apply relation_eta in Hr as [E _]. rewrite E. split_and!; [done|done|done|done].
  - apply keys_nodup; [by apply discover_nodup| |].
    + intros r Hr. destruct (discover_ends now containers r Hr) as [Hf Ht].
      split; [apply (external_good now containers _ Haw Hf)|apply (external_good now containers _ Haw Ht)].
    + intros r r' Hr Hr' E1 E2 E3. rewrite (Heta r Hr), (Heta r' Hr'). congruence.
Qed.

End Accepted.

(** ** Theorems *)

(** What discovery returns, exactly: one asset for the host and for each
    container, image, network and named volume of the API's list, each once
    however many containers share it; each container's relationships in turn,
    all of whose endpoints are among the assets. *)
Theorem Docker_Discover_spec `{RangeOrder} api now c assets rels (Hok : Discover api now c = Ok (assets, rels)) :
  exists containers, get api c (containers_path c) = Ok containers /\
    NoDup (o_external <$> assets) /\
    (forall x, x ∈ (o_external <$> assets) <-> x = host \/ exists v, v ∈ containers /\ x ∈ container_ids v) /\
    rels = (imap pair containers ≫= container_rels now (by_name containers)) /\
    (forall r, r ∈ rels -> ro_from r ∈ (o_external <$> assets) /\ ro_to r ∈ (o_external <$> assets)).
Proof.
  unfold Discover in Hok. apply bind_ok in Hok as (containers & Hget & [= <- <-]). exists containers.
  destruct (discover_ids now containers). split_and!; [done|done|done|apply discover_rels|apply discover_ends].
Qed.

(** The gateway admits what the connector finds: if the API's list is well
    formed (unique identifiers, no volume mounted twice in a container) then the
    snapshot the collector makes of the discovery satisfies the gateway's
    contract, before and after it is signed. *)
Theorem docker_snapshot_admitted `{RangeOrder, Ed25519} api now c id connector started completed sequence assets rels
    (Hfound : Discover api now c = Ok (assets, rels)) (Hnow : now <> 0%Z)
    (Hapi : forall containers, get api c (containers_path c) = Ok containers -> answers_well containers)
    (Henv : envelope_well id connector started completed sequence assets rels) :
  let s := new_snapshot id connector started completed sequence (normalize_asset <$> assets) (normalize_relationship <$> rels) in
  validSnapshotContract s = true /\ forall key s', SignSnapshot s key = Ok s' -> validSnapshotContract s' = true.
Proof.
  intros s. assert (validSnapshotContract s = true) as Hs; [|by split; [|intros key s' ->%sign_keeps_contract]].
  unfold Discover in Hfound. apply bind_ok in Hfound as (containers & Hget & [= <- <-]).
  apply found_snapshot_valid; [done|]. apply discover_well; [done|by apply Hapi].
Qed.

(** Without that promise it does not: a volume mounted at two places of one
    container makes two equal relationships, which the gateway refuses. *)
Definition twice_mounted : item :=
  {| i_id := "c"; i_names := ["/web"]; i_image := "nginx"; i_image_id := "i"; i_labels := ∅; i_networks := ∅;
     i_mounts := [{| m_name := "data"; m_type := "volume" |}; {| m_name := "data"; m_type := "volume" |}] |}.

Lemma volume_mounted_twice_refused :
  valid_relationships {["c"; "i"; host; "volume:data"]} ∅ (f_rels (@discover_all sorted_range 5 [twice_mounted])) = false.
Proof. vm_compute. reflexivity. Qed.

(** A container without the dependency label depends on every container that
    has no name: the label's default is the empty name. *)
Lemma unlabelled_depends_on_unnamed v containers : i_labels v !! "com.infragraph.depends-on" = None ->
  target (by_name containers) v = default "" (by_name containers !! "").
Proof. intros E. unfold target. by rewrite E. Qed.

Definition one_container : item :=
  {| i_id := "c"; i_names := ["/web"]; i_image := "nginx"; i_image_id := "i"; i_labels := ∅;
     i_networks := {["net" := JNull]}; i_mounts := [{| m_name := "data"; m_type := "volume" |}] |}.

Definition one_api (p : string) : result string Response := Ok {| rs_code := 200; rs_status := "200 OK"; rs_body := Ok [one_container] |}.
Definition one_connector : Connector := {| baseURL := "http://docker"; label := "a=b" |}.

Lemma one_answers_well containers : get one_api one_connector (containers_path one_connector) = Ok containers -> answers_well containers.
Proof.
  intros [= <-]. split.
  - apply NoDup_singleton.
  - assert (forall x, x ∈ ["c"; "i"; "network:net"; "volume:data"] -> good_id x) as Hgood.
    { apply Forall_forall. repeat constructor; try done; unfold free_of; vm_compute; set_solver. }
    intros v x ->%list_elem_of_singleton Hx. apply Hgood. exact Hx.
  - intros v n ->%list_elem_of_singleton. done.
  - intros v ->%list_elem_of_singleton. apply NoDup_singleton.
Qed.

Lemma Docker_Discover_spec_witness :
  exists assets rels, @Discover sorted_range one_api 5 one_connector = Ok (assets, rels) /\ length rels = 4%nat /\
    forall r, r ∈ rels -> ro_from r ∈ (o_external <$> assets) /\ ro_to r ∈ (o_external <$> assets).
Proof.
  eexists _, _. split; [reflexivity|]. split; [vm_compute; reflexivity|].
  destruct (@Docker_Discover_spec sorted_range one_api 5 one_connector _ _ eq_refl) as (containers & _ & _ & _ & _ & He). exact He.
Defined.

Lemma docker_snapshot_admitted_witness :
  let f := @discover_all sorted_range 5 [one_container] in
  validSnapshotContract (new_snapshot {| id_collector := "collector"; id_connector := "docker"; id_org := "org"; id_credential := "credential"; id_key := "key"; id_type := "DOCKER" |}
    "docker" 4 6 1 (normalize_asset <$> f_assets f) (normalize_relationship <$> f_rels f)) = true.
Proof.
  intros f. assert (length (f_assets f) = 5%nat /\ length (f_rels f) = 4%nat) as [Ha Hr] by (vm_compute; done).
  refine (proj1 (@docker_snapshot_admitted sorted_range toy_ed25519 one_api 5 one_connector _ "docker" 4 6 1
    (f_assets f) (f_rels f) eq_refl ltac:(done) one_answers_well _)).
  constructor; [done|done|done|unfold max_int64; lia|lia|rewrite Ha; lia|rewrite Hr; lia].
Defined.
