(* ===== verification/Kubernetes.v ===== *)
(** * The Kubernetes connector ([internal/connectors/kubernetes/kubernetes.go])

    [NewWithConfig] checks the configuration, [list] follows the API's pages,
    [Discover] turns the resources of a cluster into observations. The API is a
    parameter: the number of requests made so far and a URL, to what came back. *)
From S2P Require Import Prelude GoStrings GoJson GoUrl Domain.
From Stdlib Require Import Ascii.
Open Scope string_scope.
Open Scope list_scope.

Definition defaultPageSize : Z := 500.
Definition defaultMaxResources : Z := 100000.
Definition maxResponseBytes : Z := Z.shiftl 10 20.

(** ** Configuration *)

Record Config := {
  BaseURL : string; Token : string; ClusterID : string; ClusterName : string; CAPEM : string;
  Timeout : Z; PageSize : Z; MaxResources : Z }.

Record Connector := {
  base : string; token : string; clusterID : string; clusterName : string; timeout : Z; pageSize : Z; maxResources : Z }.

Section New.
Context `{UrlParser}.

(** Whether the PEM text holds a certificate: [AppendCertsFromPEM]. *)
Variable has_certificate : string -> bool.

Definition NewWithConfig (config : Config) : result string Connector :=
  match url_parse (BaseURL config) with
  | None => Err "invalid Kubernetes API URL"
  | Some u =>
      if bool_decide (u_host u = "") || u_user u || negb (bool_decide (u_raw_query u = "")) || negb (bool_decide (u_fragment u = ""))
      then Err "invalid Kubernetes API URL" else
      let loopback := match ip_loopback (u_hostname u) with Some b => b | None => bool_decide (u_hostname u = "localhost") end in
      if negb (bool_decide (u_scheme u = "https")) && negb (bool_decide (u_scheme u = "http") && loopback)
      then Err "Kubernetes API must use HTTPS except loopback tests" else
      if bool_decide (trim_space (Token config) = "") then Err "Kubernetes bearer token is required" else
      if (0 <? len (CAPEM config))%Z && negb (has_certificate (CAPEM config))
      then Err "Kubernetes CA file contains no valid certificate" else
      Ok {| base := trim_right_cut ["/"%char] (BaseURL config); token := trim_space (Token config);
            clusterID := trim_space (ClusterID config); clusterName := trim_space (ClusterName config);
            timeout := if (Timeout config <=? 0)%Z then 30 * nano else Timeout config;
            pageSize := if (PageSize config <=? 0)%Z || (1000 <? PageSize config)%Z then defaultPageSize else PageSize config;
            maxResources := if (MaxResources config <=? 0)%Z || (defaultMaxResources <? MaxResources config)%Z
                            then defaultMaxResources else MaxResources config |}
  end.

End New.

(** ** Resources *)

Record ownerReference := { ow_kind : string; ow_name : string; ow_uid : string }.

(** The selector's raw message, by what [json.Unmarshal] makes of it as a map of
    strings and as an object with [matchLabels]. *)
Inductive RawSelector :=
| NoSelector
| Selector (direct structured : option (gmap string string)).

(** One resource, as decoded. *)
Record item := {
  Name : string; Namespace : string; UID : string; Labels : gmap string string; OwnerReferences : list ownerReference;
  NodeName : string; ServiceName : string; VolumeName : string; RawSel : RawSelector;
  DefaultBackend : string; Rules : list (list string) }.

Record resource := { rs_path : string; rs_kind : string; rs_type : string }.

Definition resources : list resource := [
  Build_resource "/api/v1/namespaces" "Namespace" KubernetesNamespace;
  Build_resource "/api/v1/nodes" "Node" KubernetesNode;
  Build_resource "/api/v1/pods" "Pod" KubernetesPod;
  Build_resource "/api/v1/services" "Service" Service;
  Build_resource "/apis/apps/v1/deployments" "Deployment" KubernetesWorkload;
  Build_resource "/apis/apps/v1/statefulsets" "StatefulSet" KubernetesWorkload;
  Build_resource "/apis/apps/v1/daemonsets" "DaemonSet" KubernetesWorkload;
  Build_resource "/apis/apps/v1/replicasets" "ReplicaSet" KubernetesWorkload;
  Build_resource "/apis/networking.k8s.io/v1/ingresses" "Ingress" LoadBalancer;
  Build_resource "/api/v1/persistentvolumes" "PersistentVolume" Storage;
  Build_resource "/api/v1/persistentvolumeclaims" "PersistentVolumeClaim" Volume ].

Record discovered := { d_resource : resource; d_item : item }.

Definition kind (v : discovered) : string := rs_kind (d_resource v).
Definition uid (v : discovered) : string := UID (d_item v).

(** ** [list] *)

(** An answer: its size, its status, its page as decoded. *)
Record Page := { pg_bytes : Z; pg_code : Z; pg_status : string; pg_body : result string (string * list item) }.

Definition page_url (c : Connector) (path continuation : string) : string :=
  base c +:+ path +:+ "?" +:+
  (if bool_decide (continuation = "") then "" else "continue=" +:+ query_escape continuation +:+ "&") +:+
  "limit=" +:+ query_escape (format_int (pageSize c)).

(** One page: lines 276-305. *)
Definition get_page (api : nat -> string -> result string Page) (c : Connector) (n : nat) (path continuation : string)
    : result string (string * list item) :=
  match api n (page_url c path continuation) with
  | Err e => Err ("Kubernetes API " +:+ path +:+ ": " +:+ e)
  | Ok p =>
      if (maxResponseBytes <? pg_bytes p)%Z then Err ("Kubernetes API " +:+ path +:+ " response exceeds " +:+ format_int maxResponseBytes +:+ " bytes") else
      if negb (pg_code p =? 200)%Z then Err ("Kubernetes API " +:+ path +:+ " returned " +:+ pg_status p) else
      match pg_body p with Err e => Err ("decode Kubernetes API " +:+ path +:+ ": " +:+ e) | Ok l => Ok l end
  end.

(** The loop of line 272 with [pages] iterations left before the page limit;
    with the items also the number of requests made. *)
Fixpoint list_pages (api : nat -> string -> result string Page) (c : Connector) (path : string)
    (pages n : nat) (continuation : string) (acc : list item) : result string (list item * nat) :=
  match pages with
  | O => Err "Kubernetes pagination exceeded safe page limit"
  | S pages' =>
      listed ← get_page api c n path continuation;
      let acc := acc ++ listed.2 in
      if (maxResources c <? Z.of_nat (length acc))%Z
      then Err ("Kubernetes API " +:+ path +:+ " exceeded resource limit " +:+ format_int (maxResources c)) else
      if bool_decide (listed.1 = "") then Ok (acc, S n) else list_pages api c path pages' (S n) listed.1 acc
  end.

(** The pages [0 .. maxResources/pageSize + 1]. *)
Definition page_limit (c : Connector) : nat := Z.to_nat (Z.quot (maxResources c) (pageSize c) + 2).

Definition list_items (api : nat -> string -> result string Page) (c : Connector) (n : nat) (path : string)
    : result string (list item * nat) := list_pages api c path (page_limit c) n "" [].

(** ** Helpers *)

Definition nul_byte : string := String (ascii_of_N 0) "".
Definition namespacedName (namespace kind name : string) : string := namespace +:+ nul_byte +:+ kind +:+ nul_byte +:+ name.

Definition labelsMatch (selector labels : gmap string string) : bool :=
  forallb (fun kv => bool_decide (default "" (labels !! kv.1) = kv.2)) (map_to_list selector) && (0 <? size selector)%nat.

Definition selectorLabels (raw : RawSelector) : gmap string string :=
  match raw with
  | NoSelector => ∅
  | Selector (Some direct) _ => direct
  | Selector None structured => default ∅ structured
  end.

(** The backends' names, each once, in order. *)
Definition add_name (st : gset string * list string) (name : string) : gset string * list string :=
  if negb (bool_decide (name = "")) && negb (bool_decide (name ∈ st.1)) then ({[name]} ∪ st.1, st.2 ++ [name]) else st.

Definition ingressServices (v : item) : list string := (foldl add_name (∅, []) (DefaultBackend v :: concat (Rules v))).2.

Definition relation (from to kind : string) (observedAt : gotime) : RelationshipObservation :=
  {| ro_relationship := ""; ro_snapshot := ""; ro_connector := ""; ro_from := from; ro_to := to; ro_type := kind;
     ro_observed := observedAt; ro_attributes := Some ∅ |}.

(** ** [Discover] *)

(** Lines 153-161. *)
Definition check_item (c : Connector) (r : resource) (items : list discovered) (v : item) : result string (list discovered) :=
  if bool_decide (UID v = "") || bool_decide (Name v = "")
  then Err ("Kubernetes API " +:+ rs_path r +:+ " returned resource without name or UID") else
  let items := items ++ [{| d_resource := r; d_item := v |}] in
  if (maxResources c <? Z.of_nat (length items))%Z
  then Err ("Kubernetes discovery exceeded resource limit " +:+ format_int (maxResources c)) else Ok items.

Definition collect (api : nat -> string -> result string Page) (c : Connector) (st : list discovered * nat) (r : resource)
    : result string (list discovered * nat) :=
  listed ← list_items api c st.2 (rs_path r);
  items ← foldM (check_item c r) st.1 listed.1;
  Ok (items, listed.2).

(** Lines 164-170. *)
Definition cluster_identity (c : Connector) (items : list discovered) : string :=
  if negb (bool_decide (clusterID c = "")) then clusterID c else
  match find (fun v => bool_decide (kind v = "Namespace") && bool_decide (Name (d_item v) = "kube-system")) items with
  | Some v => uid v | None => "" end.

Definition string_map (m : gmap string string) : json := JMap (JStr <$> m).

Definition set_when (b : bool) (k : string) (v : json) (m : gmap string json) : gmap string json := if b then <[k := v]> m else m.

(** Lines 190-209. *)
Definition attributes (v : discovered) : gmap string json :=
  let m := d_item v in
  let selector := selectorLabels (RawSel m) in
  set_when (negb (bool_decide (VolumeName m = ""))) "volumeName" (JStr (VolumeName m))
  (set_when (negb (bool_decide (ServiceName m = ""))) "serviceName" (JStr (ServiceName m))
  (set_when (0 <? size selector)%nat "selector" (string_map selector)
  (set_when (negb (bool_decide (NodeName m = ""))) "nodeName" (JStr (NodeName m))
  (set_when (0 <? size (Labels m))%nat "labels" (string_map (Labels m))
  (set_when (negb (bool_decide (Namespace m = ""))) "namespace" (JStr (Namespace m))
    {["name" := JStr (Name m); "kind" := JStr (kind v)]}))))).

Definition observation (id typ : string) (attrs_ : gmap string json) (hint : string * string) (now : gotime) : Observation :=
  {| o_id := ""; o_org := ""; o_snapshot := ""; o_connector := ""; o_collector := ""; o_external := id; o_type := typ;
     o_observed := now; o_attributes := Some attrs_; o_hints := Some {[hint.1 := JStr hint.2]}; o_fingerprint := ""; o_status := "" |}.

Definition cluster_asset (id name : string) (now : gotime) : Observation :=
  observation ("cluster:" +:+ id) KubernetesCluster {["name" := JStr name]} ("kubernetes_cluster_id", id) now.

Definition item_asset (now : gotime) (v : discovered) : Observation :=
  observation (uid v) (rs_type (d_resource v)) (attributes v) ("kubernetes_uid", uid v) now.

(** What the loop of line 188 keeps besides the assets. *)
Record Tables := {
  byNamespace : gmap string string; byNode : gmap string string; byName : gmap string string;
  assetIDs : gset string; pods : list discovered }.

Definition item_key (v : discovered) : string := namespacedName (Namespace (d_item v)) (kind v) (Name (d_item v)).

Definition register (t : Tables) (v : discovered) : Tables :=
  {| byNamespace := if bool_decide (kind v = "Namespace") then <[Name (d_item v) := uid v]> (byNamespace t) else byNamespace t;
     byNode := if bool_decide (kind v = "Node") then <[Name (d_item v) := uid v]> (byNode t) else byNode t;
     byName := <[item_key v := uid v]> (byName t);
     assetIDs := {[uid v]} ∪ assetIDs t;
     pods := if bool_decide (kind v = "Pod") then pods t ++ [v] else pods t |}.

Definition tables (cluster : string) (items : list discovered) : Tables :=
  foldl register {| byNamespace := ∅; byNode := ∅; byName := ∅; assetIDs := {[cluster]}; pods := [] |} items.

(** A relationship to what a table names, if it does. *)
Definition link (now : gotime) (from kind : string) (m : gmap string string) (key : string) : list RelationshipObservation :=
  let id := default "" (m !! key) in
  if bool_decide (id = "") then [] else [relation from id kind now].

Definition when {A} (b : bool) (l : list A) : list A := if b then l else [].

(** One iteration of the loop of line 223. *)
Definition item_relationships (now : gotime) (cluster : string) (t : Tables) (v : discovered) : list RelationshipObservation :=
  let m := d_item v in
  let namespaceID := if bool_decide (Namespace m = "") then "" else default "" (byNamespace t !! Namespace m) in
  let parent := if bool_decide (namespaceID = "") then cluster else namespaceID in
  let selector := selectorLabels (RawSel m) in
  [relation parent (uid v) "CONTAINS" now]
  ++ ((fun o => relation (uid v) (ow_uid o) "MANAGED_BY" now) <$> filter (fun o => ow_uid o ∈ assetIDs t) (OwnerReferences m))
  ++ link now (uid v) "RUNS_ON" (byNode t) (NodeName m)
  ++ when (negb (bool_decide (ServiceName m = "")))
       (link now (uid v) "USES_SERVICE" (byName t) (namespacedName (Namespace m) "Service" (ServiceName m)))
  ++ when (negb (bool_decide (VolumeName m = "")))
       (link now (uid v) "BOUND_TO" (byName t) (namespacedName "" "PersistentVolume" (VolumeName m)))
  ++ when (bool_decide (kind v = "Service") && (0 <? size selector)%nat)
       ((fun p => relation (uid v) (uid p) "ROUTES_TO" now) <$>
          filter (fun p => Namespace (d_item p) = Namespace m /\ labelsMatch selector (Labels (d_item p)) = true) (pods t))
  ++ when (bool_decide (kind v = "Ingress"))
       (ingressServices m ≫= fun s => link now (uid v) "ROUTES_TO" (byName t) (namespacedName (Namespace m) "Service" s)).

Definition Discover (api : nat -> string -> result string Page) (now : gotime) (c : Connector)
    : result string (list Observation * list RelationshipObservation) :=
  st ← foldM (collect api c) ([], 0%nat) resources;
  let items := st.1 in
  let identity := cluster_identity c items in
  if bool_decide (identity = "")
  then Err "cannot determine cluster identity: set INFRAGRAPH_KUBERNETES_CLUSTER_ID or allow kube-system namespace listing" else
  let cluster := "cluster:" +:+ identity in
  let name := if bool_decide (clusterName c = "") then identity else clusterName c in
  Ok (cluster_asset identity name now :: (item_asset now <$> items),
      items ≫= item_relationships now cluster (tables cluster items)).
