(* ===== verification/KubernetesFacts.v ===== *)
(** * What the Kubernetes connector finds *)
From S2P Require Import Prelude GoStrings GoNumbers GoJson GoUrl Domain Security SecurityFacts AuditChain Collector RateLimit Gateway SnapshotContract Kubernetes.
From Stdlib Require Import Ascii.
Open Scope string_scope.
Open Scope list_scope.

(** ** Pages *)

(** The pages of a listing, from a continuation token on: each but the last
    carries the token of the next. *)
Inductive paged (api : nat -> string -> result string Page) (c : Connector) (path : string) : nat -> string -> list (list item) -> Prop :=
| paged_last n cont items : get_page api c n path cont = Ok ("", items) -> paged api c path n cont [items]
| paged_more n cont next items rest : get_page api c n path cont = Ok (next, items) -> next <> "" ->
    paged api c path (S n) next rest -> paged api c path n cont (items :: rest).

Lemma list_pages_spec api c path pages n cont acc items n' :
  list_pages api c path pages n cont acc = Ok (items, n') ->
  exists ps, paged api c path n cont ps /\ items = acc ++ concat ps /\ n' = (n + length ps)%nat /\ (length ps <= pages)%nat /\
    (Z.of_nat (length items) <= maxResources c)%Z.
Proof.
  revert n cont acc. induction pages as [|pages IH]; intros n cont acc; cbn [list_pages]; [done|].
  intros ([next l] & Hpage & Hrest)%bind_ok. cbn [fst snd] in Hrest.
  destruct (Z.ltb_spec (maxResources c) (Z.of_nat (length (acc ++ l)))); [done|]. case_bool_decide as Hn.
  - injection Hrest as <- <-. subst next. exists [l]. split_and!; [by constructor|cbn; by rewrite app_nil_r|cbn; lia|cbn; lia|done].
  - apply IH in Hrest as (ps & Hps & -> & -> & Hlen & Hmax). exists (l :: ps).
    split_and!; [by econstructor|cbn; by rewrite <- app_assoc|cbn; lia|cbn; lia|done].
Qed.

(** The pages a listing may ask for. *)
Lemma list_pages_requests api c path pages n cont acc :
  match list_pages api c path pages n cont acc with
  | Ok (_, n') => (n < n' <= n + pages)%nat
  | Err _ => True
  end.
Proof.
  destruct (list_pages _ _ _ _ _ _ _) as [[items n']|] eqn:E; [|done].
  apply list_pages_spec in E as (ps & Hps & _ & -> & Hlen & _). destruct Hps; cbn in *; lia.
Qed.

(** ** All resources *)

Definition checked (c : Connector) (r : resource) (v : item) : Prop := UID v <> "" /\ Name v <> "".

Lemma check_items_spec c r l items items' : foldM (check_item c r) items l = Ok items' ->
  items' = items ++ ((fun v => {| d_resource := r; d_item := v |}) <$> l) /\ Forall (checked c r) l /\
  (l = [] \/ (Z.of_nat (length items') <= maxResources c)%Z).
Proof.
  revert items. induction l as [|v l IH]; intros items; cbn [foldM]; [intros [= <-]; by rewrite app_nil_r; auto|].
  intros (s & Hs & Hl)%bind_ok. unfold check_item in Hs. do 2 case_bool_decide; try done. cbn [orb] in Hs.
  destruct (Z.ltb_spec (maxResources c) (Z.of_nat (length (items ++ [{| d_resource := r; d_item := v |}])))); [done|].
  injection Hs as <-. apply IH in Hl as (-> & Hc & Hlen). split_and!; [by rewrite <- app_assoc|by constructor|].
  right. destruct Hlen as [->|Hlen]; [by rewrite app_nil_r|done].
Qed.

(** A resource's share of the items. *)
Definition of_resource (r : resource) (ps : list (list item)) : list discovered :=
  (fun v => {| d_resource := r; d_item := v |}) <$> concat ps.

Lemma collect_spec api c rs : forall st items n, foldM (collect api c) st rs = Ok (items, n) -> (Z.of_nat (length st.1) <= maxResources c)%Z ->
  exists pss, length pss = length rs /\ items = st.1 ++ concat (zip_with of_resource rs pss) /\
    Forall2 (fun r ps => exists k, paged api c (rs_path r) k "" ps) rs pss /\
    Forall (fun v => uid v <> "" /\ Name (d_item v) <> "") (concat (zip_with of_resource rs pss)) /\
    (Z.of_nat (length items) <= maxResources c)%Z /\ (st.2 <= n <= st.2 + length rs * page_limit c)%nat.
Proof.
  induction rs as [|r rs IH]; intros st items n; cbn [foldM].
  { intros [= ->] Hst. cbn in Hst. exists []. cbn. rewrite app_nil_r. split_and!; (done || lia || constructor). }
  intros ([items1 n1] & Hc & Hrest)%bind_ok Hst. unfold collect in Hc.
  apply bind_ok in Hc as ([l n2] & Hl & Hc). apply bind_ok in Hc as (items2 & Hf & [= <- <-]). cbn [fst snd] in *.
  apply list_pages_spec in Hl as (ps & Hps & -> & -> & Hlen & Hmax). cbn [app] in *.
  apply check_items_spec in Hf as (-> & Hck & Hbound).
  apply IH in Hrest as (pss & Hl1 & -> & Hall & Hne & Hmax2 & Hn); cbn [fst snd] in *.
  2:{ destruct Hbound as [->|]; [cbn; by rewrite app_nil_r|done]. }
  exists (ps :: pss). cbn [zip_with concat length]. split_and!; try lia.
  - by rewrite <- app_assoc.
  - constructor; [by exists st.2|done].
  - apply Forall_app. split; [|done]. apply Forall_fmap. eapply Forall_impl; [exact Hck|]. done.
Qed.

(** ** Tables *)

Definition names_of (k : string) (items : list discovered) : list (string * string) :=
  (fun v => (Name (d_item v), uid v)) <$> filter (fun v => kind v = k) items.

(** Every name a table gives leads to an item of the list. *)
Record tables_ok (cluster : string) (items : list discovered) (t : Tables) : Prop := {
  to_namespace : forall n id, byNamespace t !! n = Some id -> exists v, v ∈ items /\ uid v = id /\ kind v = "Namespace" /\ Name (d_item v) = n;
  all_namespaces : forall v, v ∈ items -> kind v = "Namespace" -> is_Some (byNamespace t !! Name (d_item v));
  to_node : forall n id, byNode t !! n = Some id -> exists v, v ∈ items /\ uid v = id;
  to_name : forall k id, byName t !! k = Some id -> exists v, v ∈ items /\ uid v = id /\ item_key v = k;
  to_ids : forall x, x ∈ assetIDs t <-> x = cluster \/ x ∈ (uid <$> items);
  to_pods : pods t = filter (fun v => kind v = "Pod") items }.

Lemma register_ok cluster items t v : tables_ok cluster items t -> tables_ok cluster (items ++ [v]) (register t v).
Proof.
  intros [H1 H1' H2 H3 H4 H5].
  assert (Hold : forall id, (exists w, w ∈ items /\ uid w = id) -> exists w, w ∈ items ++ [v] /\ uid w = id).
  { intros id (w & Hw & E). exists w. split; [apply elem_of_app; by left|done]. }
  assert (Hv : v ∈ items ++ [v]) by (apply elem_of_app; right; by left).
  split; cbn.
  - assert (forall n id, byNamespace t !! n = Some id ->
      exists w, w ∈ items ++ [v] /\ uid w = id /\ kind w = "Namespace" /\ Name (d_item w) = n) as H1a.
    { intros n id (w & Hw & ?)%H1. exists w. split; [apply elem_of_app; by left|done]. }
    intros n id. case_bool_decide; [|by apply H1a].
    intros [[<- <-]|[_ Hn]]%lookup_insert_Some; [by exists v|by apply H1a].
  - intros w [Hw| ->%list_elem_of_singleton]%elem_of_app Hk.
    + case_bool_decide; [apply lookup_insert_is_Some'; right|]; by apply H1'.
    + rewrite bool_decide_true, lookup_insert_eq by done. by eexists.
  - intros n id. case_bool_decide; [|by intros ?%H2%Hold].
    intros [[_ <-]|[_ Hn]]%lookup_insert_Some; [by exists v|by eapply Hold, H2].
  - intros k id [[<- <-]|[_ Hn]]%lookup_insert_Some; [by exists v|].
    destruct (H3 k id Hn) as (w & Hw & ? & ?). exists w. split; [apply elem_of_app; by left|done].
  - intros x. rewrite elem_of_union, elem_of_singleton, H4, fmap_app, elem_of_app. cbn. rewrite list_elem_of_singleton. tauto.
  - rewrite filter_app, H5, filter_cons, filter_nil. case_bool_decide as Hp.
    + by rewrite decide_True.
    + by rewrite decide_False, app_nil_r.
Qed.

Lemma foldl_register_ok cluster items past t : tables_ok cluster past t -> tables_ok cluster (past ++ items) (foldl register t items).
Proof.
  revert past t. induction items as [|v items IH]; intros past t H0; cbn; [by rewrite app_nil_r|].
  change (v :: items) with ([v] ++ items). rewrite app_assoc. apply IH. by apply register_ok.
Qed.

Lemma tables_spec cluster items : tables_ok cluster items (tables cluster items).
Proof.
  apply (foldl_register_ok cluster items []). split; cbn; try (intros ? ? E; by rewrite lookup_empty in E); [by intros ? ?%elem_of_nil| |done].
  intros x. rewrite elem_of_singleton, elem_of_nil. tauto.
Qed.

(** ** Relationships *)

Lemma link_in r now from kind m key : r ∈ link now from kind m key -> exists id, m !! key = Some id /\ id <> "" /\ r = relation from id kind now.
Proof.
  unfold link. case_bool_decide as Hd; [by intros ?%elem_of_nil|]. intros ->%list_elem_of_singleton.
  destruct (m !! key) as [id|]; [by exists id|done].
Qed.

Lemma when_in {A} (x : A) b l : x ∈ when b l -> b = true /\ x ∈ l.
Proof. destruct b; [done|by intros ?%elem_of_nil]. Qed.

(** The kinds of an item's relationships, and where each leads. *)
Inductive related (now : gotime) (cluster : string) (items : list discovered) (v : discovered) : RelationshipObservation -> Prop :=
| rel_contains parent : parent = cluster \/ (exists w, w ∈ items /\ uid w = parent) ->
    related now cluster items v (relation parent (uid v) "CONTAINS" now)
| rel_owner o : o ∈ OwnerReferences (d_item v) -> ow_uid o = cluster \/ (exists w, w ∈ items /\ uid w = ow_uid o) ->
    related now cluster items v (relation (uid v) (ow_uid o) "MANAGED_BY" now)
| rel_link kind w : kind ∈ ["RUNS_ON"; "USES_SERVICE"; "BOUND_TO"] -> w ∈ items ->
    related now cluster items v (relation (uid v) (uid w) kind now)
| rel_route w : w ∈ items -> (kind v = "Service" \/ kind v = "Ingress") ->
    related now cluster items v (relation (uid v) (uid w) "ROUTES_TO" now).

Lemma item_related now cluster items v r : r ∈ item_relationships now cluster (tables cluster items) v -> related now cluster items v r.
Proof.
  destruct (tables_spec cluster items) as [Hns _ Hnode Hname Hids Hpods]. unfold item_relationships. rewrite !elem_of_app.
  intros [Hr|[Hr|[Hr|[Hr|[Hr|[Hr|Hr]]]]]].
  - apply list_elem_of_singleton in Hr as ->. apply rel_contains. case_bool_decide as E; [by left|]. right.
    case_bool_decide; [done|]. destruct (byNamespace _ !! _) as [id|] eqn:En; [|done]. destruct (Hns _ _ En) as (w & Hw & <- & _). by exists w.
  - apply list_elem_of_fmap in Hr as (o & -> & [Ho Hin]%list_elem_of_filter). apply rel_owner; [done|].
    apply Hids in Ho as [->|(w & -> & Hw)%list_elem_of_fmap]; [by left|right; by exists w].
  - apply link_in in Hr as (id & Hk & _ & ->). destruct (Hnode _ _ Hk) as (w & Hw & <-). apply rel_link; [set_solver|done].
  - apply when_in in Hr as [_ Hr]. apply link_in in Hr as (id & Hk & _ & ->). destruct (Hname _ _ Hk) as (w & Hw & <- & _). apply rel_link; [set_solver|done].
  - apply when_in in Hr as [_ Hr]. apply link_in in Hr as (id & Hk & _ & ->). destruct (Hname _ _ Hk) as (w & Hw & <- & _). apply rel_link; [set_solver|done].
  - apply when_in in Hr as [Hs Hr]. apply andb_true_iff in Hs as [Hs%bool_decide_eq_true _].
    apply list_elem_of_fmap in Hr as (p & -> & [_ Hp]%list_elem_of_filter). rewrite Hpods in Hp.
    apply list_elem_of_filter in Hp as [_ Hp]. apply rel_route; [done|by left].
  - apply when_in in Hr as [Hs%bool_decide_eq_true Hr]. apply list_elem_of_bind in Hr as (s & Hr & _).
    apply link_in in Hr as (id & Hk & _ & ->). destruct (Hname _ _ Hk) as (w & Hw & <- & _). apply rel_route; [done|by right].
Qed.

(** The endpoints of a relationship are the cluster or items. *)
Lemma related_ends now cluster items v r : v ∈ items -> related now cluster items v r ->
  (ro_from r = cluster \/ ro_from r ∈ (uid <$> items)) /\ (ro_to r = cluster \/ ro_to r ∈ (uid <$> items)).
Proof.
  intros Hv Hr. assert (forall w, w ∈ items -> uid w ∈ (uid <$> items)) as Hin by (intros w Hw; by apply list_elem_of_fmap_2).
  destruct Hr as [parent [->|(w & Hw & <-)]|o Ho [->|(w & Hw & <-)]|k w Hk Hw|w Hw Hk]; cbn; auto.
Qed.

(** ** Nothing occurs twice *)

Definition good_id (x : string) : Prop := x <> "" /\ (len x <= 1024)%Z /\ free_of nul x.

(** What the Kubernetes API promises: UIDs are unique, none looks like the
    cluster's identifier, and no owner is listed twice. *)
Record cluster_well (cluster : string) (items : list discovered) : Prop := {
  cw_uids : NoDup (uid <$> items);
  cw_cluster : cluster ∉ (uid <$> items);
  cw_good : good_id cluster /\ forall v, v ∈ items -> good_id (uid v);
  cw_owners : forall v, v ∈ items -> NoDup (ow_uid <$> OwnerReferences (d_item v)) }.

(** Lists of relationships of different types. *)
Lemma nodup_parts (parts : list (string * list RelationshipObservation)) : NoDup parts.*1 ->
  Forall (fun p => NoDup p.2 /\ Forall (fun r => ro_type r = p.1) p.2) parts -> NoDup (mjoin parts.*2).
Proof.
  induction parts as [|[k l] parts IH]; [constructor|]. rewrite fmap_cons, NoDup_cons. intros [Hk Hnd] [[Hl Hty] Hall]%Forall_cons.
  cbn in *. apply NoDup_app. split_and!; [done| |by apply IH]. intros r Hr (l' & Hr' & Hl')%list_elem_of_join.
  apply list_elem_of_fmap in Hl' as ([k' l2] & -> & Hin). rewrite Forall_forall in Hty. rewrite Forall_forall in Hall.
  destruct (Hall _ Hin) as [_ Hty']. rewrite Forall_forall in Hty'. apply Hk, list_elem_of_fmap. exists (k', l2).
  split; [|done]. cbn. rewrite <- (Hty r Hr). by apply Hty'.
Qed.

Lemma link_nodup now from kind m key : NoDup (link now from kind m key).
Proof. unfold link. case_bool_decide; [constructor|apply NoDup_singleton]. Qed.

Lemma when_nodup {A} b (l : list A) : NoDup l -> NoDup (when b l).
Proof. by destruct b; [|constructor]. Qed.

Lemma link_type now from kind m key : Forall (fun r => ro_type r = kind) (link now from kind m key).
Proof. apply Forall_forall. by intros r (id & _ & _ & ->)%link_in. Qed.

Lemma when_type {A} (P : A -> Prop) b l : Forall P l -> Forall P (when b l).
Proof. by destruct b; [|constructor]. Qed.

Lemma relation_type {A} now from kind (f : A -> string) l : Forall (fun r => ro_type r = kind) ((fun x => relation from (f x) kind now) <$> l).
Proof. apply Forall_fmap, Forall_forall. done. Qed.

Lemma uid_inj items v w : NoDup (uid <$> items) -> v ∈ items -> w ∈ items -> uid v = uid w -> v = w.
Proof.
  intros Hnd [i Hi]%list_elem_of_lookup [j Hj]%list_elem_of_lookup E.
  assert (i = j) as ->; [|congruence]. eapply (NoDup_lookup (uid <$> items)); [done|..]; rewrite list_lookup_fmap; [by rewrite Hi|by rewrite Hj, E].
Qed.

Lemma services_nodup v : NoDup (ingressServices v).
Proof.
  unfold ingressServices.
  apply (foldl_inv add_name (fun st => NoDup st.2 /\ forall x, x ∈ st.2 -> x ∈ st.1)); [|by split; [constructor|intros x ?%elem_of_nil]].
  intros [seen out] name _ [Hnd Hin]. unfold add_name. cbn [fst snd] in *. do 2 case_bool_decide; cbn [andb negb]; try done. split; cbn.
  - apply NoDup_app. split_and!; [done| |apply NoDup_singleton]. intros x Hx ->%list_elem_of_singleton. by apply H0, Hin.
  - intros x. rewrite elem_of_app, elem_of_union, elem_of_singleton. intros [Hx| ->%list_elem_of_singleton]; [right; by apply Hin|by left].
Qed.

Section ItemNodup.
Context (now : gotime) (cluster : string) (items : list discovered) (Hwell : cluster_well cluster items).

Lemma services_linked v : NoDup (ingressServices (d_item v) ≫= fun s =>
  link now (uid v) "ROUTES_TO" (byName (tables cluster items)) (namespacedName (Namespace (d_item v)) "Service" s)).
Proof.
  destruct Hwell as [Huids _ _ _], (tables_spec cluster items) as [_ _ _ Hname _ _].
  apply NoDup_bind; [|intros s _; apply link_nodup|apply services_nodup].
  intros s1 s2 r _ _ (id & Hk & _ & ->)%link_in (id' & Hk' & _ & E)%link_in. injection E as <-.
  destruct (Hname _ _ Hk) as (w & Hw & E1 & K1). destruct (Hname _ _ Hk') as (w' & Hw' & E2 & K2).
  assert (w = w') as <- by (apply (uid_inj items); congruence). rewrite K1 in K2. by repeat apply string_app_inj_l in K2.
Qed.

Lemma pods_routed v (P : discovered -> Prop) `{forall x, Decision (P x)} :
  NoDup ((fun p => relation (uid v) (uid p) "ROUTES_TO" now) <$> filter P (pods (tables cluster items))).
Proof.
  destruct Hwell as [Huids _ _ _], (tables_spec cluster items) as [_ _ _ _ _ Hpods]. rewrite Hpods. apply NoDup_fmap_2_strong.
  - intros p q [_ [_ Hp]%list_elem_of_filter]%list_elem_of_filter [_ [_ Hq]%list_elem_of_filter]%list_elem_of_filter E%(f_equal ro_to).
    by apply (uid_inj items).
  - do 2 apply NoDup_filter. by eapply NoDup_fmap_1.
Qed.

Lemma owners_related v : v ∈ items -> NoDup ((fun o => relation (uid v) (ow_uid o) "MANAGED_BY" now)
  <$> filter (fun o => ow_uid o ∈ assetIDs (tables cluster items)) (OwnerReferences (d_item v))).
Proof.
  destruct Hwell as [_ _ _ Howners]. intros Hv%Howners.
  assert (NoDup (ow_uid <$> filter (fun o => ow_uid o ∈ assetIDs (tables cluster items)) (OwnerReferences (d_item v)))) as Hf.
  { revert Hv. induction (OwnerReferences (d_item v)) as [|o l IH]; [done|]. rewrite filter_cons, fmap_cons, NoDup_cons. intros [Ho Hl].
    case_decide; [|by apply IH]. rewrite fmap_cons, NoDup_cons. split; [|by apply IH].
    intros (o' & E & [_ Ho']%list_elem_of_filter)%list_elem_of_fmap. apply Ho. rewrite E. by apply list_elem_of_fmap_2. }
  revert Hf. generalize (filter (fun o => ow_uid o ∈ assetIDs (tables cluster items)) (OwnerReferences (d_item v))).
  intros l Hl. apply (NoDup_fmap_1 ro_to). by rewrite <- list_fmap_compose.
Qed.

Lemma item_nodup v : v ∈ items -> NoDup (item_relationships now cluster (tables cluster items) v).
Proof.
  intros Hv. unfold item_relationships.
  match goal with |- NoDup (?a ++ ?b ++ ?c ++ ?d ++ ?e ++ ?f ++ ?g) =>
    set (parts := [("CONTAINS", a); ("MANAGED_BY", b); ("RUNS_ON", c); ("USES_SERVICE", d); ("BOUND_TO", e); ("ROUTES_TO", f ++ g)]);
    replace (a ++ b ++ c ++ d ++ e ++ f ++ g) with (mjoin parts.*2) by (cbn; by rewrite app_nil_r) end.
  apply nodup_parts; [apply (bool_decide_unpack _); vm_compute; exact I|]. repeat constructor; cbn [fst snd];
    try apply when_nodup; try apply when_type; try apply link_nodup; try apply link_type; try apply relation_type; try apply NoDup_singleton.
  all: try by apply owners_related.
  - by apply not_elem_of_nil.
  - destruct (bool_decide (kind v = "Service") && _) eqn:Es.
    + apply andb_true_iff in Es as [Es%bool_decide_eq_true _]. rewrite (bool_decide_false (kind v = "Ingress")) by congruence.
      rewrite app_nil_r. apply pods_routed.
    + cbn [when app]. apply when_nodup, services_linked.
  - apply Forall_app. split; apply when_type; [apply relation_type|]. apply Forall_forall.
    intros r (s & Hr & _)%list_elem_of_bind. revert r Hr. apply Forall_forall, link_type.
Qed.

End ItemNodup.


(** ** The whole discovery *)

(** Whose relationship it is: a CONTAINS ends at its item, the others start there. *)
Lemma related_item now cluster items v r : related now cluster items v r ->
  r = relation (ro_from r) (ro_to r) (ro_type r) now /\
  (ro_type r = "CONTAINS" /\ ro_to r = uid v \/ ro_type r <> "CONTAINS" /\ ro_from r = uid v).
Proof. intros [parent _|o _ _|k w Hk _|w _ _]; (split; [done|]); cbn; auto. right. split; [|done]. set_solver. Qed.

Lemma related_type now cluster items v r : related now cluster items v r -> ro_type r <> "" /\ (len (ro_type r) <= 80)%Z.
Proof.
  intros [parent _|o _ _|k w Hk _|w _ _]; cbn [ro_type relation]; try done.
  revert k Hk. apply Forall_forall. by repeat constructor.
Qed.

Definition all_relationships (now : gotime) (cluster : string) (items : list discovered) : list RelationshipObservation :=
  items ≫= item_relationships now cluster (tables cluster items).

Lemma all_related now cluster items r : r ∈ all_relationships now cluster items -> exists v, v ∈ items /\ related now cluster items v r.
Proof. intros (v & Hr & Hv)%list_elem_of_bind. exists v. split; [done|by apply item_related]. Qed.

Lemma all_ends now cluster items r : r ∈ all_relationships now cluster items ->
  (ro_from r = cluster \/ ro_from r ∈ (uid <$> items)) /\ (ro_to r = cluster \/ ro_to r ∈ (uid <$> items)).
Proof. intros (v & Hv & Hr)%all_related. by eapply related_ends. Qed.

(** An item's relationships are its own. *)
Lemma own_relationships now cluster items v r : NoDup (uid <$> items) -> v ∈ items ->
  r ∈ all_relationships now cluster items ->
  (ro_type r = "CONTAINS" /\ ro_to r = uid v \/ ro_type r <> "CONTAINS" /\ ro_from r = uid v) ->
  r ∈ item_relationships now cluster (tables cluster items) v.
Proof.
  intros Hnd Hv (w & Hr & Hw)%list_elem_of_bind Hown. assert (w = v) as <-; [|done]. apply (uid_inj items); [done..|].
  apply item_related in Hr as [_ Hr]%related_item. destruct Hown as [[]|[]], Hr as [[]|[]]; congruence.
Qed.

Lemma all_nodup now cluster items : cluster_well cluster items -> NoDup (all_relationships now cluster items).
Proof.
  intros Hwell. apply NoDup_bind.
  - intros v w r Hv Hw [_ Hr]%item_related%related_item [_ Hr']%item_related%related_item.
    apply (uid_inj items); [apply Hwell|done..|]. destruct Hr as [[]|[]], Hr' as [[]|[]]; congruence.
  - intros v Hv. by apply item_nodup.
  - eapply NoDup_fmap_1, Hwell.
Qed.

(** The items are of the listed resources. *)
Lemma collected_resource rs pss v : v ∈ concat (zip_with of_resource rs pss) -> d_resource v ∈ rs.
Proof.
  revert pss. induction rs as [|r rs IH]; intros [|ps pss]; cbn [zip_with concat]; try by intros ?%elem_of_nil.
  intros [(w & -> & _)%list_elem_of_fmap|Hv%IH]%elem_of_app; [by left|by right].
Qed.

Lemma resource_type r : r ∈ resources -> (len (rs_type r) <= 80)%Z.
Proof. revert r. apply Forall_forall. repeat constructor; vm_compute; discriminate. Qed.

Lemma set_when_size b k v (m : gmap string json) : (size (set_when b k v m) <= S (size m))%nat.
Proof.
  unfold set_when. destruct b; [|lia]. destruct (m !! k) eqn:E; [rewrite map_size_insert_Some by done; lia|].
  rewrite map_size_insert_None by done. lia.
Qed.

Lemma attributes_size v : (size (attributes v) <= 8)%nat.
Proof.
  unfold attributes. do 6 (etransitivity; [apply set_when_size|apply le_n_S]).
  rewrite map_size_insert_None by (by rewrite lookup_singleton_ne). by rewrite map_size_singleton.
Qed.

Lemma discovery_well now name id items : now <> 0%Z -> cluster_well ("cluster:" +:+ id) items ->
  Forall (fun v => d_resource v ∈ resources) items ->
  found_well (cluster_asset id name now :: (item_asset now <$> items)) (all_relationships now ("cluster:" +:+ id) items).
Proof.
  intros Hnow Hwell Hres. set (cluster := "cluster:" +:+ id) in *.
  assert (o_external <$> (cluster_asset id name now :: (item_asset now <$> items)) = cluster :: (uid <$> items)) as Hids.
  { rewrite fmap_cons, <- list_fmap_compose. done. }
  destruct (cw_good _ _ Hwell) as [Hc Hi].
  assert (forall x, x = cluster \/ x ∈ (uid <$> items) -> good_id x) as Hgood.
  { intros x [->|(v & -> & Hv)%list_elem_of_fmap]; [done|by apply Hi]. }
  split.
  - rewrite Hids. apply NoDup_cons. split; [apply Hwell|apply Hwell].
  - apply Forall_cons. split.
    + destruct Hc as (H1 & H2 & _). unfold good_asset. split_and!; [done|done|by vm_compute|done| |].
      * unfold attrs. cbn [cluster_asset observation o_attributes default]. unfold Datatypes.id. rewrite map_size_singleton. lia.
      * unfold hints. cbn [cluster_asset observation o_hints default]. unfold Datatypes.id. rewrite map_size_singleton. lia.
    + rewrite Forall_forall in Hres. apply Forall_fmap, Forall_forall. intros v Hv.
      destruct (Hi v Hv) as (H1 & H2 & _). unfold good_asset. cbn [compose].
      split_and!; [done|done|by apply resource_type, Hres|done| |].
      * pose proof (attributes_size v) as Ha. change (attrs (item_asset now v)) with (attributes v). lia.
      * change (hints (item_asset now v)) with ({["kubernetes_uid" := JStr (uid v)]} : gmap string json). rewrite map_size_singleton. lia.
  - rewrite Hids. intros r Hr. rewrite !elem_of_cons. by apply (all_ends now).
  - apply Forall_forall. intros r (v & _ & Hr)%all_related. destruct (related_type _ _ _ _ _ Hr) as [H1 H2].
    apply related_item in Hr as [E _]. rewrite E. split_and!; [done|done|done|]. cbn. done.
  - apply keys_nodup; [by apply all_nodup| |].
    + intros r [Hf Ht]%all_ends. by destruct (Hgood _ Hf) as (_ & _ & ?), (Hgood _ Ht) as (_ & _ & ?).
    + intros r r' (v & _ & [E _]%related_item)%all_related (v' & _ & [E' _]%related_item)%all_related E1 E2 E3.
      rewrite E, E'. congruence.
Qed.

(** What a successful discovery returns. *)
Lemma Discover_inv api now c assets rels : Discover api now c = Ok (assets, rels) -> (0 <= maxResources c)%Z ->
  exists pss, let items := concat (zip_with of_resource resources pss) in let id := cluster_identity c items in
    (exists n, foldM (collect api c) ([], 0%nat) resources = Ok (items, n)) /\
    Forall2 (fun r ps => exists k, paged api c (rs_path r) k "" ps) resources pss /\
    Forall (fun v => uid v <> "" /\ Name (d_item v) <> "") items /\ (Z.of_nat (length items) <= maxResources c)%Z /\ id <> "" /\
    assets = cluster_asset id (if bool_decide (clusterName c = "") then id else clusterName c) now :: (item_asset now <$> items) /\
    rels = all_relationships now ("cluster:" +:+ id) items.
Proof.
  intros ([items n] & Hc & Hok)%bind_ok Hmax. cbn [fst] in Hok. case_bool_decide as Hid; [done|]. injection Hok as <- <-.
  pose proof Hc as Hc'. apply collect_spec in Hc' as (pss & _ & -> & Hp & Hne & Hlen & _); [|done]. exists pss. split_and!; try done. by exists n.
Qed.
