(* ===== verification/KubernetesDiscovery.v ===== *)
(** * What the Kubernetes connector promises

    The requests a discovery makes, what it returns, where its relationships
    lead, and that the gateway admits it. *)
From S2P Require Import Prelude GoStrings GoNumbers GoJson GoUrl Domain Security SecurityFacts AuditChain Collector RateLimit Gateway SnapshotContract Kubernetes KubernetesFacts.
From Stdlib Require Import Ascii.
Open Scope string_scope.
Open Scope list_scope.

(** ** Requests *)

(** Two APIs that answer alike from one request number to another. *)
Definition alike (first last : nat) (api api' : nat -> string -> result string Page) : Prop :=
  forall n u, (first <= n < last)%nat -> api n u = api' n u.

Lemma alike_weaken first last first' last' api api' : alike first last api api' -> (first <= first')%nat -> (last' <= last)%nat -> alike first' last' api api'.
Proof. intros H ? ? n u ?. apply H. lia. Qed.

Lemma get_page_alike c n path cont api api' : alike n (S n) api api' -> get_page api c n path cont = get_page api' c n path cont.
Proof. intros H. unfold get_page. rewrite H by lia. done. Qed.

Lemma list_pages_alike c path pages api api' : forall n cont acc, alike n (n + pages) api api' ->
  list_pages api c path pages n cont acc = list_pages api' c path pages n cont acc.
Proof.
  induction pages as [|pages IH]; intros n cont acc H; cbn [list_pages]; [done|].
  rewrite (get_page_alike c n path cont api api') by (apply (alike_weaken _ _ _ _ _ _ H); lia).
  destruct (get_page api' c n path cont) as [[next l]|]; cbn [mbind]; [|done]. cbn. case_match; [done|]. case_bool_decide; [done|].
  apply IH, (alike_weaken _ _ _ _ _ _ H); lia.
Qed.

Lemma collect_alike c api api' rs : forall st, alike st.2 (st.2 + length rs * page_limit c) api api' ->
  foldM (collect api c) st rs = foldM (collect api' c) st rs.
Proof.
  induction rs as [|r rs IH]; intros st H; cbn [foldM]; [done|]. cbn [length] in H.
  assert (collect api c st r = collect api' c st r) as ->.
  { unfold collect, list_items. rewrite (list_pages_alike c _ _ api api'); [done|]. apply (alike_weaken _ _ _ _ _ _ H); lia. }
  destruct (collect api' c st r) as [st'|] eqn:E; cbn; [|done]. apply IH.
  unfold collect in E. apply bind_ok in E as ([l n2] & Hl & E). apply bind_ok in E as (items2 & _ & [= <-]). cbn [snd].
  pose proof (list_pages_requests api' c (rs_path r) (page_limit c) st.2 "" []) as Hn. unfold list_items in Hl. rewrite Hl in Hn.
  apply (alike_weaken _ _ _ _ _ _ H); lia.
Qed.

(** The configuration's bounds. *)
Definition in_bounds (c : Connector) : Prop := (1 <= pageSize c <= 1000)%Z /\ (1 <= maxResources c <= 100000)%Z.

Lemma page_limit_bound c : in_bounds c -> (Z.of_nat (page_limit c) <= 100002)%Z.
Proof.
  intros [Hp Hm]. unfold page_limit. pose proof (Z.quot_le_upper_bound (maxResources c) (pageSize c) 100000) as Hq.
  assert (0 <= Z.quot (maxResources c) (pageSize c))%Z by (apply Z.quot_pos; lia). nia.
Qed.

Lemma NewWithConfig_bounds `{UrlParser} cert config c : NewWithConfig cert config = Ok c -> in_bounds c.
Proof.
  unfold NewWithConfig. repeat case_match; try done; intros [= <-]; unfold in_bounds, defaultPageSize, defaultMaxResources in *; cbn; repeat case_match; lia.
Qed.

(** ** Where relationships lead *)

Section Leads.
Context (now : gotime) (cluster : string) (items : list discovered) (Hwell : cluster_well cluster items).

Lemma when_elem {A} (x : A) b l : x ∈ when b l <-> b = true /\ x ∈ l.
Proof. destruct b; cbn; [naive_solver|]. rewrite elem_of_nil. naive_solver. Qed.

(** Of an item's relationships, those of a type are from the type's part. *)
Lemma contains_part v r : r ∈ item_relationships now cluster (tables cluster items) v -> ro_type r = "CONTAINS" ->
  r = relation (let id := if bool_decide (Namespace (d_item v) = "") then "" else default "" (byNamespace (tables cluster items) !! Namespace (d_item v)) in
    if bool_decide (id = "") then cluster else id) (uid v) "CONTAINS" now.
Proof.
  unfold item_relationships. rewrite !elem_of_app. intros [Hr|Hr] Ht; [by apply list_elem_of_singleton in Hr|]. exfalso.
  destruct Hr as [(o & -> & _)%list_elem_of_fmap|[(id & _ & _ & ->)%link_in|[[_ (id & _ & _ & ->)%link_in]%when_in|[[_ (id & _ & _ & ->)%link_in]%when_in|
    [[_ (p & -> & _)%list_elem_of_fmap]%when_in|[_ (s & (id & _ & _ & ->)%link_in & _)%list_elem_of_bind]%when_in]]]]]; done.
Qed.

Lemma route_part v r : r ∈ item_relationships now cluster (tables cluster items) v -> ro_type r = "ROUTES_TO" -> kind v = "Service" ->
  exists p, p ∈ items /\ kind p = "Pod" /\ Namespace (d_item p) = Namespace (d_item v) /\
    labelsMatch (selectorLabels (RawSel (d_item v))) (Labels (d_item p)) = true /\ r = relation (uid v) (uid p) "ROUTES_TO" now.
Proof.
  unfold item_relationships. rewrite !elem_of_app. intros Hr Ht Hk.
  destruct Hr as [->%list_elem_of_singleton|[(o & -> & _)%list_elem_of_fmap|[(id & _ & _ & ->)%link_in|[[_ (id & _ & _ & ->)%link_in]%when_in|[[_ (id & _ & _ & ->)%link_in]%when_in|
    [[_ (p & -> & [[Hns Hl] Hp]%list_elem_of_filter)%list_elem_of_fmap]%when_in|[Hb _]%when_in]]]]]]; try done.
  - destruct (tables_spec cluster items) as [_ _ _ _ _ Hpods]. rewrite Hpods in Hp. apply list_elem_of_filter in Hp as [Hp Hin].
    by exists p.
  - apply bool_decide_eq_true in Hb. congruence.
Qed.

Lemma labelsMatch_spec selector labels : labelsMatch selector labels = true <->
  selector <> ∅ /\ forall k x, selector !! k = Some x -> default "" (labels !! k) = x.
Proof.
  unfold labelsMatch. rewrite andb_true_iff, Nat.ltb_lt, forallb_forall.
  assert (0 < size selector <-> selector <> ∅)%nat as ->.
  { rewrite <- (map_size_empty_iff selector). lia. }
  split; intros [H1 H2].
  - split; [done|]. intros k x Hk. apply elem_of_map_to_list, list_elem_of_In, H1 in Hk. by apply bool_decide_eq_true in Hk.
  - split; [|done]. intros [k x] Hin%list_elem_of_In%elem_of_map_to_list. by apply bool_decide_eq_true_2, H2.
Qed.

End Leads.

(** ** Theorems *)

(** A connector is only made for a server it may send its token to: over
    HTTPS, or over HTTP to the loopback interface, at a URL without user, query
    or fragment. It has a token, its requests time out, and its page size and
    its limit of resources are within their bounds, whatever the configuration
    asked for. *)
Theorem kubernetes_config_safe `{UrlParser} cert config c (Hok : NewWithConfig cert config = Ok c) :
  (exists u, url_parse (BaseURL config) = Some u /\ u_host u <> "" /\ u_user u = false /\ u_raw_query u = "" /\ u_fragment u = "" /\
    (u_scheme u = "https" \/ u_scheme u = "http" /\ default (bool_decide (u_hostname u = "localhost")) (ip_loopback (u_hostname u)) = true)) /\
  token c = trim_space (Token config) /\ token c <> "" /\ (0 < timeout c)%Z /\ in_bounds c.
Proof.
  pose proof (NewWithConfig_bounds _ _ _ Hok) as Hb. unfold NewWithConfig in Hok.
  destruct (url_parse (BaseURL config)) as [u|]; [|done].
  destruct (_ || _) eqn:Eu in Hok; [done|]. destruct (_ && _) eqn:Es in Hok; [done|]. case_bool_decide as Et; [done|].
  destruct (_ && _) eqn:Ec in Hok; [done|]. injection Hok as <-.
  repeat (apply orb_false_iff in Eu as [Eu ?]). apply bool_decide_eq_false in Eu.
  repeat match goal with E : negb (bool_decide _) = false |- _ => apply negb_false_iff, bool_decide_eq_true in E end.
  split_and!; [exists u; split_and!; try done|done|done| |exact Hb].
  - apply andb_false_iff in Es. rewrite !negb_false_iff, andb_true_iff, !bool_decide_eq_true in Es.
    destruct Es as [?|[? Hl]]; [by left|right]. split; [done|]. by destruct (ip_loopback (u_hostname u)).
  - cbn. case_match; unfold nano; lia.
Qed.

(** However a server answers, a discovery ends after at most [page_limit]
    requests for each resource, which the configuration's bounds keep below
    100,003: two servers that answer alike to that many requests cannot be told
    apart. *)
Theorem kubernetes_requests_bounded api api' now c (Hc : in_bounds c) (Halike : alike 0 (length resources * page_limit c) api api') :
  Discover api now c = Discover api' now c /\ (Z.of_nat (page_limit c) <= 100002)%Z.
Proof. split; [|by apply page_limit_bound]. unfold Discover. by rewrite (collect_alike c api api'). Qed.


(** Where a Service leads: exactly to the Pods of its own namespace whose
    labels match every entry of its selector; without a selector, nowhere. *)
Theorem service_routes_to_matching_pods now cluster items v w
    (Hwell : cluster_well cluster items) (Hv : v ∈ items) (Hw : w ∈ items) (Hk : kind v = "Service") :
  let selector := selectorLabels (RawSel (d_item v)) in
  relation (uid v) (uid w) "ROUTES_TO" now ∈ all_relationships now cluster items <->
  kind w = "Pod" /\ Namespace (d_item w) = Namespace (d_item v) /\ selector <> ∅ /\
  forall k x, selector !! k = Some x -> default "" (Labels (d_item w) !! k) = x.
Proof.
  intros selector. rewrite <- labelsMatch_spec. split.
  - intros Hr. apply (own_relationships now cluster items v) in Hr; [|apply Hwell|done|by right].
    destruct (route_part now cluster items v _ Hr eq_refl Hk) as (p & Hp & Hpod & Hns & Hl & E).
    injection E as E. assert (w = p) as -> by (apply (uid_inj items); [apply Hwell|done..]). done.
  - intros (Hpod & Hns & Hl). apply list_elem_of_bind. exists v. split; [|done]. unfold item_relationships. rewrite !elem_of_app.
    do 5 right. left. apply when_elem. fold selector. split.
    + rewrite bool_decide_true by done. unfold labelsMatch in Hl. apply andb_true_iff in Hl as [_ Hl]. exact Hl.
    + apply list_elem_of_fmap. exists w. split; [done|]. apply list_elem_of_filter. split; [done|].
      rewrite (to_pods _ _ _ (tables_spec cluster items)). by apply list_elem_of_filter.
Qed.

(** Containment is a tree of depth two: every item is contained once, in
    the Namespace object it names when one was listed and in the cluster
    otherwise. *)
Theorem items_contained_once now cluster items v (Hwell : cluster_well cluster items) (Hv : v ∈ items) :
  exists parent, (forall p, relation p (uid v) "CONTAINS" now ∈ all_relationships now cluster items <-> p = parent) /\
    ((exists n, n ∈ items /\ kind n = "Namespace" /\ Name (d_item n) = Namespace (d_item v) /\ Namespace (d_item v) <> "" /\ parent = uid n) \/
     parent = cluster /\ (Namespace (d_item v) = "" \/ forall n, n ∈ items -> kind n = "Namespace" -> Name (d_item n) <> Namespace (d_item v))).
Proof.
  destruct (tables_spec cluster items) as [Hns Hall _ _ _ _].
  set (id := if bool_decide (Namespace (d_item v) = "") then "" else default "" (byNamespace (tables cluster items) !! Namespace (d_item v))).
  exists (if bool_decide (id = "") then cluster else id). split.
  - intros p. split.
    + intros Hr. apply (own_relationships now cluster items v) in Hr; [|apply Hwell|done|by left].
      apply contains_part in Hr; [|done]. by injection Hr.
    + intros ->. apply list_elem_of_bind. exists v. split; [|done]. unfold item_relationships. apply elem_of_app. left. by apply list_elem_of_singleton.
  - case_bool_decide as Hid; unfold id in *; (case_bool_decide as Hn; [by right; auto|]).
    + right. split; [done|]. right. intros n Hin Hk E. destruct (Hall n Hin Hk) as [u Hu]. rewrite E in Hu. rewrite Hu in Hid. cbn in Hid.
      destruct (Hns _ _ Hu) as (m & Hm & Hu' & _). destruct (cw_good _ _ Hwell) as [_ Hg]. destruct (Hg m Hm) as [Hg' _]. congruence.
    + left. destruct (byNamespace _ !! _) as [u|] eqn:Hu; [|done]. destruct (Hns _ _ Hu) as (n & Hin & <- & Hk & E). by exists n.
Qed.

(** The gateway admits what the connector finds: if the API's UIDs are
    unique and no owner is listed twice, the snapshot the collector makes of the
    discovery satisfies the gateway's contract, before and after it is signed. *)
Theorem kubernetes_snapshot_admitted `{Ed25519} api now c id connector started completed sequence assets rels
    (Hfound : Discover api now c = Ok (assets, rels)) (Hnow : now <> 0%Z) (Hc : (0 <= maxResources c)%Z)
    (Hapi : forall items n, foldM (collect api c) ([], 0%nat) resources = Ok (items, n) ->
      cluster_well ("cluster:" +:+ cluster_identity c items) items)
    (Henv : envelope_well id connector started completed sequence assets rels) :
  let s := new_snapshot id connector started completed sequence (normalize_asset <$> assets) (normalize_relationship <$> rels) in
  validSnapshotContract s = true /\ forall key s', SignSnapshot s key = Ok s' -> validSnapshotContract s' = true.
Proof.
  intros s. assert (validSnapshotContract s = true) as Hs; [|by split; [|intros key s' ->%sign_keeps_contract]].
  destruct (Discover_inv _ _ _ _ _ Hfound Hc) as (pss & [n Hn] & _ & _ & _ & _ & -> & ->).
  apply found_snapshot_valid; [done|]. apply discovery_well; [done|by eapply Hapi|]. apply Forall_forall. intros v. apply collected_resource.
Qed.

(** ** A cluster of two namespaces, a service and its pod *)

Definition an_item (name namespace uid_ : string) (labels selector : gmap string string) (owners : list ownerReference) : item :=
  {| Name := name; Namespace := namespace; UID := uid_; Labels := labels; OwnerReferences := owners; NodeName := ""; ServiceName := "";
     VolumeName := ""; RawSel := if decide (selector = ∅) then NoSelector else Selector (Some selector) None; DefaultBackend := ""; Rules := [] |}.

Definition a_page (continuation : string) (items : list item) : result string Page :=
  Ok {| pg_bytes := 100; pg_code := 200; pg_status := "200 OK"; pg_body := Ok (continuation, items) |}.

Definition web_pod : item := an_item "web-1" "shop" "u-pod" {["app" := "web"]} ∅ [{| ow_kind := "ReplicaSet"; ow_name := "web"; ow_uid := "u-rs" |}].
Definition web_service : item := an_item "web" "shop" "u-svc" ∅ {["app" := "web"]} [].

Definition small_cluster (n : nat) (u : string) : result string Page :=
  match n with
  | 0%nat => a_page "next" [an_item "kube-system" "" "u-ks" ∅ ∅ []]
  | 1%nat => a_page "" [an_item "shop" "" "u-shop" ∅ ∅ []]
  | 3%nat => a_page "" [web_pod]
  | 4%nat => a_page "" [web_service]
  | _ => a_page "" []
  end.

Definition small_connector : Connector :=
  {| base := "https://k8s"; token := "t"; clusterID := ""; clusterName := "lab"; timeout := 30 * nano; pageSize := 1; maxResources := 10 |}.

Definition small_items : list discovered :=
  match foldM (collect small_cluster small_connector) ([], 0%nat) resources with Ok (items, _) => items | Err _ => [] end.

Lemma small_cluster_well : cluster_well "cluster:u-ks" small_items.
Proof.
  assert (forall x, x ∈ ["cluster:u-ks"; "u-ks"; "u-shop"; "u-pod"; "u-svc"] -> good_id x) as Hgood.
  { apply Forall_forall. repeat constructor; try done; unfold free_of; apply (bool_decide_unpack _); vm_compute; exact I. }
  split.
  - apply (bool_decide_unpack _). vm_compute. exact I.
  - apply (bool_decide_unpack _). vm_compute. exact I.
  - split; [apply Hgood; left|]. intros v Hv. apply Hgood. right. change ["u-ks"; "u-shop"; "u-pod"; "u-svc"] with (uid <$> small_items).
    by apply list_elem_of_fmap_2.
  - apply Forall_forall. repeat constructor; cbn; apply (bool_decide_unpack _); vm_compute; exact I.
Qed.

Definition small_assets : list Observation := cluster_asset "u-ks" "lab" 7 :: (item_asset 7 <$> small_items).
Definition small_rels : list RelationshipObservation := all_relationships 7 "cluster:u-ks" small_items.

Lemma small_discovery : Discover small_cluster 7 small_connector = Ok (small_assets, small_rels).
Proof. reflexivity. Qed.

Lemma small_rels_length : length small_rels = 5%nat.
Proof. vm_compute. reflexivity. Qed.

Definition one_url : UrlParser := {|
  url_parse s := if String.eqb s "https://k8s/" then
    Some {| u_scheme := "https"; u_host := "k8s"; u_hostname := "k8s"; u_user := false; u_path := "/"; u_raw_query := ""; u_fragment := ""; u_query := ∅ |}
    else None;
  ip_loopback _ := None |}.

Definition small_config : Config :=
  {| BaseURL := "https://k8s/"; Token := " t "; ClusterID := ""; ClusterName := "lab"; CAPEM := ""; Timeout := 0; PageSize := 5000; MaxResources := 0 |}.

Lemma kubernetes_config_safe_witness :
  exists c, @NewWithConfig one_url (fun _ => false) small_config = Ok c /\ base c = "https://k8s" /\ token c = "t" /\ in_bounds c.
Proof.
  eexists. split; [reflexivity|].
  destruct (@kubernetes_config_safe one_url (fun _ => false) small_config _ eq_refl) as (_ & Ht & _ & _ & Hb). split_and!; [reflexivity|exact Ht|exact Hb].
Defined.

Lemma kubernetes_requests_bounded_witness :
  Discover small_cluster 7 small_connector =
  Discover (fun n u => if (n <? 132)%nat then small_cluster n u else Err "unavailable") 7 small_connector.
Proof.
  refine (proj1 (kubernetes_requests_bounded _ _ 7 small_connector _ _)); [unfold in_bounds; cbn; lia|].
  intros n u Hn. change (length resources * page_limit small_connector)%nat with 132%nat in Hn.
  rewrite (proj2 (Nat.ltb_lt n 132)) by lia. reflexivity.
Defined.


Lemma service_routes_to_matching_pods_witness :
  exists v w, kind v = "Service" /\ kind w = "Pod" /\
    relation (uid v) (uid w) "ROUTES_TO" 7 ∈ all_relationships 7 "cluster:u-ks" small_items.
Proof.
  set (w := {| d_resource := Build_resource "/api/v1/pods" "Pod" KubernetesPod; d_item := web_pod |}).
  set (v := {| d_resource := Build_resource "/api/v1/services" "Service" Service; d_item := web_service |}).
  exists v, w. split; [reflexivity|]. split; [reflexivity|].
  refine (proj2 (service_routes_to_matching_pods 7 "cluster:u-ks" small_items v w small_cluster_well _ _ _) _).
  - do 3 right. left.
  - do 2 right. left.
  - reflexivity.
  - split_and!; [reflexivity|reflexivity|discriminate|].
    intros k x. change (selectorLabels (RawSel (d_item v))) with ({["app" := "web"]} : gmap string string).
    intros [<- <-]%lookup_singleton_Some. reflexivity.
Defined.

Lemma items_contained_once_witness :
  exists v, uid v = "u-pod" /\ relation "u-shop" (uid v) "CONTAINS" 7 ∈ all_relationships 7 "cluster:u-ks" small_items.
Proof.
  set (v := {| d_resource := Build_resource "/api/v1/pods" "Pod" KubernetesPod; d_item := web_pod |}).
  exists v. split; [reflexivity|].
  destruct (items_contained_once 7 "cluster:u-ks" small_items v small_cluster_well ltac:(do 2 right; left)) as (p & Hp & Hwhich).
  apply Hp. destruct Hwhich as [(n & Hn & Hk & Hname & _ & ->)|[_ [Hns|Hno]]]; [|discriminate|].
  - revert Hk Hname. apply (proj1 (Forall_forall (fun n => kind n = "Namespace" -> Name (d_item n) = "shop" -> "u-shop" = uid n) small_items)); [|exact Hn].
    repeat constructor; discriminate.
  - exfalso. apply (Hno {| d_resource := Build_resource "/api/v1/namespaces" "Namespace" KubernetesNamespace; d_item := an_item "shop" "" "u-shop" ∅ ∅ [] |});
      [right; left|reflexivity|reflexivity].
Defined.

Lemma kubernetes_snapshot_admitted_witness :
  validSnapshotContract (new_snapshot {| id_collector := "collector"; id_connector := "k8s"; id_org := "org"; id_credential := "credential"; id_key := "key"; id_type := "KUBERNETES" |}
    "k8s" 4 9 1 (normalize_asset <$> small_assets) (normalize_relationship <$> small_rels)) = true.
Proof.
  refine (proj1 (@kubernetes_snapshot_admitted toy_ed25519 small_cluster 7 small_connector _ "k8s" 4 9 1 _ _ small_discovery _ _ _ _)); [done|cbn; lia| |].
  - intros items n Hi. assert (items = small_items) as -> by (unfold small_items; rewrite Hi; reflexivity). exact small_cluster_well.
  - constructor; [done|done|done|unfold max_int64; lia|lia| |rewrite small_rels_length; lia].
    change (length small_assets) with 5%nat. lia.
Defined.
