(* ===== verification/GoIo.v ===== *)
(** * Readers

    What the source reads of requests, files and objects: their bytes, and the
    error they may end with. *)
From S2P Require Import Prelude GoStrings.
Open Scope string_scope.

(** A reader: its bytes, and the error after them if it does not end there. *)
Record Reader := { content : string; failure : option string }.

(** [io.ReadAll(io.LimitReader(r, n))]. *)
Definition read_all (r : Reader) (n : Z) : result string string :=
  if (n <=? len (content r))%Z then Ok (String.substring 0 (Z.to_nat n) (content r))
  else match failure r with Some e => Err e | None => Ok (content r) end.

Lemma substring_length n s : (n <= String.length s)%nat -> String.length (String.substring 0 n s) = n.
Proof. revert s. induction n as [|n IH]; intros [|c s] Hn; cbn in *; try lia. by rewrite IH by lia. Qed.
