(* ===== verification/GoCsv.v ===== *)
(** * CSV files

    The records [encoding/csv]'s [Reader] returns with its default settings
    (comma, no comments, strict quotes, every record as wide as the first), as
    one pass over the bytes, and the table a program would write that reads back
    as itself. *)
From S2P Require Import Prelude GoStrings GoNumbers GoJson.
From Stdlib Require Import Ascii.
Open Scope string_scope.
Open Scope list_scope.

Definition nl : ascii := ascii_of_N 10.
Definition cr : ascii := ascii_of_N 13.
Definition dquote : ascii := ascii_of_N 34.

(** Lines end alike: a CR before an LF goes, and one at the end of the file. *)
Fixpoint normalize_lines (s : string) : string :=
  match s with
  | EmptyString => ""
  | String c s' =>
      match s' with
      | EmptyString => if Ascii.eqb c cr then "" else String c ""
      | String d _ => if Ascii.eqb c cr && Ascii.eqb d nl then normalize_lines s' else String c (normalize_lines s')
      end
  end.

(** ** Errors, by the lines and the column they name *)

Inductive CsvError :=
| BareQuote (start line column : Z)
| BadQuote (start line column : Z)
| FieldCount (start : Z).

Definition parse_message (start line column : Z) (what : string) : string :=
  (if (start =? line)%Z then "" else "record on line " +:+ format_int start +:+ "; ") +:+
  "parse error on line " +:+ format_int line +:+ ", column " +:+ format_int column +:+ ": " +:+ what.

Definition csv_message (e : CsvError) : string :=
  match e with
  | BareQuote start line column => parse_message start line column ("bare " +:+ quote +:+ " in non-quoted-field")
  | BadQuote start line column => parse_message start line column ("extraneous or missing " +:+ quote +:+ " in quoted-field")
  | FieldCount start => "record on line " +:+ format_int start +:+ ": wrong number of fields"
  end.

(** ** The reader *)

(** Where the reader stands: before a record, at the start of a field, in a
    field, in a quoted one, after a quote in one, past an error in a line. *)
Inductive mode := RecordStart | FieldStart | Plain (acc : string) | Quoted (acc : string) | QuoteSeen (acc : string) | Skipping.

Definition snoc (acc : string) (c : ascii) : string := acc +:+ String c "".

(** Each record with the line it starts on. [start], [line] and [column] are
    where the record started and where the next byte is. *)
Fixpoint scan (m : mode) (start line column : Z) (fields : list string) (s : string) : list (Z * result CsvError (list string)) :=
  match s with
  | EmptyString =>
      match m with
      | RecordStart | Skipping => []
      | FieldStart => [(start, Ok (fields ++ [""]))]
      | Plain acc | QuoteSeen acc => [(start, Ok (fields ++ [acc]))]
      | Quoted _ => [(start, Err (BadQuote start line column))]
      end
  | String c s' =>
      let begin_field (start : Z) :=
        if Ascii.eqb c dquote then scan (Quoted "") start line (column + 1) fields s'
        else if Ascii.eqb c "," then scan FieldStart start line (column + 1) (fields ++ [""]) s'
        else scan (Plain (String c "")) start line (column + 1) fields s' in
      match m with
      | RecordStart => if Ascii.eqb c nl then scan RecordStart line (line + 1) 1 [] s' else begin_field line
      | FieldStart =>
          if Ascii.eqb c nl then (start, Ok (fields ++ [""])) :: scan RecordStart start (line + 1) 1 [] s'
          else begin_field start
      | Plain acc =>
          if Ascii.eqb c nl then (start, Ok (fields ++ [acc])) :: scan RecordStart start (line + 1) 1 [] s'
          else if Ascii.eqb c "," then scan FieldStart start line (column + 1) (fields ++ [acc]) s'
          else if Ascii.eqb c dquote then (start, Err (BareQuote start line column)) :: scan Skipping start line column [] s'
          else scan (Plain (snoc acc c)) start line (column + 1) fields s'
      | Quoted acc =>
          if Ascii.eqb c dquote then scan (QuoteSeen acc) start line (column + 1) fields s'
          else if Ascii.eqb c nl && negb (bool_decide (s' = "")) then scan (Quoted (snoc acc c)) start (line + 1) 1 fields s'
          else scan (Quoted (snoc acc c)) start line (column + 1) fields s'
      | QuoteSeen acc =>
          if Ascii.eqb c dquote then scan (Quoted (snoc acc c)) start line (column + 1) fields s'
          else if Ascii.eqb c "," then scan FieldStart start line (column + 1) (fields ++ [acc]) s'
          else if Ascii.eqb c nl then (start, Ok (fields ++ [acc])) :: scan RecordStart start (line + 1) 1 [] s'
          else (start, Err (BadQuote start line (column - 1))) :: scan Skipping start line column [] s'
      | Skipping => scan (if Ascii.eqb c nl then RecordStart else Skipping) start (if Ascii.eqb c nl then line + 1 else line) 1 [] s'
      end
  end%Z.

(** The first record's width is the others'. *)
Definition check_width (width : nat) (r : Z * result CsvError (list string)) : result CsvError (list string) :=
  match r.2 with
  | Ok fields => if (length fields =? width)%nat then Ok fields else Err (FieldCount r.1)
  | Err e => Err e
  end.

Definition csv_records (s : string) : list (result CsvError (list string)) :=
  match scan RecordStart 1 1 1 [] (normalize_lines s) with
  | (l, Ok header) :: rest => Ok header :: (check_width (length header) <$> rest)
  | (l, Err e) :: rest => Err e :: (snd <$> rest)
  | [] => []
  end.

(** ** Writing *)

Fixpoint double_quotes (s : string) : string :=
  match s with
  | EmptyString => ""
  | String c s' => if Ascii.eqb c dquote then String c (String c (double_quotes s')) else String c (double_quotes s')
  end.

Definition csv_field (s : string) : string := String dquote (double_quotes s) +:+ String dquote "".
Definition csv_row (fields : list string) : string := join "," (csv_field <$> fields) +:+ String nl "".
Definition csv_table (rows : list (list string)) : string := String.concat "" (csv_row <$> rows).

Example csv_quoted : csv_records (csv_table [["a"; "b,"]; ["x" +:+ quote; "y" +:+ String nl "z"]]) = [Ok ["a"; "b,"]; Ok ["x" +:+ quote; "y" +:+ String nl "z"]].
Proof. reflexivity. Qed.

Example csv_bad : csv_message <$> omap (fun r => match r with Err e => Some e | Ok _ => None end)
    (csv_records ("a,b" +:+ String nl ("c" +:+ String nl ("d," +:+ quote +:+ "e" +:+ quote +:+ "f" +:+ String nl "g,h"))))
  = ["record on line 2: wrong number of fields"; "parse error on line 3, column 5: extraneous or missing " +:+ quote +:+ " in quoted-field"].
Proof. reflexivity. Qed.
