(* ===== verification/GoCsvFacts.v ===== *)
(** * Reading CSV back

    A table written with quoted fields reads as the table it was, and what the
    reader returns of any text: its records have the first one's width. *)
From S2P Require Import Prelude GoStrings GoNumbers GoJson GoCsv SecurityFacts SnapshotContract.
From Stdlib Require Import Ascii.
Open Scope string_scope.
Open Scope list_scope.

(** ** Lines *)

Lemma normalize_lines_id s : free_of cr s -> normalize_lines s = s.
Proof.
  unfold free_of. induction s as [|c s IH]; [done|]. cbn [String.list_ascii_of_string]. intros [Hc Hs]%not_elem_of_cons.
  specialize (IH Hs). cbn [normalize_lines].
  assert (Ascii.eqb c cr = false) as E by (apply Ascii.eqb_neq; congruence). rewrite E. destruct s as [|d s]; [done|]. cbn [andb]. by rewrite IH.
Qed.

Lemma free_of_cons c x s : free_of c (String x s) <-> c <> x /\ free_of c s.
Proof. unfold free_of. cbn. by rewrite not_elem_of_cons. Qed.

Lemma free_of_nil c : free_of c "".
Proof. apply not_elem_of_nil. Qed.

Lemma free_double_quotes s : free_of cr s -> free_of cr (double_quotes s).
Proof.
  induction s as [|c s IH]; [done|]. rewrite free_of_cons. intros [Hc Hs]. cbn [double_quotes].
  case_match; rewrite !free_of_cons; auto.
Qed.

Lemma free_csv_row l : Forall (free_of cr) l -> free_of cr (csv_row l).
Proof.
  intros Hl. unfold csv_row, join. apply free_of_app; [|by apply free_of_cons; split; [|apply free_of_nil]].
  assert (forall f, free_of cr f -> free_of cr (csv_field f)) as Hf.
  { intros f ?. unfold csv_field. apply free_of_cons. split; [done|]. apply free_of_app; [by apply free_double_quotes|].
    apply free_of_cons. split; [done|apply free_of_nil]. }
  induction Hl as [|f l Hf' Hl IH]; [apply free_of_nil|]. cbn. destruct l as [|g l]; [by apply Hf|].
  apply free_of_app; [by apply Hf|]. apply (free_of_app cr ","); [|exact IH]. apply free_of_cons. split; [done|apply free_of_nil].
Qed.

Lemma free_csv_table rows : Forall (Forall (free_of cr)) rows -> free_of cr (csv_table rows).
Proof.
  unfold csv_table. induction 1 as [|r rows Hr Hrows IH]; [apply free_of_nil|]. cbn.
  destruct rows; [by apply free_csv_row|]. apply free_of_app; [by apply free_csv_row|]. exact IH.
Qed.

(** ** Fields and rows *)

Lemma scan_quoted f : forall acc start line column fields rest, exists line' column',
  scan (Quoted acc) start line column fields (double_quotes f +:+ String dquote rest)
  = scan (QuoteSeen (acc +:+ f)) start line' column' fields rest.
Proof.
  induction f as [|c f IH]; intros acc start line column fields rest; cbn [double_quotes].
  - eexists _, _. cbn [String.app scan]. change (Ascii.eqb dquote dquote) with true. cbn iota. by rewrite string_app_nil_r.
  - assert (forall s, acc +:+ String c s = snoc acc c +:+ s) as Hs by (intros s; unfold snoc; by rewrite string_app_assoc).
    setoid_rewrite Hs. destruct (Ascii.eqb_spec c dquote) as [->|Hc].
    + rewrite !string_app_cons. cbn [scan]. change (Ascii.eqb dquote dquote) with true. cbn iota. apply IH.
    + rewrite !string_app_cons. cbn [scan]. rewrite (proj2 (Ascii.eqb_neq c dquote)) by done.
      destruct (_ && _); apply IH.
Qed.

Lemma scan_field f fs start line column rest : exists line' column',
  scan FieldStart start line column fs (csv_field f +:+ rest) = scan (QuoteSeen f) start line' column' fs rest.
Proof.
  unfold csv_field. rewrite !string_app_cons, string_app_assoc. cbn [scan String.app]. change (Ascii.eqb dquote nl) with false. change (Ascii.eqb dquote dquote) with true. cbn iota.
  apply (scan_quoted f "").
Qed.

Lemma scan_row l : l <> [] -> forall fs start line column rest, exists line',
  scan FieldStart start line column fs (csv_row l +:+ rest) = (start, Ok (fs ++ l)) :: scan RecordStart start line' 1 [] rest.
Proof.
  unfold csv_row, join. induction l as [|f l IH]; intros Hne fs start line column rest; [done|].
  destruct l as [|g l].
  - cbn [fmap list_fmap String.concat]. rewrite string_app_assoc. destruct (scan_field f fs start line column (String nl "" +:+ rest)) as (l1 & c1 & ->).
    eexists. cbn [String.app scan]. change (Ascii.eqb nl dquote) with false. change (Ascii.eqb nl ",") with false. change (Ascii.eqb nl nl) with true. done.
  - change (String.concat "," (csv_field <$> f :: g :: l)) with (csv_field f +:+ ("," +:+ String.concat "," (csv_field <$> g :: l))).
    rewrite !string_app_assoc. destruct (scan_field f fs start line column ("," +:+ (String.concat "," (csv_field <$> g :: l) +:+ (String nl "" +:+ rest)))) as (l1 & c1 & ->).
    match goal with |- context ["," +:+ ?x] => change ("," +:+ x) with (String "," x) end. cbn [scan]. change (Ascii.eqb "," dquote) with false. change (Ascii.eqb "," ",") with true. cbn iota.
    destruct (IH ltac:(done) (fs ++ [f]) start l1 (c1 + 1)%Z rest) as [l2 E]. rewrite string_app_assoc in E.
    eexists. rewrite E. by rewrite <- app_assoc.
Qed.

Lemma scan_record l start line column rest : l <> [] -> exists line',
  scan RecordStart start line column [] (csv_row l +:+ rest) = (line, Ok l) :: scan RecordStart line line' 1 [] rest.
Proof.
  intros Hl. destruct (scan_row l Hl [] line line column rest) as [line' E]. exists line'. cbn [app] in E. rewrite <- E.
  destruct l as [|f l]; [done|]. unfold csv_row, join, csv_field. destruct l; reflexivity.
Qed.

Lemma scan_table rows : Forall (fun l => l <> []) rows -> forall start line column, exists starts,
  length starts = length rows /\ scan RecordStart start line column [] (csv_table rows) = zip starts (Ok <$> rows).
Proof.
  unfold csv_table. induction 1 as [|l rows Hl Hrows IH]; intros start line column; [by exists []|].
  assert (String.concat "" (csv_row <$> l :: rows) = csv_row l +:+ String.concat "" (csv_row <$> rows)) as ->.
  { destruct rows; [symmetry; apply string_app_nil_r|reflexivity]. }
  destruct (scan_record l start line column (String.concat "" (csv_row <$> rows)) Hl) as [line' ->].
  destruct (IH line line' 1%Z) as (starts & Hlen & ->). exists (line :: starts). cbn. by rewrite Hlen.
Qed.

(** A table of rows of one width reads back. *)
Lemma csv_records_table width rows : (0 < width)%nat -> Forall (fun l => length l = width) rows -> Forall (Forall (free_of cr)) rows ->
  csv_records (csv_table rows) = Ok <$> rows.
Proof.
  intros Hw Hrows Hfree. unfold csv_records. rewrite normalize_lines_id by (by apply free_csv_table).
  destruct (scan_table rows) with (start := 1%Z) (line := 1%Z) (column := 1%Z) as (starts & Hlen & ->).
  { eapply Forall_impl; [exact Hrows|]. intros [|] ?; [cbn in *; lia|done]. }
  destruct Hrows as [|l rows Hl Hrows]; [by destruct starts|]. destruct starts as [|st starts]; [done|]. cbn [fmap list_fmap zip zip_with].
  f_equal. rewrite Hl. injection Hlen as Hlen. clear Hfree. revert starts Hlen.
  induction Hrows as [|r rows Hr Hrows IH]; intros [|st' starts] Hlen; try done. cbn. unfold check_width at 1. cbn [snd].
  rewrite Hr, Nat.eqb_refl. f_equal. apply IH. by injection Hlen.
Qed.

(** ** Any text *)

Lemma csv_records_width s header rest : csv_records s = Ok header :: rest ->
  Forall (fun r => match r with Ok fields => length fields = length header | Err _ => True end) rest.
Proof.
  unfold csv_records. destruct (scan _ _ _ _ _ _) as [|[l [h|e]] recs]; [done| |done]. intros [= -> <-].
  apply Forall_fmap, Forall_forall. intros [l' [fields|e]] _; unfold check_width; cbn; [|done].
  by destruct (Nat.eqb_spec (length fields) (length header)).
Qed.
