(* ===== verification/Imports.v ===== *)
(** * Import previews ([internal/imports/imports.go])

    [CSV], [JSON] and [Terraform] turn an uploaded file into a preview and store
    nothing. A request's body is its bytes and the error reading it may end
    with; documents are read by the decoders of GoJsonDecode.v. A preview's slice
    is nil exactly when it is empty for CSV and Terraform. *)
From S2P Require Import Prelude GoStrings GoNumbers GoJson GoJsonDecode GoCsv GoIo Domain DomainJson Reconcile.
From Stdlib Require Import Ascii.
Open Scope string_scope.
Open Scope list_scope.

Record Limits := { MaxBytes : Z; MaxItems : Z; MaxDepth : Z; MaxRows : Z }.

Record Preview := { Assets : list Observation; Relationships : list RelationshipObservation; Errors : list string }.

Definition no_preview : Preview := {| Assets := []; Relationships := []; Errors := [] |}.

(** The bytes of a file within a limit, or the error named. *)
Definition read_limited (r : Reader) (limit : Z) (what : string) : result string string :=
  raw ← read_all r (wrap64 (limit + 1));
  if (limit <? len raw)%Z then Err (what +:+ " exceeds byte limit") else Ok raw.

Definition or_default (limit fallback : Z) : Z := if (limit <=? 0)%Z then fallback else limit.

Definition imported (external typ : string) (attributes hints : gmap string json) : Observation :=
  {| o_id := ""; o_org := ""; o_snapshot := ""; o_connector := ""; o_collector := ""; o_external := external; o_type := typ;
     o_observed := 0%Z; o_attributes := Some attributes; o_hints := Some hints; o_fingerprint := ""; o_status := "" |}.

(** [strings.ToUpper] of valid UTF-8. *)
Definition upper_text `{UnicodeCase} (s : string) : string :=
  of_bytes (mjoin ((fun rb => if (upper_rune rb.1 =? rb.1)%N then rb.2 else utf8_encode (upper_rune rb.1)) <$> decode (bytes s))).

Definition indexes_of (header : list string) : gmap string nat :=
  foldl (fun m ih => <[to_lower (trim_space ih.2) := ih.1]> m) ∅ (imap pair header).

Definition required_columns : list string := ["external_id"; "asset_type"; "name"].

Section Rows.
Context `{UnicodeCase}.

(** Lines 71-77. *)
Definition get (indexes : gmap string nat) (record : list string) (k : string) : string :=
  match record !! default 0%nat (indexes !! k) with Some v => trim_space v | None => "" end.

Definition environment (indexes : gmap string nat) (record : list string) : option string :=
  i ← indexes !! "environment"; v ← record !! i; Some (upper_text (trim_space v)).

(** Lines 71-87: the asset a record describes. *)
Definition row_asset (indexes : gmap string nat) (record : list string) : option Observation :=
  let typ := to_upper (get indexes record "asset_type") in
  if known_type typ then
    let attrs := {["name" := JStr (get indexes record "name")]} in
    let attrs := match environment indexes record with Some v => <["environment" := JStr v]> attrs | None => attrs end in
    Some (imported (get indexes record "external_id") typ attrs ∅)
  else None.

Definition row_error (row : Z) (what : string) : string := "row " +:+ format_int (row + 1) +:+ ": " +:+ what.

(** One iteration of the loop of line 59. *)
Definition import_row (max_rows : Z) (indexes : gmap string nat) (row : Z) (p : Preview) (r : result CsvError (list string)) : result string Preview :=
  match r with
  | Err e => Ok {| Assets := Assets p; Relationships := Relationships p; Errors := Errors p ++ [row_error row (csv_message e)] |}
  | Ok record =>
      if (max_rows <? row)%Z then Err "CSV exceeds row limit" else
      match row_asset indexes record with
      | None => Ok {| Assets := Assets p; Relationships := Relationships p; Errors := Errors p ++ [row_error row "unknown asset type"] |}
      | Some a => Ok {| Assets := Assets p ++ [a]; Relationships := Relationships p; Errors := Errors p |}
      end
  end.

Fixpoint import_rows (max_rows : Z) (indexes : gmap string nat) (row : Z) (p : Preview) (rows : list (result CsvError (list string))) : result string Preview :=
  match rows with
  | [] => Ok p
  | r :: rows' => p ← import_row max_rows indexes row p r; import_rows max_rows indexes (row + 1) p rows'
  end.

Definition CSV (r : Reader) (l : Limits) : result string Preview :=
  raw ← read_limited r (or_default (MaxBytes l) (Z.shiftl 10 20)) "CSV";
  if negb (utf8_valid raw) then Err "CSV must be UTF-8" else
  match csv_records raw with
  | [] => Err "EOF"
  | Err e :: _ => Err (csv_message e)
  | Ok header :: rows =>
      let indexes := indexes_of header in
      match find (fun c => bool_decide (indexes !! c = None)) required_columns with
      | Some c => Err ("missing required column " +:+ c)
      | None => import_rows (or_default (MaxRows l) 10000) indexes 1 no_preview rows
      end
  end.

End Rows.

(** ** JSON *)

(** [depth]: the state of the loop, and one byte. *)
Record Scan := { sc_depth : Z; sc_max : Z; sc_in : bool; sc_esc : bool }.

Definition depth_step (s : Scan) (c : ascii) : Scan :=
  if sc_in s then
    if sc_esc s then {| sc_depth := sc_depth s; sc_max := sc_max s; sc_in := true; sc_esc := false |}
    else if Ascii.eqb c backslash then {| sc_depth := sc_depth s; sc_max := sc_max s; sc_in := true; sc_esc := true |}
    else if Ascii.eqb c dquote then {| sc_depth := sc_depth s; sc_max := sc_max s; sc_in := false; sc_esc := false |}
    else s
  else if Ascii.eqb c dquote then {| sc_depth := sc_depth s; sc_max := sc_max s; sc_in := true; sc_esc := sc_esc s |}
  else if Ascii.eqb c "{" || Ascii.eqb c "[" then
    {| sc_depth := sc_depth s + 1; sc_max := Z.max (sc_max s) (sc_depth s + 1); sc_in := false; sc_esc := sc_esc s |}
  else if Ascii.eqb c "}" || Ascii.eqb c "]" then
    {| sc_depth := sc_depth s - 1; sc_max := sc_max s; sc_in := false; sc_esc := sc_esc s |}
  else s.

Definition depth_from (s : Scan) (raw : string) : Scan := foldl depth_step s (String.list_ascii_of_string raw).

Definition depth (raw : string) : Z := sc_max (depth_from {| sc_depth := 0; sc_max := 0; sc_in := false; sc_esc := false |} raw).

Record JSONDocument := { jd_assets : option (list Observation); jd_relationships : option (list RelationshipObservation) }.

Section Document.
Context `{UnicodeCase}.

(** The texts of [encoding/json]'s errors, which a preview's error repeats. *)
Variable json_error : string -> string.

Definition document_fields : list (field JSONDocument) := [
  into "assets" jd_assets (fun v d => {| jd_assets := v; jd_relationships := jd_relationships d |}) (dec_slice zero_observation (dec_observation true));
  into "relationships" jd_relationships (fun v d => {| jd_assets := jd_assets d; jd_relationships := v |})
    (dec_slice zero_relationship (dec_relationship true))].

(** Lines 117-122: the first document of the file; what follows is not read. *)
Definition decode_document (raw : string) : result string JSONDocument :=
  match (match scan_document raw with
         | Found d _ => dec_struct true document_fields {| jd_assets := None; jd_relationships := None |} d
         | _ => None end) with
  | Some d => Ok d
  | None => Err (json_error raw)
  end.

Definition JSON (r : Reader) (l : Limits) : result string Preview :=
  raw ← read_limited r (or_default (MaxBytes l) (Z.shiftl 10 20)) "JSON";
  if (or_default (MaxDepth l) 16 <? depth raw)%Z then Err "JSON exceeds depth limit" else
  match decode_document raw with
  | Err e => Err ("invalid inventory JSON: " +:+ e)
  | Ok d =>
      let assets := default [] (jd_assets d) in
      let relationships := default [] (jd_relationships d) in
      if (or_default (MaxItems l) 10000 <? Z.of_nat (length assets + length relationships))%Z then Err "JSON exceeds item limit" else
      _ ← foldM (fun _ a =>
        if bool_decide (o_external a = "") then Err "asset externalId required"
        else if known_type (o_type a) then Ok tt else Err "unknown asset type") tt assets;
      Ok {| Assets := assets; Relationships := relationships; Errors := [] |}
  end.

End Document.

(** ** Spreadsheet cells and lines *)

Definition formula_bytes : list ascii := ["="%char; "+"%char; "-"%char; "@"%char].

Definition SafeCSVCell (v : string) : string :=
  match v with
  | EmptyString => v
  | String c _ => if bool_decide (c ∈ formula_bytes) then "'" +:+ v else v
  end.

(** [bufio.Scanner]'s buffer. *)
Definition max_token : Z := 65536.

Definition drop_cr (s : string) : string := if has_suffix s (String cr "") then String.substring 0 (String.length s - 1) s else s.

(** The lines of a text, without their ends; what follows the last one is a
    line when it is not empty. *)
Definition text_lines (s : string) : list string :=
  let l := split_on nl s in
  match last l with Some EmptyString => take (length l - 1) l | _ => l end.

Fixpoint scan_lines (max : Z) (out lines : list string) (failure : option string) : list string * option string :=
  match lines with
  | [] => (out, failure)
  | line :: lines' =>
      if (max_token <=? len line)%Z then (out, Some "bufio.Scanner: token too long") else
      if (max <=? Z.of_nat (length out))%Z then ([], Some "line limit exceeded") else
      scan_lines max (out ++ [drop_cr line]) lines' failure
  end.

Definition ReadLines (r : Reader) (max : Z) : list string * option string := scan_lines max [] (text_lines (content r)) (failure r).

(** ** Terraform *)

(** An attribute is kept as its text and read later: here as the value it
    decodes to, if it does. *)
Record terraformInstance := { Attributes : option (gmap string (option json)) }.
Record terraformResource := { Mode : string; Type_ : string; Name : string; Provider : string; Instances : option (list terraformInstance) }.

(** The outputs are decoded, and read nowhere. *)
Record terraformOutput := { Sensitive : bool; Value_ : option doc }.
Record terraformState := { Resources : option (list terraformResource); Outputs : option (gmap string terraformOutput) }.

Definition zero_instance : terraformInstance := Build_terraformInstance None.
Definition zero_resource : terraformResource := Build_terraformResource "" "" "" "" None.
Definition zero_output : terraformOutput := Build_terraformOutput false None.
Definition zero_state : terraformState := Build_terraformState None None.

Section State.
Context `{UnicodeCase}.

Definition instance_fields : list (field terraformInstance) := [
  into "attributes" Attributes (fun v _ => Build_terraformInstance v) (dec_map (fun d => Some (to_any d)))].

Definition resource_fields : list (field terraformResource) := [
  into "Mode" Mode (fun v '(Build_terraformResource _ b c d e) => Build_terraformResource v b c d e) dec_string;
  into "Type" Type_ (fun v '(Build_terraformResource a _ c d e) => Build_terraformResource a v c d e) dec_string;
  into "Name" Name (fun v '(Build_terraformResource a b _ d e) => Build_terraformResource a b v d e) dec_string;
  into "Provider" Provider (fun v '(Build_terraformResource a b c _ e) => Build_terraformResource a b c v e) dec_string;
  into "instances" Instances (fun v '(Build_terraformResource a b c d _) => Build_terraformResource a b c d v)
    (dec_slice zero_instance (dec_struct false instance_fields))].

Definition output_fields : list (field terraformOutput) := [
  into "sensitive" Sensitive (fun v o => Build_terraformOutput v (Value_ o)) dec_bool;
  into "value" Value_ (fun v o => Build_terraformOutput (Sensitive o) v) (fun _ d => Some (Some d))].

Definition state_fields : list (field terraformState) := [
  into "resources" Resources (fun v s => Build_terraformState v (Outputs s)) (dec_slice zero_resource (dec_struct false resource_fields));
  into "outputs" Outputs (fun v s => Build_terraformState (Resources s) v) (dec_map (dec_struct false output_fields zero_output))].

Definition read_state (raw : string) : option terraformState := unmarshal zero_state (dec_struct false state_fields) raw.

End State.

Definition terraformAllow : list string :=
  ["id"; "name"; "arn"; "resource_group_name"; "location"; "region"; "availability_zone"; "instance_id"; "cluster_name"; "namespace"; "tags"; "labels"].

Definition sensitive_words : list string :=
  ["password"; "secret"; "token"; "private_key"; "connection_string"; "user_data"; "credential"].

Definition sensitiveName (k : string) : bool := existsb (contains_sub (to_lower k)) sensitive_words.

Definition address (r : terraformResource) : string := Type_ r +:+ "." +:+ Name r.

(** Lines 212-223: one attribute. *)
Definition keep_attribute (st : gmap string json * gmap string json) (kv : string * option json) : gmap string json * gmap string json :=
  let '(attrs, hints) := st in
  let '(k, v) := kv in
  if negb (bool_decide (k ∈ terraformAllow)) || sensitiveName k then (attrs, hints) else
  match v with
  | None => (attrs, hints)
  | Some value => (<[k := value]> attrs, if bool_decide (k = "id") then <["terraform_resource_id" := JStr (Sprint value)]> hints else hints)
  end.

(** The attributes of a resource's instances. *)
Definition instances_of (r : terraformResource) : list (gmap string (option json)) := default ∅ ∘ Attributes <$> default [] (Instances r).

Section Terraform.
Context `{RangeOrder, UnicodeCase}.

(** Lines 209-225; [site] numbers the loops over maps. *)
Definition instance_asset (r : terraformResource) (site i : nat) (attributes : gmap string (option json)) : Observation :=
  let attrs := {["terraform_address" := JStr (address r); "terraform_type" := JStr (Type_ r); "provider" := JStr (Provider r)]} in
  let hints := {["terraform_resource_id" := JStr (address r +:+ "[" +:+ nat_digits i +:+ "]")]} in
  let '(attrs, hints) := foldl keep_attribute (attrs, hints) (range (site + i) attributes) in
  imported (sprint_lookup (hints !! "terraform_resource_id")) CloudResource attrs hints.

Definition resource_assets (site : nat) (r : terraformResource) : list Observation :=
  if bool_decide (Mode r = "managed") then imap (instance_asset r site) (instances_of r) else [].

Fixpoint state_assets (site : nat) (rs : list terraformResource) : list Observation :=
  match rs with
  | [] => []
  | r :: rs' => resource_assets site r ++ state_assets (site + length (instances_of r)) rs'
  end.

Definition Terraform (r : Reader) (maxBytes : Z) : result string Preview :=
  raw ← read_limited r (or_default maxBytes (Z.shiftl 50 20)) "Terraform state";
  match read_state raw with
  | None => Err "invalid Terraform state"
  | Some s => Ok {| Assets := state_assets 0 (default [] (Resources s)); Relationships := []; Errors := [] |}
  end.

End Terraform.

(** ** Examples *)

Example csv_preview :
  (match @CSV ascii_case {| content := "external_id,asset_type,name,environment" +:+ String nl "a,APPLICATION,ERP,staging" ; failure := None |}
      {| MaxBytes := 1024; MaxItems := 0; MaxDepth := 0; MaxRows := 10 |} with
   | Ok p => (fun a => (o_external a, o_type a, attrs a !! "environment")) <$> Assets p
   | Err _ => [] end) = [("a", "APPLICATION", Some (JStr "STAGING"))].
Proof. vm_compute. reflexivity. Qed.

Example safe_cell : SafeCSVCell "=cmd" = "'=cmd".
Proof. reflexivity. Qed.
