(* ===== verification/JsonDepth.v ===== *)
(** * The nesting of JSON text

    [depth] scans an upload before it is decoded. On the text of a value it
    finds the value's nesting, whatever its strings hold. *)
From S2P Require Import Prelude GoStrings GoUtf8 GoNumbers GoJson GoJsonDecode GoJsonText GoTimeText GoJsonRoundtrip GoCsv GoIo Domain Reconcile Imports.
From Stdlib Require Import Ascii.
Open Scope string_scope.
Open Scope list_scope.

(** ** Values *)

(** Numbers hold digits. *)
Fixpoint numbers_ok (v : json) : Prop :=
  match v with
  | JNum f => all_digits (f_digits f) = true
  | JArr l => foldr (fun v P => numbers_ok v /\ P) True l
  | JObj l => foldr (fun kv P => numbers_ok kv.2 /\ P) True l
  | _ => True
  end.

(** ** Scans *)

Definition outside (d m : Z) : Scan := {| sc_depth := d; sc_max := m; sc_in := false; sc_esc := false |}.
Definition inside (d m : Z) : Scan := {| sc_depth := d; sc_max := m; sc_in := true; sc_esc := false |}.

Lemma depth_from_app s a b : depth_from s (a +:+ b) = depth_from (depth_from s a) b.
Proof. unfold depth_from. revert s. induction a as [|c a IH]; intros s; [done|]. apply IH. Qed.

Lemma depth_from_cons s c a : depth_from s (String c a) = depth_from (depth_step s c) a.
Proof. done. Qed.

(** A text that leaves the scan where it is. *)
Definition skipped (s : Scan) (a : string) : Prop := depth_from s a = s.

Lemma skipped_app s a b : skipped s a -> skipped s b -> skipped s (a +:+ b).
Proof. unfold skipped. intros Ha Hb. by rewrite depth_from_app, Ha. Qed.

Lemma skipped_concat s l : Forall (skipped s) l -> skipped s (String.concat "" l).
Proof.
  induction 1 as [|a l Ha Hl IH]; [done|]. cbn. destruct l; [done|]. by apply skipped_app.
Qed.

(** Bytes that mean nothing to the scan. *)
Definition plain (c : ascii) : Prop :=
  c <> dquote /\ c <> backslash /\ c <> "{"%char /\ c <> "["%char /\ c <> "}"%char /\ c <> "]"%char.

Definition plain_text (a : string) : Prop := Forall plain (String.list_ascii_of_string a).

Lemma plain_step d m c (b : bool) : plain c -> depth_step {| sc_depth := d; sc_max := m; sc_in := b; sc_esc := false |} c
  = {| sc_depth := d; sc_max := m; sc_in := b; sc_esc := false |}.
Proof.
  intros (H1 & H2 & H3 & H4 & H5 & H6). unfold depth_step. cbn. rewrite !(proj2 (Ascii.eqb_neq c _)) by done. by destruct b.
Qed.

Lemma plain_skipped d m b a : plain_text a -> skipped {| sc_depth := d; sc_max := m; sc_in := b; sc_esc := false |} a.
Proof.
  unfold plain_text, skipped, depth_from. induction a as [|c a IH]; [done|]. cbn. intros [Hc Ha]%Forall_cons. rewrite plain_step by done. by apply IH.
Qed.

Lemma plain_app a b : plain_text a -> plain_text b -> plain_text (a +:+ b).
Proof. unfold plain_text. intros Ha Hb. induction a as [|c a IH]; [done|]. cbn in *. apply Forall_cons in Ha as [Hc Ha]. constructor; [done|by apply IH]. Qed.

Lemma plain_byte n : (35 <= n < 91)%N \/ (94 <= n < 123)%N \/ (126 <= n < 256)%N -> plain (ascii_of_N n).
Proof.
  intros Hn. assert (n < 256)%N as Hlt by lia.
  repeat split; intros E%(f_equal N_of_ascii); rewrite N_ascii_embedding in E by done; vm_compute in E; lia.
Qed.

Lemma plain_digits a : all_digits a = true -> plain_text a.
Proof.
  unfold plain_text. induction a as [|c a IH]; [done|]. cbn. intros [Hc Ha]%andb_true_iff. constructor; [|by apply IH].
  rewrite <- (ascii_N_embedding c). apply plain_byte. apply digit_bounds in Hc. unfold byte_of in Hc. lia.
Qed.

Lemma plain_substring n m a : plain_text a -> plain_text (String.substring n m a).
Proof.
  unfold plain_text. revert n m. induction a as [|c a IH]; intros [|n] [|m] Ha; try constructor; cbn in *; apply Forall_cons in Ha as [Hc Ha]; try done.
  - by apply IH.
  - by apply IH.
  - by apply IH.
Qed.

Lemma plain_repeat n : plain_text (repeat_char "0" n).
Proof. unfold plain_text. induction n; cbn; constructor; [by apply (plain_byte 48); left|done]. Qed.

Lemma plain_format_int z : plain_text (format_int z).
Proof.
  destruct (decide (0 <= z)%Z) as [Hz|Hz]; [by apply plain_digits, format_int_digits|].
  assert (format_int z = "-" +:+ format_int (- z)) as -> by (destruct z; [lia|lia|done]).
  apply plain_app; [constructor; [by apply (plain_byte 45); left|constructor]|]. apply plain_digits, format_int_digits. lia.
Qed.

(** ** Numbers *)

Lemma plain_exponent e : plain_text (exponent_digits e).
Proof.
  unfold exponent_digits, pad_zero. apply plain_app.
  - destruct (e <? 0)%Z; (constructor; [|constructor]); [by apply (plain_byte 45); left|by apply (plain_byte 43); left].
  - apply plain_app; [apply plain_repeat|apply plain_format_int].
Qed.

Lemma plain_cons c a : plain c -> plain_text a -> plain_text (String c a).
Proof. unfold plain_text. cbn. by constructor. Qed.

Lemma plain_sign (b : bool) : plain_text (if b then "-" else "").
Proof. destruct b; [apply plain_cons; [by apply (plain_byte 45); left|]|]; constructor. Qed.

Lemma plain_dot : plain ".".
Proof. apply (plain_byte 46). lia. Qed.

Lemma plain_fmt_e f : plain_text (f_digits f) -> plain_text (fmt_e f).
Proof.
  intros Hd. unfold fmt_e. apply plain_app; [apply plain_sign|]. apply plain_app.
  - destruct (f_digits f) as [|d [|x rest]]; [apply plain_cons; [by apply (plain_byte 48); left|constructor]|done|].
    unfold plain_text in Hd. cbn in Hd. apply Forall_cons in Hd as [Hc Hd]. apply plain_cons; [done|]. apply plain_cons; [apply plain_dot|done].
  - apply plain_cons; [apply (plain_byte 101); lia|apply plain_exponent].
Qed.

Lemma plain_fmt_f f : plain_text (f_digits f) -> plain_text (fmt_f f).
Proof.
  intros Hd. unfold fmt_f. apply plain_app; [apply plain_sign|]. apply plain_app.
  - destruct (0 <? f_point f)%Z; [apply plain_app; [by apply plain_substring|apply plain_repeat]|].
    apply plain_cons; [by apply (plain_byte 48); left|constructor].
  - destruct (_ <? _)%Z; [|constructor]. apply plain_cons; [apply plain_dot|]. apply plain_app; [apply plain_repeat|by apply plain_substring].
Qed.

Lemma plain_fmt_json f : all_digits (f_digits f) = true -> plain_text (fmt_json f).
Proof.
  intros Hd%plain_digits. unfold fmt_json. case_bool_decide; [by apply plain_fmt_f|].
  destruct (_ || _); [|by apply plain_fmt_f]. destruct (_ && _); [|by apply plain_fmt_e].
  apply plain_app; [by apply plain_substring, plain_fmt_e|apply plain_format_int].
Qed.

(** ** Strings *)

(** Bytes that mean nothing in a string. *)
Lemma inside_bytes d m l : Forall (fun b => b <> 34 /\ b <> 92 /\ b < 256)%N l -> skipped (inside d m) (of_bytes l).
Proof.
  unfold skipped, depth_from, of_bytes. rewrite String.list_ascii_of_string_of_list_ascii.
  induction 1 as [|b l (H1 & H2 & H3) Hl IH]; [done|]. cbn [fmap list_fmap foldl].
  assert (depth_step (inside d m) (ascii_of_N b) = inside d m) as ->; [|exact IH].
  unfold depth_step. cbn [inside sc_in sc_esc].
  rewrite !(proj2 (Ascii.eqb_neq _ _)); [done|..]; intros E%(f_equal N_of_ascii); rewrite N_ascii_embedding in E by done; vm_compute in E; lia.
Qed.

(** An escape: whatever follows the backslash means nothing. *)
Lemma inside_escape d m c s : skipped (inside d m) s -> skipped (inside d m) (String backslash (String c s)).
Proof. unfold skipped. rewrite !depth_from_cons. intros E. rewrite <- E at 2. by destruct (Ascii.eqb c backslash). Qed.

Lemma hex_digit_plain n : (n < 16)%N -> plain (hex_digit n).
Proof. intros Hn. unfold hex_digit. destruct (N.ltb_spec n 10); apply plain_byte; lia. Qed.

Lemma inside_hex4 d m n : (n < 65536)%N -> skipped (inside d m) (hex4 n).
Proof.
  intros Hn. unfold hex4. apply inside_escape, plain_skipped. unfold plain_text. cbn [String.list_ascii_of_string String.string_of_list_ascii].
  assert (n / 4096 < 16)%N by (apply N.Div0.div_lt_upper_bound; lia).
  repeat (apply Forall_cons; split); [apply hex_digit_plain; try (apply N.mod_upper_bound; lia)..|constructor]; done.
Qed.

Lemma inside_rune d m rb : raw_ok rb -> skipped (inside d m) (escape_rune rb).
Proof.
  intros Hraw. destruct rb as [r raw]. unfold escape_rune.
  assert (forall c, skipped (inside d m) (String backslash (String c ""))) as Hone by (intros c; by apply inside_escape).
  destruct (N.eqb_spec r 34) as [->|H34]; cbn [orb].
  { destruct Hraw as [(b & _ & [= <- ->])|[Hne Hraw]]; [apply Hone|]. destruct raw as [|b raw]; [done|]. apply Forall_cons in Hraw as [_ Hraw].
    cbn [fst snd] in *. apply inside_escape, inside_bytes. eapply Forall_impl; [exact Hraw|]. cbn. lia. }
  destruct (N.eqb_spec r 92) as [->|H92]; cbn [orb].
  { destruct Hraw as [(b & _ & [= <- ->])|[Hne Hraw]]; [apply Hone|]. destruct raw as [|b raw]; [done|]. apply Forall_cons in Hraw as [_ Hraw].
    cbn [fst snd] in *. apply inside_escape, inside_bytes. eapply Forall_impl; [exact Hraw|]. cbn. lia. }
  do 5 (case_match; [apply Hone|]).
  case_match eqn:E; [apply inside_hex4; rewrite !orb_true_iff, N.ltb_lt, !N.eqb_eq in E; lia|].
  case_match; [by apply inside_hex4|].
  case_match eqn:E2; [apply inside_hex4; rewrite orb_true_iff, !N.eqb_eq in E2; lia|].
  apply inside_bytes. destruct Hraw as [(b & Hb & [= <- ->])|[_ Hraw]]; [constructor; [lia|constructor]|].
  eapply Forall_impl; [exact Hraw|]. cbn. lia.
Qed.

Lemma skip_string d m s : skipped (outside d m) (json_string s).
Proof.
  unfold skipped, json_string. rewrite !depth_from_app. change (depth_from (outside d m) quote) with (inside d m).
  assert (skipped (inside d m) (String.concat "" (escape_rune <$> decode (bytes s)))) as ->; [|done].
  apply skipped_concat, Forall_fmap. eapply Forall_impl; [apply decode_raw, bytes_bound|]. intros rb. apply inside_rune.
Qed.

(** ** Nested values *)

(** A text of a value: it raises the maximum by its nesting. *)
Definition reaches (a : string) (n : Z) : Prop :=
  forall d m, (d <= m)%Z -> depth_from (outside d m) a = outside d (Z.max m (d + n)).

Lemma reaches_skipped a : (forall d m, skipped (outside d m) a) -> reaches a 0.
Proof. intros Ha d m Hd. rewrite (Ha d m). f_equal. lia. Qed.

Lemma foldr_max_shift {A} d m (f : A -> Z) l : (forall x, x ∈ l -> 0 <= f x)%Z -> (d < m)%Z ->
  foldr Z.max m ((fun x => d + 1 + f x)%Z <$> l) = Z.max m (d + (1 + foldr Z.max 0 (f <$> l)))%Z.
Proof.
  intros Hf Hd. induction l as [|x l IH]; cbn; [lia|]. rewrite IH by (intros y Hy; apply Hf; by right). specialize (Hf x ltac:(by left)). lia.
Qed.

(** A bracketed list of members. *)
Lemma reaches_bracket {A} (opening closing : ascii) (text : A -> string) (n : A -> Z) l :
  (opening = "{"%char /\ closing = "}"%char \/ opening = "["%char /\ closing = "]"%char) ->
  (forall x, x ∈ l -> reaches (text x) (n x) /\ (0 <= n x)%Z) ->
  reaches (String opening "" +:+ join "," (text <$> l) +:+ String closing "") (1 + foldr Z.max 0 (n <$> l))%Z.
Proof.
  intros Hb Hl d m Hd. rewrite !depth_from_app.
  assert (depth_from (outside d m) (String opening "") = outside (d + 1) (Z.max m (d + 1))) as -> by (destruct Hb as [[-> ->]|[-> ->]]; done).
  assert (forall e m', (e <= m')%Z -> depth_from (outside e m') (join "," (text <$> l)) = outside e (foldr Z.max m' ((fun x => e + n x)%Z <$> l))) as Hj.
  { clear Hd d m Hb. unfold join. induction l as [|x l IH]; intros e m' He; [done|].
    destruct (Hl x ltac:(by left)) as [Hx Hn]. specialize (IH (fun y Hy => Hl y ltac:(by right))).
    destruct l as [|y l]; [change (String.concat "," (text <$> [x])) with (text x); rewrite Hx by done; cbn; f_equal; lia|].
    change (String.concat "," (text <$> x :: y :: l)) with (text x +:+ ("," +:+ String.concat "," (text <$> y :: l))).
    rewrite !depth_from_app, Hx by done. change (depth_from (outside e (Z.max m' (e + n x))) ",") with (outside e (Z.max m' (e + n x))).
    rewrite IH by lia. f_equal. rewrite (fmap_cons _ x). cbn [foldr]. clear IH Hl.
    induction (y :: l) as [|z l' IH']; cbn [fmap list_fmap foldr]; [lia|]. cbn [fmap list_fmap] in IH'. rewrite IH'. lia. }
  rewrite Hj by lia. rewrite foldr_max_shift; [|intros x Hx; by apply Hl|lia].
  assert (0 <= foldr Z.max 0 (n <$> l))%Z as Hf by (clear; induction l; cbn; lia).
  assert (forall e m', depth_from (outside e m') (String closing "") = outside (e - 1) m') as -> by (intros e m'; destruct Hb as [[-> ->]|[-> ->]]; done).
  f_equal; lia.
Qed.

Lemma reaches_value v : numbers_ok v -> reaches (Marshal v) (nesting v).
Proof.
  induction v as [|b|f|s|l Hl|l Hl] using json_nested_ind; cbn [numbers_ok Marshal nesting]; intros Hn.
  - by apply reaches_skipped.
  - apply reaches_skipped. by destruct b.
  - apply reaches_skipped. intros d m. apply plain_skipped. by apply plain_fmt_json.
  - apply reaches_skipped. intros d m. apply skip_string.
  - apply (reaches_bracket "[" "]" Marshal nesting); [by right|]. intros x Hx. split; [|apply nesting_nonneg].
    rewrite Forall_forall in Hl. apply Hl; [done|]. clear Hl. induction l as [|y l IH]; [by apply elem_of_nil in Hx|].
    cbn in Hn. destruct Hn as [Hy Hn]. apply elem_of_cons in Hx as [->|Hx]; [done|by apply IH].
  - unfold json_object. rewrite <- list_fmap_compose.
    apply (reaches_bracket "{" "}" (fun kv => json_string kv.1 +:+ ":" +:+ Marshal kv.2) (fun kv => nesting kv.2)); [by left|].
    intros [k x] Hx. split; [|apply nesting_nonneg]. cbn [fst snd].
    assert (reaches (Marshal x) (nesting x)) as Hr.
    { rewrite Forall_forall in Hl. apply (Hl (k, x)); [done|]. clear Hl. induction l as [|y l IH]; [by apply elem_of_nil in Hx|].
      cbn in Hn. destruct Hn as [Hy Hn]. apply elem_of_cons in Hx as [<-|Hx]; [done|by apply IH]. }
    intros d m Hd. rewrite !depth_from_app, (skip_string d m k). change (depth_from (outside d m) ":") with (outside d m). by apply Hr.
Qed.

(** The depth the import limits is the real nesting: of the text of any
    value it is the number of brackets around the value's innermost part,
    whatever quotes, backslashes and brackets its strings and keys hold. *)
Theorem depth_is_nesting v (Hn : numbers_ok v) : depth (Marshal v) = nesting v.
Proof.
  unfold depth. change {| sc_depth := 0; sc_max := 0; sc_in := false; sc_esc := false |} with (outside 0 0).
  rewrite (reaches_value v Hn 0%Z 0%Z) by lia. cbn. pose proof (nesting_nonneg v). lia.
Qed.

Lemma depth_is_nesting_witness :
  depth (Marshal (JArr [JStr ("]" +:+ quote +:+ "{"); JObj [("[", JArr [JInt 12])]; JNull])) = 3%Z.
Proof. apply (depth_is_nesting (JArr [JStr ("]" +:+ quote +:+ "{"); JObj [("[", JArr [JInt 12])]; JNull])). repeat split. Defined.
