(* ===== verification/ImportsFacts.v ===== *)
(** * What the previews show

    A table is previewed as it was written, no record is dropped silently, an
    accepted JSON document is within its limits, and a Terraform preview depends
    on nothing outside the allowlist. *)
From S2P Require Import Prelude GoStrings GoNumbers GoJson GoCsv GoCsvFacts GoIo SecurityFacts Domain Reconcile Imports.
From Stdlib Require Import Ascii.
Open Scope string_scope.
Open Scope list_scope.

(** ** Reading *)

Lemma read_limited_ok r limit what raw : (0 <= limit < max_int64)%Z -> read_limited r limit what = Ok raw ->
  raw = content r /\ failure r = None /\ (len raw <= limit)%Z.
Proof.
  intros Hl. unfold read_limited, read_all.
  assert (wrap64 (limit + 1) = (limit + 1)%Z) as -> by (unfold wrap64, max_int64 in *; rewrite Z.mod_small; lia).
  destruct (Z.leb_spec (limit + 1) (len (content r))) as [Hle|Hlt].
  - intros (x & [= <-] & Hx)%bind_ok. revert Hx.
    assert (len (String.substring 0 (Z.to_nat (limit + 1)) (content r)) = (limit + 1)%Z) as -> by (unfold len in *; rewrite substring_length by lia; lia).
    rewrite (proj2 (Z.ltb_lt limit (limit + 1))) by lia. done.
  - intros (x & Hx & Hok)%bind_ok. destruct (failure r); [done|]. injection Hx as <-.
    destruct (Z.ltb_spec limit (len (content r))); [done|]. injection Hok as <-. split_and!; [done|done|lia].
Qed.

Lemma read_limited_content r limit what : (0 <= limit < max_int64)%Z -> failure r = None -> (len (content r) <= limit)%Z ->
  read_limited r limit what = Ok (content r).
Proof.
  intros Hl Hf Hlen. unfold read_limited, read_all.
  assert (wrap64 (limit + 1) = (limit + 1)%Z) as -> by (unfold wrap64, max_int64 in *; rewrite Z.mod_small; lia).
  rewrite (proj2 (Z.leb_gt _ _)), Hf by lia. cbn. by rewrite (proj2 (Z.ltb_ge _ _)).
Qed.

(** ** CSV *)

Section Rows.
Context `{UnicodeCase} (max_rows : Z) (indexes : gmap string nat).

(** What the loop adds: an asset or an error for each record. *)
Lemma import_rows_spec rows : forall row p p', import_rows max_rows indexes row p rows = Ok p' ->
  exists assets errors, Assets p' = Assets p ++ assets /\ Errors p' = Errors p ++ errors /\ Relationships p' = Relationships p /\
    assets = omap (fun r => match r with Ok record => row_asset indexes record | Err _ => None end) rows /\
    (length assets + length errors = length rows)%nat /\ (Z.of_nat (length assets) <= Z.max 0 (max_rows - row + 1))%Z.
Proof.
  induction rows as [|r rows IH]; intros row p p'; cbn [import_rows].
  { intros [= <-]. exists [], []. rewrite !app_nil_r. split_and!; cbn; try done; lia. }
  intros (p1 & H1 & (assets & errors & -> & -> & -> & -> & Hlen & Hmax)%IH)%bind_ok.
  unfold import_row in H1. destruct r as [record|e].
  - destruct (Z.ltb_spec max_rows row); [done|]. destruct (row_asset indexes record) as [a|] eqn:Ea; injection H1 as <-; cbn [Assets Errors Relationships].
    + eexists (a :: _), errors. split_and!; [by rewrite <- app_assoc|done|done|cbn; by rewrite Ea|cbn; lia|cbn; lia].
    + eexists _, (_ :: errors). split_and!; [done|by rewrite <- app_assoc|done|cbn; by rewrite Ea|cbn; lia|lia].
  - injection H1 as <-. cbn [Assets Errors Relationships]. eexists _, (_ :: errors). split_and!; [done|by rewrite <- app_assoc|done|done|cbn; lia|lia].
Qed.

Lemma import_rows_ok rows : forall row p, (row + Z.of_nat (length rows) <= max_rows + 1)%Z -> exists p',
  import_rows max_rows indexes row p (Ok <$> rows) = Ok p'.
Proof.
  induction rows as [|r rows IH]; intros row p Hr; [by eexists|]. cbn [fmap list_fmap import_rows import_row length] in *.
  rewrite (proj2 (Z.ltb_ge _ _)) by lia. destruct (row_asset indexes r); cbn [mbind]; apply IH; lia.
Qed.

(** Records that do not parse are not counted against the limit. *)
Lemma bad_rows_pass_the_limit es : forall row p, exists p',
  import_rows max_rows indexes row p (Err <$> es) = Ok p' /\ length (Errors p') = (length (Errors p) + length es)%nat.
Proof.
  induction es as [|e es IH]; intros row p; [exists p; cbn; by rewrite Nat.add_0_r|]. cbn [fmap list_fmap import_rows import_row].
  edestruct IH as (p' & E & Hl). exists p'. split; [exact E|]. rewrite Hl. cbn. rewrite length_app. cbn. lia.
Qed.

Lemma row_asset_type record a : row_asset indexes record = Some a -> known_type (o_type a) = true.
Proof. unfold row_asset. destruct (known_type _) eqn:E; [|done]. by intros [= <-]. Qed.

End Rows.

Definition csv_limit (l : Limits) : Z := or_default (MaxBytes l) (Z.shiftl 10 20).
Definition row_limit (l : Limits) : Z := or_default (MaxRows l) 10000.
Definition sane (l : Limits) : Prop := (MaxBytes l < max_int64)%Z.

Lemma csv_limit_sane l : sane l -> (0 <= csv_limit l < max_int64)%Z.
Proof. unfold sane, csv_limit, or_default, max_int64. change (Z.shiftl 10 20) with 10485760%Z. intros. destruct (Z.leb_spec (MaxBytes l) 0); lia. Qed.

Lemma CSV_inv `{UnicodeCase} r l p : CSV r l = Ok p -> sane l -> exists header rows,
  failure r = None /\ (len (content r) <= csv_limit l)%Z /\ utf8_valid (content r) = true /\
  csv_records (content r) = Ok header :: rows /\ Forall (fun c => is_Some (indexes_of header !! c)) required_columns /\
  import_rows (row_limit l) (indexes_of header) 1 no_preview rows = Ok p.
Proof.
  unfold CSV. intros (raw & Hraw & Hok)%bind_ok Hl. apply read_limited_ok in Hraw as (-> & Hf & Hlen); [|by apply csv_limit_sane].
  destruct (utf8_valid (content r)) eqn:Hu; [|done]. destruct (csv_records (content r)) as [|[header|] rows]; [done| |done]. cbn [negb] in Hok.
  destruct (find _ _) eqn:Hfind; [done|]. exists header, rows. split_and!; try done.
  apply Forall_forall. intros c Hc. destruct (indexes_of header !! c) eqn:E; [done|].
  apply list_elem_of_In in Hc. pose proof (find_none _ _ Hfind c Hc) as Hn. cbn in Hn. by rewrite bool_decide_true in Hn.
Qed.

(** ** Terraform *)

Lemma allowed_not_sensitive : forallb (fun k => negb (sensitiveName k)) terraformAllow = true.
Proof. vm_compute. reflexivity. Qed.

(** What of an instance may be seen: its allow-listed attributes. *)
Definition allowed (attributes : gmap string (option json)) : gmap string json :=
  omap id (filter (fun kv => kv.1 ∈ terraformAllow) attributes).

Lemma keep_attribute_spec st k v : keep_attribute st (k, v) =
  match (if decide (k ∈ terraformAllow) then v else None) with
  | None => st
  | Some value => (<[k := value]> st.1, if decide (k = "id") then <["terraform_resource_id" := JStr (Sprint value)]> st.2 else st.2)
  end.
Proof.
  destruct st as [attrs hints]. unfold keep_attribute. case_bool_decide as Hk; cbn [negb orb].
  - rewrite decide_True by done. pose proof (proj1 (forallb_forall _ _) allowed_not_sensitive k ltac:(by apply list_elem_of_In)) as Hs.
    apply negb_true_iff in Hs. rewrite Hs. destruct v; [|done]. cbn. case_bool_decide; [by rewrite decide_True|by rewrite decide_False].
  - by rewrite decide_False.
Qed.

Lemma allowed_lookup m k : allowed m !! k = if decide (k ∈ terraformAllow) then (m !! k) ≫= id else None.
Proof.
  unfold allowed. rewrite lookup_omap, map_lookup_filter. destruct (m !! k) as [v|]; cbn; [|by case_decide].
  unfold guard. case_decide; done.
Qed.

(** The loop over the attributes, in any order. *)
Lemma keep_attributes l : NoDup l.*1 -> forall attrs hints, (forall k, k ∈ terraformAllow -> attrs !! k = None) ->
  foldl keep_attribute (attrs, hints) l =
  (allowed (list_to_map l) ∪ attrs,
   match allowed (list_to_map l) !! "id" with Some v => <["terraform_resource_id" := JStr (Sprint v)]> hints | None => hints end).
Proof.
  assert (forall (l : list (string * option json)) k, k ∉ l.*1 -> allowed (list_to_map l) !! k = None) as Hnot.
  { intros l' k Hk. rewrite allowed_lookup, not_elem_of_list_to_map_1 by done. by case_decide. }
  induction l as [|[k v] l IH] using rev_ind; intros Hnd attrs hints Ha.
  { cbn. assert (allowed ∅ = ∅) as -> by (unfold allowed; by rewrite map_filter_empty, omap_empty). rewrite lookup_empty. by rewrite (left_id_L ∅ _). }
  rewrite fmap_app, NoDup_app in Hnd. destruct Hnd as (Hnd & Hk & _). assert (k ∉ l.*1) as Hk' by (intros Hin; apply (Hk k Hin); by left).
  rewrite foldl_app, IH by done. cbn [foldl]. rewrite keep_attribute_spec.
  assert (allowed (list_to_map (l ++ [(k, v)])) = match (if decide (k ∈ terraformAllow) then v else None) with
    None => allowed (list_to_map l) | Some value => <[k := value]> (allowed (list_to_map l)) end) as Hal.
  { apply map_eq. intros j. rewrite allowed_lookup, list_to_map_app, lookup_union. cbn [list_to_map foldr fst snd].
    destruct (decide (j = k)) as [->|Hj].
    - rewrite (not_elem_of_list_to_map_1 l k), lookup_insert_eq by done. cbn.
      destruct (decide (k ∈ terraformAllow)); [|by rewrite Hnot]. destruct v; cbn; [by rewrite lookup_insert_eq|by rewrite Hnot].
    - rewrite lookup_insert_ne by congruence. rewrite lookup_empty, (right_id_L None (∪)).
      destruct (if decide (k ∈ terraformAllow) then v else None); [rewrite lookup_insert_ne by congruence|]; by rewrite allowed_lookup. }
  rewrite Hal. destruct (decide (k ∈ terraformAllow)) as [Hin|]; [|done]. destruct v as [value|]; [|done]. cbn [fst snd].
  f_equal; [by rewrite insert_union_l|]. destruct (decide (k = "id")) as [->|Hid].
  - rewrite lookup_insert_eq, (Hnot l "id") by done. done.
  - by rewrite lookup_insert_ne.
Qed.

Lemma keep_attributes_range `{RangeOrder} site m attrs hints : (forall k, k ∈ terraformAllow -> attrs !! k = None) ->
  foldl keep_attribute (attrs, hints) (range site m) =
  (allowed m ∪ attrs, match allowed m !! "id" with Some v => <["terraform_resource_id" := JStr (Sprint v)]> hints | None => hints end).
Proof.
  intros Ha. assert (NoDup (range site m).*1) as Hnd by (rewrite (range_perm site m); apply NoDup_fst_map_to_list).
  rewrite keep_attributes by done. rewrite (list_to_map_proper _ _ Hnd (range_perm site m)), list_to_map_to_list. done.
Qed.

(** An instance's asset, from its allowed attributes. *)
Definition visible_asset (typ name provider : string) (i : nat) (m : gmap string json) : Observation :=
  let hint := match m !! "id" with Some v => Sprint v | None => typ +:+ "." +:+ name +:+ "[" +:+ nat_digits i +:+ "]" end in
  imported hint CloudResource
    (m ∪ {["terraform_address" := JStr (typ +:+ "." +:+ name); "terraform_type" := JStr typ; "provider" := JStr provider]})
    {["terraform_resource_id" := JStr hint]}.

Lemma instance_asset_visible `{RangeOrder} r site i m :
  instance_asset r site i m = visible_asset (Type_ r) (Name r) (Provider r) i (allowed m).
Proof.
  unfold instance_asset, visible_asset. rewrite keep_attributes_range.
  - unfold address. rewrite !string_app_assoc. destruct (allowed m !! "id"); [by rewrite insert_singleton_eq, lookup_singleton_eq|by rewrite lookup_singleton_eq].
  - apply Forall_forall. repeat constructor; reflexivity.
Qed.

(** What of a state may be seen. *)
Definition visible (s : terraformState) : list (string * string * string * list (gmap string json)) :=
  (fun r => (Type_ r, Name r, Provider r, allowed <$> instances_of r)) <$> filter (fun r => Mode r = "managed") (default [] (Resources s)).

Lemma state_assets_visible `{RangeOrder} rs : forall site,
  state_assets site rs = ((fun r => (Type_ r, Name r, Provider r, allowed <$> instances_of r)) <$> filter (fun r => Mode r = "managed") rs)
    ≫= fun v => imap (visible_asset v.1.1.1 v.1.1.2 v.1.2) v.2.
Proof.
  induction rs as [|r rs IH]; intros site; [done|]. cbn [state_assets]. rewrite IH, filter_cons. unfold resource_assets.
  case_bool_decide; [rewrite decide_True by done|by rewrite decide_False]. rewrite fmap_cons, bind_cons. f_equal. cbn [fst snd].
  rewrite imap_fmap. apply imap_ext. intros i m _. apply instance_asset_visible.
Qed.

Lemma Terraform_inv `{RangeOrder, UnicodeCase} r max p : Terraform r max = Ok p -> (max < max_int64)%Z -> exists s,
  read_state (content r) = Some s /\ (len (content r) <= or_default max (Z.shiftl 50 20))%Z /\
  p = {| Assets := state_assets 0 (default [] (Resources s)); Relationships := []; Errors := [] |}.
Proof.
  unfold Terraform. intros (raw & Hraw & Hok)%bind_ok Hmax.
  apply read_limited_ok in Hraw as (-> & _ & Hlen).
  - destruct (read_state (content r)) as [s|]; [|done]. injection Hok as <-. by exists s.
  - unfold or_default, max_int64 in *. change (Z.shiftl 50 20) with 52428800%Z. destruct (Z.leb_spec max 0); lia.
Qed.

(** ** Theorems *)

(** No record disappears: of an accepted CSV file, whatever its bytes,
    every record after the header is an asset or an error of the preview; the
    assets are those of the well-formed records in order, at most as many as
    the row limit, each of a known type; and the file was within the byte
    limit, valid UTF-8, and named the required columns. *)
Theorem csv_accounts_for_every_row `{UnicodeCase} r l p (Hok : CSV r l = Ok p) (Hl : sane l) :
  exists header rows, csv_records (content r) = Ok header :: rows /\
    (length (Assets p) + length (Errors p) = length rows)%nat /\ Relationships p = [] /\
    Assets p = omap (fun row => match row with Ok record => row_asset (indexes_of header) record | Err _ => None end) rows /\
    (Z.of_nat (length (Assets p)) <= Z.max 0 (row_limit l))%Z /\
    Forall (fun a => known_type (o_type a) = true) (Assets p) /\
    (len (content r) <= csv_limit l)%Z /\ utf8_valid (content r) = true /\
    Forall (fun c => is_Some (indexes_of header !! c)) required_columns.
Proof.
  destruct (CSV_inv r l p Hok Hl) as (header & rows & _ & Hlen & Hu & Hrec & Hreq & Hrows). exists header, rows.
  apply import_rows_spec in Hrows as (assets & errors & -> & -> & -> & -> & Hn & Hmax). cbn [no_preview Assets Errors Relationships app] in *.
  split_and!; try done; [lia|]. apply Forall_forall. intros a ([record|e] & _ & Ha)%list_elem_of_omap; [|done]. by eapply row_asset_type.
Qed.

(** C39. A table is previewed as it was written: rows of one width, written with
    quoted fields that hold any text but carriage returns (commas, quotes and
    line breaks included), read back field by field, so that the preview's
    assets are the rows' in order and its errors one for each row of an unknown
    type. *)
Theorem csv_previews_the_table `{UnicodeCase} header rows l
    (Hwidth : Forall (fun row => length row = length header) rows) (Hfree : Forall (Forall (free_of cr)) (header :: rows))
    (Hreq : Forall (fun c => is_Some (indexes_of header !! c)) required_columns)
    (Hsize : (len (csv_table (header :: rows)) <= csv_limit l)%Z) (Hl : sane l)
    (Hutf8 : utf8_valid (csv_table (header :: rows)) = true) (Hrows : (Z.of_nat (length rows) <= row_limit l)%Z) :
  exists p, CSV {| content := csv_table (header :: rows); failure := None |} l = Ok p /\
    Assets p = omap (row_asset (indexes_of header)) rows /\ (length (Assets p) + length (Errors p) = length rows)%nat.
Proof.
  unfold CSV. fold (csv_limit l) (row_limit l). rewrite read_limited_content by (try apply csv_limit_sane; done).
  cbn [mbind result_bind content]. rewrite Hutf8. cbn [negb]. rewrite (csv_records_table (length header)); [|destruct header as [|]; [|cbn; lia]|by constructor|done].
  2:{ apply Forall_cons in Hreq as [[i Hi] _]. done. }
  cbn [fmap list_fmap]. destruct (find _ _) as [c|] eqn:Hfind.
  { apply find_some in Hfind as [Hc%list_elem_of_In Hn%bool_decide_eq_true]. rewrite Forall_forall in Hreq. destruct (Hreq c Hc) as [i Hi]. congruence. }
  destruct (import_rows_ok (row_limit l) (indexes_of header) rows 1 no_preview ltac:(lia)) as [p Hp]. exists p. split; [exact Hp|].
  apply import_rows_spec in Hp as (assets & errors & -> & -> & _ & -> & Hn & _). cbn [no_preview Assets Errors app] in *. split; [|by rewrite length_fmap in Hn].
  clear. induction rows as [|row rows IH]; [done|]. cbn. destruct (row_asset _ row); by rewrite IH.
Qed.

(** C38. A Terraform preview tells nothing beyond the allowlist: two states that
    agree on the managed resources' types, names, providers and allow-listed
    attributes have the same preview, whatever their other attributes, their
    data sources and their outputs, in every iteration order of their maps; and
    the attributes of its assets have allow-listed names or the three the
    import adds. *)
Theorem terraform_minimises_data `{UnicodeCase} (O1 O2 : RangeOrder) r1 r2 max p1 p2
    (H1 : @Terraform O1 _ r1 max = Ok p1) (H2 : @Terraform O2 _ r2 max = Ok p2) (Hmax : (max < max_int64)%Z) :
  exists s1 s2, read_state (content r1) = Some s1 /\ read_state (content r2) = Some s2 /\
    (visible s1 = visible s2 -> p1 = p2) /\
    forall a k, a ∈ Assets p1 -> is_Some (attrs a !! k) -> k ∈ ["terraform_address"; "terraform_type"; "provider"] ++ terraformAllow.
Proof.
  destruct (Terraform_inv r1 max p1 H1 Hmax) as (s1 & D1 & _ & ->). destruct (Terraform_inv r2 max p2 H2 Hmax) as (s2 & D2 & _ & ->).
  exists s1, s2. split_and!; [done|done| |].
  - unfold visible. intros E. f_equal. by rewrite !state_assets_visible, E.
  - intros a k. cbn [Assets]. rewrite state_assets_visible. intros (v & Ha & Hv)%list_elem_of_bind Hk.
    apply elem_of_lookup_imap in Ha as (i & m & -> & Hm). apply list_elem_of_fmap in Hv as (r & -> & _). cbn [fst snd] in *.
    apply list_elem_of_lookup_2, list_elem_of_fmap in Hm as (m' & -> & _).
    unfold visible_asset, attrs, imported in Hk. cbn [o_attributes default] in Hk. unfold id in Hk. rewrite lookup_union in Hk.
    apply elem_of_app. destruct (allowed m' !! k) eqn:E.
    + right. rewrite allowed_lookup in E. by case_decide.
    + left. rewrite (left_id_L None _) in Hk. destruct Hk as [x Hk].
      repeat (apply lookup_insert_Some in Hk as [[<- _]|[_ Hk]]; [set_solver|]). apply lookup_singleton_Some in Hk as [<- _]. set_solver.
Qed.

(** What a JSON preview accepts: a document within the limits of bytes,
    nesting and items, whose assets all have an external identifier and a known
    type; they are shown as they were decoded. *)
Theorem json_preview_within_limits `{UnicodeCase} json_error r l p (Hok : JSON json_error r l = Ok p) (Hl : sane l) :
  (exists d, decode_document json_error (content r) = Ok d /\ Assets p = default [] (jd_assets d) /\
    Relationships p = default [] (jd_relationships d)) /\ Errors p = [] /\ failure r = None /\
  (len (content r) <= csv_limit l)%Z /\ (depth (content r) <= or_default (MaxDepth l) 16)%Z /\
  (Z.of_nat (length (Assets p) + length (Relationships p)) <= or_default (MaxItems l) 10000)%Z /\
  Forall (fun a => o_external a <> "" /\ known_type (o_type a) = true) (Assets p).
Proof.
  unfold JSON in Hok. apply bind_ok in Hok as (raw & Hraw & Hok). fold (csv_limit l) in Hraw.
  apply read_limited_ok in Hraw as (-> & Hf & Hlen); [|by apply csv_limit_sane].
  destruct (Z.ltb_spec (or_default (MaxDepth l) 16) (depth (content r))); [done|]. destruct (decode_document _ _) as [d|] eqn:Hd; [|done].
  cbn zeta in Hok. destruct (Z.ltb_spec (or_default (MaxItems l) 10000)
    (Z.of_nat (length (default [] (jd_assets d)) + length (default [] (jd_relationships d))))); [done|].
  apply bind_ok in Hok as ([] & Hall & [= <-]). split_and!; try done; [by exists d|].
  cbn [Assets]. clear - Hall. induction (default [] (jd_assets d)) as [|a assets IH]; [constructor|]. cbn [foldM] in Hall. apply bind_ok in Hall as ([] & Ha & Hall).
  case_bool_decide; [done|]. destruct (known_type (o_type a)) eqn:E; [|done]. constructor; [done|by apply IH].
Qed.

(** ** Limits of the previews *)

(** Rows that do not parse are not counted against the row limit. *)
Lemma bad_rows_exceed_the_row_limit `{UnicodeCase} r l header es :
  sane l -> failure r = None -> (len (content r) <= csv_limit l)%Z -> utf8_valid (content r) = true ->
  csv_records (content r) = Ok header :: (Err <$> es) -> Forall (fun c => is_Some (indexes_of header !! c)) required_columns ->
  exists p, CSV r l = Ok p /\ length (Errors p) = length es.
Proof.
  intros Hl Hf Hlen Hu Hrec Hreq. unfold CSV. fold (csv_limit l) (row_limit l). rewrite read_limited_content by (try apply csv_limit_sane; done).
  cbn [mbind result_bind]. rewrite Hu, Hrec. cbn [negb]. destruct (find _ _) as [c|] eqn:Hfind.
  { apply find_some in Hfind as [Hc%list_elem_of_In Hn%bool_decide_eq_true]. rewrite Forall_forall in Hreq. destruct (Hreq c Hc) as [i Hi]. congruence. }
  destruct (bad_rows_pass_the_limit (row_limit l) (indexes_of header) es 1 no_preview) as (p & Hp & Hn). by exists p.
Qed.

(** An [id] that is null names its resource [<nil>], and a number is written the
    way floats are. *)
Lemma null_ids_collide typ name provider typ' name' provider' i j m m' : m !! "id" = Some JNull -> m' !! "id" = Some JNull ->
  o_external (visible_asset typ name provider i m) = o_external (visible_asset typ' name' provider' j m').
Proof. intros E E'. unfold visible_asset. by rewrite E, E'. Qed.

Example numeric_id : o_external (visible_asset "t" "n" "p" 0 {["id" := JInt 12345678]}) = "1.2345678e+07".
Proof. reflexivity. Qed.

(** Names inside [tags] and [labels] are not looked at. *)
Example nested_secret_kept : attrs (visible_asset "t" "n" "p" 0 (allowed {["tags" := Some (JObj [("db_password", JStr "leak")])]})) !! "tags"
  = Some (JObj [("db_password", JStr "leak")]).
Proof. reflexivity. Qed.

(** No spreadsheet takes the cell for a formula. *)
Lemma SafeCSVCell_spec v : (forall c rest, SafeCSVCell v = String c rest -> c ∉ formula_bytes) /\ (SafeCSVCell v = v \/ SafeCSVCell v = "'" +:+ v).
Proof.
  destruct v as [|c v]; [by split; [|left]|]. cbn. case_bool_decide as Hc.
  - split; [|by right]. intros d rest [= <- _]. set_solver.
  - split; [|by left]. by intros d rest [= <- _].
Qed.

(** ** Examples *)

Definition small_limits : Limits := {| MaxBytes := 1024; MaxItems := 10; MaxDepth := 4; MaxRows := 10 |}.
Definition small_header : list string := ["external_id"; "Asset_Type "; "name"; "environment"].
Definition small_table : list (list string) := [["a"; "application"; "ERP, main"; "staging"]; ["b"; "toaster"; "x" +:+ quote +:+ "y"; ""]].
Definition small_csv : Reader := {| content := csv_table (small_header :: small_table); failure := None |}.

Lemma small_columns : Forall (fun c => is_Some (indexes_of small_header !! c)) required_columns.
Proof. repeat constructor; eexists; vm_compute; reflexivity. Qed.

Lemma csv_previews_the_table_witness : exists p, @CSV ascii_case small_csv small_limits = Ok p /\ length (Assets p) = 1%nat /\ length (Errors p) = 1%nat.
Proof.
  destruct (@csv_previews_the_table ascii_case small_header small_table small_limits) as (p & Hp & Ha & Hn).
  - repeat (constructor; [reflexivity|]). constructor.
  - unfold free_of. apply (bool_decide_unpack _). vm_compute. exact I.
  - exact small_columns.
  - vm_compute. discriminate.
  - reflexivity.
  - vm_compute. reflexivity.
  - vm_compute. discriminate.
  - exists p. split; [exact Hp|]. assert (length (Assets p) = 1%nat) as E by (rewrite Ha; vm_compute; reflexivity). split; [exact E|].
    rewrite E in Hn. cbn in Hn. lia.
Defined.

Lemma csv_accounts_for_every_row_witness : exists p, @CSV ascii_case small_csv small_limits = Ok p /\ (length (Assets p) + length (Errors p) = 2)%nat.
Proof.
  destruct (@CSV ascii_case small_csv small_limits) as [p|e] eqn:E; [|exfalso; revert E; vm_compute; discriminate].
  exists p. split; [reflexivity|].
  destruct (@csv_accounts_for_every_row ascii_case small_csv small_limits p E ltac:(reflexivity)) as (header & rows & Hrec & Hn & _).
  rewrite Hn. revert Hrec. replace (csv_records (content small_csv)) with (Ok (E := CsvError) <$> (small_header :: small_table)) by (vm_compute; reflexivity).
  intros [= _ <-]. reflexivity.
Defined.

(** Two state files: with a secret, a data source and outputs, and without. *)
Definition q (s : string) : string := quote +:+ s +:+ quote.
Definition state_file (extra more outputs : string) : Reader :=
  {| content := "{" +:+ q "resources" +:+ ":[{" +:+ q "mode" +:+ ":" +:+ q "managed" +:+ "," +:+ q "type" +:+ ":" +:+ q "aws_instance" +:+ ","
       +:+ q "name" +:+ ":" +:+ q "app" +:+ "," +:+ q "instances" +:+ ":[{" +:+ q "attributes" +:+ ":{" +:+ extra +:+ q "id" +:+ ":" +:+ q "i-1" +:+ ","
       +:+ q "tags" +:+ ":{" +:+ q "env" +:+ ":" +:+ q "prod" +:+ "}}}]}" +:+ more +:+ "]" +:+ outputs +:+ "}"; failure := None |}.
Definition leaking_state : Reader :=
  state_file (q "password" +:+ ":" +:+ q "leak" +:+ ",") (",{" +:+ q "mode" +:+ ":" +:+ q "data" +:+ "}")
    ("," +:+ q "outputs" +:+ ":{" +:+ q "pw" +:+ ":{" +:+ q "sensitive" +:+ ":true," +:+ q "value" +:+ ":" +:+ q "leak" +:+ "}}").
Definition clean_state : Reader := state_file "" "" "".

Lemma terraform_minimises_data_witness : exists p1 p2,
  @Terraform sorted_range ascii_case leaking_state 4096 = Ok p1 /\
  @Terraform reverse_range ascii_case clean_state 4096 = Ok p2 /\ p1 = p2 /\ length (Assets p1) = 1%nat.
Proof.
  destruct (@Terraform sorted_range ascii_case leaking_state 4096) as [p1|e] eqn:E1; [|exfalso; revert E1; vm_compute; discriminate].
  destruct (@Terraform reverse_range ascii_case clean_state 4096) as [p2|e] eqn:E2; [|exfalso; revert E2; vm_compute; discriminate].
  exists p1, p2. split; [reflexivity|]. split; [reflexivity|]. split.
  - destruct (@terraform_minimises_data ascii_case sorted_range reverse_range leaking_state clean_state 4096 p1 p2 E1 E2 ltac:(reflexivity))
      as (s1 & s2 & D1 & D2 & E & _). apply E.
    assert (visible <$> @read_state ascii_case (content leaking_state) = visible <$> @read_state ascii_case (content clean_state)) as Hv
      by (vm_compute; reflexivity).
    rewrite D1, D2 in Hv. injection Hv as Hv. exact Hv.
  - revert E1. vm_compute. intros [= <-]. reflexivity.
Defined.

Definition small_document : Reader :=
  {| content := "{" +:+ q "assets" +:+ ":[{" +:+ q "externalId" +:+ ":" +:+ q "a" +:+ "," +:+ q "AssetType" +:+ ":" +:+ q "APPLICATION" +:+ "}]}"; failure := None |}.

Lemma json_preview_within_limits_witness : exists p, @JSON ascii_case id small_document small_limits = Ok p /\
  Forall (fun a => o_external a <> "" /\ known_type (o_type a) = true) (Assets p) /\ length (Assets p) = 1%nat.
Proof.
  destruct (@JSON ascii_case id small_document small_limits) as [p|e] eqn:E; [|exfalso; revert E; vm_compute; discriminate].
  exists p. split; [reflexivity|]. split.
  - refine (let '(conj _ (conj _ (conj _ (conj _ (conj _ (conj _ H)))))) := @json_preview_within_limits ascii_case id small_document small_limits p E _ in H).
    reflexivity.
  - revert E. vm_compute. intros [= <-]. reflexivity.
Defined.
