(* ===== verification/Storage.v ===== *)
(** * Object storage ([internal/storage/storage.go])

    [Local] keeps objects as files below a root directory: the file system is a
    map from absolute paths to nodes, and every system call may fail. [S3] calls
    a client, which is a parameter. Paths are those of a Unix system. *)
From S2P Require Import Prelude GoStrings GoNumbers GoJson GoHash GoIo.
From Stdlib Require Import Ascii.
Open Scope string_scope.
Open Scope list_scope.

Record Object := { Key : string; ContentHash : string; Size : Z; MediaType : string }.

(** ** Paths *)

Definition slash : ascii := "/"%char.

(** The names between slashes. *)
Definition components (s : string) : list string := filter (fun c => c <> "") (split_on slash s).

(** [filepath.Clean] of an absolute path. *)
Definition clean_step (acc : list string) (c : string) : list string :=
  if bool_decide (c = ".") then acc else if bool_decide (c = "..") then removelast acc else acc ++ [c].

Definition clean (s : string) : list string := foldl clean_step [] (components s).

Definition path_of (l : list string) : string := "/" +:+ join "/" l.

Definition is_abs (s : string) : bool := has_prefix s "/".

(** [filepath.Rel] of two clean absolute paths. *)
Fixpoint drop_common (base target : list string) : list string * list string :=
  match base, target with
  | b :: base', t :: target' => if bool_decide (b = t) then drop_common base' target' else (base, target)
  | _, _ => (base, target)
  end.

Definition rel (base target : list string) : string :=
  if bool_decide (base = target) then "." else
  let '(up, down) := drop_common base target in
  join "/" (replicate (length up) ".." ++ down).

(** ** The file system *)

Inductive Node := Folder | File (content : string).

#[export] Instance node_eq_dec : EqDecision Node.
Proof. solve_decision. Defined.

Abbreviation FS := (gmap (list string) Node) (only parsing).

(** What may go wrong in a call of [Put]; [mkdir_fault] and [copy_fault] say how
    many directories were made and how many bytes were written before. *)
Record Faults := {
  mkdir_fault : option (nat * string); create_fault : option string; copy_fault : option (nat * string);
  close_fault : option string; rename_fault : option string; remove_fault : option string }.

Definition no_faults : Faults :=
  {| mkdir_fault := None; create_fault := None; copy_fault := None; close_fault := None; rename_fault := None; remove_fault := None |}.

Definition fails (f : option string) : result string unit := match f with Some e => Err e | None => Ok tt end.

(** [os.MkdirAll]: the directories on the way, from the top. *)
Fixpoint mkdir_from (fs : FS) (done_ rest : list string) : result string FS :=
  match rest with
  | [] => Ok fs
  | c :: rest' =>
      let here := done_ ++ [c] in
      match fs !! here with
      | Some (File _) => Err "not a directory"
      | Some Folder => mkdir_from fs here rest'
      | None => mkdir_from (<[here := Folder]> fs) here rest'
      end
  end.

Definition mkdir_all (fs : FS) (p : list string) : result string FS := mkdir_from fs [] p.

Definition make_folders (f : option (nat * string)) (fs : FS) (p : list string) : FS * option string :=
  match f with
  | Some (k, e) => (match mkdir_all fs (take k p) with Ok fs => fs | Err _ => fs end, Some e)
  | None => match mkdir_all fs p with Ok fs => (fs, None) | Err e => (fs, Some e) end
  end.

(** The root of the file system is a directory. *)
Definition is_folder (fs : FS) (p : list string) : bool := bool_decide (p = []) || bool_decide (fs !! p = Some Folder).

Definition create_excl (fs : FS) (p : list string) : result string FS :=
  if negb (is_folder fs (removelast p)) then Err "no such file or directory" else
  match fs !! p with Some _ => Err "file exists" | None => Ok (<[p := File ""]> fs) end.

Definition rename (fs : FS) (old new : list string) : result string FS :=
  match fs !! old with
  | None => Err "no such file or directory"
  | Some n => if is_folder fs new then Err "file exists" else Ok (<[new := n]> (delete old fs))
  end.

Definition empty_folder (fs : FS) (p : list string) : bool :=
  forallb (fun kv => negb (bool_decide (removelast kv.1 = p /\ kv.1 <> []))) (map_to_list fs).

Definition remove (fs : FS) (p : list string) : result string FS :=
  match fs !! p with
  | None => Err "no such file or directory"
  | Some Folder => if empty_folder fs p then Ok (delete p fs) else Err "directory not empty"
  | Some (File _) => Ok (delete p fs)
  end.

(** ** [Local] *)

Record Local := { root : list string }.

(** [cwd] is the working directory, when there is one. *)
Definition NewLocal (cwd : option string) (fs : FS) (r : string) : result string (Local * FS) :=
  let abs := if is_abs r then Some (clean r) else (fun d => clean (d +:+ "/" +:+ r)) <$> cwd in
  match abs with
  | None => Err "getwd: no such file or directory"
  | Some p => fs ← mkdir_all fs p; Ok ({| root := p |}, fs)
  end.

Definition file (l : Local) (key : string) : result string (list string) :=
  if bool_decide (key = "") || contains_sub key ".." || is_abs key then Err "invalid object key" else
  let p := clean (path_of (root l) +:+ "/" +:+ key) in
  if has_prefix (rel (root l) p) ".." then Err "object key escapes storage root" else Ok p.

(** The file a path's object is written to first. *)
Definition pending (p : list string) : list string := removelast p ++ [default "" (last p) +:+ ".pending"].

(** What [io.Copy] writes of a reader through [io.LimitReader], and its error. *)
Definition copied (r : Reader) (size : Z) (f : option (nat * string)) : string * option string :=
  let n := Z.to_nat (wrap64 (size + 1)) in
  let c := String.substring 0 n (content r) in
  match f with
  | Some (k, e) => (String.substring 0 k c, Some e)
  | None => (c, if (n <=? String.length (content r))%nat then None else failure r)
  end.

(** The first error of lines 65-75 before the rename. *)
Definition put_error (size : Z) (c : string) (copy close : option string) : option string :=
  match copy with Some e => Some e | None =>
  match close with Some e => Some e | None =>
    if (len c =? size)%Z then None
    else Some ("object size mismatch: expected " +:+ format_int size +:+ " got " +:+ format_int (len c)) end end.

Definition Put (f : Faults) (l : Local) (fs : FS) (key : string) (r : Reader) (size : Z) (media : string) : FS * result string Object :=
  match file l key with
  | Err e => (fs, Err e)
  | Ok p =>
      match make_folders (mkdir_fault f) fs (removelast p) with
      | (fs, Some e) => (fs, Err e)
      | (fs, None) =>
          let tmp := pending p in
          match (_ ← fails (create_fault f); create_excl fs tmp) with
          | Err e => (fs, Err e)
          | Ok fs =>
              let '(c, copy_error) := copied r size (copy_fault f) in
              let fs := <[tmp := File c]> fs in
              let renamed := match put_error size c copy_error (close_fault f) with
                | Some e => Err e
                | None => _ ← fails (rename_fault f); rename fs tmp p
                end in
              match renamed with
              | Ok fs => (fs, Ok {| Key := key; ContentHash := hex_encode (sha256 c); Size := len c; MediaType := media |})
              | Err e => (match (_ ← fails (remove_fault f); remove fs tmp) with Ok fs => fs | Err _ => fs end, Err e)
              end
          end
      end
  end.

(** Opening a directory succeeds; reading it does not. *)
Definition Get (l : Local) (fs : FS) (key : string) : result string Node :=
  p ← file l key; match fs !! p with Some n => Ok n | None => Err "no such file or directory" end.

Definition Delete (f : Faults) (l : Local) (fs : FS) (key : string) : FS * result string unit :=
  match file l key with
  | Err e => (fs, Err e)
  | Ok p =>
      match remove_fault f with
      | Some e => (fs, Err e)
      | None => match fs !! p with
                | None => (fs, Ok tt)
                | Some _ => match remove fs p with Ok fs => (fs, Ok tt) | Err e => (fs, Err e) end
                end
      end
  end.

(** [name] is the name [os.CreateTemp] draws. *)
Definition Ready (l : Local) (fs : FS) (name : string) : FS * result string unit :=
  match create_excl fs (root l ++ ["ready-" +:+ name]) with
  | Err e => (fs, Err e)
  | Ok fs => match remove fs (root l ++ ["ready-" +:+ name]) with Ok fs => (fs, Ok tt) | Err e => (fs, Err e) end
  end.

(** ** [S3] *)

(** The client: what it reads of an object's reader, and the size it reports. *)
Record Client := {
  c_state : Type;
  PutObject : c_state -> string -> string -> Reader -> Z -> c_state * result string (string * Z);
  GetObject : c_state -> string -> string -> result string (result string string);
  RemoveObject : c_state -> string -> string -> c_state * result string unit;
  BucketExists : c_state -> string -> result string bool }.

Record S3 := { client : Client; bucket : string }.

Definition NewS3 (new : string -> string -> string -> bool -> result string Client) (endpoint bucket access secret : string) (tls : bool) : result string S3 :=
  if bool_decide (endpoint = "") || bool_decide (bucket = "") || bool_decide (access = "") || bool_decide (secret = "")
  then Err "complete S3 configuration required" else
  c ← new endpoint access secret tls; Ok {| client := c; bucket := bucket |}.

Definition S3_Put (s : S3) (st : c_state (client s)) (key : string) (r : Reader) (size : Z) (media : string) : c_state (client s) * result string Object :=
  match PutObject (client s) st (bucket s) key r size with
  | (st, Err e) => (st, Err e)
  | (st, Ok (read, n)) => (st, Ok {| Key := key; ContentHash := hex_encode (sha256 read); Size := n; MediaType := media |})
  end.

(** An object that cannot be looked at is not returned. *)
Definition S3_Get (s : S3) (st : c_state (client s)) (key : string) : result string string :=
  o ← GetObject (client s) st (bucket s) key; o.

Definition S3_Delete (s : S3) (st : c_state (client s)) (key : string) : c_state (client s) * result string unit :=
  RemoveObject (client s) st (bucket s) key.

Definition S3_Ready (s : S3) (st : c_state (client s)) : result string unit :=
  match BucketExists (client s) st (bucket s) with
  | Err e => Err e
  | Ok found => if found : bool then Ok tt else Err "S3 bucket does not exist"
  end.
