(* ===== verification/StorageFacts.v ===== *)
(** * What local object storage promises

    Objects stay below the root, a [Put] replaces an object whole or not at all,
    and what was put is what is got. *)
From S2P Require Import Prelude GoStrings GoNumbers GoJson GoHash GoCsvFacts SecurityFacts SnapshotContract GoIo Storage.
From Stdlib Require Import Ascii.
Open Scope string_scope.
Open Scope list_scope.

(** ** Paths *)

Lemma components_app a b : components (a +:+ String slash b) = components a ++ components b.
Proof. unfold components. by rewrite split_on_app, filter_app. Qed.

Definition name_ok (c : string) : Prop := c <> "" /\ c <> "." /\ c <> ".." /\ free_of slash c.

Lemma components_join l : Forall name_ok l -> components (join "/" l) = l.
Proof.
  unfold join. induction 1 as [|c l (Hc & _ & _ & Hf) Hl IH]; [done|]. destruct l as [|d l].
  - cbn. unfold components. rewrite split_on_free, filter_cons by done. by rewrite decide_True.
  - change (String.concat "/" (c :: d :: l)) with (c +:+ String slash (String.concat "/" (d :: l))). rewrite components_app, IH.
    unfold components. rewrite split_on_free, filter_cons by done. by rewrite decide_True.
Qed.

Lemma components_path l : Forall name_ok l -> components (path_of l) = l.
Proof. intros Hl. unfold path_of. change ("/" +:+ join "/" l) with ("" +:+ String slash (join "/" l)). by rewrite components_app, components_join. Qed.

Lemma clean_steps acc l : Forall (fun c => c <> "..") l -> foldl clean_step acc l = acc ++ filter (fun c => c <> ".") l.
Proof.
  intros Hl. revert acc. induction Hl as [|c l Hc Hl IH]; intros acc; cbn [foldl]; [by rewrite app_nil_r|].
  unfold clean_step at 2. rewrite filter_cons. case_bool_decide.
  - rewrite decide_False by tauto. apply IH.
  - rewrite decide_True, bool_decide_false by done. rewrite IH, <- app_assoc. done.
Qed.

Lemma clean_normal l : Forall name_ok l -> filter (fun c => c <> ".") l = l.
Proof. induction 1 as [|c l (_ & Hc & _) Hl IH]; [done|]. rewrite filter_cons, decide_True by done. by rewrite IH. Qed.

(** A name between slashes is part of the text. *)
Lemma contains_sub_app a b c : contains_sub (a +:+ (b +:+ c)) b = true.
Proof.
  induction a as [|x a IH].
  - change ("" +:+ (b +:+ c)) with (b +:+ c). pose proof (has_prefix_app b c) as Hp. destruct (b +:+ c); cbn [contains_sub]; by rewrite Hp.
  - rewrite string_app_cons. cbn [contains_sub]. rewrite IH. apply orb_true_r.
Qed.

Lemma split_on_part sep s c : c ∈ split_on sep s -> exists a b, s = a +:+ (c +:+ b).
Proof.
  revert c. induction s as [|x s IH]; intros c; cbn [split_on]; [intros ->%list_elem_of_singleton; by exists "", ""|].
  destruct (Ascii.eqb x sep).
  - intros [->|Hc]%elem_of_cons; [by exists "", (String x s)|]. destruct (IH c Hc) as (a & b & ->). by exists (String x a), b.
  - destruct (split_on sep s) as [|p ps] eqn:E.
    { by apply split_on_nonempty in E. }
    intros [->|Hc]%elem_of_cons.
    + assert (exists b, s = p +:+ b) as [b ->]; [|by exists "", b]. clear IH. revert p ps E. induction s as [|y s IHs]; intros p ps; cbn [split_on]; [intros [= <- _]; by exists ""|].
      destruct (Ascii.eqb y sep); [intros [= <- _]; by exists (String y s)|]. destruct (split_on sep s) as [|q qs]; [intros [= <- _]; by exists s|].
      intros [= <- _]. destruct (IHs q qs eq_refl) as [b ->]. by exists b.
    + destruct (IH c) as (a & b & ->); [by right|]. by exists (String x a), b.
Qed.

Lemma component_part s c : c ∈ components s -> exists a b, s = a +:+ (c +:+ b).
Proof. unfold components. intros [_ Hc]%list_elem_of_filter. by eapply split_on_part. Qed.

Definition safe_key (key : string) : Prop := key <> "" /\ contains_sub key ".." = false /\ is_abs key = false.

(** The path of a key's object. *)
Definition object_path (l : Local) (key : string) : list string := root l ++ filter (fun c => c <> ".") (components key).

Lemma no_dots key c : contains_sub key ".." = false -> c ∈ components key -> has_prefix c ".." = false.
Proof.
  intros Hk (a & b & ->)%component_part. destruct (has_prefix c "..") eqn:E; [|done]. apply has_prefix_spec in E as [t ->].
  rewrite string_app_assoc, contains_sub_app in Hk. done.
Qed.

Lemma rel_below base rest : rest <> [] -> rel base (base ++ rest) = join "/" rest.
Proof.
  intros Hr. unfold rel. rewrite bool_decide_false by (intros E; apply (f_equal length) in E; rewrite length_app in E; destruct rest; cbn in E; [done|lia]).
  assert (drop_common base (base ++ rest) = ([], rest)) as ->; [|done].
  induction base as [|b base IH]; cbn; [by destruct rest|]. by rewrite bool_decide_true.
Qed.

(** What [file] computes: the check of the relative path never fails. *)
Lemma file_spec l key : Forall name_ok (root l) ->
  file l key = if decide (safe_key key) then Ok (object_path l key) else Err "invalid object key".
Proof.
  intros Hroot. unfold file, safe_key. case_bool_decide as Hne; cbn [orb]; [by rewrite decide_False by tauto|].
  destruct (contains_sub key "..") eqn:Hd; cbn [orb]; [rewrite decide_False by (intros (_ & ? & _); done); done|].
  destruct (is_abs key) eqn:Ha; [rewrite decide_False by (intros (_ & _ & ?); done); done|]. rewrite decide_True by done.
  assert (clean (path_of (root l) +:+ "/" +:+ key) = object_path l key) as ->.
  { unfold clean, object_path. change ("/" +:+ key) with (String slash key). rewrite components_app, components_path, foldl_app by done.
    rewrite (clean_steps [] (root l)), clean_normal, (clean_steps _ (components key)); [done| |done|].
    - apply Forall_forall. intros c Hc ->. by specialize (no_dots key ".." Hd Hc).
    - eapply Forall_impl; [exact Hroot|]. by intros c (_ & _ & ? & _). }
  unfold object_path. set (rest := filter (fun c => c <> ".") (components key)).
  destruct (decide (rest = [])) as [E|Hr].
  { rewrite E, app_nil_r. unfold rel. by rewrite bool_decide_true. }
  rewrite rel_below by done. destruct rest as [|c rest'] eqn:E; [done|].
  assert (c ∈ rest) as Hin by (rewrite E; left). unfold rest in Hin. apply list_elem_of_filter in Hin as [Hdot Hc].
  pose proof (no_dots key c Hd Hc) as Hp. assert (c <> "") as Hc0 by (unfold components in Hc; by apply list_elem_of_filter in Hc as [? _]).
  destruct (has_prefix (join "/" (c :: rest')) "..") eqn:E2; [|done]. exfalso. apply has_prefix_spec in E2 as [t Ht].
  assert (exists u, join "/" (c :: rest') = c +:+ u) as [u Hu].
  { destruct rest' as [|d rest']; [by exists ""; rewrite string_app_nil_r|by eexists]. }
  rewrite Hu in Ht. destruct c as [|x [|y c]]; [done| |].
  - injection Ht as -> _. by apply Hdot.
  - injection Ht as -> -> _. change (String "." (String "." c)) with (".." +:+ c) in Hp. by rewrite has_prefix_app in Hp.
Qed.

(** ** Directories *)

(** [fs'] is [fs] with directories added on the way to a path. *)
Definition grown (way : list string) (fs fs' : FS) : Prop :=
  forall q, fs' !! q = fs !! q \/ (fs !! q = None /\ fs' !! q = Some Folder /\ q `prefix_of` way).

Lemma grown_refl way fs : grown way fs fs.
Proof. intros q. by left. Qed.

Lemma grown_trans way fs1 fs2 fs3 : grown way fs1 fs2 -> grown way fs2 fs3 -> grown way fs1 fs3.
Proof. intros H1 H2 q. destruct (H1 q) as [E|(E & E' & P)], (H2 q) as [F|(F & F' & P')]; rewrite ?F, ?E in *; auto; right; split_and!; congruence || done. Qed.

Lemma grown_prefix way way' fs fs' : way `prefix_of` way' -> grown way fs fs' -> grown way' fs fs'.
Proof. intros Hw H q. destruct (H q) as [E|(E & E' & P)]; [by left|right]. split_and!; [done|done|by etrans]. Qed.

Lemma mkdir_from_spec rest : forall fs here fs', mkdir_from fs here rest = Ok fs' ->
  grown (here ++ rest) fs fs' /\ (is_folder fs here = true -> is_folder fs' (here ++ rest) = true).
Proof.
  induction rest as [|c rest IH]; intros fs here fs'; cbn [mkdir_from].
  { intros [= <-]. rewrite app_nil_r. split; [apply grown_refl|done]. }
  rewrite (cons_middle c here rest), app_assoc. destruct (fs !! (here ++ [c])) as [[|]|] eqn:E; [|done|].
  - intros [Hg Hf]%IH. split; [done|]. intros _. apply Hf. unfold is_folder. by rewrite E, (bool_decide_true (_ = Some Folder)), orb_true_r.
  - intros [Hg Hf]%IH. split.
    + eapply grown_trans; [|exact Hg]. intros q. destruct (decide (q = here ++ [c])) as [->|Hq]; [|left; by rewrite lookup_insert_ne].
      right. rewrite lookup_insert_eq. split_and!; [done|done|]. by exists rest.
    + intros _. apply Hf. unfold is_folder. by rewrite lookup_insert_eq, (bool_decide_true (_ = Some Folder)), orb_true_r.
Qed.

Lemma make_folders_spec f fs p : grown p fs (make_folders f fs p).1 /\
  ((make_folders f fs p).2 = None -> is_folder (make_folders f fs p).1 p = true).
Proof.
  unfold make_folders, mkdir_all. destruct f as [[k e]|].
  - destruct (mkdir_from fs [] (take k p)) as [fs'|] eqn:E; cbn; [|by split; [apply grown_refl|]].
    split; [|done]. apply mkdir_from_spec in E as [Hg _]. eapply grown_prefix; [|exact Hg]. apply prefix_take.
  - destruct (mkdir_from fs [] p) as [fs'|] eqn:E; cbn; [|by split; [apply grown_refl|]].
    apply mkdir_from_spec in E as [Hg Hf]. split; [exact Hg|]. intros _. by apply Hf.
Qed.

(** ** A [Put] *)

Lemma last_app_pending p : p <> pending p.
Proof.
  intros E. unfold pending in E. destruct p as [|x p] using rev_ind; [done|]. rewrite removelast_last, last_snoc in E. cbn in E.
  apply app_inj_tail in E as [_ E]. apply (f_equal String.length) in E. rewrite string_length_app in E. cbn in E. lia.
Qed.

Lemma not_on_the_way (p : list string) : p <> [] -> ~ p `prefix_of` removelast p.
Proof.
  intros Hp Hpre%prefix_length. destruct p as [|x p] using rev_ind; [done|]. rewrite removelast_last, length_app in Hpre. cbn in Hpre. lia.
Qed.

Lemma pending_not_on_the_way p : ~ pending p `prefix_of` removelast p.
Proof. intros Hpre%prefix_length. unfold pending in Hpre. rewrite length_app in Hpre. cbn in Hpre. lia. Qed.

(** The file system but for a path and the directories on its way. *)
Definition same_but (way : list string) (ps : list (list string)) (fs fs' : FS) : Prop :=
  forall q, q ∉ ps -> fs' !! q = fs !! q \/ (fs !! q = None /\ fs' !! q = Some Folder /\ q `prefix_of` way).

Lemma put_error_none size c copy close : put_error size c copy close = None -> copy = None /\ close = None /\ len c = size.
Proof. unfold put_error. destruct copy, close; try done. destruct (Z.eqb_spec (len c) size); [by intros _|done]. Qed.

Lemma copied_all r size c : (0 <= size < max_int64)%Z -> copied r size None = (c, None) -> len c = size -> c = content r /\ failure r = None.
Proof.
  intros Hs. unfold copied. assert (wrap64 (size + 1) = (size + 1)%Z) as -> by (unfold wrap64, max_int64 in *; rewrite Z.mod_small; lia).
  intros [= <- Hf]. revert Hf. destruct (Nat.leb_spec (Z.to_nat (size + 1)) (String.length (content r))) as [Hle|Hlt]; intros Hf.
  - unfold len. rewrite substring_length by done. lia.
  - intros _. split; [|done]. clear Hf. assert (forall n s, (String.length s <= n)%nat -> String.substring 0 n s = s) as Hsub.
    { induction n as [|n IHn]; intros [|x s] Hn; cbn in *; try done; try lia. by rewrite IHn by lia. }
    apply Hsub. lia.
Qed.

(** Every outcome of a [Put] on a key. *)
Lemma Put_cases f l fs key r size media p : file l key = Ok p -> p <> [] ->
  match Put f l fs key r size media with
  | (fs', Ok o) => exists c, fs' !! p = Some (File c) /\ fs' !! pending p = None /\ same_but (removelast p) [p; pending p] fs fs' /\
      copied r size (copy_fault f) = (c, None) /\ len c = size /\
      o = {| Key := key; ContentHash := hex_encode (sha256 c); Size := size; MediaType := media |}
  | (fs', Err _) => fs' !! p = fs !! p /\ same_but (removelast p) [pending p] fs fs' /\
      (remove_fault f = None -> fs' !! pending p = fs !! pending p)
  end.
Proof.
  intros Hfile Hp. unfold Put. rewrite Hfile. destruct (make_folders_spec (mkdir_fault f) fs (removelast p)) as [Hg Hf].
  destruct (make_folders (mkdir_fault f) fs (removelast p)) as [fs1 e1]. cbn [fst snd] in *.
  assert (fs1 !! p = fs !! p) as Hp1 by (destruct (Hg p) as [E|(_ & _ & Hpre)]; [done|by apply not_on_the_way in Hpre]).
  assert (fs1 !! pending p = fs !! pending p) as Ht1 by (destruct (Hg (pending p)) as [E|(_ & _ & Hpre)]; [done|by apply pending_not_on_the_way in Hpre]).
  assert (same_but (removelast p) [pending p] fs fs1) as Hs1 by (intros q _; apply Hg).
  destruct e1 as [e1|]; [by split_and!|].
  destruct (create_fault f); cbn [fails mbind result_bind]; [by split_and!|].
  destruct (create_excl fs1 (pending p)) as [fs2|e2] eqn:Ec; [|by split_and!].
  assert (fs1 !! pending p = None /\ fs2 = <[pending p := File ""]> fs1) as [Hn ->].
  { unfold create_excl in Ec. destruct (negb _); [done|]. destruct (fs1 !! pending p); [done|]. by injection Ec. }
  destruct (copied r size (copy_fault f)) as [c copy_error] eqn:Ecopy. rewrite insert_insert_eq.
  pose proof (last_app_pending p) as Hne. set (fs3 := <[pending p := File c]> fs1).
  assert (let fs' := match (_ ← fails (remove_fault f); remove fs3 (pending p)) with Ok fs' => fs' | Err _ => fs3 end in
    fs' !! p = fs !! p /\ same_but (removelast p) [pending p] fs fs' /\ (remove_fault f = None -> fs' !! pending p = fs !! pending p)) as Hfail.
  { unfold remove, fs3. rewrite lookup_insert_eq. destruct (remove_fault f); cbn [fails mbind result_bind].
    - split_and!; [by rewrite lookup_insert_ne|intros q Hq; rewrite lookup_insert_ne by set_solver; by apply Hs1|done].
    - rewrite delete_insert_eq. split_and!; [by rewrite lookup_delete_ne|intros q Hq; rewrite lookup_delete_ne by set_solver; by apply Hs1|].
      intros _. rewrite lookup_delete_eq. congruence. }
  destruct (put_error size c copy_error (close_fault f)) as [e|] eqn:Ee; [exact Hfail|].
  apply put_error_none in Ee as (-> & _ & Hlen). destruct (rename_fault f); cbn [fails mbind result_bind]; [exact Hfail|].
  unfold rename. unfold fs3 at 1. rewrite lookup_insert_eq. destruct (is_folder fs3 p); [exact Hfail|].
  exists c. rewrite lookup_insert_eq. split_and!; try done.
  - rewrite lookup_insert_ne by done. apply lookup_delete_eq.
  - intros q Hq. rewrite lookup_insert_ne by set_solver. unfold fs3. rewrite lookup_delete_ne, lookup_insert_ne by set_solver. apply Hs1. set_solver.
  - by rewrite Hlen.
Qed.

(** ** Roots *)

Lemma split_on_free_parts sep s c : c ∈ split_on sep s -> free_of sep c.
Proof.
  revert c. induction s as [|x s IH]; intros c; cbn [split_on]; [intros ->%list_elem_of_singleton; apply free_of_nil|].
  destruct (Ascii.eqb_spec x sep) as [->|Hx]; [intros [->|Hc]%elem_of_cons; [apply free_of_nil|by apply IH]|].
  pose proof (split_on_nonempty sep s). destruct (split_on sep s) as [|p ps]; [done|].
  intros [->|Hc]%elem_of_cons; [apply free_of_cons; split; [congruence|apply IH; by left]|apply IH; by right].
Qed.

Lemma clean_ok s : Forall name_ok (clean s).
Proof.
  unfold clean. assert (Forall (fun c => c <> "" /\ free_of slash c) (components s)) as Hc.
  { apply Forall_forall. intros c [Hne Hc]%list_elem_of_filter. split; [done|by eapply split_on_free_parts]. }
  assert (Forall name_ok (@nil string)) as Hacc by constructor. revert Hacc. generalize (@nil string) as acc.
  induction Hc as [|c l [Hne Hf] Hl IH]; intros acc Hacc; [done|]. cbn [foldl]. apply IH. unfold clean_step. case_bool_decide; [done|]. case_bool_decide.
  - destruct acc as [|y acc _] using rev_ind; [done|]. rewrite removelast_last. by apply Forall_app in Hacc as [? _].
  - apply Forall_app. split; [done|]. by constructor; [|constructor].
Qed.

Lemma NewLocal_root cwd fs r l fs' : NewLocal cwd fs r = Ok (l, fs') -> Forall name_ok (root l).
Proof.
  unfold NewLocal. intros H. assert (exists s, root l = clean s) as [s ->]; [|apply clean_ok].
  destruct (is_abs r); [|destruct cwd as [d|]; [|discriminate]]; cbn [fmap option_fmap option_map] in H;
    apply bind_ok in H as (fs1 & _ & H); injection H as <- _; by eexists.
Qed.

(** ** Theorems *)

(** Objects stay below the root: a key is accepted exactly when it is not
    empty, not absolute and nowhere contains two dots in a row, and its path is
    then the root followed by the key's own names, none of them a dot or two;
    for a root made by [NewLocal], the check of the relative path can never
    fail. *)
Theorem object_paths_contained cwd fs r l fs' key (Hnew : NewLocal cwd fs r = Ok (l, fs')) :
  file l key = (if decide (safe_key key) then Ok (object_path l key) else Err "invalid object key") /\
  (safe_key key -> Forall name_ok (object_path l key) /\ root l `prefix_of` object_path l key).
Proof.
  pose proof (NewLocal_root _ _ _ _ _ Hnew) as Hroot. split; [by apply file_spec|]. intros (_ & Hd & _). unfold object_path. split; [|by eexists].
  apply Forall_app. split; [done|]. apply Forall_forall. intros c [Hdot Hc]%list_elem_of_filter.
  pose proof (no_dots key c Hd Hc) as Hp. unfold components in Hc. apply list_elem_of_filter in Hc as [Hne Hc].
  split_and!; [done|done|by intros ->|by eapply split_on_free_parts].
Qed.

(** C37. A [Put] replaces its object whole or not at all: when it succeeds the
    reader ended after exactly the declared size, the returned record holds the
    SHA-256 of those bytes, and they are what [Get] returns next; when it fails,
    at whatever step, [Get] returns what it returned before, and the pending
    file is gone unless its removal failed too. Other objects keep what they
    had. *)
Theorem put_replaces_whole_or_not_at_all f l fs key r size media (Hroot : Forall name_ok (root l)) (Hne : root l <> [])
    (Hkey : safe_key key) (Hsize : (0 <= size < max_int64)%Z) :
  let '(fs', res) := Put f l fs key r size media in
  let p := object_path l key in
  (forall other, object_path l other <> p -> object_path l other <> pending p ->
    Get l fs' other = Get l fs other \/ (fs !! object_path l other = None /\ Get l fs' other = Ok Folder)) /\
  match res with
  | Ok o => failure r = None /\ len (content r) = size /\ Get l fs' key = Ok (File (content r)) /\ fs' !! pending p = None /\
      o = {| Key := key; ContentHash := hex_encode (sha256 (content r)); Size := size; MediaType := media |}
  | Err _ => Get l fs' key = Get l fs key /\ (remove_fault f = None -> fs' !! pending p = fs !! pending p)
  end.
Proof.
  assert (file l key = Ok (object_path l key)) as Hfile by (rewrite file_spec by done; by rewrite decide_True).
  assert (object_path l key <> []) as Hp by (unfold object_path; intros [? _]%app_nil; done).
  pose proof (Put_cases f l fs key r size media _ Hfile Hp) as Hcases.
  assert (forall fs' ps, same_but (removelast (object_path l key)) ps fs fs' -> forall other, object_path l other ∉ ps ->
    Get l fs' other = Get l fs other \/ (fs !! object_path l other = None /\ Get l fs' other = Ok Folder)) as Hothers.
  { intros fs' ps Hs other Ho. unfold Get. rewrite file_spec by done. case_decide; [|by left]. cbn [mbind result_bind].
    destruct (Hs _ Ho) as [E|(E & E' & _)]; [left; by rewrite E|right; by rewrite E']. }
  destruct (Put f l fs key r size media) as [fs' [o|e]].
  - destruct Hcases as (c & Hc & Ht & Hs & Hcopy & Hlen & ->).
    split; [intros other ? ?; apply (Hothers _ _ Hs); set_solver|].
    assert (copy_fault f = None) as Hf by (unfold copied in Hcopy; by destruct (copy_fault f) as [[]|]).
    rewrite Hf in Hcopy. apply copied_all in Hcopy as [-> Hfail]; [|done|done].
    split_and!; [done|done| |done|done]. unfold Get. rewrite Hfile. cbn [mbind result_bind]. by rewrite Hc.
  - destruct Hcases as (Hc & Hs & Ht). split; [intros other ? ?; apply (Hothers _ _ Hs); set_solver|]. split; [|done].
    unfold Get. rewrite Hfile. cbn [mbind result_bind]. by rewrite Hc.
Qed.

(** A pending file left behind blocks its key: no [Put] of the key succeeds, and
    none removes the file. *)
Lemma pending_file_blocks f l fs key r size media n : Forall name_ok (root l) -> root l <> [] -> safe_key key ->
  fs !! pending (object_path l key) = Some n ->
  exists e, (Put f l fs key r size media).2 = Err e /\ (Put f l fs key r size media).1 !! pending (object_path l key) = Some n.
Proof.
  intros Hroot Hne Hkey Hn. unfold Put. rewrite file_spec, decide_True by done.
  destruct (make_folders_spec (mkdir_fault f) fs (removelast (object_path l key))) as [Hg _].
  destruct (make_folders (mkdir_fault f) fs (removelast (object_path l key))) as [fs1 [e|]]; cbn [fst snd] in *;
    destruct (Hg (pending (object_path l key))) as [E|(E & _)]; try congruence; [by exists e; rewrite E|].
  destruct (create_fault f) as [e|]; cbn [fails mbind result_bind]; [by exists e; cbn; rewrite E|].
  unfold create_excl. destruct (negb _); [by eexists; cbn; rewrite E|]. rewrite E, Hn. by eexists; cbn; rewrite E.
Qed.

(** The key of a single dot is the root itself, which [Delete] removes when it is
    empty. *)
Definition one_local : Local := {| root := ["data"] |}.

Example root_deleted : Delete no_faults one_local {[["data"] := Folder]} "." = (∅, Ok tt).
Proof. vm_compute. reflexivity. Qed.

Example put_outside : removelast (pending (object_path one_local ".")) = [] /\ pending (object_path one_local ".") = ["data.pending"].
Proof. split; reflexivity. Qed.

(** ** Examples *)

Definition one_fs : gmap (list string) Node := {[["data"] := Folder]}.
Definition evidence : Reader := {| content := "evidence"; failure := None |}.

Lemma one_root : Forall name_ok (root one_local).
Proof. constructor; [|constructor]. split_and!; try done. unfold free_of. apply (bool_decide_unpack _). vm_compute. exact I. Qed.

Lemma object_paths_contained_witness : file one_local "org/./evidence.txt" = Ok ["data"; "org"; "evidence.txt"] /\ file one_local "../escape" = Err "invalid object key".
Proof.
  assert (NewLocal None one_fs "/data/" = Ok (one_local, one_fs)) as Hnew by (vm_compute; reflexivity).
  rewrite (proj1 (object_paths_contained None one_fs "/data/" one_local one_fs "org/./evidence.txt" Hnew)).
  rewrite (proj1 (object_paths_contained None one_fs "/data/" one_local one_fs "../escape" Hnew)). split; vm_compute; reflexivity.
Defined.

Lemma one_put_succeeds : match Put no_faults one_local one_fs "org/evidence.txt" evidence 8 "text/plain" with (_, Ok _) => true | _ => false end = true.
Proof. reflexivity. Qed.

Lemma put_replaces_whole_or_not_at_all_witness : exists fs' o,
  Put no_faults one_local one_fs "org/evidence.txt" evidence 8 "text/plain" = (fs', Ok o) /\ Get one_local fs' "org/evidence.txt" = Ok (File "evidence").
Proof.
  pose proof (put_replaces_whole_or_not_at_all no_faults one_local one_fs "org/evidence.txt" evidence 8 "text/plain" one_root ltac:(discriminate)
    ltac:(repeat split; discriminate) ltac:(unfold max_int64; lia)) as H.
  pose proof one_put_succeeds as E.
  destruct (Put no_faults one_local one_fs "org/evidence.txt" evidence 8 "text/plain") as [fs' [o|e]].
  - destruct H as [_ (_ & _ & H & _)]. exists fs', o. split; [reflexivity|exact H].
  - discriminate E.
Defined.
