(* ===== verification/Config.v ===== *)
(** * Configuration ([internal/config/config.go])

    [Load] reads the environment and [Validate] refuses what is not safe. The
    environment is a function from names to values, an unset variable being
    empty. *)
From S2P Require Import Prelude GoStrings GoNumbers GoJson GoEncoding GoTime GoUrl GoNetip.
From Stdlib Require Import Ascii.
Open Scope string_scope.
Open Scope list_scope.

Section Env.
Variable Getenv : string -> string.

Definition env (k d : string) : string := let v := Getenv k in if bool_decide (v = "") then d else v.

Definition split (v : string) : list string := filter (fun p => p <> "") (trim_space <$> split_on "," v).

(** [strconv.Atoi] on a 64-bit machine. *)
Definition integer (k : string) (d : Z) : Z :=
  let '(v, failed) := parse_int (Getenv k) in if failed || (v =? 0)%Z then d else v.

(** [strconv.ParseBool], an error being false. *)
Definition parse_bool (s : string) : bool := bool_decide (s ∈ ["1"; "t"; "T"; "true"; "TRUE"; "True"]).
Definition boolean (k : string) : bool := parse_bool (Getenv k).

Definition duration (k : string) (d : Z) : Z :=
  match parse_duration (Getenv k) with Some v => if (v <=? 0)%Z then d else v | None => d end.

End Env.

Record Config := {
  Environment : string; HTTPAddr : string; DatabaseURL : string; SessionSecret : string; MasterKey : string;
  AllowedOrigins : list string; ObjectStorageType : string; ObjectStoragePath : string;
  S3Endpoint : string; S3Bucket : string; S3AccessKey : string; S3SecretKey : string;
  S3UseTLS : bool; OTELEnabled : bool; Debug : bool; OTELEndpoint : string;
  MaxGraphDepth : Z; MaxGraphNodes : Z; MaxImportBytes : Z; MaxSnapshotBytes : Z; MaxConcurrentReconciliations : Z;
  CollectorHeartbeatInterval : Z; TrustedProxyCIDRs : list Prefix }.

(** What [Validate] does: accept, refuse with an error, or panic. *)
Inductive verdict := Accepted | Refused (e : string) | Panicked.

Definition when (b : bool) (e : string) : list string := if b then [e] else [].

Definition weak_secret (s : string) : bool :=
  (len s <? 32)%Z || contains_sub (to_lower s) "development" || contains_sub (to_lower s) "change-me".

(** The key's bytes: 32 of them, not all zero. *)
Definition weak_key (s : string) : bool :=
  match std_decode s with
  | None => true
  | Some key => negb (String.length key =? 32)%nat || forallb (fun b => (b =? 0)%N) (bytes key)
  end.

Definition no_tls (u : Url) : bool :=
  let sslMode := to_lower (default "" (u_query u !! "sslmode")) in
  negb (bool_decide (u_scheme u = "postgres")) && negb (bool_decide (u_scheme u = "postgresql"))
  || bool_decide (u_hostname u = "")
  || negb (bool_decide (sslMode = "require")) && negb (bool_decide (sslMode = "verify-ca")) && negb (bool_decide (sslMode = "verify-full")).

Section Validate.
Context `{UrlParser}.

Definition bad_origin (o : string) : bool :=
  match url_parse o with
  | None => true
  | Some u => bool_decide (o = "*") || negb (bool_decide (u_scheme u = "https")) || bool_decide (u_host u = "") ||
      negb (bool_decide (u_path u = "")) || negb (bool_decide (u_raw_query u = "")) || negb (bool_decide (u_fragment u = ""))
  end.

Definition incomplete_s3 (c : Config) : bool :=
  negb (bool_decide (ObjectStorageType c = "s3")) || bool_decide (S3Endpoint c = "") || bool_decide (S3Bucket c = "") ||
  bool_decide (S3AccessKey c = "") || bool_decide (S3SecretKey c = "") || negb (S3UseTLS c).

(** Lines 78-108, for a database URL that parsed. *)
Definition problems (c : Config) (databaseURL : Url) : list string :=
  when (weak_secret (SessionSecret c)) "strong session secret required"
  ++ when (weak_key (MasterKey c)) "master key must be base64-encoded 32 bytes"
  ++ when (no_tls databaseURL) "production database URL must be PostgreSQL with TLS enabled"
  ++ when (bool_decide (AllowedOrigins c = [])) "allowed origins required"
  ++ (AllowedOrigins c ≫= fun o => when (bad_origin o) "production origins must be explicit HTTPS origins")
  ++ when (incomplete_s3 c) "production requires complete TLS-enabled S3 object storage"
  ++ when (Debug c) "debug must be disabled".

(** Lines 53-73: the first check that fails. *)
Definition basic_error (c : Config) : option string :=
  if negb (bool_decide (Environment c ∈ ["development"; "test"; "production"])) then Some "environment must be development, test, or production" else
  if bool_decide (DatabaseURL c = "") then Some "database URL required" else
  if ((MaxGraphDepth c <? 1) || (20 <? MaxGraphDepth c) || (MaxGraphNodes c <? 1) || (5000 <? MaxGraphNodes c))%Z
  then Some "graph limits are outside safe bounds" else
  if ((MaxImportBytes c <? 1024) || (MaxSnapshotBytes c <? 1024))%Z then Some "payload limits are invalid" else
  if ((MaxConcurrentReconciliations c <? 1) || (64 <? MaxConcurrentReconciliations c))%Z
  then Some "concurrent reconciliation limit is outside safe bounds" else
  if negb (bool_decide (ObjectStorageType c = "local")) && negb (bool_decide (ObjectStorageType c = "s3"))
  then Some "object storage type must be local or s3" else
  if OTELEnabled c && bool_decide (trim_space (OTELEndpoint c) = "") then Some "OpenTelemetry endpoint required when telemetry is enabled" else
  None.

(** A URL that does not parse is nil, and line 90 reads its query before line 91
    looks at the error. *)
Definition Validate (c : Config) : verdict :=
  match basic_error c with
  | Some e => Refused e
  | None =>
      if negb (bool_decide (Environment c = "production")) then Accepted else
      match url_parse (DatabaseURL c) with
      | None => Panicked
      | Some u => match problems c u with [] => Accepted | p => Refused ("unsafe production configuration: " +:+ join "; " p) end
      end
  end.

(** [strconv.Quote], for an error's text. *)
Variable Quote : string -> string.

Definition read_config (Getenv : string -> string) (cidrs : list Prefix) : Config :=
  {| Environment := env Getenv "INFRAGRAPH_ENV" "development"; HTTPAddr := env Getenv "INFRAGRAPH_HTTP_ADDR" ":8080";
     DatabaseURL := Getenv "INFRAGRAPH_DATABASE_URL"; SessionSecret := Getenv "INFRAGRAPH_SESSION_SECRET"; MasterKey := Getenv "INFRAGRAPH_MASTER_KEY";
     AllowedOrigins := split (Getenv "INFRAGRAPH_ALLOWED_ORIGINS");
     ObjectStorageType := env Getenv "INFRAGRAPH_OBJECT_STORAGE_TYPE" "local"; ObjectStoragePath := env Getenv "INFRAGRAPH_OBJECT_STORAGE_PATH" "./data/objects";
     S3Endpoint := Getenv "INFRAGRAPH_S3_ENDPOINT"; S3Bucket := Getenv "INFRAGRAPH_S3_BUCKET";
     S3AccessKey := Getenv "INFRAGRAPH_S3_ACCESS_KEY"; S3SecretKey := Getenv "INFRAGRAPH_S3_SECRET_KEY";
     S3UseTLS := boolean Getenv "INFRAGRAPH_S3_USE_TLS"; OTELEnabled := boolean Getenv "INFRAGRAPH_OTEL_ENABLED";
     Debug := boolean Getenv "INFRAGRAPH_DEBUG"; OTELEndpoint := Getenv "INFRAGRAPH_OTEL_ENDPOINT";
     MaxGraphDepth := integer Getenv "INFRAGRAPH_MAX_GRAPH_DEPTH" 6; MaxGraphNodes := integer Getenv "INFRAGRAPH_MAX_GRAPH_NODES" 500;
     MaxImportBytes := integer Getenv "INFRAGRAPH_MAX_IMPORT_BYTES" (Z.shiftl 10 20);
     MaxSnapshotBytes := integer Getenv "INFRAGRAPH_MAX_SNAPSHOT_BYTES" (Z.shiftl 50 20);
     MaxConcurrentReconciliations := integer Getenv "INFRAGRAPH_MAX_CONCURRENT_RECONCILIATIONS" 4;
     CollectorHeartbeatInterval := duration Getenv "INFRAGRAPH_COLLECTOR_HEARTBEAT_INTERVAL" (30 * nano);
     TrustedProxyCIDRs := cidrs |}.

(** Lines 39-45. *)
Definition trust (prefixes : list Prefix) (value : string) : result string (list Prefix) :=
  match ParsePrefix value with
  | Some prefix => Ok (prefixes ++ [prefix])
  | None => Err ("invalid trusted proxy CIDR " +:+ Quote value)
  end.

(** The error, or [None] for a panic. *)
Definition Load (Getenv : string -> string) : option (result string Config) :=
  match foldM trust [] (split (Getenv "INFRAGRAPH_TRUSTED_PROXY_CIDRS")) with
  | Err e => Some (Err e)
  | Ok cidrs =>
      let c := read_config Getenv cidrs in
      match Validate c with Accepted => Some (Ok c) | Refused e => Some (Err e) | Panicked => None end
  end.

End Validate.

(** ** Facts *)

Lemma when_nil b e : when b e = [] <-> b = false.
Proof. by destruct b. Qed.

(** What makes a production configuration safe. *)
Record production_safe `{UrlParser} (c : Config) (u : Url) : Prop := {
  ps_secret : weak_secret (SessionSecret c) = false;
  ps_key : exists key, std_decode (MasterKey c) = Some key /\ String.length key = 32%nat /\ exists b, b ∈ bytes key /\ b <> 0%N;
  ps_scheme : u_scheme u = "postgres" \/ u_scheme u = "postgresql";
  ps_host : u_hostname u <> "";
  ps_tls : to_lower (default "" (u_query u !! "sslmode")) ∈ ["require"; "verify-ca"; "verify-full"];
  ps_origins : AllowedOrigins c <> [] /\ forall o, o ∈ AllowedOrigins c -> bad_origin o = false;
  ps_storage : ObjectStorageType c = "s3" /\ S3Endpoint c <> "" /\ S3Bucket c <> "" /\ S3AccessKey c <> "" /\ S3SecretKey c <> "" /\ S3UseTLS c = true;
  ps_debug : Debug c = false }.

Lemma weak_key_false s : weak_key s = false <-> exists key, std_decode s = Some key /\ String.length key = 32%nat /\ exists b, b ∈ bytes key /\ b <> 0%N.
Proof.
  unfold weak_key. destruct (std_decode s) as [key|]; [|by split; [|intros (? & ? & _)]]. rewrite orb_false_iff, negb_false_iff, Nat.eqb_eq.
  assert (forallb (fun b => (b =? 0)%N) (bytes key) = false <-> exists b, b ∈ bytes key /\ b <> 0%N) as ->.
  { induction (bytes key) as [|b l IH]; cbn; [split; [done|by intros (b & ?%elem_of_nil & _)]|]. rewrite andb_false_iff, IH. split.
    - intros [E%N.eqb_neq|(x & Hx & Hne)]; [exists b; split; [left|done]|exists x; split; [by right|done]].
    - intros (x & [->|Hx]%elem_of_cons & Hne); [left; by apply N.eqb_neq|right; by exists x]. }
  split; [intros [? ?]; by exists key|]. intros (k & [= <-] & ? & ?). done.
Qed.

Lemma no_tls_false u : no_tls u = false <-> (u_scheme u = "postgres" \/ u_scheme u = "postgresql") /\ u_hostname u <> "" /\
  to_lower (default "" (u_query u !! "sslmode")) ∈ ["require"; "verify-ca"; "verify-full"].
Proof.
  unfold no_tls. rewrite !orb_false_iff, !andb_false_iff, !negb_false_iff, !bool_decide_eq_true, bool_decide_eq_false.
  rewrite !elem_of_cons, elem_of_nil. tauto.
Qed.

Lemma problems_nil `{UrlParser} c u : problems c u = [] <-> production_safe c u.
Proof.
  unfold problems. rewrite !app_nil, !when_nil, weak_key_false, no_tls_false, bool_decide_eq_false.
  assert ((AllowedOrigins c ≫= fun o => when (bad_origin o) "production origins must be explicit HTTPS origins") = [] <->
    forall o, o ∈ AllowedOrigins c -> bad_origin o = false) as ->.
  { induction (AllowedOrigins c) as [|o l IH]; cbn; [split; [by intros _ o ?%elem_of_nil|done]|]. rewrite app_nil, when_nil, IH. split.
    - intros [Ho Hl] x [->|Hx]%elem_of_cons; auto.
    - intros Hall. split; [apply Hall; left|]. intros x Hx. apply Hall. by right. }
  assert (incomplete_s3 c = false <-> ObjectStorageType c = "s3" /\ S3Endpoint c <> "" /\ S3Bucket c <> "" /\ S3AccessKey c <> "" /\ S3SecretKey c <> "" /\ S3UseTLS c = true) as ->.
  { unfold incomplete_s3. rewrite !orb_false_iff, !negb_false_iff, bool_decide_eq_true, !bool_decide_eq_false. tauto. }
  split; [intros; destruct_and!; by constructor|]. intros []. tauto.
Qed.

(** The bounds every accepted configuration keeps. *)
Record bounded (c : Config) : Prop := {
  bo_environment : Environment c ∈ ["development"; "test"; "production"];
  bo_database : DatabaseURL c <> "";
  bo_depth : (1 <= MaxGraphDepth c <= 20)%Z; bo_nodes : (1 <= MaxGraphNodes c <= 5000)%Z;
  bo_import : (1024 <= MaxImportBytes c)%Z; bo_snapshot : (1024 <= MaxSnapshotBytes c)%Z;
  bo_concurrent : (1 <= MaxConcurrentReconciliations c <= 64)%Z;
  bo_storage : ObjectStorageType c = "local" \/ ObjectStorageType c = "s3";
  bo_telemetry : OTELEnabled c = true -> trim_space (OTELEndpoint c) <> "" }.

Lemma basic_error_none c : basic_error c = None <-> bounded c.
Proof.
  unfold basic_error. split.
  - intros Hb. case_bool_decide as H1; [|done]. cbn [negb] in Hb. case_bool_decide as H2; [done|].
    destruct (_ || _ || _ || _)%Z eqn:E1 in Hb; [done|]. destruct (_ || _)%Z eqn:E2 in Hb; [done|]. destruct (_ || _)%Z eqn:E3 in Hb; [done|].
    destruct (_ && _) eqn:E4 in Hb; [done|]. destruct (_ && _) eqn:E5 in Hb; [done|].
    rewrite ?orb_false_iff, ?andb_false_iff, ?negb_false_iff, ?bool_decide_eq_true, ?bool_decide_eq_false in *.
    constructor; try done; try lia. intros E. destruct E5; congruence.
  - intros [H1 H2 H3 H4 H5 H6 H7 H8 H9]. rewrite (bool_decide_true _ H1), (bool_decide_false _ H2). cbn [negb].
    rewrite !(proj2 (Z.ltb_ge _ _)) by lia. cbn [orb].
    assert (negb (bool_decide (ObjectStorageType c = "local")) && negb (bool_decide (ObjectStorageType c = "s3")) = false) as ->.
    { destruct H8 as [->| ->]; done. }
    destruct (OTELEnabled c); [|done]. by rewrite bool_decide_false by auto.
Qed.

Lemma Validate_accepted `{UrlParser} c :
  Validate c = Accepted <-> bounded c /\ (Environment c = "production" -> exists u, url_parse (DatabaseURL c) = Some u /\ production_safe c u).
Proof.
  rewrite <- basic_error_none. unfold Validate. destruct (basic_error c) as [e|]; [split; [done|by intros [? _]]|].
  case_bool_decide as He; cbn [negb]; [|split; [done|done]].
  destruct (url_parse (DatabaseURL c)) as [u|]; [|naive_solver]. destruct (problems c u) as [|p l] eqn:Ep.
  - apply problems_nil in Ep. naive_solver.
  - split; [done|]. intros [_ Hs]. destruct (Hs He) as (u' & [= <-] & Hsafe%problems_nil). congruence.
Qed.

Lemma Validate_panicked `{UrlParser} c : Validate c = Panicked <-> bounded c /\ Environment c = "production" /\ url_parse (DatabaseURL c) = None.
Proof.
  rewrite <- basic_error_none. unfold Validate. destruct (basic_error c) as [e|]; [split; [done|by intros [? _]]|].
  case_bool_decide as He; cbn [negb]; [|naive_solver]. destruct (url_parse (DatabaseURL c)) as [u|]; [|naive_solver].
  split; [by destruct (problems c u)|naive_solver].
Qed.

Lemma duration_positive Getenv k d : (0 < d)%Z -> (0 < duration Getenv k d)%Z.
Proof. unfold duration. intros Hd. destruct (parse_duration _) as [v|]; [|done]. destruct (Z.leb_spec v 0); lia. Qed.

Lemma trusted_valid Quote values cidrs : foldM (trust Quote) [] values = Ok cidrs -> Forall prefix_valid cidrs.
Proof.
  apply (foldM_inv (trust Quote) (Forall prefix_valid)); [|done]. intros l v l' _ Hl. unfold trust. destruct (ParsePrefix v) as [p|] eqn:Hp; [|done]. intros [= <-].
  apply Forall_app. split; [done|]. constructor; [by eapply ParsePrefix_valid|done].
Qed.

(** ** Theorems *)

(** [Validate] accepts exactly the configurations that are safe: every
    limit within its bounds and, in production, a strong secret, a real master
    key, PostgreSQL over TLS, explicit HTTPS origins, complete S3 storage and no
    debugging. It panics exactly when everything before the production checks
    is in order and the database URL does not parse. *)
Theorem Validate_exact `{UrlParser} c :
  (Validate c = Accepted <-> bounded c /\ (Environment c = "production" -> exists u, url_parse (DatabaseURL c) = Some u /\ production_safe c u)) /\
  (Validate c = Panicked <-> bounded c /\ Environment c = "production" /\ url_parse (DatabaseURL c) = None).
Proof. split; [apply Validate_accepted|apply Validate_panicked]. Qed.

(** Whatever the environment holds, a configuration that loads is within
    bounds, safe if it is for production, beats at a positive interval, and
    trusts only well-formed networks. *)
Theorem Load_safe `{UrlParser} Quote Getenv c (Hload : Load Quote Getenv = Some (Ok c)) :
  bounded c /\ (Environment c = "production" -> exists u, url_parse (DatabaseURL c) = Some u /\ production_safe c u) /\
  (0 < CollectorHeartbeatInterval c)%Z /\ Forall prefix_valid (TrustedProxyCIDRs c) /\ Forall (fun o => o <> "") (AllowedOrigins c).
Proof.
  unfold Load in Hload. destruct (foldM _ _ _) as [cidrs|] eqn:Hcidrs; [|done].
  destruct (Validate _) eqn:Hv; [|done|done]. injection Hload as <-.
  pose proof (proj1 (Validate_accepted _) Hv) as [Hb Hp]. split_and!; [done|done|by apply duration_positive|by eapply trusted_valid|].
  apply Forall_forall. intros v Hin. cbn in Hin. unfold split in Hin. by apply list_elem_of_filter in Hin as [? _].
Qed.

(** ** Example *)

Definition production_env (k : string) : string :=
  default "" (list_to_map (M := gmap string string) [
    ("INFRAGRAPH_ENV", "production"); ("INFRAGRAPH_DATABASE_URL", "postgres://db/i?sslmode=require");
    ("INFRAGRAPH_SESSION_SECRET", "0123456789abcdef0123456789abcdef"); ("INFRAGRAPH_MASTER_KEY", "MDEyMzQ1Njc4OWFiY2RlZjAxMjM0NTY3ODlhYmNkZWY=");
    ("INFRAGRAPH_ALLOWED_ORIGINS", "https://a, "); ("INFRAGRAPH_OBJECT_STORAGE_TYPE", "s3"); ("INFRAGRAPH_S3_ENDPOINT", "s3:9000");
    ("INFRAGRAPH_S3_BUCKET", "b"); ("INFRAGRAPH_S3_ACCESS_KEY", "k"); ("INFRAGRAPH_S3_SECRET_KEY", "s"); ("INFRAGRAPH_S3_USE_TLS", "true");
    ("INFRAGRAPH_MAX_GRAPH_DEPTH", "20"); ("INFRAGRAPH_TRUSTED_PROXY_CIDRS", "10.0.0.0/8")] !! k).

Definition example_urls : UrlParser := {|
  url_parse s :=
    if String.eqb s "https://a" then Some {| u_scheme := "https"; u_host := "a"; u_hostname := "a"; u_user := false; u_path := ""; u_raw_query := ""; u_fragment := ""; u_query := ∅ |}
    else if String.eqb s "postgres://db/i?sslmode=require" then
      Some {| u_scheme := "postgres"; u_host := "db"; u_hostname := "db"; u_user := false; u_path := "/i"; u_raw_query := "sslmode=require"; u_fragment := ""; u_query := {["sslmode" := "require"]} |}
    else None;
  ip_loopback _ := None |}.

Lemma Load_safe_witness : exists c, @Load example_urls id production_env = Some (Ok c) /\ (1 <= MaxGraphDepth c <= 20)%Z /\
  exists u, @url_parse example_urls (DatabaseURL c) = Some u /\ @production_safe example_urls c u.
Proof.
  eexists. split; [vm_compute; reflexivity|].
  refine (let '(conj Hb (conj Hp _)) := @Load_safe example_urls id production_env _ _ in _); [vm_compute; reflexivity|].
  split; [exact (bo_depth _ Hb)|apply Hp; reflexivity].
Defined.

(** A database URL that does not parse panics in production, and is accepted
    anywhere else. *)
Example malformed_database_url :
  @Load example_urls id (fun k => if String.eqb k "INFRAGRAPH_DATABASE_URL" then "postgres://%zz" else production_env k) = None.
Proof. vm_compute. reflexivity. Qed.
