(* ===== verification/Http.v ===== *)
(** * Requests and answers ([internal/app/app.go])

    What the handlers read of a request and write of an answer, with the helpers
    they share: [decode], [boundedInt], [clientIP]. Of an error the model keeps
    the status and the code; its message is a constant of the code, or an error
    text. *)
From S2P Require Import Prelude GoStrings GoNumbers GoJson GoJsonDecode GoNetip GoIo Reconcile Config.
From S2P Require Graph.
From S2P Require Imports.
From Stdlib Require Import Ascii.
Open Scope string_scope.
Open Scope list_scope.

(** ** Requests *)

(** Headers by canonical name, the query's first values, cookies by name, the
    peer's address and the body. *)
Record HttpRequest := {
  hr_method : string; hr_path : string; hr_query : gmap string string; hr_headers : gmap string string;
  hr_cookies : gmap string string; hr_remote : string; hr_body : Reader }.

Definition header (r : HttpRequest) (k : string) : string := default "" (hr_headers r !! k).
Definition query (r : HttpRequest) (k : string) : string := default "" (hr_query r !! k).
Definition requestID (r : HttpRequest) : string := header r "X-Request-ID".

(** ** Answers *)

Record Cookie := {
  ck_name : string; ck_value : string; ck_http_only : bool; ck_secure : bool; ck_strict : bool; ck_expires : option Z; ck_max_age : Z }.

(** Bodies: an error, JSON, other text, nothing; of structs that are encoded as
    they are, the struct. *)
Inductive Body :=
| ErrorBody (code request_id : string)
| JsonBody (v : json)
| GraphBody (r : Graph.Result)
| PreviewBody (p : Imports.Preview)
| SnapshotBody (id status : string) (summary : option Summary)
| TextBody (s : string)
| NoBody.

Record Response := { rs_status : Z; rs_headers : gmap string string; rs_cookies : list Cookie; rs_body : Body }.

Definition json_type : gmap string string := {["Content-Type" := "application/json"]}.

Definition answer_with (status : Z) (b : Body) : Response :=
  {| rs_status := status; rs_headers := json_type; rs_cookies := []; rs_body := b |}.

Definition writeJSON (status : Z) (v : json) : Response := answer_with status (JsonBody v).

Definition writeError (status : Z) (code : string) (r : HttpRequest) : Response :=
  answer_with status (ErrorBody code (requestID r)).

Definition with_cookies (cookies : list Cookie) (r : Response) : Response :=
  {| rs_status := rs_status r; rs_headers := rs_headers r; rs_cookies := rs_cookies r ++ cookies; rs_body := rs_body r |}.

(** ** Helpers *)

(** [newID]; the bytes are [rand.Read]'s. *)
Definition newID (prefix raw : string) : string := prefix +:+ "-" +:+ hex_encode raw.

Definition contains (v : list string) (s : string) : bool := existsb (fun x => bool_decide (x = s)) v.

(** [strconv.Atoi] of a 64-bit machine. *)
Definition boundedInt (v : string) (d low high : Z) : Z :=
  let '(n, failed) := parse_int v in
  if failed then d else if (n <? low)%Z then low else if (high <? n)%Z then high else n.

(** ** Reading a body *)

(** A document that ends with its last byte, not at the byte after. *)
Definition settled (d : doc) : bool := match d with DArr _ | DObj _ => true | _ => false end.

(** [decode]: the document within the limit, read into a zero variable, and
    nothing after it. A body that fails or goes on past the limit is an error
    only where the decoder gets to it. *)
Definition decode {T} (body : Reader) (max : Z) (zero : T) (dec : Decoder T) : result (Z * string) T :=
  let seen := String.substring 0 (Z.to_nat max) (content body) in
  let cut := (max <? len (content body))%Z in
  let broken := cut || negb (bool_decide (failure body = None)) in
  let more := if cut then Err (413%Z, "payload_too_large") else Err (400%Z, "invalid_request") in
  match scan_document seen with
  | Bad => Err (400%Z, "invalid_request")
  | Short => more
  | Found d rest =>
      if bool_decide (rest = "") && negb (settled d) && broken then more else
      match dec zero d with
      | None => Err (400%Z, "invalid_request")
      | Some v => if only_blanks rest && negb broken then Ok v else Err (400%Z, "invalid_request")
      end
  end.

(** ** The client's address *)

Section Client.
Variable c : Config.

Definition trustedProxy (address : Addr) : bool := existsb (fun prefix => prefix_contains prefix address) (TrustedProxyCIDRs c).

(** Lines 811-821: from the last address forwarded to the first, until one is
    not a trusted proxy's. *)
Fixpoint forwarded_client (address : Addr) (forwarded : list string) : Addr :=
  match forwarded with
  | [] => address
  | f :: forwarded' =>
      match ParseAddr (trim_space f) with
      | None => forwarded_client address forwarded'
      | Some candidate => if trustedProxy candidate then forwarded_client candidate forwarded' else candidate
      end
  end.

Definition clientIP (r : HttpRequest) : string :=
  let remote := default (hr_remote r) (split_host (hr_remote r)) in
  match ParseAddr (trim_cut ["["%char; "]"%char] remote) with
  | None => remote
  | Some address =>
      if negb (trustedProxy address) then remote else
      addr_string (forwarded_client address (reverse (split_on "," (header r "X-Forwarded-For"))))
  end.

End Client.
