(* ===== verification/Sessions.v ===== *)
(** * Users and their sessions ([internal/app/app.go])

    The tables of users, sessions and second factors, [login] with
    [verifySecondFactor], the [session] guard of every API request, and the
    logout. A request reads one clock, the database's [now()] included, and its
    statements fail by their constraints only. *)
From S2P Require Import Prelude GoStrings GoJson GoJsonDecode GoEncoding GoIo Domain Security Reconcile PgStore RateLimit.
From S2P Require Import Gateway Config Http.
Open Scope string_scope.
Open Scope list_scope.

(** ** Tables *)

Record UserRow := { us_org : string; us_email : string; us_hash : string; us_active : bool; us_mfa : bool }.
Record SessionRow := { se_user : string; se_org : string; se_csrf : string; se_expires : gotime; se_revoked : option gotime }.
Record MfaRow := { mf_ciphertext : string; mf_nonce : string; mf_version : Z; mf_enabled : option gotime }.
Record RecoveryRow := { rc_user : string; rc_hash : string; rc_used : option gotime }.
Record TokenRow := { to_org : string; to_hash : string; to_expires : gotime; to_used : option gotime; to_scope : string }.
Record FindingRow := {
  fi_org : string; fi_type : string; fi_status : string; fi_priority : string; fi_explanation : string; fi_created : gotime }.

(** Users and what belongs to them by key, sessions by the hash of their token,
    the pairs of the joining tables, enrolment tokens, findings, the column
    [criticality] of the assets (which no statement here writes; its default is
    NORMAL), and the gateway's tables. *)
Record AppDB := {
  ad_users : table UserRow;
  ad_sessions : table SessionRow;
  ad_mfa : table MfaRow;
  ad_recovery : table RecoveryRow;
  ad_user_roles : gset (string * string);
  ad_role_permissions : gset (string * string);
  ad_permissions : table string;
  ad_tokens : table TokenRow;
  ad_findings : table FindingRow;
  ad_criticality : table string;
  ad_gateway : GatewayDB }.

Definition set_sessions (v : table SessionRow) (d : AppDB) : AppDB :=
  Build_AppDB (ad_users d) v (ad_mfa d) (ad_recovery d) (ad_user_roles d) (ad_role_permissions d) (ad_permissions d) (ad_tokens d)
    (ad_findings d) (ad_criticality d) (ad_gateway d).
Definition set_recovery (v : table RecoveryRow) (d : AppDB) : AppDB :=
  Build_AppDB (ad_users d) (ad_sessions d) (ad_mfa d) v (ad_user_roles d) (ad_role_permissions d) (ad_permissions d) (ad_tokens d)
    (ad_findings d) (ad_criticality d) (ad_gateway d).
Definition set_tokens (v : table TokenRow) (d : AppDB) : AppDB :=
  Build_AppDB (ad_users d) (ad_sessions d) (ad_mfa d) (ad_recovery d) (ad_user_roles d) (ad_role_permissions d) (ad_permissions d) v
    (ad_findings d) (ad_criticality d) (ad_gateway d).
Definition set_gateway (v : GatewayDB) (d : AppDB) : AppDB :=
  Build_AppDB (ad_users d) (ad_sessions d) (ad_mfa d) (ad_recovery d) (ad_user_roles d) (ad_role_permissions d) (ad_permissions d)
    (ad_tokens d) (ad_findings d) (ad_criticality d) v.

(** What PostgreSQL does with texts and times. *)
Class SqlText := {
  (** [lower(x)]. *)
  sql_lower : string -> string;
  (** [x ILIKE pattern]: pattern, then text. *)
  ilike : string -> string -> bool;
  (** A [timestamptz] in [row_to_json]. *)
  json_time : gotime -> json }.

(** A row, when a query without an order has one. *)
Definition some_row `{RangeOrder} {A} (p : A -> bool) (t : table A) : option (string * A) :=
  head (filter (fun kr => p kr.2 = true) (range 0 t)).

(** ** The application *)

Record Metrics := { mt_requests : Z; mt_failures : Z; mt_signatures : Z; mt_graph : Z }.

Record App := { ap_db : option AppDB; ap_auth : limiter; ap_snapshots : limiter; ap_metrics : Metrics }.

Definition set_db (v : AppDB) (a : App) : App :=
  {| ap_db := Some v; ap_auth := ap_auth a; ap_snapshots := ap_snapshots a; ap_metrics := ap_metrics a |}.
Definition set_auth (v : limiter) (a : App) : App :=
  {| ap_db := ap_db a; ap_auth := v; ap_snapshots := ap_snapshots a; ap_metrics := ap_metrics a |}.
Definition set_snapshots (v : limiter) (a : App) : App :=
  {| ap_db := ap_db a; ap_auth := ap_auth a; ap_snapshots := v; ap_metrics := ap_metrics a |}.
Definition set_metrics (v : Metrics) (a : App) : App :=
  {| ap_db := ap_db a; ap_auth := ap_auth a; ap_snapshots := ap_snapshots a; ap_metrics := v |}.

(** What a handler leaves: the application, and the answer or [None] when it
    panicked, which drops the connection. *)
Abbreviation handled := (App * option Response)%type (only parsing).

(** ** Signing in *)

Record LoginForm := { lf_email : string; lf_password : string; lf_totp : string; lf_recovery : string }.

Definition zero_login : LoginForm := Build_LoginForm "" "" "" "".

Definition login_fields : list (field LoginForm) := [
  into "Email" lf_email (fun v '(Build_LoginForm _ b c d) => Build_LoginForm v b c d) dec_string;
  into "Password" lf_password (fun v '(Build_LoginForm a _ c d) => Build_LoginForm a v c d) dec_string;
  into "TOTP" lf_totp (fun v '(Build_LoginForm a b _ d) => Build_LoginForm a b v d) dec_string;
  into "RecoveryCode" lf_recovery (fun v '(Build_LoginForm a b c _) => Build_LoginForm a b c v) dec_string].

Inductive factor := Passed | Failed | Panics.

Record principal := { pr_user : string; pr_organization : string; pr_permissions : gset string; pr_csrf : string }.

Definition session_cookie : string := "infragraph_session".
Definition csrf_cookie : string := "infragraph_csrf".
Definition session_hours : Z := 12 * 3600 * nano.

Section Sessions.
Context `{SqlText, RangeOrder, Postgres, Argon2, AesGcm, UnicodeCase} (c : Config).

(** A recovery code not used before, which is then used. *)
Definition matches_recovery (user recovery : string) (_ : string) (r : RecoveryRow) : bool :=
  bool_decide (rc_user r = user) && bool_decide (rc_hash r = TokenHash recovery) && bool_decide (rc_used r = None).

Definition use_recovery (now : gotime) (r : RecoveryRow) : RecoveryRow :=
  {| rc_user := rc_user r; rc_hash := rc_hash r; rc_used := Some (column_time now) |}.

(** The one-time code against the user's enabled secret. *)
Definition verify_totp (now : gotime) (d : AppDB) (user code : string) : factor :=
  match (m ← ad_mfa d !! user; if bool_decide (mf_enabled m = None) then None else Some m) with
  | None => Failed
  | Some m =>
      match std_decode (MasterKey c) with
      | None => Failed
      | Some key =>
          match NewSecretStore key (mf_version m) with
          | Err _ => Failed
          | Ok store =>
              match Decrypt store {| Ciphertext := mf_ciphertext m; Nonce := mf_nonce m; KeyVersion := mf_version m; Metadata := None |} with
              | Err (SecretErr _) => Failed
              | Err (SecretPanic _) => Panics
              | Ok secret => if VerifyTOTP secret code now then Passed else Failed
              end
          end
      end
  end.

Definition verifySecondFactor (now : gotime) (d : AppDB) (user code recovery : string) : AppDB * factor :=
  if bool_decide (recovery = "") then (d, verify_totp now d user code) else
  let p := matches_recovery user recovery in
  let d' := set_recovery (update_rows p (use_recovery now) (ad_recovery d)) d in
  if (affected p (ad_recovery d) =? 1)%Z then (d', Passed) else (d', verify_totp now d' user code).

(** The user of an address, when the password is right. *)
Definition password_user (d : AppDB) (f : LoginForm) : option (string * UserRow) :=
  '(id, u) ← some_row (fun u => bool_decide (sql_lower (us_email u) = sql_lower (lf_email f))) (ad_users d);
  if us_active u && VerifyPassword (us_hash u) (lf_password f) then Some (id, u) else None.

Definition cookie (name value : string) (http_only : bool) (expires : gotime) : Cookie :=
  {| ck_name := name; ck_value := value; ck_http_only := http_only; ck_secure := bool_decide (Environment c = "production");
     ck_strict := true; ck_expires := Some expires; ck_max_age := 43200 |}.

(** Lines 236-246: the session itself. A token that could not be drawn is empty. *)
Definition start_session (now : gotime) (raw_token raw_csrf : random) (r : HttpRequest) (d : AppDB) (id : string) (u : UserRow)
    : AppDB * Response :=
  let token := match RandomToken raw_token with Ok t => t | Err _ => "" end in
  let csrf := match RandomToken raw_csrf with Ok t => t | Err _ => "" end in
  let expires := (now + session_hours)%Z in
  let key := KeyedTokenHash (SessionSecret c) token in
  match ad_sessions d !! key with
  | Some _ => (d, writeError 500 "internal_error" r)
  | None =>
      (set_sessions (<[key := {| se_user := id; se_org := us_org u; se_csrf := KeyedTokenHash (SessionSecret c) csrf;
         se_expires := column_time expires; se_revoked := None |}]> (ad_sessions d)) d,
       with_cookies [cookie session_cookie token true expires; cookie csrf_cookie csrf false expires]
         (writeJSON 200 (JObj [("expiresAt", JStr (rfc3339nano expires)); ("user", JObj [("id", JStr id)])])))
  end.

Definition login (now : gotime) (raw_token raw_csrf : random) (r : HttpRequest) (a : App) : handled :=
  let '(auth, ok) := allow now (clientIP c r) (ap_auth a) in
  let a := set_auth auth a in
  if negb ok then (a, Some (writeError 429 "rate_limited" r)) else
  match ap_db a with
  | None => (a, Some (writeError 503 "database_unavailable" r))
  | Some d =>
      match decode (hr_body r) (Z.shiftl 64 10) zero_login (dec_struct true login_fields) with
      | Err (status, code) => (a, Some (writeError status code r))
      | Ok f =>
          match password_user d f with
          | None => (a, Some (writeError 401 "invalid_credentials" r))
          | Some (id, u) =>
              let '(d, second) := if us_mfa u then verifySecondFactor now d id (lf_totp f) (lf_recovery f) else (d, Passed) in
              match second with
              | Panics => (set_db d a, None)
              | Failed => (set_db d a, Some (writeError 401 "mfa_required" r))
              | Passed => let '(d, response) := start_session now raw_token raw_csrf r d id u in (set_db d a, Some response)
              end
          end
      end
  end.

(** ** The guard *)

Definition permissions (d : AppDB) (user : string) : gset string :=
  list_to_set (omap (fun rp => if bool_decide ((user, rp.1) ∈ ad_user_roles d) then ad_permissions d !! rp.2 else None)
    (elements (ad_role_permissions d))).

Definition safe_method (m : string) : bool := bool_decide (m ∈ ["GET"; "HEAD"; "OPTIONS"]).

(** The row of a cookie's token: neither revoked nor expired, of an active user. *)
Definition live_session (now : gotime) (d : AppDB) (token : string) : option SessionRow :=
  s ← ad_sessions d !! KeyedTokenHash (SessionSecret c) token;
  u ← ad_users d !! se_user s;
  if bool_decide (se_revoked s = None) && (now <? se_expires s)%Z && us_active u then Some s else None.

(** [session]: an answer, or who the request is from. *)
Definition session (now : gotime) (r : HttpRequest) (a : App) : Response + AppDB * principal :=
  match ap_db a with
  | None => inl (writeError 503 "database_unavailable" r)
  | Some d =>
      match hr_cookies r !! session_cookie with
      | None => inl (writeError 401 "unauthenticated" r)
      | Some token =>
          match live_session now d token with
          | None => inl (writeError 401 "unauthenticated" r)
          | Some s =>
              let p := {| pr_user := se_user s; pr_organization := se_org s; pr_permissions := permissions d (se_user s);
                          pr_csrf := se_csrf s |} in
              if negb (safe_method (hr_method r)) &&
                 negb (bool_decide (KeyedTokenHash (SessionSecret c) (header r "X-CSRF-Token") = pr_csrf p))
              then inl (writeError 403 "csrf_invalid" r) else inr (d, p)
          end
      end
  end.

Definition require (r : HttpRequest) (p : principal) (permission : string) : option Response :=
  if bool_decide (permission ∈ pr_permissions p) then None else Some (writeError 403 "permission_denied" r).

(** Lines 328-333; the guard has seen the cookie. *)
Definition revoke (now : gotime) (org : string) (s : SessionRow) : SessionRow :=
  if bool_decide (se_org s = org)
  then {| se_user := se_user s; se_org := se_org s; se_csrf := se_csrf s; se_expires := se_expires s; se_revoked := Some (column_time now) |}
  else s.

Definition logout (now : gotime) (r : HttpRequest) (p : principal) (d : AppDB) : AppDB * Response :=
  let key := KeyedTokenHash (SessionSecret c) (default "" (hr_cookies r !! session_cookie)) in
  (set_sessions (alter (revoke now (pr_organization p)) key (ad_sessions d)) d,
   {| rs_status := 204; rs_headers := ∅;
      rs_cookies := [{| ck_name := session_cookie; ck_value := ""; ck_http_only := true; ck_secure := false; ck_strict := false;
        ck_expires := None; ck_max_age := -1 |}]; rs_body := NoBody |}).

End Sessions.
