(* ===== verification/Api.v ===== *)
(** * The browser API ([internal/app/app.go])

    [api] behind the session guard: the inventory's queries, the lists, the
    import previews. Every query is over the tables of the database; an order
    PostgreSQL leaves open is a parameter. *)
From S2P Require Import Prelude GoStrings GoNumbers GoJson GoIo Domain Security Reconcile PgStore AuditChain.
From S2P Require Import Gateway Config Http Sessions.
From S2P Require Graph.
From S2P Require Imports.
From Stdlib Require Import Ascii.
Open Scope string_scope.
Open Scope list_scope.

(** [ORDER BY] a time, descending; rows of one time come in any order. *)
Class SqlTimeOrder := {
  latest_first : forall {A : Type}, (A -> gotime) -> list A -> list A;
  latest_first_perm : forall {A : Type} (key : A -> gotime) (l : list A), latest_first key l ≡ₚ l;
  latest_first_sorted : forall {A : Type} (key : A -> gotime) (l : list A),
    StronglySorted (fun x y => key y <= key x)%Z (latest_first key l) }.

(** [LIMIT] and [OFFSET]. *)
Definition page {A} (limit offset : Z) (l : list A) : list A := take (Z.to_nat limit) (drop (Z.to_nat offset) l).

(** The rows of one organization. *)
Definition rows_of {A} (org_of : A -> string) (org : string) (t : table A) : list (string * A) :=
  map_to_list (filter (fun kr => org_of kr.2 = org) t).

Section Queries.
Context `{SqlText, Graph.SqlOrder, SqlTimeOrder} (c : Config).

(** ** Overview *)

Definition with_status (status : string) (l : list (string * AssetRow)) : Z :=
  Z.of_nat (length (filter (fun kr => pa_status kr.2 = status) l)).

Definition overview (d : AppDB) (org : string) : json :=
  let inventory := gd_inventory (ad_gateway d) in
  let assets := rows_of pa_org org (d_assets inventory) in
  let relationships := filter (fun kr => pr_status kr.2 = "ACTIVE") (rows_of pr_org org (d_relationships inventory)) in
  JObj [("active", JInt (with_status "ACTIVE" assets)); ("assets", JInt (Z.of_nat (length assets)));
        ("conflicts", JInt (with_status "CONFLICTING" assets)); ("missing", JInt (with_status "MISSING" assets));
        ("relationships", JInt (Z.of_nat (length relationships))); ("stale", JInt (with_status "STALE" assets))].

(** ** Assets *)

Definition asset_json (d : AppDB) (id : string) (a : AssetRow) : json :=
  JObj [("assetType", JStr (pa_type a)); ("canonicalName", JStr (pa_canonical a));
        ("criticality", JStr (default "NORMAL" (ad_criticality d !! id))); ("displayName", JStr (pa_display a));
        ("environment", JStr (default "" (pa_environment a))); ("firstSeenAt", JStr (rfc3339nano (pa_first a)));
        ("id", JStr id); ("lastSeenAt", JStr (rfc3339nano (pa_last a))); ("status", JStr (pa_status a))].

(** The filter of line 395: the pattern of an empty search is two percent signs. *)
Definition asset_matches (pattern : string) (a : AssetRow) : bool :=
  bool_decide (pattern = "%%") || ilike pattern (pa_canonical a) || ilike pattern (pa_display a).

Definition assets (d : AppDB) (org : string) (r : HttpRequest) : json :=
  let limit := boundedInt (query r "limit") 50 1 200 in
  let offset := boundedInt (query r "offset") 0 0 100000 in
  let pattern := "%" +:+ query r "q" +:+ "%" in
  let rows := filter (fun kr => asset_matches pattern kr.2 = true) (rows_of pa_org org (d_assets (gd_inventory (ad_gateway d)))) in
  let items := page limit offset (Graph.order_by (fun kr => pa_canonical kr.2) rows) in
  JObj [("items", JArr ((fun kr => asset_json d kr.1 kr.2) <$> items)); ("limit", JInt limit); ("offset", JInt offset)].

Definition asset (d : AppDB) (org id : string) : option json :=
  a ← d_assets (gd_inventory (ad_gateway d)) !! id;
  if bool_decide (pa_org a = org) then Some (asset_json d id a) else None.

(** What a traversal reads: [created_at] and [updated_at] are not kept. *)
Definition relationship_of (k : string) (p : RelationshipRow) : Relationship :=
  {| r_id := k; r_org := pr_org p; r_from := pr_from p; r_to := pr_to p; r_type := pr_type p; r_status := pr_status p;
     r_first_seen := pr_first p; r_last_seen := pr_last p; r_created := 0; r_updated := 0 |}.

Definition graph_tables (inventory : DB) : Graph.Tables :=
  {| Graph.t_assets := (fun kr => (kr.1, pa_org kr.2)) <$> map_to_list (d_assets inventory);
     Graph.t_relationships := (fun kr => relationship_of kr.1 kr.2) <$> map_to_list (d_relationships inventory) |}.

Definition subresources : list string := ["dependencies"; "dependents"; "impact"; "relationships"].

(** Lines 440-457: the answer, and whether a graph limit refused it. *)
Definition traversal (d : AppDB) (org id kind : string) (r : HttpRequest) : Response * bool :=
  let reverse := bool_decide (kind = "dependents") || bool_decide (kind = "impact") in
  let depth := boundedInt (query r "maxDepth") 3 1 (MaxGraphDepth c) in
  let nodes := boundedInt (query r "maxNodes") 100 1 (MaxGraphNodes c) in
  match Graph.TraversePostgres (graph_tables (gd_inventory (ad_gateway d))) org id depth nodes reverse with
  | Ok result => (answer_with 200 (GraphBody result), false)
  | Err e =>
      if Graph.is_limit e then (writeError 422 "graph_limit_exceeded" r, true) else
      match e with Graph.ErrNoRows => (writeError 404 "not_found" r, false) | _ => (writeError 500 "graph_failed" r, false) end
  end.

Definition assetRoute (d : AppDB) (org route : string) (r : HttpRequest) : Response * bool :=
  match split_on "/"%char route with
  | [_; id] => (match asset d org id with Some v => writeJSON 200 v | None => writeError 404 "not_found" r end, false)
  | [_; id; kind] => if bool_decide (kind ∈ subresources) then traversal d org id kind r else (writeError 404 "not_found" r, false)
  | _ => (writeError 404 "not_found" r, false)
  end.

(** ** Lists *)

(** [genericList]: the columns of the latest rows of an organization. *)
Definition genericList {A} (rows : list (string * A)) (columns : A -> list (string * json)) (at_ : A -> gotime) (r : HttpRequest) : json :=
  let limit := boundedInt (query r "limit") 50 1 200 in
  JObj [("items", JArr ((fun kr => JObj (("id", JStr kr.1) :: columns kr.2)) <$> page limit 0 (latest_first (fun kr => at_ kr.2) rows)))].

Definition optional (v : option string) : json := match v with Some s => JStr s | None => JNull end.
Definition optional_time (v : option gotime) : json := match v with Some t => json_time t | None => JNull end.

Definition change_columns (g : ChangeRow) : list (string * json) :=
  [("change_type", JStr (pg_type g)); ("summary", JStr (pg_summary g)); ("detected_at", json_time (pg_detected g))].

Definition finding_columns (f : FindingRow) : list (string * json) :=
  [("finding_type", JStr (fi_type f)); ("status", JStr (fi_status f)); ("priority", JStr (fi_priority f));
   ("explanation", JStr (fi_explanation f)); ("created_at", json_time (fi_created f))].

Definition connector_columns (n : ConnectorRow) : list (string * json) :=
  [("name", JStr (cn_name n)); ("type", JStr (cn_type n)); ("enabled", JBool (cn_enabled n)); ("authoritative_level", JStr (cn_level n));
   ("last_status", optional (cn_status n)); ("last_successful_sync_at", optional_time (cn_synced n))].

Definition collector_columns (o : CollectorRow) : list (string * json) :=
  [("name", JStr (co_name o)); ("status", JStr (co_status o)); ("collector_version", optional (co_version o));
   ("protocol_version", optional (co_protocol o)); ("compatibility_status", JStr (co_compatibility o));
   ("last_heartbeat_at", optional_time (co_heartbeat o)); ("fingerprint", JStr (co_fingerprint o))].

Definition audit_columns (e : Event) : list (string * json) :=
  [("action", JStr (ev_action e)); ("resource_type", JStr (ev_rtype e)); ("resource_id", JStr (ev_rid e));
   ("request_id", JStr (ev_request e)); ("occurred_at", json_time (ev_at e)); ("event_hash", JStr (ev_hash e))].

Definition changes (d : AppDB) (org : string) : HttpRequest -> json :=
  genericList (rows_of pg_org org (d_changes (gd_inventory (ad_gateway d)))) change_columns pg_detected.
Definition findings (d : AppDB) (org : string) : HttpRequest -> json :=
  genericList (rows_of fi_org org (ad_findings d)) finding_columns fi_created.
Definition connectors (d : AppDB) (org : string) : HttpRequest -> json :=
  genericList (rows_of cn_org org (gd_connectors (ad_gateway d))) connector_columns cn_created.
Definition collectors (d : AppDB) (org : string) : HttpRequest -> json :=
  genericList (rows_of co_org org (gd_collectors (ad_gateway d))) collector_columns co_enrolled.
Definition audits (d : AppDB) (org : string) : HttpRequest -> json :=
  genericList ((fun e => (ev_id e, e)) <$> filter (fun e => ev_org e = org) (gd_audit (ad_gateway d))) audit_columns ev_at.

(** ** Previews *)

Context `{RangeOrder, UnicodeCase} (json_error : string -> string).

Definition preview (code : string) (r : HttpRequest) (p : result string Imports.Preview) : Response :=
  match p with Ok p => answer_with 200 (PreviewBody p) | Err _ => writeError 422 code r end.

Definition csvPreview (r : HttpRequest) : Response :=
  preview "invalid_csv" r (Imports.CSV (hr_body r)
    {| Imports.MaxBytes := MaxImportBytes c; Imports.MaxItems := 0; Imports.MaxDepth := 0; Imports.MaxRows := 10000 |}).

Definition jsonPreview (r : HttpRequest) : Response :=
  preview "invalid_json" r (Imports.JSON json_error (hr_body r)
    {| Imports.MaxBytes := MaxImportBytes c; Imports.MaxItems := 10000; Imports.MaxDepth := 16; Imports.MaxRows := 0 |}).

Definition terraformPreview (r : HttpRequest) : Response :=
  preview "invalid_terraform_state" r (Imports.Terraform (hr_body r) (MaxImportBytes c)).

(** ** The routes *)

Definition me (p : principal) : json :=
  JObj [("id", JStr (pr_user p)); ("organizationId", JStr (pr_organization p));
        ("permissions", JObj ((fun k => (k, JBool true)) <$> merge_sort string_le (elements (pr_permissions p))))].

(** A read of the database behind a permission. *)
Definition read (r : HttpRequest) (p : principal) (permission : string) (v : json) : Response :=
  default (writeJSON 200 v) (require r p permission).

(** What a request under [/api/v1/] does: it answers, noting whether a graph
    limit refused it, or ends the session. *)
Inductive effect := Answer (response : Response) (graph_rejected : bool) | Logout.

Definition api (d : AppDB) (p : principal) (r : HttpRequest) : effect :=
  let org := pr_organization p in
  let route := trim_prefix (hr_path r) "/api/v1/" in
  let get path := bool_decide (hr_method r = "GET") && bool_decide (route = path) in
  let post path := bool_decide (hr_method r = "POST") && bool_decide (route = path) in
  let answer response := Answer response false in
  if get "auth/me" then answer (writeJSON 200 (me p)) else
  if post "auth/logout" then Logout else
  if get "asset-types" then answer (writeJSON 200 (JMap (JStr <$> AssetTypeLabels))) else
  if get "overview" then answer (read r p "asset.read" (overview d org)) else
  if get "assets" then answer (read r p "asset.read" (assets d org r)) else
  if bool_decide (hr_method r = "GET") && has_prefix route "assets/" then
    match require r p "asset.read" with
    | Some refusal => answer refusal
    | None => let '(response, rejected) := assetRoute d org route r in Answer response rejected
    end else
  if post "imports/csv/preview" then answer (default (csvPreview r) (require r p "import.run")) else
  if post "imports/json/preview" then answer (default (jsonPreview r) (require r p "import.run")) else
  if post "imports/terraform/preview" then answer (default (terraformPreview r) (require r p "import.run")) else
  if get "changes" then answer (read r p "asset.read" (changes d org r)) else
  if get "findings" then answer (read r p "finding.read" (findings d org r)) else
  if get "connectors" then answer (read r p "connector.read" (connectors d org r)) else
  if get "collectors" then answer (read r p "collector.read" (collectors d org r)) else
  if get "audit" then answer (read r p "audit.read" (audits d org r)) else
  answer (writeError 404 "not_found" r).

End Queries.
