(* ===== verification/ApiFacts.v ===== *)
(** * What the browser API gives away

    An answer depends on the rows of the principal's organization only, and
    only a live session with the route's permission gets one. *)
From S2P Require Import Prelude GoStrings GoNumbers GoJson GoIo Domain Security Reconcile PgStore AuditChain.
From S2P Require Import Gateway Config Http Sessions Api.
From S2P Require Graph.
From S2P Require GraphFacts.
From S2P Require Imports.
Open Scope string_scope.
Open Scope list_scope.

(** ** One tenant's rows *)

(** The databases hold the same rows of an organization in the tables the API
    reads. *)
Record same_tenant (org : string) (d1 d2 : AppDB) : Prop := {
  sm_assets : filter (fun kr => pa_org kr.2 = org) (d_assets (gd_inventory (ad_gateway d1)))
            = filter (fun kr => pa_org kr.2 = org) (d_assets (gd_inventory (ad_gateway d2)));
  sm_relationships : filter (fun kr => pr_org kr.2 = org) (d_relationships (gd_inventory (ad_gateway d1)))
                   = filter (fun kr => pr_org kr.2 = org) (d_relationships (gd_inventory (ad_gateway d2)));
  sm_changes : filter (fun kr => pg_org kr.2 = org) (d_changes (gd_inventory (ad_gateway d1)))
             = filter (fun kr => pg_org kr.2 = org) (d_changes (gd_inventory (ad_gateway d2)));
  sm_findings : filter (fun kr => fi_org kr.2 = org) (ad_findings d1) = filter (fun kr => fi_org kr.2 = org) (ad_findings d2);
  sm_connectors : filter (fun kr => cn_org kr.2 = org) (gd_connectors (ad_gateway d1))
                = filter (fun kr => cn_org kr.2 = org) (gd_connectors (ad_gateway d2));
  sm_collectors : filter (fun kr => co_org kr.2 = org) (gd_collectors (ad_gateway d1))
                = filter (fun kr => co_org kr.2 = org) (gd_collectors (ad_gateway d2));
  sm_audit : filter (fun e => ev_org e = org) (gd_audit (ad_gateway d1)) = filter (fun e => ev_org e = org) (gd_audit (ad_gateway d2));
  sm_criticality : forall id a, d_assets (gd_inventory (ad_gateway d1)) !! id = Some a -> pa_org a = org ->
    ad_criticality d1 !! id = ad_criticality d2 !! id }.

(** ** Traversals *)

Section Traversals.
Context `{Graph.SqlOrder}.

(** What a traversal reads of the tables. *)
Definition tenant_tables (org : string) (t1 t2 : Graph.Tables) : Prop :=
  (forall id, (id, org) ∈ Graph.t_assets t1 <-> (id, org) ∈ Graph.t_assets t2) /\
  filter (fun e => r_org e = org) (Graph.t_relationships t1) ≡ₚ filter (fun e => r_org e = org) (Graph.t_relationships t2) /\
  NoDup (r_id <$> Graph.t_relationships t1).

Lemma remove_dups_perm {A} `{EqDecision A} (l1 l2 : list A) : l1 ≡ₚ l2 -> remove_dups l1 ≡ₚ remove_dups l2.
Proof.
  intros E. apply NoDup_Permutation; [apply NoDup_remove_dups..|]. intros x. by rewrite !elem_of_remove_dups, E.
Qed.

Lemma filter_tenant org (P : Relationship -> Prop) `{!forall e, Decision (P e)} (l1 l2 : list Relationship) :
  (forall e, P e -> r_org e = org) -> filter (fun e => r_org e = org) l1 ≡ₚ filter (fun e => r_org e = org) l2 -> filter P l1 ≡ₚ filter P l2.
Proof.
  intros HP E. assert (forall l : list Relationship, filter P (filter (fun e => r_org e = org) l) = filter P l) as Hf; [|by rewrite <- (Hf l1), <- (Hf l2), E].
  intros l. rewrite list_filter_filter_l; [done|]. exact HP.
Qed.

Lemma followed_org org e : Graph.followed org e = true -> r_org e = org.
Proof. unfold Graph.followed. intros [Ho%bool_decide_eq_true _]%andb_true_iff. done. Qed.

Lemma pg_loop_tenant org reverse max t1 t2 : tenant_tables org t1 t2 ->
  forall levels level seen frontier nodes depth,
  Graph.pg_loop t1 org reverse max levels level seen frontier nodes depth = Graph.pg_loop t2 org reverse max levels level seen frontier nodes depth.
Proof.
  intros (_ & E & _). induction levels as [|levels IH]; intros level seen frontier nodes depth; [done|]. cbn [Graph.pg_loop].
  destruct frontier as [|f frontier]; [done|].
  assert (forall visited limit, Graph.next_targets t1 org reverse (f :: frontier) visited limit = Graph.next_targets t2 org reverse (f :: frontier) visited limit) as ->.
  { intros visited limit. unfold Graph.next_targets. f_equal. apply Graph.order_by_rows.
    - apply remove_dups_perm. f_equiv. apply (filter_tenant org); [|done]. intros e [He _]. by apply followed_org.
    - rewrite list_fmap_id. apply NoDup_remove_dups. }
  destruct (foldl _ _ _) as [seen' next]. destruct (_ <? _)%Z; [done|]. destruct next; apply IH.
Qed.

Lemma TraversePostgres_tenant org t1 t2 start depth max reverse : tenant_tables org t1 t2 ->
  Graph.TraversePostgres t1 org start depth max reverse = Graph.TraversePostgres t2 org start depth max reverse.
Proof.
  intros Ht. pose proof Ht as (Ha & E & Hn). unfold Graph.TraversePostgres. do 2 (destruct (_ || _); [done|]).
  assert (Graph.asset_exists t1 org start = Graph.asset_exists t2 org start) as -> by (unfold Graph.asset_exists; by apply bool_decide_ext).
  destruct (Graph.asset_exists _ _ _); [cbn [negb]|done]. rewrite (pg_loop_tenant _ _ _ _ _ Ht).
  destruct (Graph.pg_loop _ _ _ _ _ _ _ _ _ _) as [[nodes d]|]; [cbn [mbind result_bind]|done].
  do 2 f_equal. unfold Graph.edges_among. apply Graph.order_by_rows.
  - apply (filter_tenant org); [|done]. intros e [He _]. by apply followed_org.
  - eapply sublist_NoDup; [exact Hn|apply fmap_sublist, sublist_filter].
Qed.

End Traversals.

(** ** Rows *)

Lemma rows_of_eq {A} (org_of : A -> string) org (t1 t2 : gmap string A) :
  filter (fun kr => org_of kr.2 = org) t1 = filter (fun kr => org_of kr.2 = org) t2 -> rows_of org_of org t1 = rows_of org_of org t2.
Proof. unfold rows_of. by intros ->. Qed.

Lemma elem_of_rows {A} (org_of : A -> string) org (t : gmap string A) k r : (k, r) ∈ rows_of org_of org t <-> t !! k = Some r /\ org_of r = org.
Proof. unfold rows_of. by rewrite elem_of_map_to_list, map_lookup_filter_Some. Qed.

(** A row of the organization is in both tables or in neither. *)
Lemma row_of {A} (org_of : A -> string) org (t1 t2 : gmap string A) k r : rows_of org_of org t1 = rows_of org_of org t2 -> org_of r = org ->
  t1 !! k = Some r -> t2 !! k = Some r.
Proof. intros E Ho Hk. apply (elem_of_rows org_of org). rewrite <- E. by apply elem_of_rows. Qed.

Section Answers.
Context `{SqlText, Graph.SqlOrder, SqlTimeOrder, RangeOrder, UnicodeCase} (c : Config) (json_error : string -> string).

Section Tenant.
Variables (org : string) (d1 d2 : AppDB).
Hypothesis Hsame : same_tenant org d1 d2.

Let Hassets := rows_of_eq _ _ _ _ (sm_assets _ _ _ Hsame).
Let Hrelationships := rows_of_eq _ _ _ _ (sm_relationships _ _ _ Hsame).

Lemma overview_tenant : overview d1 org = overview d2 org.
Proof. unfold overview. by rewrite Hassets, Hrelationships. Qed.

Lemma asset_json_tenant id a : d_assets (gd_inventory (ad_gateway d1)) !! id = Some a -> pa_org a = org ->
  asset_json d1 id a = asset_json d2 id a.
Proof. intros Hid Ho. unfold asset_json. by rewrite (sm_criticality _ _ _ Hsame id a). Qed.

Lemma asset_tenant id : asset d1 org id = asset d2 org id.
Proof.
  unfold asset. destruct (d_assets (gd_inventory (ad_gateway d1)) !! id) as [a|] eqn:E1; destruct (d_assets (gd_inventory (ad_gateway d2)) !! id) as [b|] eqn:E2;
    cbn [mbind option_bind]; try done.
  - destruct (decide (pa_org a = org)) as [Ha|Ha].
    + pose proof (row_of _ _ _ _ _ _ Hassets Ha E1) as E. rewrite E2 in E. injection E as ->. rewrite !bool_decide_true by done. f_equal. by apply asset_json_tenant.
    + rewrite (bool_decide_false (pa_org a = org)) by done. case_bool_decide as Hb; [|done].
      pose proof (row_of _ _ _ _ _ _ (eq_sym Hassets) Hb E2) as E. rewrite E1 in E. by injection E as ->.
  - case_bool_decide as Ha; [|done]. pose proof (row_of _ _ _ _ _ _ Hassets Ha E1). congruence.
  - case_bool_decide as Hb; [|done]. pose proof (row_of _ _ _ _ _ _ (eq_sym Hassets) Hb E2). congruence.
Qed.

Lemma assets_tenant r : assets d1 org r = assets d2 org r.
Proof.
  unfold assets. rewrite Hassets. f_equal. do 2 f_equal. f_equal. apply list_fmap_ext. intros _ [id a] Hin%list_elem_of_lookup_2.
  apply subseteq_take, subseteq_drop in Hin. rewrite Graph.order_by_perm in Hin. apply list_elem_of_filter in Hin as [_ Hin]. cbn [fst snd].
  rewrite <- Hassets in Hin. apply elem_of_rows in Hin as [Hid Ho]. by apply asset_json_tenant.
Qed.

Lemma graph_tables_tenant : tenant_tables org (graph_tables (gd_inventory (ad_gateway d1))) (graph_tables (gd_inventory (ad_gateway d2))).
Proof.
  assert (forall d id, (id, org) ∈ Graph.t_assets (graph_tables (gd_inventory (ad_gateway d)))
    <-> exists a, (id, a) ∈ rows_of pa_org org (d_assets (gd_inventory (ad_gateway d)))) as Ha.
  { intros d id. cbn [graph_tables Graph.t_assets]. rewrite list_elem_of_fmap. setoid_rewrite elem_of_rows. split.
    - intros ([k a] & [= -> Ho] & Hin%elem_of_map_to_list). by exists a.
    - intros (a & Hid & <-). exists (id, a). by rewrite elem_of_map_to_list. }
  assert (forall d, filter (fun e => r_org e = org) (Graph.t_relationships (graph_tables (gd_inventory (ad_gateway d))))
    ≡ₚ (fun kr => relationship_of kr.1 kr.2) <$> rows_of pr_org org (d_relationships (gd_inventory (ad_gateway d)))) as Hr.
  { intros d. cbn [graph_tables Graph.t_relationships]. rewrite filter_fmap_list. apply fmap_Permutation. unfold rows_of. by rewrite map_to_list_filter. }
  split_and!.
  - intros id. by rewrite !Ha, Hassets.
  - by rewrite !Hr, Hrelationships.
  - cbn [graph_tables Graph.t_relationships]. rewrite <- list_fmap_compose. apply NoDup_fst_map_to_list.
Qed.

Lemma assetRoute_tenant route r : assetRoute c d1 org route r = assetRoute c d2 org route r.
Proof.
  unfold assetRoute. destruct (split_on _ route) as [|? [|id [|kind [|]]]]; try done; [by rewrite asset_tenant|].
  destruct (bool_decide _); [|done]. unfold traversal. by rewrite (TraversePostgres_tenant _ _ _ _ _ _ _ graph_tables_tenant).
Qed.

(** Two databases with the same rows of the principal's organization answer
    every request alike. *)
Lemma api_tenant p r : pr_organization p = org -> api c json_error d1 p r = api c json_error d2 p r.
Proof.
  intros Hp. unfold api, changes, findings, connectors, collectors, audits. rewrite Hp, overview_tenant, assets_tenant, assetRoute_tenant.
  rewrite (rows_of_eq _ _ _ _ (sm_changes _ _ _ Hsame)), (rows_of_eq _ _ _ _ (sm_findings _ _ _ Hsame)),
    (rows_of_eq _ _ _ _ (sm_connectors _ _ _ Hsame)), (rows_of_eq _ _ _ _ (sm_collectors _ _ _ Hsame)), (sm_audit _ _ _ Hsame). done.
Qed.

End Tenant.
End Answers.
