(* ===== verification/Enrollment.v ===== *)
(** * Collectors at the control plane ([internal/app/app.go])

    [enroll] trades a token for a collector, a credential and a connector in one
    transaction, [collectorHeartbeat] records what a collector reports, and the
    snapshot handler puts [decode] before the gateway. *)
From S2P Require Import Prelude GoStrings GoJson GoJsonDecode GoEncoding GoHash GoIo Domain DomainJson Security Reconcile PgStore AuditChain.
From S2P Require Import ReconcilePg RateLimit Gateway Config Http Sessions.
Open Scope string_scope.
Open Scope list_scope.

(** ** Requests *)

Record EnrollForm := {
  ef_token : string; ef_name : string; ef_key : string; ef_version : string; ef_protocol : string;
  ef_connector_name : string; ef_connector_type : string }.

Definition zero_enroll : EnrollForm := Build_EnrollForm "" "" "" "" "" "" "".

Definition enroll_fields : list (field EnrollForm) := [
  into "Token" ef_token (fun v '(Build_EnrollForm _ b c d e f g) => Build_EnrollForm v b c d e f g) dec_string;
  into "Name" ef_name (fun v '(Build_EnrollForm a _ c d e f g) => Build_EnrollForm a v c d e f g) dec_string;
  into "PublicKey" ef_key (fun v '(Build_EnrollForm a b _ d e f g) => Build_EnrollForm a b v d e f g) dec_string;
  into "CollectorVersion" ef_version (fun v '(Build_EnrollForm a b c _ e f g) => Build_EnrollForm a b c v e f g) dec_string;
  into "ProtocolVersion" ef_protocol (fun v '(Build_EnrollForm a b c d _ f g) => Build_EnrollForm a b c d v f g) dec_string;
  into "ConnectorName" ef_connector_name (fun v '(Build_EnrollForm a b c d e _ g) => Build_EnrollForm a b c d e v g) dec_string;
  into "ConnectorType" ef_connector_type (fun v '(Build_EnrollForm a b c d e f _) => Build_EnrollForm a b c d e f v) dec_string].

Record HeartbeatForm := {
  hf_version : string; hf_protocol : string; hf_os : string; hf_architecture : string; hf_capabilities : option (list string);
  hf_jobs : Z; hf_health : string }.

Definition zero_heartbeat : HeartbeatForm := Build_HeartbeatForm "" "" "" "" None 0 "".

Definition heartbeat_fields : list (field HeartbeatForm) := [
  into "CollectorVersion" hf_version (fun v '(Build_HeartbeatForm _ b c d e f g) => Build_HeartbeatForm v b c d e f g) dec_string;
  into "ProtocolVersion" hf_protocol (fun v '(Build_HeartbeatForm a _ c d e f g) => Build_HeartbeatForm a v c d e f g) dec_string;
  into "OS" hf_os (fun v '(Build_HeartbeatForm a b _ d e f g) => Build_HeartbeatForm a b v d e f g) dec_string;
  into "Architecture" hf_architecture (fun v '(Build_HeartbeatForm a b c _ e f g) => Build_HeartbeatForm a b c v e f g) dec_string;
  into "Capabilities" hf_capabilities (fun v '(Build_HeartbeatForm a b c d _ f g) => Build_HeartbeatForm a b c d v f g) (dec_slice "" dec_string);
  into "RunningJobs" hf_jobs (fun v '(Build_HeartbeatForm a b c d e _ g) => Build_HeartbeatForm a b c d e v g) dec_int;
  into "HealthSummary" hf_health (fun v '(Build_HeartbeatForm a b c d e f _) => Build_HeartbeatForm a b c d e f v) dec_string].

(** ** Tables *)

Definition with_collectors (collectors : table CollectorRow) (credentials : table CredentialRow) (connectors : table ConnectorRow)
    (g : GatewayDB) : GatewayDB :=
  {| gd_collectors := collectors; gd_credentials := credentials; gd_connectors := connectors; gd_snapshots := gd_snapshots g;
     gd_thresholds := gd_thresholds g; gd_inventory := gd_inventory g; gd_audit := gd_audit g |}.

Definition compatibility (protocol : string) : string := if has_prefix protocol "1." then "COMPATIBLE" else "INCOMPATIBLE".

(** The random bytes of an enrolment's identifiers and credential. *)
Record Drawn := { dr_collector : string; dr_connector : string; dr_credential_id : string; dr_credential : random }.

Section Enrollment.
Context `{RangeOrder, Postgres, Ed25519, UnicodeCase, AuditStore} (c : Config) (public_key : string -> PublicKey).

(** ** Enrolment *)

(** Line 545: the token, unused and unexpired, of this scope. *)
Definition usable_token (now : gotime) (token : string) (t : TokenRow) : bool :=
  bool_decide (to_hash t = TokenHash token) && bool_decide (to_used t = None) && (now <? to_expires t)%Z
  && bool_decide (to_scope t = "collector.enroll").

Definition spend (now : gotime) (t : TokenRow) : TokenRow :=
  {| to_org := to_org t; to_hash := to_hash t; to_expires := to_expires t; to_used := Some (column_time now); to_scope := to_scope t |}.

(** The rows of lines 558-576. *)
Definition new_collector (now : gotime) (org raw : string) (f : EnrollForm) : CollectorRow :=
  {| co_org := org; co_name := ef_name f; co_key := raw; co_fingerprint := hex_encode (sha256 raw); co_status := "ACTIVE";
     co_version := Some (ef_version f); co_protocol := Some (ef_protocol f); co_compatibility := compatibility (ef_protocol f);
     co_os := None; co_architecture := None; co_capabilities := "[]"; co_heartbeat := None; co_enrolled := column_time now;
     co_revoked := None |}.

Definition new_credential (collector credential : string) : CredentialRow :=
  {| cr_collector := collector; cr_hash := TokenHash credential; cr_revoked := None; cr_expires := None |}.

Definition connector_type (f : EnrollForm) : string :=
  let t := to_upper (trim_space (ef_connector_type f)) in if bool_decide (t = "") then "DOCKER" else t.

Definition connector_name (f : EnrollForm) : string :=
  let n := trim_space (ef_connector_name f) in
  if bool_decide (n = "") then ef_name f +:+ " " +:+ to_lower (connector_type f) else n.

Definition new_connector (now : gotime) (org collector : string) (f : EnrollForm) : ConnectorRow :=
  {| cn_org := org; cn_collector := Some collector; cn_name := connector_name f; cn_type := connector_type f; cn_enabled := true;
     cn_level := "OBSERVED"; cn_status := Some "ENROLLED"; cn_synced := None; cn_created := column_time now |}.

(** Whether the three insertions violate no constraint. *)
Definition enrollable (g : GatewayDB) (collector credential connector org fingerprint : string) : bool :=
  bool_decide (gd_collectors g !! collector = None) &&
  bool_decide (map_Forall (fun _ o => ~ (co_org o = org /\ co_fingerprint o = fingerprint)) (gd_collectors g)) &&
  bool_decide (gd_credentials g !! credential = None) && bool_decide (gd_connectors g !! connector = None).

(** Lines 538-585, inside the transaction: a refusal rolls it back. *)
Definition enroll_tx (now : gotime) (drawn : Drawn) (raw : string) (f : EnrollForm) (r : HttpRequest) (d : AppDB) : AppDB * Response :=
  match find_row (usable_token now (ef_token f)) (ad_tokens d) with
  | None => (d, writeError 401 "invalid_enrollment_token" r)
  | Some (k, t) =>
      let g := ad_gateway d in
      let org := to_org t in
      let collector := newID "collector" (dr_collector drawn) in
      let connector := newID "connector" (dr_connector drawn) in
      let credential_id := newID "credential" (dr_credential_id drawn) in
      let credential := match RandomToken (dr_credential drawn) with Ok s => s | Err _ => "" end in
      if negb (bool_decide (connector_type f ∈ ["DOCKER"; "KUBERNETES"])) then (d, writeError 422 "invalid_connector_type" r) else
      let row := new_collector now org raw f in
      if negb (enrollable g collector credential_id connector org (co_fingerprint row)) then (d, writeError 500 "internal_error" r) else
      let g := with_collectors (<[collector := row]> (gd_collectors g)) (<[credential_id := new_credential collector credential]> (gd_credentials g))
        (<[connector := new_connector now org collector f]> (gd_connectors g)) g in
      (set_gateway g (set_tokens (<[k := spend now t]> (ad_tokens d)) d),
       writeJSON 201 (JObj [("collectorId", JStr collector); ("compatibilityStatus", JStr (co_compatibility row)); ("connectorId", JStr connector);
         ("credential", JStr credential); ("organizationId", JStr org)]))
  end.

Definition enroll (now : gotime) (drawn : Drawn) (r : HttpRequest) (a : App) : App * Response :=
  match ap_db a with
  | None => (a, writeError 503 "database_unavailable" r)
  | Some d =>
      let '(auth, ok) := allow now (clientIP c r) (ap_auth a) in
      let a := set_auth auth a in
      if negb ok then (a, writeError 429 "rate_limited" r) else
      match decode (hr_body r) (Z.shiftl 64 10) zero_enroll (dec_struct true enroll_fields) with
      | Err (status, code) => (a, writeError status code r)
      | Ok f =>
          match std_decode (ef_key f) with
          | Some raw =>
              if negb (len raw =? 32)%Z then (a, writeError 422 "invalid_public_key" r) else
              let '(d, response) := enroll_tx now drawn raw f r d in (set_db d a, response)
          | None => (a, writeError 422 "invalid_public_key" r)
          end
      end
  end.

(** ** Heartbeats *)

Definition marshal_strings (l : option (list string)) : string :=
  match l with None => "null" | Some l => json_array (json_string <$> l) end.

(** Line 622. *)
Definition beat (now : gotime) (id org : string) (f : HeartbeatForm) (k : string) (o : CollectorRow) : CollectorRow :=
  if bool_decide (k = id) && bool_decide (co_org o = org) then
    {| co_org := co_org o; co_name := co_name o; co_key := co_key o; co_fingerprint := co_fingerprint o; co_status := co_status o;
       co_version := Some (hf_version f); co_protocol := Some (hf_protocol f); co_compatibility := compatibility (hf_protocol f);
       co_os := Some (hf_os f); co_architecture := Some (hf_architecture f); co_capabilities := marshal_strings (hf_capabilities f);
       co_heartbeat := Some (column_time now); co_enrolled := co_enrolled o; co_revoked := co_revoked o |}
  else o.

(** [collectorPrincipal] on a request; without a database there is nobody. *)
Definition request_principal (now : gotime) (r : HttpRequest) (a : App) : option (AppDB * (string * string * PublicKey)) :=
  d ← ap_db a; p ← collectorPrincipal public_key (ad_gateway d) now (header r "Authorization"); Some (d, p).

Definition collectorHeartbeat (now : gotime) (r : HttpRequest) (a : App) : App * Response :=
  match request_principal now r a with
  | None => (a, writeError 401 "collector_unauthorized" r)
  | Some (d, (id, org, _)) =>
      match decode (hr_body r) (Z.shiftl 128 10) zero_heartbeat (dec_struct true heartbeat_fields) with
      | Err (status, code) => (a, writeError status code r)
      | Ok f =>
          let g := ad_gateway d in
          let g := with_collectors (map_imap (fun k o => Some (beat now id org f k o)) (gd_collectors g)) (gd_credentials g) (gd_connectors g) g in
          (set_db (set_gateway g d) a,
           writeJSON 200 (JObj [("compatibilityStatus", JStr (compatibility (hf_protocol f))); ("serverTime", JStr (rfc3339nano now))]))
      end
  end.

(** ** Snapshots *)

(** The gateway's answer as a response. *)
Definition respond (r : HttpRequest) (a : answer) : Response :=
  match a with
  | Gateway.Refused status code => writeError status code r
  | Gateway.Accepted id status summary => answer_with 202 (SnapshotBody id status summary)
  end.

(** A refused signature is counted; no other refusal has its code. *)
Definition count_signature (a : answer) (m : Metrics) : Metrics :=
  match a with
  | Gateway.Refused _ code =>
      if bool_decide (code = "invalid_snapshot_signature")
      then {| mt_requests := mt_requests m; mt_failures := mt_failures m; mt_signatures := wrap_u64 (mt_signatures m + 1); mt_graph := mt_graph m |}
      else m
  | _ => m
  end.

Definition snapshot_body (r : HttpRequest) : result (Z * string) SnapshotEnvelope :=
  decode (hr_body r) (MaxSnapshotBytes c) zero_envelope (dec_envelope true).

Definition post_snapshot (now : gotime) (raw_id : string) (r : HttpRequest) (a : App) : App * Response :=
  match ap_db a with
  | None => (a, writeError 401 "collector_unauthorized" r)
  | Some d =>
      let '(g, l, answer) := collectorSnapshot public_key now (ad_gateway d) (ap_snapshots a) (header r "Authorization")
        (snapshot_body r) (newID "audit" raw_id) (requestID r) in
      let a := set_snapshots l (set_db (set_gateway g d) a) in
      (set_metrics (count_signature answer (ap_metrics a)) a, respond r answer)
  end.

End Enrollment.
