(* ===== verification/App.v ===== *)
(** * The control plane's HTTP application ([internal/app/app.go])

    [Handler] routes a request to its handler, the API's behind the session
    guard; [middleware] is around all of them. Paths are canonical: Go's
    [ServeMux] redirects the others, and [/api/v1] to [/api/v1/],
    before a handler runs. *)
From S2P Require Import Prelude GoStrings GoJson GoIo Domain Security Reconcile PgStore AuditChain RateLimit.
From S2P Require Import Gateway Config Http Sessions Api Enrollment.
From S2P Require Graph.
From Stdlib Require Import Ascii.
Open Scope string_scope.

Definition nl_string : string := String (ascii_of_N 10) "".

Open Scope list_scope.

(** What one request meets besides its content: the time, the bytes its
    handlers draw, the bytes of a request identifier, and whether the database
    and the object store are reachable ([None]: no store is configured). *)
Record Situation := {
  si_now : gotime; si_token : random; si_csrf : random; si_drawn : Drawn; si_audit : string; si_request : string;
  si_database : bool; si_objects : option bool }.

Definition bump (m : Metrics) (requests failures graph : Z) : Metrics :=
  {| mt_requests := wrap_u64 (mt_requests m + requests); mt_failures := wrap_u64 (mt_failures m + failures);
     mt_signatures := mt_signatures m; mt_graph := wrap_u64 (mt_graph m + graph) |}.

Section App.
Context `{SqlText, Graph.SqlOrder, SqlTimeOrder, RangeOrder, Postgres, Ed25519, Argon2, AesGcm, UnicodeCase, AuditStore}.
Variables (c : Config) (started : gotime) (public_key : string -> PublicKey) (json_error : string -> string).

(** [New], on a database or none. *)
Definition New (d : option AppDB) : App :=
  {| ap_db := d; ap_auth := new_limiter 10 minute; ap_snapshots := new_limiter 30 minute; ap_metrics := Build_Metrics 0 0 0 0 |}.

(** ** Probes *)

Definition health : Response := writeJSON 200 (JObj [("status", JStr "ok")]).
Definition startup : Response := writeJSON 200 (JObj [("startedAt", JStr (rfc3339nano started)); ("status", JStr "started")]).

Definition ready (i : Situation) (r : HttpRequest) (a : App) : Response :=
  match ap_db a with
  | None => writeError 503 "database_unavailable" r
  | Some _ =>
      if negb (si_database i) then writeError 503 "not_ready" r else
      if bool_decide (si_objects i = Some false) then writeError 503 "not_ready" r else writeJSON 200 (JObj [("status", JStr "ready")])
  end.

Definition metric (name : string) (v : Z) : string :=
  "# TYPE " +:+ name +:+ " counter" +:+ nl_string +:+ name +:+ " " +:+ format_int v +:+ nl_string.

Definition prometheus (a : App) : Response :=
  let m := ap_metrics a in
  {| rs_status := 200; rs_headers := {["Content-Type" := "text/plain; version=0.0.4"]}; rs_cookies := [];
     rs_body := TextBody (metric "http_requests_total" (mt_requests m) +:+ metric "http_failures_total" (mt_failures m)
       +:+ metric "collector_signature_failures_total" (mt_signatures m) +:+ metric "graph_query_limit_rejections_total" (mt_graph m)) |}.

(** ** Routing *)

(** A request under [/api/v1/]: the guard, then [api]. *)
Definition guarded (i : Situation) (r : HttpRequest) (a : App) : App * Response :=
  match session c (si_now i) r a with
  | inl refusal => (a, refusal)
  | inr (d, p) =>
      match api c json_error d p r with
      | Answer response rejected =>
          (if rejected then set_metrics (bump (ap_metrics a) 0 0 1) a else a, response)
      | Logout => let '(d, response) := logout c (si_now i) r p d in (set_db d a, response)
      end
  end.

(** The patterns of [Handler]; a GET pattern serves HEAD too. *)
Definition is_get (r : HttpRequest) : bool := bool_decide (hr_method r = "GET") || bool_decide (hr_method r = "HEAD").
Definition is_post (r : HttpRequest) : bool := bool_decide (hr_method r = "POST").

Definition plain_text (status : Z) (text : string) : Response :=
  {| rs_status := status; rs_headers := {["Content-Type" := "text/plain; charset=utf-8"]}; rs_cookies := []; rs_body := TextBody text |}.

Definition with_post (r : HttpRequest) (a : App) (h : App * option Response) : App * option Response :=
  if is_post r then h else (a, Some (plain_text 405 "Method Not Allowed")).
Definition with_get (r : HttpRequest) (a : App) (response : Response) : App * option Response :=
  (a, Some (if is_get r then response else plain_text 405 "Method Not Allowed")).

Definition total (h : App * Response) : App * option Response := (h.1, Some h.2).

Definition Handler (i : Situation) (r : HttpRequest) (a : App) : App * option Response :=
  let at_ path := bool_decide (hr_path r = path) in
  if at_ "/health" then with_get r a health else
  if at_ "/ready" then with_get r a (ready i r a) else
  if at_ "/startup" then with_get r a startup else
  if at_ "/metrics" then with_get r a (prometheus a) else
  if at_ "/api/v1/auth/login" && is_post r then login c (si_now i) (si_token i) (si_csrf i) r a else
  if at_ "/collector/v1/enroll" then with_post r a (total (enroll c (si_now i) (si_drawn i) r a)) else
  if at_ "/collector/v1/heartbeat" then with_post r a (total (collectorHeartbeat public_key (si_now i) r a)) else
  if at_ "/collector/v1/snapshots" then with_post r a (total (post_snapshot c public_key (si_now i) (si_audit i) r a)) else
  if has_prefix (hr_path r) "/api/v1/" then total (guarded i r a) else
  (a, Some (plain_text 404 "404 page not found")).

(** ** The middleware *)

Definition set_header (r : HttpRequest) (k v : string) : HttpRequest :=
  {| hr_method := hr_method r; hr_path := hr_path r; hr_query := hr_query r; hr_headers := <[k := v]> (hr_headers r);
     hr_cookies := hr_cookies r; hr_remote := hr_remote r; hr_body := hr_body r |}.

Definition request_id (i : Situation) (r : HttpRequest) : string :=
  let rid := header r "X-Request-ID" in if bool_decide (rid = "") then newID "req" (si_request i) else rid.

Definition allowed_origin (origin : string) : bool := negb (bool_decide (origin = "")) && contains (AllowedOrigins c) origin.

(** The headers of every answer, lines 145-153. *)
Definition security_headers (rid : string) : gmap string string :=
  let fixed := {["X-Request-ID" := rid; "X-Content-Type-Options" := "nosniff"; "Referrer-Policy" := "no-referrer"; "X-Frame-Options" := "DENY";
    "Permissions-Policy" := "camera=(), microphone=(), geolocation=()";
    "Content-Security-Policy" := "default-src 'none'; frame-ancestors 'none'"]} in
  if bool_decide (Environment c = "production")
  then <["Strict-Transport-Security" := "max-age=31536000; includeSubDomains"]> fixed else fixed.

Definition cors_headers (origin : string) : gmap string string :=
  if allowed_origin origin
  then {["Access-Control-Allow-Origin" := origin; "Access-Control-Allow-Credentials" := "true"; "Vary" := "Origin"]} else ∅.

Definition preflight_headers : gmap string string :=
  {["Access-Control-Allow-Methods" := "GET,POST,PATCH,DELETE,OPTIONS";
    "Access-Control-Allow-Headers" := "Content-Type,X-CSRF-Token,X-Request-ID,Idempotency-Key"]}.

(** What a handler sets goes over what was set before it. *)
Definition with_headers (h : gmap string string) (r : Response) : Response :=
  {| rs_status := rs_status r; rs_headers := rs_headers r ∪ h; rs_cookies := rs_cookies r; rs_body := rs_body r |}.

Definition middleware (next : HttpRequest -> App -> App * option Response) (i : Situation) (r : HttpRequest) (a : App) : App * option Response :=
  let rid := request_id i r in
  let r := set_header r "X-Request-ID" rid in
  let origin := header r "Origin" in
  let headers := cors_headers origin ∪ security_headers rid in
  if bool_decide (hr_method r = "OPTIONS") then
    (a, Some (with_headers headers
      (if allowed_origin origin then {| rs_status := 204; rs_headers := preflight_headers; rs_cookies := []; rs_body := NoBody |}
       else writeError 403 "origin_denied" r)))
  else
    let '(a, response) := next r (set_metrics (bump (ap_metrics a) 1 0 0) a) in
    match response with
    | None => (a, None)
    | Some response =>
        (if (400 <=? rs_status response)%Z then set_metrics (bump (ap_metrics a) 0 1 0) a else a, Some (with_headers headers response))
    end.

(** One request to the server. *)
Definition serve (i : Situation) (r : HttpRequest) (a : App) : App * option Response := middleware (Handler i) i r a.

End App.
