(* ===== verification/AppSample.v ===== *)
(** * A control plane to run

    PostgreSQL's text functions and orders by plain definitions, and an
    application with one organization, on which the theorems about [App.v] are
    tried. *)
From S2P Require Import Prelude GoStrings GoNumbers GoJson GoEncoding GoTime GoNetip GoIo Domain Security SecurityFacts AuditChain Reconcile PgStore RateLimit.
From S2P Require Import Gateway GatewayFacts Config Http Sessions Api Enrollment App.
From S2P Require Graph.
From Stdlib Require Import Ascii.
Open Scope string_scope.
Open Scope list_scope.

(** ASCII case, substrings, and times as the API prints them. *)
Definition ascii_text : SqlText :=
  {| sql_lower := to_lower;
     ilike := fun pattern s => contains_sub (to_lower s) (to_lower (trim_cut ["%"%char] pattern));
     json_time := fun t => JStr (rfc3339nano t) |}.

Section Order.
Context {A : Type} (key : A -> gotime).

Definition newer : A -> A -> Prop := fun x y => (key y <= key x)%Z.

#[export] Instance newer_dec : RelDecision newer := fun x y => Z.le_dec (key y) (key x).
#[export] Instance newer_total : Total newer.
Proof. intros x y. unfold newer. lia. Qed.
#[export] Instance newer_trans : Transitive newer.
Proof. intros x y z. unfold newer. lia. Qed.

End Order.

Definition newest_first : SqlTimeOrder.
Proof.
  refine {| latest_first := fun A key l => merge_sort (newer key) l |}.
  - intros A key l. apply merge_sort_Permutation.
  - intros A key l. apply (StronglySorted_merge_sort (newer key)).
Defined.

#[export] Existing Instances plain_postgres sorted_range toy_ed25519 toy_argon2 toy_gcm ascii_case microseconds ascii_text newest_first
  Graph.byte_order.

(** ** The application *)

Definition sample_config : Config :=
  {| Environment := "production"; HTTPAddr := ":8080"; DatabaseURL := ""; SessionSecret := "0123456789abcdef0123456789abcdef";
     MasterKey := "MDEyMzQ1Njc4OWFiY2RlZjAxMjM0NTY3ODlhYmNkZWY="; AllowedOrigins := ["https://console"]; ObjectStorageType := "local";
     ObjectStoragePath := "data"; S3Endpoint := ""; S3Bucket := ""; S3AccessKey := ""; S3SecretKey := ""; S3UseTLS := false;
     OTELEnabled := false; Debug := false; OTELEndpoint := ""; MaxGraphDepth := 8; MaxGraphNodes := 1000; MaxImportBytes := 1048576;
     MaxSnapshotBytes := 1048576; MaxConcurrentReconciliations := 4; CollectorHeartbeatInterval := 30 * nano;
     TrustedProxyCIDRs := match ParsePrefix "10.0.0.0/8" with Some p => [p] | None => [] end |}.

Definition sample_now : gotime := 63900000000000000000.

Definition password_hash (password : string) : string :=
  match HashPassword (Ok "0123456789abcdef") password with Ok h => h | Err _ => "" end.

Definition sample_tokens : gmap string TokenRow :=
  {["t" := {| to_org := "acme"; to_hash := TokenHash "enroll-me"; to_expires := sample_now + 3600 * nano; to_used := None;
    to_scope := "collector.enroll" |}]}.

(** A user with a recovery code and the role of a reader, an enrolment token,
    and the gateway's collector of another organization. *)
Definition sample_db : AppDB :=
  {| ad_users := {["alice" := {| us_org := "acme"; us_email := "Alice@acme.example"; us_hash := password_hash "correct horse battery";
       us_active := true; us_mfa := true |}]};
     ad_sessions := ∅;
     ad_mfa := ∅;
     ad_recovery := {["code" := {| rc_user := "alice"; rc_hash := TokenHash "recovery-1"; rc_used := None |}]};
     ad_user_roles := {[("alice", "reader")]};
     ad_role_permissions := {[("reader", "p1")]};
     ad_permissions := {["p1" := "asset.read"]};
     ad_tokens := sample_tokens;
     ad_findings := ∅; ad_criticality := ∅; ad_gateway := sample_gateway |}.

Definition sample_app : App := New (Some sample_db).

(** A request from behind the proxy. *)
Definition request (method path : string) (headers cookies : list (string * string)) (body : string) : HttpRequest :=
  {| hr_method := method; hr_path := path; hr_query := ∅; hr_headers := list_to_map headers; hr_cookies := list_to_map cookies;
     hr_remote := "10.0.0.1:40000"; hr_body := {| content := body; failure := None |} |}.

Definition situation (now : gotime) : Situation :=
  {| si_now := now; si_token := Ok "session-token-32-bytes-of-entropy"; si_csrf := Ok "csrf-token-32-bytes-of-entropy!!!";
     si_drawn := {| dr_collector := "collector-random"; dr_connector := "connector-random"; dr_credential_id := "credential-random";
       dr_credential := Ok "credential-of-32-random-bytes!!!" |};
     si_audit := "audit-random"; si_request := "request-random"; si_database := true; si_objects := None |}.

(** Single quotes for double ones, in bodies. *)
Fixpoint quoted (s : string) : string :=
  match s with
  | EmptyString => ""
  | String c s' => String (if (c =? "'")%char then ascii_of_N 34 else c) (quoted s')
  end.

Definition login_request : HttpRequest :=
  request "POST" "/api/v1/auth/login" [("X-Forwarded-For", "1.2.3.4, 203.0.113.9")] []
    (quoted "{'email':'alice@ACME.example','password':'correct horse battery','recoveryCode':'recovery-1'}").

(** What Alice's browser sends next. *)
Definition alice_cookies : list (string * string) :=
  [(session_cookie, match RandomToken (si_token (situation 0)) with Ok t => t | Err _ => "" end)].
Definition alice_csrf : string := match RandomToken (si_csrf (situation 0)) with Ok t => t | Err _ => "" end.

Definition get (path : string) : HttpRequest := request "GET" path [] alice_cookies "".
Definition logout_request : HttpRequest := request "POST" "/api/v1/auth/logout" [("X-CSRF-Token", alice_csrf)] alice_cookies "".

(** The column of keys read as the toy signatures' keys. *)
Definition run (i : Situation) (r : HttpRequest) (a : App) : App * option Response :=
  serve sample_config 0 column_key id i r a.

(** Alice signs in with her recovery code, reads, and signs out; the code does
    not work twice. *)
Example a_session :
  let '(a1, r1) := run (situation sample_now) login_request sample_app in
  let '(a2, r2) := run (situation (sample_now + hour)) (get "/api/v1/overview") a1 in
  let '(a3, r3) := run (situation (sample_now + 2 * hour)) (get "/api/v1/findings") a2 in
  let '(a4, r4) := run (situation (sample_now + 3 * hour)) logout_request a3 in
  let '(a5, r5) := run (situation (sample_now + 3 * hour)) (get "/api/v1/overview") a4 in
  let '(a6, r6) := run (situation (sample_now + 4 * hour)) login_request a5 in
  option_map rs_status <$> [r1; r2; r3; r4; r5; r6] = [Some 200; Some 200; Some 403; Some 204; Some 401; Some 401]%Z /\
  mt_requests (ap_metrics a6) = 6%Z /\ mt_failures (ap_metrics a6) = 3%Z.
Proof. vm_compute. done. Qed.

(** ** A collector *)

Definition edge_key : string := "0123456789abcdef0123456789abcdef".

Definition enroll_request : HttpRequest :=
  request "POST" "/collector/v1/enroll" [] []
    (quoted "{'token':'enroll-me','name':'edge','publicKey':'" +:+ std_encode edge_key
     +:+ quoted "','collectorVersion':'1.4','protocolVersion':'1.0','connectorName':'','connectorType':' kubernetes'}").

Definition edge : string := newID "collector" "collector-random".
Definition edge_connector : string := newID "connector" "connector-random".
Definition edge_credential : string := match RandomToken (dr_credential (si_drawn (situation 0))) with Ok t => t | Err _ => "" end.

Definition edge_form : EnrollForm :=
  {| ef_token := "enroll-me"; ef_name := "edge"; ef_key := std_encode edge_key; ef_version := "1.4"; ef_protocol := "1.0";
     ef_connector_name := ""; ef_connector_type := " kubernetes" |}.

Definition edge_snapshot : SnapshotEnvelope :=
  {| s_protocol := "1.0"; s_id := "edge-1"; s_org := "acme"; s_collector := edge; s_connector := edge_connector;
     s_connector_type := "kubernetes"; s_connector_version := "1"; s_started := sample_now; s_completed := sample_now + nano; s_sequence := 1;
     s_assets := Some [{| o_id := ""; o_org := ""; o_snapshot := ""; o_connector := ""; o_collector := ""; o_external := "pod-1"; o_type := "KUBERNETES_POD"; o_observed := sample_now;
       o_attributes := Some {["name" := JStr "web <&>"; "ready" := JBool true]}; o_hints := Some {["uid" := JStr "1"]};
       o_fingerprint := "f"; o_status := "OBSERVED" |}];
     s_relationships := Some []; s_warnings := None; s_statistics := Some {["pods" := 1%Z]};
     s_content_hash := ""; s_algorithm := ""; s_signature := "" |}.

(** The key it enrolled signs for itself. *)
Definition edge_signed : SnapshotEnvelope := match SignSnapshot edge_snapshot edge_key with Ok s => s | Err _ => edge_snapshot end.

Definition snapshot_request : HttpRequest :=
  request "POST" "/collector/v1/snapshots" [("Authorization", "Bearer " +:+ edge_credential)] [] (default "" (marshal_envelope edge_signed)).

(** It enrolls, once, and its snapshot is taken. *)
Example a_collector :
  let '(a1, r1) := run (situation sample_now) enroll_request sample_app in
  let '(a2, r2) := run (situation (sample_now + nano)) enroll_request a1 in
  let '(a3, r3) := run (situation (sample_now + hour)) snapshot_request a2 in
  let '(a4, r4) := run (situation (sample_now + 2 * hour)) snapshot_request a3 in
  option_map rs_status <$> [r1; r2; r3; r4] = [Some 201; Some 401; Some 202; Some 202]%Z.
Proof. vm_compute. done. Qed.

(** ** The other organization's collector *)

Definition other_signed : SnapshotEnvelope :=
  let s := {| s_protocol := "1.0"; s_id := "other-1"; s_org := "org"; s_collector := "collector"; s_connector := "docker";
     s_connector_type := "DOCKER"; s_connector_version := "1"; s_started := sample_now; s_completed := sample_now; s_sequence := 1;
     s_assets := Some [{| o_id := ""; o_org := ""; o_snapshot := ""; o_connector := ""; o_collector := ""; o_external := "c-1";
       o_type := "CONTAINER"; o_observed := sample_now; o_attributes := Some {["name" := JStr "db"]}; o_hints := None;
       o_fingerprint := ""; o_status := "OBSERVED" |}];
     s_relationships := None; s_warnings := None; s_statistics := None; s_content_hash := ""; s_algorithm := ""; s_signature := "" |} in
  match SignSnapshot s "key" with Ok s' => s' | Err _ => s end.

Definition other_request : HttpRequest :=
  request "POST" "/collector/v1/snapshots" [("Authorization", "Bearer token")] [] (default "" (marshal_envelope other_signed)).
