(* ===== verification/Wire.v ===== *)
(** * Between collector and gateway

    The text a collector posts is the snapshot it signed: [snapshot_body] reads
    it back whole, so that its signature verifies. *)
From S2P Require Import Prelude GoStrings GoUtf8 GoNumbers GoJson GoJsonDecode GoJsonText GoJsonRoundtrip GoEncoding GoHash GoIo Domain DomainJson DomainText.
From S2P Require Import Security SecurityFacts Reconcile PgStore RateLimit Gateway Config Http Sessions Enrollment AppSample.
From Stdlib Require Import Ascii.
Open Scope string_scope.
Open Scope list_scope.

(** ** Bodies *)

(** A body that is read to its end. *)
Definition whole_body (text : string) : Reader := {| content := text; failure := None |}.

(** [decode] of the text of an object within the limit. *)
Lemma decode_object {T} text max (zero : T) dec l : reads_closed max_nesting text (DObj l) -> (len text <= max)%Z ->
  decode (whole_body text) max zero dec = match dec zero (DObj l) with Some v => Ok v | None => Err (400%Z, "invalid_request") end.
Proof.
  intros Hr Hlen. unfold decode. cbn [whole_body content failure]. rewrite (proj2 (Z.ltb_ge max (len text))) by done.
  rewrite GoTimeText.substring_long by (unfold len in Hlen; lia). rewrite (scan_whole text l Hr).
  rewrite !bool_decide_true by done. cbn [negb orb andb settled]. by destruct (dec zero (DObj l)).
Qed.

(** ** Signatures are plain text *)

Lemma bytes_list l : bytes (String.string_of_list_ascii l) = byte_of <$> l.
Proof. unfold bytes. by rewrite String.list_ascii_of_string_of_list_ascii. Qed.

Definition unescaped_byte (b : N) : bool :=
  ((32 <=? b) && (b <? 128) && negb (b =? 34) && negb (b =? 38) && negb (b =? 60) && negb (b =? 62) && negb (b =? 92))%N.

Lemma unescaped_byte_spec b : unescaped_byte b = true -> (32 <= b < 128)%N /\ b <> 34%N /\ b <> 38%N /\ b <> 60%N /\ b <> 62%N /\ b <> 92%N.
Proof. unfold unescaped_byte. rewrite !andb_true_iff, !negb_true_iff, !N.eqb_neq, N.leb_le, N.ltb_lt. tauto. Qed.

Lemma plain_of_list l : Forall (fun c => unescaped_byte (byte_of c) = true) l -> plain_bytes (String.string_of_list_ascii l).
Proof. intros Hl. unfold plain_bytes. rewrite bytes_list, Forall_fmap. eapply Forall_impl; [exact Hl|]. intros c. apply unescaped_byte_spec. Qed.

(** What holds of the first numbers. *)
Lemma forall_below (P : N -> bool) k i : forallb P (N.of_nat <$> seq 0 k) = true -> (i < N.of_nat k)%N -> P i = true.
Proof.
  intros Hall Hi. rewrite forallb_forall in Hall. apply Hall, list_elem_of_In, list_elem_of_fmap. exists (N.to_nat i).
  split; [lia|]. apply elem_of_seq. lia.
Qed.

Lemma plain_hex s : plain_bytes (hex_encode s).
Proof.
  apply plain_of_list. assert (forall i, (i < 16)%N -> unescaped_byte (byte_of (hex_digit i)) = true) as Hd
    by (intros i Hi; apply (forall_below (fun i => unescaped_byte (byte_of (hex_digit i))) 16); [by vm_compute|done]).
  induction (String.list_ascii_of_string s) as [|c l IH]; [by apply Forall_nil|]. cbn [mbind list_bind app].
  pose proof (byte_of_bound c). repeat apply Forall_cons_2; [| |exact IH]; apply Hd.
  - apply N.Div0.div_lt_upper_bound. lia.
  - by apply N.mod_upper_bound.
Qed.

Lemma plain_base64 s : plain_bytes (std_encode s).
Proof.
  apply plain_of_list. eapply Forall_impl; [apply b64_encode_chars, bytes_bound|]. intros c [->|(i & Hi & ->)]; [done|].
  by apply (forall_below (fun i => unescaped_byte (byte_of (char_at std_alphabet i))) 64); [vm_compute|].
Qed.

(** The texts that signing sets. *)
Ltac wire_update := intros [Hs Ht Hq Ha Hr Hw Hi] Hv; rewrite !Forall_cons in Hs; destruct_and!; constructor; try done; rewrite !Forall_cons; by split_and!.

Lemma wire_algorithm s v : wire_envelope s -> utf8_valid v = true -> wire_envelope (with_algorithm s v).
Proof. wire_update. Qed.
Lemma wire_content_hash s v : wire_envelope s -> utf8_valid v = true -> wire_envelope (with_content_hash s v).
Proof. wire_update. Qed.
Lemma wire_signature s v : wire_envelope s -> utf8_valid v = true -> wire_envelope (with_signature s v).
Proof. wire_update. Qed.

Lemma signing_bytes_wire s : wire_envelope s -> exists b, signing_bytes s = Ok b.
Proof. intros Hs. unfold signing_bytes, SigningBytes. rewrite marshal_envelope_text by by apply wire_signature. by eexists. Qed.

(** Signing a snapshot that has a text gives one that has a text. *)
Lemma wire_signed `{Ed25519} s priv : wire_envelope s -> exists s', SignSnapshot s priv = Ok s' /\ wire_envelope s'.
Proof.
  intros Hs. unfold SignSnapshot. pose proof (fun b => proj2 (plain_literal _ (plain_hex b))) as Hhex.
  pose proof (fun b => proj2 (plain_literal _ (plain_base64 b))) as H64.
  set (s0 := with_content_hash _ _). assert (wire_envelope s0) as H0 by (by apply wire_content_hash; [apply wire_signature; [apply wire_algorithm|]|]).
  destruct (signing_bytes_wire s0 H0) as [b ->]. cbn [mbind result_bind].
  pose proof (wire_content_hash s0 (hex_encode (sha256 b)) H0 (Hhex _)) as H1. destruct (signing_bytes_wire _ H1) as [b' ->]. cbn [mbind result_bind].
  eexists. split; [done|]. by apply wire_signature.
Qed.

(** The body of a snapshot, at the gateway. *)
Lemma snapshot_body_text `{UnicodeCase} c r s text : wire_envelope s -> marshal_envelope s = Some text -> hr_body r = whole_body text ->
  (len text <= MaxSnapshotBytes c)%Z -> snapshot_body c r = Ok s.
Proof.
  intros Hs Hm Hb Hlen. unfold snapshot_body. rewrite (marshal_envelope_text s Hs) in Hm. injection Hm as <-. rewrite Hb.
  rewrite (decode_object _ _ _ _ _ (reads_envelope s Hs) Hlen). fold (document_of (envelope_members s)). by rewrite dec_envelope_text.
Qed.

(** C4. A signed snapshot crosses the wire unchanged: for every snapshot whose
    texts are UTF-8, whose times JSON has a text for, whose numbers are within
    64 bits and whose attributes are values as JSON decoding gives them, signing
    succeeds, the signed snapshot has a text, and the gateway that is sent this
    text, if it is within its limit, reads exactly the snapshot that was signed,
    quotes, control characters, Unicode, times to the nanosecond, nil and empty
    collections and the order of keys included; so the signature verifies there
    under the collector's public key. *)
Theorem signed_snapshot_crosses_the_wire `{Ed25519, UnicodeCase} s priv pub (Hwire : wire_envelope s) (Hpair : paired pub priv) :
  exists s' text, SignSnapshot s priv = Ok s' /\ marshal_envelope s' = Some text /\
    forall c r, hr_body r = whole_body text -> (len text <= MaxSnapshotBytes c)%Z ->
      exists received, snapshot_body c r = Ok received /\ received = s' /\ VerifySnapshot received pub = Ok tt.
Proof.
  destruct (wire_signed s priv Hwire) as (s' & Hsign & Hw'). exists s', (text_of (envelope_members s')).
  split; [done|]. split; [by apply marshal_envelope_text|]. intros c r Hb Hlen. exists s'. split; [|split; [done|]].
  - by eapply snapshot_body_text; [|apply marshal_envelope_text| |].
  - by eapply SignSnapshot_verifies.
Qed.

(** What a collector of the sample posts. *)
Lemma wire_edge_snapshot : wire_envelope edge_snapshot.
Proof.
  constructor; cbn [edge_snapshot s_protocol s_id s_org s_collector s_connector s_connector_type s_connector_version s_content_hash s_algorithm
    s_signature s_started s_completed s_sequence s_assets s_relationships s_warnings s_statistics wire_slice].
  - rewrite !Forall_cons. split_and!; [vm_compute; reflexivity..|by apply Forall_nil].
  - split; vm_compute; (split; [discriminate|reflexivity]).
  - vm_compute. split; discriminate.
  - apply Forall_singleton. constructor; cbn [o_id o_org o_snapshot o_connector o_collector o_external o_type o_fingerprint o_status o_observed o_attributes o_hints wire_map].
    + rewrite !Forall_cons. split_and!; [vm_compute; reflexivity..|by apply Forall_nil].
    + vm_compute. split; [discriminate|reflexivity].
    + split; [split; [by eexists|]|by vm_compute]. by vm_compute.
    + split; [split; [by eexists|]|by vm_compute]. by vm_compute.
  - by apply Forall_nil.
  - done.
  - cbn [wire_ints]. apply map_Forall_singleton. split; [by vm_compute|]. vm_compute. split; discriminate.
Qed.

Lemma signed_snapshot_crosses_the_wire_witness :
  exists s' text, SignSnapshot edge_snapshot edge_key = Ok s' /\ marshal_envelope s' = Some text /\
    forall c r, hr_body r = whole_body text -> (len text <= MaxSnapshotBytes c)%Z ->
      exists received, snapshot_body c r = Ok received /\ received = s' /\ VerifySnapshot received edge_key = Ok tt.
Proof. exact (signed_snapshot_crosses_the_wire edge_snapshot edge_key edge_key wire_edge_snapshot eq_refl). Defined.
