(* ===== verification/SessionFacts.v ===== *)
(** * Who may sign in, and what a session lets through

    [login] opens a session for the right password and second factor only; the
    guard of the API lets through the requests of live sessions, with the token
    against forgery where they change something; [api] asks for the permission
    of the route. *)
From S2P Require Import Prelude GoStrings GoJson GoJsonDecode GoEncoding GoIo Domain Security Reconcile PgStore PgFacts AuditChain RateLimit.
From S2P Require Import Gateway Config Http Sessions Api Enrollment App AppSample.
From S2P Require Graph.
Open Scope string_scope.
Open Scope list_scope.

(** An answer that is not an error. *)
Definition success (r : Response) : Prop := (rs_status r < 400)%Z.

Lemma writeError_fails status code r : (400 <= status)%Z -> ~ success (writeError status code r).
Proof. unfold success. cbn. lia. Qed.

(** Closes a branch that answers with an error. *)
Ltac refused :=
  match goal with H : success _ |- _ => exfalso; revert H; apply writeError_fails; lia end.

(** The errors of [decode] are 400 and 413. *)
Lemma decode_status {T} body max (zero : T) dec status code : decode body max zero dec = Err (status, code) -> (400 <= status)%Z.
Proof. unfold decode. intros E. repeat case_match; simplify_eq; lia. Qed.

(** ** The guard *)

Section Guard.
Context `{SqlText, RangeOrder, Postgres, Argon2, AesGcm, UnicodeCase} (c : Config).

(** The cookie's session: not revoked, not expired, of an active user. *)
Definition alive (now : gotime) (d : AppDB) (token : string) (s : SessionRow) : Prop :=
  ad_sessions d !! KeyedTokenHash (SessionSecret c) token = Some s /\ se_revoked s = None /\ (now < se_expires s)%Z /\
  exists u, ad_users d !! se_user s = Some u /\ us_active u = true.

Lemma live_session_alive now d token s : live_session c now d token = Some s <-> alive now d token s.
Proof.
  unfold live_session, alive. split.
  - destruct (ad_sessions d !! _) as [s'|]; cbn; [|done]. destruct (ad_users d !! _) as [u|] eqn:Eu; cbn; [|done].
    case_bool_decide as Hr; cbn; [|done]. destruct (Z.ltb_spec now (se_expires s')); cbn; [|done].
    destruct (us_active u) eqn:Ea; [|done]. intros [= <-]. eauto 10.
  - intros (-> & Hr & Ht & u & Hu & Ha). cbn. rewrite Hu. cbn. rewrite Ha, bool_decide_true, (proj2 (Z.ltb_lt _ _)) by done. done.
Qed.

Definition principal_of (d : AppDB) (s : SessionRow) : principal :=
  {| pr_user := se_user s; pr_organization := se_org s; pr_permissions := permissions d (se_user s); pr_csrf := se_csrf s |}.

(** A request of the session: with its cookie, and with its token against
    forgery unless the method is safe. *)
Definition authentic (now : gotime) (r : HttpRequest) (d : AppDB) (s : SessionRow) : Prop :=
  exists token, hr_cookies r !! session_cookie = Some token /\ alive now d token s /\
    (safe_method (hr_method r) = true \/ KeyedTokenHash (SessionSecret c) (header r "X-CSRF-Token") = se_csrf s).

Lemma session_authentic now r a d p :
  session c now r a = inr (d, p) <-> ap_db a = Some d /\ exists s, authentic now r d s /\ p = principal_of d s.
Proof.
  unfold session, authentic. split.
  - destruct (ap_db a) as [d0|]; [|done]. destruct (hr_cookies r !! _) as [token|]; [|done].
    destruct (live_session c now d0 token) as [s|] eqn:El; [|done]. cbn [pr_csrf].
    destruct (negb _ && _) eqn:Ec; [done|]. intros [= -> <-]. split; [done|]. exists s. split; [|done].
    exists token. split_and!; [done|by apply live_session_alive|].
    apply andb_false_iff in Ec as [Ec%negb_false_iff|Ec%negb_false_iff%bool_decide_eq_true]; auto.
  - intros (-> & s & (token & -> & Ha%live_session_alive & Hc) & ->). rewrite Ha. cbn [pr_csrf].
    destruct Hc as [->|Hc]; [done|]. rewrite (bool_decide_true (KeyedTokenHash _ _ = _)) by done. by rewrite andb_false_r.
Qed.

Lemma session_refuses now r a response : session c now r a = inl response -> ~ success response.
Proof.
  unfold session. repeat case_match; intros E; simplify_eq; apply writeError_fails; lia.
Qed.

End Guard.

(** ** Permissions *)

(** The permission each route asks for: [None] if there is no such route,
    [Some None] if being signed in is enough. *)
Definition read_permissions : list (string * option string) := [
  ("auth/me", None); ("asset-types", None); ("overview", Some "asset.read"); ("assets", Some "asset.read");
  ("changes", Some "asset.read"); ("findings", Some "finding.read"); ("connectors", Some "connector.read");
  ("collectors", Some "collector.read"); ("audit", Some "audit.read")].
Definition write_permissions : list (string * option string) := [
  ("auth/logout", None); ("imports/csv/preview", Some "import.run"); ("imports/json/preview", Some "import.run");
  ("imports/terraform/preview", Some "import.run")].

Definition assoc {A} (k : string) (l : list (string * A)) : option A := snd <$> find (fun kv => bool_decide (kv.1 = k)) l.

Definition route_of (r : HttpRequest) : string := trim_prefix (hr_path r) "/api/v1/".

Definition route_permission (r : HttpRequest) : option (option string) :=
  if bool_decide (hr_method r = "GET")
  then if has_prefix (route_of r) "assets/" then Some (Some "asset.read") else assoc (route_of r) read_permissions
  else if bool_decide (hr_method r = "POST") then assoc (route_of r) write_permissions else None.

Definition permitted (p : principal) (need : option string) : Prop := forall k, need = Some k -> k ∈ pr_permissions p.

Lemma require_passed r p k response : success (default response (require r p k)) -> k ∈ pr_permissions p.
Proof. unfold require. case_bool_decide; cbn; [done|]. intros Hs. refused. Qed.

Section Api.
Context `{SqlText, Graph.SqlOrder, SqlTimeOrder, RangeOrder, UnicodeCase} (c : Config) (json_error : string -> string).

Lemma both_true {P Q : Prop} `{Decision P, Decision Q} : bool_decide P && bool_decide Q = true -> P /\ Q.
Proof. rewrite andb_true_iff, !bool_decide_eq_true. done. Qed.

Lemma Answer_inj x y b b' : Answer x b = Answer y b' -> x = y.
Proof. congruence. Qed.

Lemma api_permission d p r response rejected :
  api c json_error d p r = Answer response rejected -> success response ->
  exists need, route_permission r = Some need /\ permitted p need.
Proof.
  unfold api, route_permission. change (trim_prefix (hr_path r) "/api/v1/") with (route_of r).
  generalize (route_of r) as route. intros route. cbv zeta.
  assert (forall k, require r p k = None -> permitted p (Some k)) as Hperm.
  { intros k. unfold require. case_bool_decide as Hk; [|done]. intros _ k' [= <-]. done. }
  repeat match goal with
  | |- (if bool_decide (hr_method r = _) && bool_decide (route = _) then _ else _) = _ -> _ =>
      let E := fresh in destruct (bool_decide _ && bool_decide _) eqn:E; [apply both_true in E as [-> ->]|clear E]
  | |- (if bool_decide (hr_method r = _) && has_prefix route _ then _ else _) = _ -> _ =>
      let E := fresh in let E1 := fresh in let E2 := fresh in destruct (bool_decide _ && has_prefix _ _) eqn:E;
      [apply andb_true_iff in E as [E1%bool_decide_eq_true E2]; rewrite E1, E2; destruct (require r p _) eqn:?|clear E]
  | |- Logout = _ -> _ => done
  | |- Answer (writeError _ _ _) _ = _ -> _ => intros E Hs; apply Answer_inj in E; rewrite <- E in Hs; clear E; refused
  | |- Answer _ _ = _ -> _ => intros E Hs; apply Answer_inj in E; rewrite <- E in Hs; clear E; eexists; split; [reflexivity|]; first [by intros ? [=]|intros ? [= <-]; exact (require_passed _ _ _ _ Hs)]
  | |- _ => idtac
  end.
  - intros E Hs. apply Answer_inj in E as <-. unfold require in *. case_bool_decide; simplify_eq. refused.
  - intros _ _. exists (Some "asset.read"). split; [done|by apply Hperm].
Qed.
End Api.

(** ** The API as a whole *)

Section Guarded.
Context `{SqlText, Graph.SqlOrder, SqlTimeOrder, RangeOrder, Postgres, Ed25519, Argon2, AesGcm, UnicodeCase, AuditStore}.
Context (c : Config) (json_error : string -> string).

Lemma api_logout d p r : api c json_error d p r = Logout -> hr_method r = "POST" /\ route_of r = "auth/logout".
Proof.
  unfold api. change (trim_prefix (hr_path r) "/api/v1/") with (route_of r). cbv zeta.
  match goal with |- (if ?b then _ else _) = _ -> _ => destruct b; [by intros [=]|] end.
  match goal with |- (if ?b then _ else _) = _ -> _ => destruct b eqn:E; [by apply both_true in E|] end.
  repeat match goal with
  | |- (if ?b then _ else _) = _ -> _ => destruct b
  | |- match require r p ?k with _ => _ end = _ -> _ => destruct (require r p k)
  | |- (let '(_, _) := ?t in _) = _ -> _ => destruct t
  end; intros [=].
Qed.

(** What a request to the API does, and what its answer shows. *)
Lemma guarded_cases i r a a' response : guarded c json_error i r a = (a', response) ->
  (ap_db a' = ap_db a /\ ~ success response) \/
  exists d s, ap_db a = Some d /\ authentic c (si_now i) r d s /\
    ((ap_db a' = ap_db a /\ exists rejected, api c json_error d (principal_of d s) r = Answer response rejected) \/
     (hr_method r = "POST" /\ route_of r = "auth/logout" /\ ap_db a' = Some (logout c (si_now i) r (principal_of d s) d).1)).
Proof.
  unfold guarded. destruct (session c (si_now i) r a) as [refusal|[d p]] eqn:Es.
  { intros [= -> ->]. left. split; [done|]. by eapply session_refuses. }
  apply session_authentic in Es as (Hd & s & Hs & ->).
  destruct (api _ _ _ _ _) as [resp rejected|] eqn:Ea.
  - intros [= <- ->]. right. exists d, s. split_and!; [done|done|]. left. split; [by destruct rejected|eauto].
  - apply api_logout in Ea as [Hm Hr]. destruct (logout _ _ _ _ _) as [d' resp] eqn:El. intros [= <- <-]. right. exists d, s. split_and!; [done|done|].
    right. by rewrite El.
Qed.

End Guarded.

(** C7. Only the signed-in see anything: a request to the API that is
    answered without an error carries the cookie of a session that is neither
    revoked nor expired and whose user is active, and, unless its method is
    safe, the session's token against forgery; its route exists and the user's
    roles give the permission the route asks for. Whatever the answer, the
    database stays as it is, except that a logout marks the request's own
    session as revoked. *)
Theorem api_guarded `{SqlText, Graph.SqlOrder, SqlTimeOrder, RangeOrder, Postgres, Ed25519, Argon2, AesGcm, UnicodeCase, AuditStore}
    c json_error i r a a' response (Hstep : guarded c json_error i r a = (a', response)) :
  (success response -> exists d s need, ap_db a = Some d /\ authentic c (si_now i) r d s /\
     route_permission r = Some need /\ permitted (principal_of d s) need) /\
  (ap_db a' = ap_db a \/ exists d s token, ap_db a = Some d /\ authentic c (si_now i) r d s /\
     hr_cookies r !! session_cookie = Some token /\ hr_method r = "POST" /\ route_of r = "auth/logout" /\
     ap_db a' = Some (set_sessions (<[KeyedTokenHash (SessionSecret c) token := revoke (si_now i) (se_org s) s]> (ad_sessions d)) d)).
Proof.
  apply guarded_cases in Hstep as [[-> Hno]|(d & s & Hd & Hs & [(-> & rejected & Ha)|(Hm & Hr & ->)])].
  - split; [done|by left].
  - split; [|by left]. intros Hok. destruct (api_permission _ _ _ _ _ _ _ Ha Hok) as (need & Hneed & Hp). by exists d, s, need.
  - split.
    + intros _. exists d, s, None. unfold route_permission. rewrite Hm, Hr. by split_and!.
    + right. destruct (id Hs) as (token & Htoken & (Hrow & _) & _). exists d, s, token. split_and!; try done.
      unfold logout. cbn [fst]. rewrite Htoken. change (default "" (Some token)) with token.
      apply (f_equal (fun t => Some (set_sessions t d))).
      apply map_eq. intros k. destruct (decide (k = KeyedTokenHash (SessionSecret c) token)) as [->|Hne].
      * by rewrite lookup_alter_eq, lookup_insert_eq, Hrow.
      * by rewrite lookup_alter_ne, lookup_insert_ne.
Qed.

Lemma api_guarded_witness :
  let a1 := (run (situation sample_now) login_request sample_app).1 in let i := situation (sample_now + hour) in
  exists a2 response, guarded sample_config id i (get "/api/v1/overview") a1 = (a2, response) /\ rs_status response = 200%Z /\
    exists d s, ap_db a1 = Some d /\ authentic sample_config (si_now i) (get "/api/v1/overview") d s.
Proof.
  intros a1 i. assert (rs_status (guarded sample_config id i (get "/api/v1/overview") a1).2 = 200%Z) as Hs by (vm_compute; reflexivity).
  destruct (guarded sample_config id i (get "/api/v1/overview") a1) as [a2 response] eqn:E. cbn [snd] in Hs.
  exists a2, response. split; [reflexivity|]. split; [exact Hs|].
  assert (success response) as Hok by (unfold success; rewrite Hs; reflexivity).
  destruct (proj1 (api_guarded sample_config id i (get "/api/v1/overview") a1 a2 response E) Hok) as (d & s & need & Hd & Ha & _).
  exists d, s. exact (conj Hd Ha).
Defined.

(** ** Signing in *)

(** A statement that affects one row changes that row. *)
Lemma affected_one {A} (p : string -> A -> bool) f (t : gmap string A) : affected p t = 1%Z ->
  exists k r, t !! k = Some r /\ p k r = true /\ update_rows p f t = <[k := f r]> t.
Proof.
  unfold affected. intros Hs. destruct (map_size_ne_0_lookup_1 (filter (fun kr => p kr.1 kr.2 = true) t) ltac:(lia)) as (k & r & Hk).
  pose proof Hk as [Hr Hp]%map_lookup_filter_Some. exists k, r. split_and!; [done|done|]. apply map_eq. intros j.
  rewrite update_rows_lookup. destruct (decide (j = k)) as [->|Hne]; [by rewrite lookup_insert_eq, Hr; cbn in *; rewrite Hp|].
  rewrite lookup_insert_ne by done. destruct (t !! j) as [r'|] eqn:Ej; [|done]. cbn. destruct (p j r') eqn:Ep; [|done]. exfalso.
  assert (delete k (filter (fun kr => p kr.1 kr.2 = true) t) !! j = Some r') as Hj.
  { rewrite lookup_delete_ne by done. by apply map_lookup_filter_Some. }
  assert (size (delete k (filter (fun kr => p kr.1 kr.2 = true) t)) = 0%nat) as Hz by (rewrite map_size_delete_Some by eauto; lia).
  apply map_size_empty_inv in Hz. by rewrite Hz, lookup_empty in Hj.
Qed.

Lemma some_row_Some `{RangeOrder} {A} (p : A -> bool) (t : gmap string A) k r : some_row p t = Some (k, r) -> t !! k = Some r /\ p r = true.
Proof.
  unfold some_row. intros Hh. apply head_Some_elem_of, list_elem_of_filter in Hh as [Hp Hin]. cbn in Hp.
  rewrite range_perm in Hin. by apply elem_of_map_to_list in Hin.
Qed.

Section Login.
Context `{SqlText, RangeOrder, Postgres, Argon2, AesGcm, UnicodeCase} (c : Config).

(** An unused recovery code of the user, now used. *)
Definition recovery_spent (now : gotime) (d d' : AppDB) (user code : string) : Prop :=
  exists k row, ad_recovery d !! k = Some row /\ rc_user row = user /\ rc_hash row = TokenHash code /\ rc_used row = None /\
    d' = set_recovery (<[k := use_recovery now row]> (ad_recovery d)) d.

(** A one-time code of the user's enabled secret, as kept encrypted. *)
Definition totp_proved (now : gotime) (d : AppDB) (user code : string) : Prop :=
  exists m key store secret, ad_mfa d !! user = Some m /\ mf_enabled m <> None /\ std_decode (MasterKey c) = Some key /\
    NewSecretStore key (mf_version m) = Ok store /\
    Decrypt store {| Ciphertext := mf_ciphertext m; Nonce := mf_nonce m; KeyVersion := mf_version m; Metadata := None |} = Ok secret /\
    VerifyTOTP secret code now = true.

Lemma verify_totp_passed now d user code : verify_totp c now d user code = Passed -> totp_proved now d user code.
Proof.
  unfold verify_totp. destruct (ad_mfa d !! user) as [m|] eqn:Em; cbn; [|done]. case_bool_decide as He; [done|].
  destruct (std_decode (MasterKey c)) as [key|] eqn:Ek; [|done]. destruct (NewSecretStore _ _) as [store|] eqn:Est; [|done].
  destruct (Decrypt _ _) as [secret|[?|?]] eqn:Ed; [|done..]. destruct (VerifyTOTP _ _ _) eqn:Ev; [|done].
  intros _. by exists m, key, store, secret.
Qed.

(** Only recovery codes change, and only to used. *)
Definition recovery_only (now : gotime) (d d' : AppDB) : Prop :=
  exists p, (forall k row, p k row = true -> rc_used row = None) /\ d' = set_recovery (update_rows p (use_recovery now) (ad_recovery d)) d.

Lemma recovery_only_refl now d : recovery_only now d d.
Proof.
  exists (fun _ _ => false). split; [done|]. destruct d. unfold set_recovery. cbn. f_equal. apply map_eq. intros k.
  rewrite update_rows_lookup. by destruct (_ !! k).
Qed.

Lemma matches_recovery_unused user code k row : matches_recovery user code k row = true ->
  rc_user row = user /\ rc_hash row = TokenHash code /\ rc_used row = None.
Proof. unfold matches_recovery. rewrite !andb_true_iff, !bool_decide_eq_true. tauto. Qed.

Lemma verifySecondFactor_cases now d user code recovery d' f : verifySecondFactor c now d user code recovery = (d', f) ->
  recovery_only now d d' /\ (f = Passed -> recovery_spent now d d' user recovery \/ totp_proved now d user code).
Proof.
  unfold verifySecondFactor. case_bool_decide.
  - intros [= <- <-]. split; [apply recovery_only_refl|]. intros Hp. right. by apply verify_totp_passed.
  - assert (recovery_only now d (set_recovery (update_rows (matches_recovery user recovery) (use_recovery now) (ad_recovery d)) d)) as Ho.
    { exists (matches_recovery user recovery). split; [|done]. intros k row Hm. by apply matches_recovery_unused in Hm as (_ & _ & ?). }
    destruct (_ =? 1)%Z eqn:Ea; intros [= <- <-]; (split; [done|]); intros Hp.
    + apply Z.eqb_eq in Ea. apply (affected_one _ (use_recovery now)) in Ea as (k & row & Hk & (Hu & Hh & Hn)%matches_recovery_unused & ->). left. by exists k, row.
    + right. by apply verify_totp_passed in Hp.
Qed.

Lemma password_user_Some d f id u : password_user d f = Some (id, u) ->
  ad_users d !! id = Some u /\ sql_lower (us_email u) = sql_lower (lf_email f) /\ us_active u = true /\
  VerifyPassword (us_hash u) (lf_password f) = true.
Proof.
  unfold password_user. destruct (some_row _ _) as [[id' u']|] eqn:Es; cbn; [|done].
  destruct (us_active u') eqn:Ha; cbn; [|done]. destruct (VerifyPassword _ _) eqn:Ev; [|done]. intros [= <- <-].
  by apply some_row_Some in Es as [Hu ?%bool_decide_eq_true].
Qed.

(** The session of line 238, under the hash of its token, and its cookies. *)
Definition opened (now : gotime) (d d' : AppDB) (id : string) (u : UserRow) (token csrf : string) (response : Response) : Prop :=
  ad_sessions d !! KeyedTokenHash (SessionSecret c) token = None /\
  d' = set_sessions (<[KeyedTokenHash (SessionSecret c) token := {| se_user := id; se_org := us_org u;
     se_csrf := KeyedTokenHash (SessionSecret c) csrf; se_expires := column_time (now + session_hours); se_revoked := None |}]> (ad_sessions d)) d /\
  rs_cookies response = [cookie c session_cookie token true (now + session_hours); cookie c csrf_cookie csrf false (now + session_hours)].

Lemma start_session_cases now rt rc r d id u d' response : start_session c now rt rc r d id u = (d', response) ->
  (d' = d /\ ~ success response) \/ exists token csrf, opened now d d' id u token csrf response.
Proof.
  unfold start_session. destruct (ad_sessions d !! _) eqn:Es.
  - intros [= <- <-]. left. split; [done|]. apply writeError_fails. lia.
  - intros [= <- <-]. right. by eexists _, _.
Qed.

(** What a login does: it fails, and at most marks recovery codes as used, or
    it opens a session of a user whose password and second factor it saw. *)
Lemma login_cases now rt rc r a a' response d : login c now rt rc r a = (a', response) -> ap_db a = Some d ->
  (exists d1, recovery_only now d d1 /\ ap_db a' = Some d1 /\ forall x, response = Some x -> ~ success x) \/
  exists f id u d1 token csrf d' x, response = Some x /\ ap_db a' = Some d' /\ (allow now (clientIP c r) (ap_auth a)).2 = true /\
    decode (hr_body r) (Z.shiftl 64 10) zero_login (dec_struct true login_fields) = Ok f /\ password_user d f = Some (id, u) /\
    recovery_only now d d1 /\
    (if us_mfa u then recovery_spent now d d1 id (lf_recovery f) \/ totp_proved now d id (lf_totp f) else d1 = d) /\
    opened now d1 d' id u token csrf x.
Proof.
  intros Hl Hd. unfold login in Hl. destruct (allow now (clientIP c r) (ap_auth a)) as [auth ok].
  assert (forall d1 status code, recovery_only now d d1 -> (400 <= status)%Z ->
    (set_db d1 (set_auth auth a), Some (writeError status code r)) = (a', response) ->
    exists d1, recovery_only now d d1 /\ ap_db a' = Some d1 /\ forall x, response = Some x -> ~ success x) as Hrefuse.
  { intros d1 status code Ho Hs [= <- <-]. exists d1. split_and!; [done|done|]. intros x [= <-]. by apply writeError_fails. }
  assert (set_auth auth a = set_db d (set_auth auth a)) as Hset by (unfold set_db, set_auth; cbn; by rewrite <- Hd).
  pose proof (recovery_only_refl now d) as Hrefl.
  change (ap_db (set_auth auth a)) with (ap_db a) in Hl. rewrite Hd in Hl.
  destruct ok; cbn [negb] in Hl; [|left; rewrite Hset in Hl; by eapply Hrefuse in Hl].
  destruct (decode _ _ _ _) as [f|[status code]] eqn:Ef.
  2: { left. rewrite Hset in Hl. eapply Hrefuse in Hl; [done|done|by apply decode_status in Ef]. }
  destruct (password_user d f) as [[id u]|] eqn:Eu; [|left; rewrite Hset in Hl; by eapply Hrefuse in Hl].
  destruct (if us_mfa u then _ else _) as [d1 second] eqn:E2.
  assert (recovery_only now d d1 /\ (second = Passed ->
    if us_mfa u then recovery_spent now d d1 id (lf_recovery f) \/ totp_proved now d id (lf_totp f) else d1 = d)) as [Ho Hp].
  { destruct (us_mfa u); [by eapply verifySecondFactor_cases|]. injection E2 as <- <-. done. }
  destruct second; [|left; by eapply Hrefuse in Hl|].
  - destruct (start_session _ _ _ _ _ _ _ _) as [d' x] eqn:E3. injection Hl as <- <-.
    apply start_session_cases in E3 as [[-> Hno]|(token & csrf & Hopen)].
    + left. exists d1. split_and!; [done|done|]. by intros y [= <-].
    + right. exists f, id, u, d1, token, csrf, d', x. split_and!; try done. by apply Hp.
  - left. injection Hl as <- <-. by exists d1.
Qed.

Lemma login_no_database now rt rc r a a' response : login c now rt rc r a = (a', response) -> ap_db a = None ->
  ap_db a' = None /\ forall x, response = Some x -> ~ success x.
Proof.
  intros Hl Hd. unfold login in Hl. destruct (allow now (clientIP c r) (ap_auth a)) as [auth ok].
  change (ap_db (set_auth auth a)) with (ap_db a) in Hl. rewrite Hd in Hl.
  destruct ok; injection Hl as <- <-; (split; [done|]); intros x [= <-]; by apply writeError_fails.
Qed.

End Login.

(** C8. A session is opened for proven users only: a login that is not
    refused was within the client's rate limit, named an active user by their
    address and gave the password of their hash; of a user with a second factor
    it gave a recovery code of theirs not used before, which is then marked
    used, or a one-time code valid now under their enabled, decrypted secret.
    It leaves one new session, of that user and their organization, for twelve
    hours, under the keyed hashes of the two tokens its cookies carry; nothing
    else in the database changes. *)
Theorem login_requires_credentials `{SqlText, RangeOrder, Postgres, Argon2, AesGcm, UnicodeCase} c now rt rc r a a' response
    (Hlogin : login c now rt rc r a = (a', Some response)) (Hok : success response) :
  exists d d1 d' f id u token csrf, ap_db a = Some d /\ ap_db a' = Some d' /\ (allow now (clientIP c r) (ap_auth a)).2 = true /\
    decode (hr_body r) (Z.shiftl 64 10) zero_login (dec_struct true login_fields) = Ok f /\
    ad_users d !! id = Some u /\ sql_lower (us_email u) = sql_lower (lf_email f) /\ us_active u = true /\
    VerifyPassword (us_hash u) (lf_password f) = true /\
    (if us_mfa u then recovery_spent now d d1 id (lf_recovery f) \/ totp_proved c now d id (lf_totp f) /\ recovery_only now d d1
     else d1 = d) /\
    opened c now d1 d' id u token csrf response.
Proof.
  destruct (ap_db a) as [d|] eqn:Hd; [|destruct (login_no_database _ _ _ _ _ _ _ _ Hlogin Hd) as [_ Hno]; by destruct (Hno _ eq_refl)].
  destruct (login_cases _ _ _ _ _ _ _ _ _ Hlogin Hd) as [(d1 & _ & _ & Hno)|
    (f & id & u & d1 & token & csrf & d' & x & [= <-] & Hd' & Hal & Hf & (Hu & He & Ha & Hv)%password_user_Some & Ho & Hm & Hopen)].
  { by destruct (Hno _ eq_refl). }
  exists d, d1, d', f, id, u, token, csrf. split_and!; try done. destruct (us_mfa u); [|done]. destruct Hm; auto.
Qed.

Lemma login_requires_credentials_witness :
  let i := situation sample_now in
  exists a' response d d' id u, login sample_config sample_now (si_token i) (si_csrf i) login_request sample_app = (a', Some response) /\
    ap_db a' = Some d' /\ ap_db sample_app = Some d /\ ad_users d !! id = Some u /\ VerifyPassword (us_hash u) "correct horse battery" = true.
Proof.
  intros i.
  assert (option_map rs_status (login sample_config sample_now (si_token i) (si_csrf i) login_request sample_app).2 = Some 200%Z) as Hs by (vm_compute; reflexivity).
  destruct (login sample_config sample_now (si_token i) (si_csrf i) login_request sample_app) as [a' [response|]] eqn:E; [|discriminate Hs].
  assert (success response) as Hok by (injection Hs as Hs; unfold success; rewrite Hs; reflexivity).
  destruct (login_requires_credentials sample_config sample_now (si_token i) (si_csrf i) login_request sample_app a' response E Hok)
    as (d & d1 & d' & f & id & u & token & csrf & Hd & Hd' & _ & Hf & Hu & _ & _ & Hv & _).
  exists a', response, d, d', id, u. split_and!; [reflexivity|exact Hd'|exact Hd|exact Hu|].
  assert (forall g, decode (hr_body login_request) (Z.shiftl 64 10) zero_login (dec_struct true login_fields) = Ok g -> lf_password g = "correct horse battery") as Hpw.
  { intros g. vm_compute. intros [= <-]. reflexivity. }
  rewrite <- (Hpw f Hf). exact Hv.
Defined.
