(* ===== verification/EnrollmentFacts.v ===== *)
(** * What an enrolment gives a collector

    [enroll] in cases: a refusal changes nothing but the rate limiter, and an
    enrolment spends its token and leaves a collector whose credential and
    connector are what the gateway asks for. *)
From S2P Require Import Prelude GoStrings GoNumbers GoJson GoJsonDecode GoEncoding GoHash GoIo Domain DomainJson Security Reconcile PgStore PgFacts AuditChain.
From S2P Require Import ReconcilePg RateLimit Gateway GatewayFacts Config Http Sessions Api Enrollment App SessionFacts.
Open Scope string_scope.
Open Scope list_scope.

Lemma find_row_usable now token (t : gmap string TokenRow) k row : find_row (usable_token now token) t = Some (k, row) ->
  t !! k = Some row /\ to_hash row = TokenHash token /\ to_used row = None.
Proof.
  intros [Hk Hu]%find_row_Some. unfold usable_token in Hu. rewrite !andb_true_iff, !bool_decide_eq_true in Hu. tauto.
Qed.

Section Enrollment.
Context `{RangeOrder, Postgres, Ed25519, UnicodeCase, AuditStore} (c : Config) (public_key : string -> PublicKey).

(** What an enrolment with the token of row [k] leaves, lines 558-585. *)
Record enrolled_as (now : gotime) (raw : string) (f : EnrollForm) (d d' : AppDB) (collector connector credential org : string) : Prop := {
  en_token : exists k t, find_row (usable_token now (ef_token f)) (ad_tokens d) = Some (k, t) /\ to_org t = org /\
    ad_tokens d' = <[k := spend now t]> (ad_tokens d);
  en_type : connector_type f ∈ ["DOCKER"; "KUBERNETES"];
  en_collector : gd_collectors (ad_gateway d) !! collector = None /\
    gd_collectors (ad_gateway d') = <[collector := new_collector now org raw f]> (gd_collectors (ad_gateway d));
  en_credential : exists id, gd_credentials (ad_gateway d) !! id = None /\
    gd_credentials (ad_gateway d') = <[id := new_credential collector credential]> (gd_credentials (ad_gateway d));
  en_connector : gd_connectors (ad_gateway d) !! connector = None /\
    gd_connectors (ad_gateway d') = <[connector := new_connector now org collector f]> (gd_connectors (ad_gateway d));
  en_rest : d' = set_gateway (with_collectors (gd_collectors (ad_gateway d')) (gd_credentials (ad_gateway d'))
    (gd_connectors (ad_gateway d')) (ad_gateway d)) (set_tokens (ad_tokens d') d) }.

(** Its answer. *)
Definition enrollment (f : EnrollForm) (collector connector credential org : string) : json :=
  JObj [("collectorId", JStr collector); ("compatibilityStatus", JStr (compatibility (ef_protocol f)));
    ("connectorId", JStr connector); ("credential", JStr credential); ("organizationId", JStr org)].

Lemma enroll_tx_cases now drawn raw f r d d' response : enroll_tx now drawn raw f r d = (d', response) ->
  (d' = d /\ ~ success response) \/
  exists collector connector credential org, enrolled_as now raw f d d' collector connector credential org /\
    response = writeJSON 201 (enrollment f collector connector credential org).
Proof.
  assert (forall status code, (400 <= status)%Z -> (d, writeError status code r) = (d', response) -> d' = d /\ ~ success response) as Hrefuse.
  { intros status code Hs [= <- <-]. split; [done|by apply writeError_fails]. }
  unfold enroll_tx. destruct (find_row _ _) as [[k t]|] eqn:Ef; [|intros E; left; by eapply Hrefuse in E].
  destruct (bool_decide (connector_type f ∈ _)) eqn:Et; cbn [negb]; [|intros E; left; by eapply Hrefuse in E].
  destruct (enrollable _ _ _ _ _ _) eqn:Ee; cbn [negb]; [|intros E; left; by eapply Hrefuse in E].
  intros [= <- <-]. right. unfold enrollable in Ee. rewrite !andb_true_iff, !bool_decide_eq_true in Ee.
  destruct Ee as [[[Hcollector _] Hcredential] Hconnector]. do 4 eexists. split; [|reflexivity].
  split; cbn; try done; try (by eexists); [|by apply bool_decide_eq_true in Et]. by exists k, t.
Qed.

(** A request to enroll: it is refused, or it enrolls the key of its body. *)
Lemma enroll_cases now drawn r a a' response d : enroll c now drawn r a = (a', response) -> ap_db a = Some d ->
  (ap_db a' = Some d /\ ~ success response) \/
  exists f raw d' collector connector credential org,
    (allow now (clientIP c r) (ap_auth a)).2 = true /\
    decode (hr_body r) (Z.shiftl 64 10) zero_enroll (dec_struct true enroll_fields) = Ok f /\
    std_decode (ef_key f) = Some raw /\ len raw = 32%Z /\ ap_db a' = Some d' /\
    enrolled_as now raw f d d' collector connector credential org /\ response = writeJSON 201 (enrollment f collector connector credential org).
Proof.
  intros He Hd. unfold enroll in He. rewrite Hd in He. destruct (allow now (clientIP c r) (ap_auth a)) as [auth ok].
  assert (forall status code, (400 <= status)%Z -> (set_auth auth a, writeError status code r) = (a', response) ->
    ap_db a' = Some d /\ ~ success response) as Hrefuse.
  { intros status code Hs [= <- <-]. split; [done|by apply writeError_fails]. }
  destruct ok; cbn [negb] in He; [|left; by eapply Hrefuse in He].
  destruct (decode _ _ _ _) as [f|[status code]] eqn:Ef; [|left; eapply Hrefuse in He; [done|by apply decode_status in Ef]].
  destruct (std_decode (ef_key f)) as [raw|] eqn:Ek; [|left; by eapply Hrefuse in He].
  destruct (Z.eqb_spec (len raw) 32); cbn [negb] in He; [|left; by eapply Hrefuse in He].
  destruct (enroll_tx _ _ _ _ _ _) as [d' x] eqn:Et. injection He as <- <-.
  apply enroll_tx_cases in Et as [[-> Hno]|(collector & connector & credential & org & Hen & ->)]; [by left|right].
  by exists f, raw, d', collector, connector, credential, org.
Qed.

Lemma enroll_no_database now drawn r a a' response : enroll c now drawn r a = (a', response) -> ap_db a = None ->
  ap_db a' = None /\ ~ success response.
Proof. unfold enroll. intros He Hd. rewrite Hd in He. injection He as <- <-. split; [done|by apply writeError_fails]. Qed.

End Enrollment.
