(* ===== verification/Bootstrap.v ===== *)
(** * The entry points of the control plane

    [cmd/infragraph-bootstrap/main.go] makes the first owner of an organization,
    with an enrolment token for its first collector; [cmd/infragraph-api/main.go]
    starts the service. A process that exits leaves its code and what it wrote
    last. One run reads one clock, and its statements fail by their constraints
    only. *)
From S2P Require Import Prelude GoStrings GoNumbers GoJson GoJsonDecode GoEncoding GoTime GoUrl GoIo Domain Security SecurityFacts Migrations.
From S2P Require Import Reconcile PgStore PgFacts AuditChain RateLimit Gateway GatewayFacts Config Http Sessions Api Enrollment App AppSample SessionFacts EnrollmentFacts.
From S2P Require Storage.
Open Scope string_scope.
Open Scope list_scope.

(** ** The pool ([database.Open]) *)

Section Pool.
Context {PgConfig Pool : Type}.

Record PoolConfig := { pool_pg : PgConfig; MaxConns : Z; MinConns : Z; MaxConnLifetime : Z }.

(** The driver: its configuration of a URL, its pools, and whether one answers. *)
Variables (ParseConfig : string -> result string PgConfig) (NewWithConfig : PoolConfig -> result string Pool)
          (Ping : Pool -> result string unit).

(** The pool or the error, and the pools closed again. *)
Definition Open (url : string) : result string Pool * list Pool :=
  if bool_decide (url = "") then (Err "database URL required", []) else
  match ParseConfig url with
  | Err e => (Err e, [])
  | Ok cfg =>
      match NewWithConfig {| pool_pg := cfg; MaxConns := 20; MinConns := 2; MaxConnLifetime := 3600 * nano |} with
      | Err e => (Err e, [])
      | Ok pool => match Ping pool with Err e => (Err e, [pool]) | Ok _ => (Ok pool, []) end
      end
  end.

End Pool.

(** ** The first owner *)

Record Flags := {
  fl_database : string; fl_organization : string; fl_name : string; fl_email : string; fl_password : string;
  fl_token : bool; fl_ttl : Z }.

(** What the flags are before they are parsed. *)
Definition default_flags (Getenv : string -> string) : Flags :=
  {| fl_database := Getenv "INFRAGRAPH_DATABASE_URL"; fl_organization := ""; fl_name := ""; fl_email := ""; fl_password := "";
     fl_token := false; fl_ttl := 15 * minute |}.

(** The tables of organizations and roles, with those of the application. *)
Record BootDB := { bd_organizations : table string; bd_roles : gset string; bd_app : AppDB }.

Definition set_users (v : table UserRow) (d : AppDB) : AppDB :=
  Build_AppDB v (ad_sessions d) (ad_mfa d) (ad_recovery d) (ad_user_roles d) (ad_role_permissions d) (ad_permissions d) (ad_tokens d)
    (ad_findings d) (ad_criticality d) (ad_gateway d).
Definition set_user_roles (v : gset (string * string)) (d : AppDB) : AppDB :=
  Build_AppDB (ad_users d) (ad_sessions d) (ad_mfa d) (ad_recovery d) v (ad_role_permissions d) (ad_permissions d) (ad_tokens d)
    (ad_findings d) (ad_criticality d) (ad_gateway d).

(** A process that ended: with a code and an error, or with what it printed. *)
Inductive ending := Exits (code : Z) (stderr : string) | Printed (lines : list string).

Section Bootstrap.
Context `{Postgres, Argon2, UnicodeCase}.

Definition organization_id (org : string) : string := "org-" +:+ String.substring 0 16 (TokenHash (to_lower org)).
Definition user_id (email : string) : string := "user-" +:+ String.substring 0 16 (TokenHash (to_lower email)).
Definition enrollment_id (token : string) : string := "enrollment-" +:+ String.substring 0 24 (TokenHash token).

(** The statements of lines 53-65. *)
Definition insert_organization (f : Flags) (d : BootDB) : result string BootDB :=
  let oid := organization_id (fl_organization f) in
  if bool_decide (is_Some (bd_organizations d !! oid)) then Err duplicate_key else
  Ok {| bd_organizations := <[oid := fl_organization f]> (bd_organizations d); bd_roles := bd_roles d; bd_app := bd_app d |}.

Definition on_app (g : AppDB -> AppDB) (d : BootDB) : BootDB :=
  {| bd_organizations := bd_organizations d; bd_roles := bd_roles d; bd_app := g (bd_app d) |}.

Definition owner_row (f : Flags) (hash : string) : UserRow :=
  {| us_org := organization_id (fl_organization f); us_email := fl_email f; us_hash := hash; us_active := true; us_mfa := false |}.

Definition insert_user (f : Flags) (hash : string) (d : BootDB) : result string BootDB :=
  let uid := user_id (fl_email f) in
  let users := ad_users (bd_app d) in
  if bool_decide (is_Some (users !! uid)) ||
     negb (bool_decide (map_Forall (fun _ u => ~ (us_org u = organization_id (fl_organization f) /\ us_email u = fl_email f)) users))
  then Err duplicate_key else Ok (on_app (set_users (<[uid := owner_row f hash]> users)) d).

Definition foreign_key : string := "insert or update violates foreign key constraint".

Definition insert_role (f : Flags) (d : BootDB) : result string BootDB :=
  let uid := user_id (fl_email f) in
  if negb (bool_decide ("role-owner" ∈ bd_roles d)) then Err foreign_key else
  if bool_decide ((uid, "role-owner") ∈ ad_user_roles (bd_app d)) then Err duplicate_key else
  Ok (on_app (fun a => set_user_roles ({[(uid, "role-owner")]} ∪ ad_user_roles a) a) d).

Definition token_row (now : gotime) (f : Flags) (token : string) : TokenRow :=
  {| to_org := organization_id (fl_organization f); to_hash := TokenHash token; to_expires := column_time (now + fl_ttl f)%Z;
     to_used := None; to_scope := "collector.enroll" |}.

Definition insert_token (now : gotime) (f : Flags) (token : string) (d : BootDB) : result string BootDB :=
  let tokens := ad_tokens (bd_app d) in
  if bool_decide (is_Some (tokens !! enrollment_id token)) ||
     negb (bool_decide (map_Forall (fun _ t => to_hash t <> TokenHash token) tokens))
  then Err duplicate_key else Ok (on_app (set_tokens (<[enrollment_id token := token_row now f token]> tokens)) d).

(** Lines 53-65: the transaction, and the token in clear. *)
Definition create_owner (now : gotime) (f : Flags) (hash : string) (drawn : random) (d : BootDB) : result string (BootDB * string) :=
  d ← insert_organization f d;
  d ← insert_user f hash d;
  d ← insert_role f d;
  if fl_token f then token ← RandomToken drawn; d ← insert_token now f token d; Ok (d, token) else Ok (d, "").

(** A time as [time.RFC3339] prints it: without the fraction of a second. *)
Definition rfc3339 (t : gotime) : string := rfc3339nano (t - t mod nano).

(** [main]: [opened] is the pool's error, [migrate] what [Migrate] leaves and
    its error, [commit] the error of the commit and whether it was executed all
    the same. *)
Definition bootstrap (now : gotime) (f : Flags) (opened : result string unit) (migrate : BootDB -> BootDB * option string)
    (salt drawn : random) (commit : option (bool * string)) (d : BootDB) : BootDB * ending :=
  if bool_decide (fl_database f = "") || bool_decide (fl_organization f = "") || bool_decide (fl_name f = "") ||
     bool_decide (fl_email f = "") || bool_decide (fl_password f = "") then (d, Exits 2 "all flags are required") else
  if fl_token f && ((fl_ttl f <? minute) || (24 * hour <? fl_ttl f))%Z
  then (d, Exits 2 "collector token TTL must be between 1 minute and 24 hours") else
  match opened with
  | Err e => (d, Exits 1 e)
  | Ok _ =>
      match migrate d with
      | (d, Some e) => (d, Exits 1 e)
      | (d, None) =>
          match HashPassword salt (fl_password f) with
          | Err e => (d, Exits 1 e)
          | Ok hash =>
              match create_owner now f hash drawn d, commit with
              | Err e, _ => (d, Exits 1 e)
              | Ok (d', token), Some (executed, e) => (if executed then d' else d, Exits 1 e)
              | Ok (d, token), None =>
                  (d, Printed (("bootstrap owner created for organization " +:+ organization_id (fl_organization f)) ::
                     if bool_decide (token = "") then [] else
                     ["collector enrollment token (shown once): " +:+ token;
                      "collector enrollment token expires at: " +:+ rfc3339 (now + fl_ttl f)]))
              end
          end
      end
  end.

End Bootstrap.

(** ** The service *)

(** The object store the configuration names. *)
Inductive objects := LocalObjects (l : Storage.Local) | S3Objects (s : Storage.S3).

(** What the start of [cmd/infragraph-api] comes to: the server listens, the
    process exits, or it panics. *)
Inductive started := Listens (c : Config) (o : objects) | Stops (reason error : string) | Crashes.

Section Service.
Context `{UrlParser} (Quote : string -> string) (new_client : string -> string -> string -> bool -> result string Storage.Client).

Definition open_objects (cwd : option string) (fs : Storage.FS) (c : Config) : result string objects :=
  if bool_decide (ObjectStorageType c = "s3")
  then s ← Storage.NewS3 new_client (S3Endpoint c) (S3Bucket c) (S3AccessKey c) (S3SecretKey c) (S3UseTLS c); Ok (S3Objects s)
  else lf ← Storage.NewLocal cwd fs (ObjectStoragePath c); Ok (LocalObjects lf.1).

(** [main] up to the server: [opened] and [migrated] are the errors of
    [database.Open] and of [Migrate], on the database of this URL. *)
Definition api_main (Getenv : string -> string) (opened migrated : string -> option string) (cwd : option string) (fs : Storage.FS) : started :=
  match Load Quote Getenv with
  | None => Crashes
  | Some (Err e) => Stops "configuration rejected" e
  | Some (Ok c) =>
      match opened (DatabaseURL c) with
      | Some e => Stops "database unavailable" e
      | None =>
          match migrated (DatabaseURL c) with
          | Some e => Stops "migration failed" e
          | None =>
              match open_objects cwd fs c with
              | Err e => Stops "object storage configuration failed" e
              | Ok o => Listens c o
              end
          end
      end
  end.

End Service.

(** The server of line 49; its handler is [Handler] of [app.New]. *)
Record HttpServer := {
  hs_addr : string; hs_read_header : Z; hs_read : Z; hs_write : Z; hs_idle : Z; hs_max_header : Z }.

Definition http_server (c : Config) : HttpServer :=
  {| hs_addr := HTTPAddr c; hs_read_header := 5 * nano; hs_read := 30 * nano; hs_write := 60 * nano; hs_idle := 90 * nano;
     hs_max_header := Z.shiftl 1 20 |}.

(** What then happens to the process: a signal to stop, [ListenAndServe]
    returning an error other than [ErrServerClosed] or nothing else, [Shutdown]
    returning within its twenty seconds or with its error. *)
Inductive service_event := Signalled | ListenReturned (e : option string) | ShutdownReturned (e : option string).

(** The process with what it logs last. *)
Inductive service := Serving | ShuttingDown | Exited (status : Z) (logged : option (string * string)).

Definition service_step (s : service) (e : service_event) : service :=
  match s, e with
  | Exited _ _, _ => s
  | _, ListenReturned (Some e) => Exited 1 (Some ("HTTP server failed", e))
  | _, ListenReturned None => s
  | _, Signalled => ShuttingDown
  | ShuttingDown, ShutdownReturned e => Exited 0 ((fun e => ("graceful shutdown exceeded deadline", e)) <$> e)
  | Serving, ShutdownReturned _ => s
  end.

(** From line 49 to the end, after a start. *)
Definition run_service (started_as : started) (l : list service_event) : service :=
  match started_as with
  | Listens _ _ => foldl service_step Serving l
  | Stops reason e => Exited 1 (Some (reason, e))
  | Crashes => Exited 2 None
  end.

(** The process ends well only when it was told to stop and its listener had
    not failed before its shutdown returned. *)
Lemma service_exits_well c o l logged : run_service (Listens c o) l = Exited 0 logged ->
  exists l1 e l2, l = l1 ++ ShutdownReturned e :: l2 /\ Signalled ∈ l1 /\ (forall x, ListenReturned (Some x) ∉ l1) /\
    logged = (fun e => ("graceful shutdown exceeded deadline", e)) <$> e.
Proof.
  cbn [run_service]. induction l as [|x l IH] using rev_ind; [done|]. rewrite foldl_app. cbn [foldl].
  assert (Hrun : forall l, match foldl service_step Serving l with
    | Exited _ _ => True | Serving => forall x, ListenReturned (Some x) ∉ l
    | ShuttingDown => Signalled ∈ l /\ forall x, ListenReturned (Some x) ∉ l end).
  { clear. intros l. induction l as [|x l IH] using rev_ind; [cbn; set_solver|]. rewrite foldl_app. cbn [foldl].
    destruct (foldl service_step Serving l) as [| |]; destruct x as [|[|]|]; cbn; set_solver. }
  specialize (Hrun l). destruct (foldl service_step Serving l) as [| |st lg].
  - by destruct x as [|[|]|].
  - destruct x as [|[|]|e]; try done. intros [= <-]. exists l, e, []. by destruct Hrun.
  - cbn. intros [= -> ->]. destruct (IH eq_refl) as (l1 & e & l2 & -> & Hl). exists l1, e, (l2 ++ [x]). by rewrite <- app_assoc.
Qed.

(** ** What bootstrapping leaves *)

Lemma some_row_unique `{RangeOrder} {A} (p : A -> bool) (t : gmap string A) k r : t !! k = Some r -> p r = true ->
  (forall k' r', t !! k' = Some r' -> p r' = true -> k' = k) -> some_row p t = Some (k, r).
Proof.
  intros Hk Hp Hu. destruct (some_row p t) as [[k' r']|] eqn:Es.
  - apply some_row_Some in Es as [Hk' Hp']. rewrite (Hu _ _ Hk' Hp') in Hk' |- *. congruence.
  - exfalso. unfold some_row in Es. assert ((k, r) ∈ filter (fun kr => p kr.2 = true) (range 0 t)) as Hin.
    { apply list_elem_of_filter. split; [done|]. rewrite range_perm. by apply elem_of_map_to_list. }
    destruct (filter _ _); [by apply elem_of_nil in Hin|done].
Qed.

Section Facts.
Context `{SqlText, RangeOrder, Postgres, Argon2, AesGcm, UnicodeCase, Ed25519, AuditStore}.

(** The rows of an owner in the tables of the application. *)
Record owned (now : gotime) (f : Flags) (hash token : string) (before after : AppDB) : Prop := {
  ow_users : ad_users after = <[user_id (fl_email f) := owner_row f hash]> (ad_users before);
  ow_role : (user_id (fl_email f), "role-owner") ∈ ad_user_roles after;
  ow_grants : ad_role_permissions after = ad_role_permissions before /\ ad_permissions after = ad_permissions before;
  ow_sessions : ad_sessions after = ad_sessions before;
  ow_token : fl_token f = true -> ad_tokens after = <[enrollment_id token := token_row now f token]> (ad_tokens before) /\
    forall k t, ad_tokens before !! k = Some t -> to_hash t <> TokenHash token }.

Lemma create_owner_owned now f hash drawn d d' token : create_owner now f hash drawn d = Ok (d', token) ->
  owned now f hash token (bd_app d) (bd_app d') /\ (fl_token f = true -> RandomToken drawn = Ok token).
Proof.
  intros (d1 & J1 & (d2 & J2 & (d3 & J3 & J4)%bind_ok)%bind_ok)%bind_ok.
  assert (bd_app d1 = bd_app d) as E1 by (unfold insert_organization in J1; case_bool_decide; [done|by injection J1 as <-]).
  assert (bd_app d2 = set_users (<[user_id (fl_email f) := owner_row f hash]> (ad_users (bd_app d))) (bd_app d)) as E2.
  { unfold insert_user in J2. cbv zeta in J2. destruct (_ || _); [done|]. injection J2 as <-. cbn [on_app bd_app]. by rewrite E1. }
  assert (bd_app d3 = set_user_roles ({[(user_id (fl_email f), "role-owner")]} ∪ ad_user_roles (bd_app d2)) (bd_app d2)) as E3.
  { unfold insert_role in J3. case_bool_decide; [|done]. case_bool_decide; [done|]. by injection J3 as <-. }
  assert (owned now f hash token (bd_app d) (bd_app d3) \/ fl_token f = true) as Hplain.
  { destruct (fl_token f) eqn:Et; [by right|left]. rewrite E3, E2.
    constructor; [reflexivity|apply elem_of_union_l, elem_of_singleton; reflexivity|done|reflexivity|congruence]. }
  destruct (fl_token f) eqn:Et; [apply bind_ok in J4 as (t & Ht & (d4 & J4 & [= -> ->])%bind_ok)|injection J4 as <- <-; by destruct Hplain].
  split; [|done]. unfold insert_token in J4. cbv zeta in J4. destruct (bool_decide (is_Some _)) eqn:Eb; [done|]. cbn [orb] in J4.
  case_bool_decide as Hall; [|done]. injection J4 as <-. cbn [on_app bd_app]. rewrite E3, E2 in *. clear E1 E2 E3 Eb Hplain.
  constructor; [reflexivity|apply elem_of_union_l, elem_of_singleton; reflexivity|done|reflexivity|].
  intros _. split; [reflexivity|exact Hall].
Qed.

(** What the owner's role lets them do. *)
Definition owner_permission (d : AppDB) (p : string) : Prop :=
  exists id, ("role-owner", id) ∈ ad_role_permissions d /\ ad_permissions d !! id = Some p.

Lemma owner_permissions now f hash token before after p : owned now f hash token before after -> owner_permission before p ->
  p ∈ permissions after (user_id (fl_email f)).
Proof.
  intros [] (id & Hid & Hp). destruct ow_grants0 as [E1 E2]. unfold permissions. apply elem_of_list_to_set, list_elem_of_omap.
  exists ("role-owner", id). rewrite E1, E2. split; [by apply elem_of_elements|]. cbn. by rewrite bool_decide_true.
Qed.

Lemma owner_token now f hash token before after t : owned now f hash token before after -> fl_token f = true ->
  (t < column_time (now + fl_ttl f))%Z ->
  find_row (usable_token t token) (ad_tokens after) = Some (enrollment_id token, token_row now f token).
Proof.
  intros Ho Ht Hlt. destruct (ow_token _ _ _ _ _ _ Ho Ht) as [E Hfresh]. rewrite E.
  assert (usable_token t token (token_row now f token) = true) as Hu.
  { unfold usable_token, token_row. cbn. by rewrite !bool_decide_true, (proj2 (Z.ltb_lt _ _)) by done. }
  destruct (find_row_is_Some (usable_token t token) (<[enrollment_id token := token_row now f token]> (ad_tokens before))
    (enrollment_id token) (token_row now f token)) as [[k row] Hf]; [by rewrite lookup_insert_eq|done|].
  rewrite Hf. apply find_row_Some in Hf as [Hk Hp]. apply lookup_insert_Some in Hk as [[<- <-]|[_ Hk]]; [done|].
  exfalso. apply (Hfresh _ _ Hk). unfold usable_token in Hp. rewrite !andb_true_iff, !bool_decide_eq_true in Hp. tauto.
Qed.

(** The token of a new session. *)
Definition session_token (rt : random) : string := match RandomToken rt with Ok t => t | Err _ => "" end.

(** Signing in with the right password and no second factor. *)
Lemma login_succeeds c now rt rc r a d f id u : ap_db a = Some d -> (allow now (clientIP c r) (ap_auth a)).2 = true ->
  decode (hr_body r) (Z.shiftl 64 10) zero_login (dec_struct true login_fields) = Ok f -> password_user d f = Some (id, u) -> us_mfa u = false ->
  ad_sessions d !! KeyedTokenHash (SessionSecret c) (session_token rt) = None ->
  exists a' d' response key s, login c now rt rc r a = (a', Some response) /\ rs_status response = 200%Z /\ ap_db a' = Some d' /\
    ad_sessions d' !! key = Some s /\ se_user s = id /\ se_org s = us_org u.
Proof.
  intros Hd Ha Hf Hu Hm Hnew. unfold login. destruct (allow now (clientIP c r) (ap_auth a)) as [auth ok]. cbn in Ha. subst ok.
  change (ap_db (set_auth auth a)) with (ap_db a). rewrite Hd, Hf, Hu, Hm. cbn [negb]. unfold start_session.
  change (match RandomToken rt with Ok t => t | Err _ => "" end) with (session_token rt). rewrite Hnew.
  eexists _, _, _, (KeyedTokenHash (SessionSecret c) (session_token rt)), _.
  split; [reflexivity|]. split; [reflexivity|]. split; [reflexivity|]. split; [apply lookup_insert_eq|]. split; reflexivity.
Qed.

Lemma bootstrap_cases now f opened migrate salt drawn commit d d' out : bootstrap now f opened migrate salt drawn commit d = (d', out) ->
  match out with
  | Exits _ _ => d' = d \/ d' = (migrate d).1 \/ exists e, commit = Some (true, e)
  | Printed lines => exists hash token, HashPassword salt (fl_password f) = Ok hash /\ (migrate d).2 = None /\ fl_email f <> "" /\
      create_owner now f hash drawn (migrate d).1 = Ok (d', token) /\
      (token <> "" -> "collector enrollment token (shown once): " +:+ token ∈ lines)
  end.
Proof.
  unfold bootstrap. destruct (_ || _ || _ || _ || _) eqn:Ereq; [intros [= <- <-]; by left|]. destruct (_ && _); [intros [= <- <-]; by left|].
  destruct opened as [[]|e]; [|intros [= <- <-]; by left]. destruct (migrate d) as [dm [e|]]; cbn [fst snd]; [intros [= <- <-]; by right; left|].
  destruct (HashPassword salt (fl_password f)) as [hash|e] eqn:Eh; [|intros [= <- <-]; by right; left].
  destruct (create_owner now f hash drawn dm) as [[d1 token]|e] eqn:Ec; [|intros [= <- <-]; by right; left].
  destruct commit as [[[] e]|].
  - intros [= <- <-]. right. right. by exists e.
  - intros [= <- <-]. by right; left.
  - intros [= <- <-]. exists hash, token. split; [done|]. split; [done|]. split; [|split; [done|]].
    + rewrite !orb_false_iff, !bool_decide_eq_false in Ereq. tauto.
    + intros Hne. rewrite bool_decide_false by done. right. left.
Qed.

End Facts.

(** ** The theorems *)

(** C17. Bootstrapping ends with an organization that can be worked in, or with
    nothing: a run that reports an error leaves the database as it was (or only
    migrated), unless a commit was executed and its answer lost; after a run
    that reports success the owner signs in with their address, in any case the
    database takes for the same, and their password, has every permission the
    owner's role grants, and the token printed, if one was asked for, is the
    one the enrolment of a collector of this organization finds usable until it
    expires. *)
Theorem bootstrap_opens_the_door `{SqlText, RangeOrder, Postgres, Argon2, AesGcm, UnicodeCase, Ed25519, AuditStore}
    now f opened migrate salt drawn commit d d' out
    (Hrun : bootstrap now f opened migrate salt drawn commit d = (d', out))
    (Hemail : forall k u, ad_users (bd_app (migrate d).1) !! k = Some u -> sql_lower (us_email u) <> sql_lower (fl_email f)) :
  match out with
  | Exits _ _ => d' = d \/ d' = (migrate d).1 \/ exists e, commit = Some (true, e)
  | Printed lines =>
      (forall c t rt rc r a form, ap_db a = Some (bd_app d') -> (allow t (clientIP c r) (ap_auth a)).2 = true ->
         decode (hr_body r) (Z.shiftl 64 10) zero_login (dec_struct true login_fields) = Ok form ->
         sql_lower (lf_email form) = sql_lower (fl_email f) -> lf_password form = fl_password f ->
         ad_sessions (bd_app d') !! KeyedTokenHash (SessionSecret c) (session_token rt) = None ->
         exists a1 d1 response key s, login c t rt rc r a = (a1, Some response) /\ rs_status response = 200%Z /\ ap_db a1 = Some d1 /\
           ad_sessions d1 !! key = Some s /\ se_user s = user_id (fl_email f) /\ se_org s = organization_id (fl_organization f)) /\
      (forall p, owner_permission (bd_app (migrate d).1) p -> p ∈ permissions (bd_app d') (user_id (fl_email f))) /\
      (fl_token f = true -> exists token, RandomToken drawn = Ok token /\
         (token <> "" -> "collector enrollment token (shown once): " +:+ token ∈ lines) /\
         forall t, (t < column_time (now + fl_ttl f))%Z -> exists k row,
           find_row (usable_token t token) (ad_tokens (bd_app d')) = Some (k, row) /\ to_org row = organization_id (fl_organization f))
  end.
Proof.
  apply bootstrap_cases in Hrun. destruct out as [code e|lines]; [done|].
  destruct Hrun as (hash & token & Hhash & Hm & Hne & [Hown Htok]%create_owner_owned & Hline). split; [|split].
  - intros c t rt rc r a form Hd Ha Hf He Hp Hs.
    assert (password_user (bd_app d') form = Some (user_id (fl_email f), owner_row f hash)) as Hu.
    { unfold password_user. rewrite (ow_users _ _ _ _ _ _ Hown).
      rewrite (some_row_unique _ _ (user_id (fl_email f)) (owner_row f hash)).
      - cbn [mbind option_bind]. destruct (password_hash_verifies _ _ _ Hhash) as (_ & sa & _ & Hv). rewrite Hp. cbn [owner_row us_active us_hash].
        by rewrite Hv, bool_decide_true.
      - apply lookup_insert_eq.
      - apply bool_decide_eq_true. by rewrite He.
      - intros k' u [[<- _]|[_ Hk]]%lookup_insert_Some Hq; [done|]. apply bool_decide_eq_true in Hq. exfalso. apply (Hemail _ _ Hk). by rewrite Hq. }
    destruct (login_succeeds c t rt rc r a (bd_app d') form _ _ Hd Ha Hf Hu eq_refl Hs) as (a1 & d1 & response & key & s & Hl & ?).
    by exists a1, d1, response, key, s.
  - intros p Hp. by eapply owner_permissions.
  - intros Ht. exists token. split; [by apply Htok|]. split; [done|]. intros t Hlt.
    exists (enrollment_id token), (token_row now f token). split; [by eapply owner_token|reflexivity].
Qed.

(** *** A first run *)

Definition first_flags : Flags :=
  {| fl_database := "postgres://db/infragraph"; fl_organization := "Acme"; fl_name := "Owner"; fl_email := "Owner@Acme.example";
     fl_password := "correct horse battery"; fl_token := true; fl_ttl := 15 * minute |}.

(** A database as the migrations leave it, with two of the permissions. *)
Definition migrated_db : BootDB :=
  {| bd_organizations := ∅; bd_roles := {["role-owner"; "role-viewer"]};
     bd_app := {| ad_users := ∅; ad_sessions := ∅; ad_mfa := ∅; ad_recovery := ∅; ad_user_roles := ∅;
       ad_role_permissions := {[("role-owner", "permission-asset-read"); ("role-owner", "permission-audit-read")]};
       ad_permissions := {["permission-asset-read" := "asset.read"; "permission-audit-read" := "audit.read"]};
       ad_tokens := ∅; ad_findings := ∅; ad_criticality := ∅; ad_gateway := sample_gateway |} |}.

Definition first_run : BootDB * ending :=
  bootstrap sample_now first_flags (Ok tt) (fun d => (d, None)) (Ok "0123456789abcdef") (Ok "token-of-32-random-bytes-entropy") None migrated_db.

Definition owner_login : HttpRequest :=
  request "POST" "/api/v1/auth/login" [] [] (quoted "{'email':'owner@acme.example','password':'correct horse battery'}").

(** The same again finds the organization taken, and changes nothing. *)
Example bootstrap_twice :
  let '(d, out) := first_run in
  let '(d', out') := bootstrap sample_now first_flags (Ok tt) (fun d => (d, None)) (Ok "0123456789abcdef") (Ok "token") None d in
  out' = Exits 1 duplicate_key /\ match out with Printed lines => length lines = 3%nat | _ => False end.
Proof. vm_compute. done. Qed.

Lemma bootstrap_opens_the_door_witness :
  let app := New (Some (bd_app first_run.1)) in
  let i := situation (sample_now + hour) in
  (exists a1 response, login sample_config (sample_now + hour) (si_token i) (si_csrf i) owner_login app = (a1, Some response) /\
    rs_status response = 200%Z) /\
  "audit.read" ∈ permissions (bd_app first_run.1) (user_id "Owner@Acme.example") /\
  exists token, RandomToken (Ok "token-of-32-random-bytes-entropy") = Ok token /\
    is_Some (find_row (usable_token (sample_now + 14 * minute) token) (ad_tokens (bd_app first_run.1))).
Proof.
  intros app i.
  assert (forall k u, ad_users (bd_app migrated_db) !! k = Some u -> sql_lower (us_email u) <> sql_lower (fl_email first_flags)) as Hemail.
  { intros k u Hk. exfalso. change (ad_users (bd_app migrated_db)) with (∅ : gmap string UserRow) in Hk. rewrite lookup_empty in Hk. discriminate Hk. }
  pose proof (bootstrap_opens_the_door sample_now first_flags (Ok tt) (fun d => (d, None)) (Ok "0123456789abcdef")
    (Ok "token-of-32-random-bytes-entropy") None migrated_db first_run.1 first_run.2 (surjective_pairing first_run) Hemail) as Hdoor.
  destruct first_run.2 as [code e|lines] eqn:Eout; [exfalso; vm_compute in Eout; discriminate Eout|].
  destruct Hdoor as (Hlogin & Hperm & Htoken). split; [|split].
  - assert (exists form, decode (hr_body owner_login) (Z.shiftl 64 10) zero_login (dec_struct true login_fields) = Ok form /\
      lf_email form = "owner@acme.example" /\ lf_password form = "correct horse battery") as (form & Hf & He & Hp).
    { eexists. split; [vm_compute; reflexivity|]. split; reflexivity. }
    destruct (Hlogin sample_config (sample_now + hour)%Z (si_token i) (si_csrf i) owner_login app form eq_refl
      ltac:(vm_compute; reflexivity) Hf ltac:(rewrite He; vm_compute; reflexivity) Hp ltac:(vm_compute; reflexivity))
      as (a1 & d1 & response & key & s & Hl & Hs & _).
    exists a1, response. split; [exact Hl|exact Hs].
  - apply Hperm. exists "permission-audit-read". split; [apply (bool_decide_unpack _)|]; vm_compute; reflexivity.
  - destruct (Htoken eq_refl) as (token & Ht & _ & Huse). exists token. split; [exact Ht|].
    destruct (Huse (sample_now + 14 * minute)%Z ltac:(vm_compute; reflexivity)) as (k & row & Hf & _). exists (k, row). exact Hf.
Defined.

(** The error of a runner's [Migrate]; a runner that has not returned has none
    to go on with. *)
Definition migrate_error {Schema} (w : World Schema) (i : nat) : option string :=
  match w_runners w !! i with Some (Returned e) => e | _ => Some "context deadline exceeded" end.

(** The service listens on nothing but a safe configuration and a migrated
    database: its limits are within bounds, in production its secrets, database
    connection, origins and storage are safe, its object store is the one
    configured, and every migration was applied, once and in order, however
    many instances started at once and whatever happened to them. *)
Theorem api_listens_only_when_ready `{UrlParser} Quote new_client Getenv opened cwd fs c o
    {Schema} migrationFS (exec : string -> Schema -> result string Schema) base done0 s n l i
    (Hversions : NoDup (version <$> names migrationFS)) (Hprefix : done0 `prefix_of` names migrationFS)
    (Happlied : applied migrationFS exec base done0 s) :
  let w := migrated migrationFS exec (starting s n) l in
  api_main Quote new_client Getenv opened (fun _ => migrate_error w i) cwd fs = Listens c o ->
  bounded c /\ (Environment c = "production" -> exists u, url_parse (DatabaseURL c) = Some u /\ production_safe c u) /\
  match o with
  | S3Objects s3 => ObjectStorageType c = "s3" /\ Storage.bucket s3 = S3Bucket c
  | LocalObjects _ => ObjectStorageType c = "local"
  end /\
  applied migrationFS exec base (names migrationFS) (w_server w).
Proof.
  intros w Hmain. unfold api_main in Hmain. destruct (Load Quote Getenv) as [[c0|e]|] eqn:El; [|done..].
  destruct (opened _); [done|]. destruct (migrate_error w i) eqn:Em; [done|].
  destruct (open_objects _ _ _ _) as [o0|] eqn:Eo; [|done]. injection Hmain as -> ->.
  assert (Validate c = Accepted) as Hv.
  { unfold Load in El. destruct (foldM _ _ _); [|done]. destruct (Validate _) eqn:Ev; [|done|done]. by injection El as <-. }
  apply Validate_accepted in Hv as [Hb Hp]. split; [done|]. split; [done|]. split.
  - unfold open_objects in Eo. case_bool_decide as Hs3.
    + apply bind_ok in Eo as (s3 & Hs & [= <-]). split; [done|]. unfold Storage.NewS3 in Hs. destruct (_ || _); [done|].
      by apply bind_ok in Hs as (cl & _ & [= <-]).
    + apply bind_ok in Eo as (lf & _ & [= <-]). by destruct (bo_storage _ Hb).
  - destruct (migrated_consistent migrationFS exec base Hversions done0 (starting s n) l) as (done & _ & Hd & Ha & Hps).
    { by apply starting_consistent. }
    unfold migrate_error in Em. fold w in Ha, Hps. destruct (w_runners w !! i) as [p|] eqn:Ep; [|done]. destruct p; try done. subst.
    specialize (Hps i _ Ep). cbn in Hps. by subst done.
Qed.

Lemma api_listens_only_when_ready_witness :
  let w := migrated sample_files keep_text (starting new_server 2) sample_events in
  exists c o, api_main (H := example_urls) id (fun _ _ _ _ => Err "no client") (fun k => if String.eqb k "INFRAGRAPH_DATABASE_URL" then "postgres://db" else "")
    (fun _ => None) (fun _ => migrate_error w 1) (Some "/srv") {[ ([] : list string) := Storage.Folder ]} = Listens c o /\
  ObjectStorageType c = "local" /\ sv_schema (w_server w) = ["CREATE"; "ALTER"] /\ applied sample_files keep_text [] (names sample_files) (w_server w).
Proof.
  eexists _, _. split; [vm_compute; reflexivity|].
  refine (let '(conj Hb (conj Hp (conj Ho Ha))) := api_listens_only_when_ready (H := example_urls) id (fun _ _ _ _ => Err "no client")
    (fun k => if String.eqb k "INFRAGRAPH_DATABASE_URL" then "postgres://db" else "") (fun _ => None) (Some "/srv")
    {[ ([] : list string) := Storage.Folder ]} _ _ sample_files keep_text [] [] new_server 2 sample_events 1
    sample_versions (prefix_nil _) nothing_applied _ in _); [vm_compute; reflexivity|].
  split; [exact Ho|]. split; [vm_compute; reflexivity|exact Ha].
Defined.
