(* ===== verification/AppTrace.v ===== *)
(** * The application over many requests

    What [serve] leaves of the database, request by request: sessions end and
    do not come back, recovery codes and enrolment tokens are used once. *)
From S2P Require Import Prelude GoStrings GoNumbers GoJson GoJsonDecode GoEncoding GoIo Domain Security Reconcile PgStore PgFacts AuditChain RateLimit.
From S2P Require Import ReconcilePg Gateway GatewayFacts Config Http Sessions Api Enrollment App SessionFacts EnrollmentFacts AppSample.
From S2P Require Graph.
Open Scope string_scope.
Open Scope list_scope.

(** ** What may happen to the rows *)

(** A row is left as it is, or takes one step. *)
Definition rows_step {A} (step : A -> A -> Prop) (t t' : gmap string A) : Prop :=
  forall k r, t !! k = Some r -> exists r', t' !! k = Some r' /\ (r' = r \/ step r r').

#[export] Instance rows_step_preorder {A} (step : A -> A -> Prop) :
  (forall x y z, step x y -> step y z -> step x z) -> PreOrder (rows_step step).
Proof.
  intros Htrans. split.
  - intros t k r Hr. eauto.
  - intros t1 t2 t3 H12 H23 k r Hr. destruct (H12 k r Hr) as (r2 & Hr2 & E2). destruct (H23 k r2 Hr2) as (r3 & Hr3 & E3).
    exists r3. split; [done|]. destruct E2 as [->|E2], E3 as [->|E3]; eauto.
Qed.

Section Evolution.
Context `{Postgres}.

Definition session_ended (s s' : SessionRow) : Prop := se_revoked s = None /\ exists now, s' = revoke now (se_org s) s.
Definition code_used (r r' : RecoveryRow) : Prop := rc_used r = None /\ exists now, r' = use_recovery now r.
Definition token_spent (t t' : TokenRow) : Prop := to_used t = None /\ exists now, t' = spend now t.
Definition collector_reported (o o' : CollectorRow) : Prop := co_org o' = co_org o /\ co_key o' = co_key o /\ co_revoked o' = co_revoked o.

Lemma ended_revoked s s' : session_ended s s' -> is_Some (se_revoked s').
Proof. intros (_ & now & ->). unfold revoke. rewrite bool_decide_true by done. by eexists. Qed.

(** Requests leave the users and their rights alone; they end sessions, those
    under the keys [ends] only, use codes and tokens, and add to the rest. *)
Record evolves (ends : string -> Prop) (d d' : AppDB) : Prop := {
  ev_users : ad_users d' = ad_users d;
  ev_mfa : ad_mfa d' = ad_mfa d;
  ev_user_roles : ad_user_roles d' = ad_user_roles d;
  ev_role_permissions : ad_role_permissions d' = ad_role_permissions d;
  ev_permissions : ad_permissions d' = ad_permissions d;
  ev_sessions : rows_step session_ended (ad_sessions d) (ad_sessions d');
  ev_open : forall k s, ad_sessions d !! k = Some s -> ~ ends k -> ad_sessions d' !! k = Some s;
  ev_recovery : rows_step code_used (ad_recovery d) (ad_recovery d');
  ev_no_codes : forall k, ad_recovery d !! k = None -> ad_recovery d' !! k = None;
  ev_tokens : rows_step token_spent (ad_tokens d) (ad_tokens d');
  ev_no_tokens : forall k, ad_tokens d !! k = None -> ad_tokens d' !! k = None;
  ev_collectors : rows_step collector_reported (gd_collectors (ad_gateway d)) (gd_collectors (ad_gateway d'));
  ev_credentials : gd_credentials (ad_gateway d) ⊆ gd_credentials (ad_gateway d');
  ev_connectors : gd_connectors (ad_gateway d) ⊆ gd_connectors (ad_gateway d') }.

#[export] Instance session_rows_preorder : PreOrder (rows_step session_ended).
Proof. apply rows_step_preorder. intros x y z Hxy [Hn _]. apply ended_revoked in Hxy. rewrite Hn in Hxy. by destruct Hxy. Qed.

#[export] Instance code_rows_preorder : PreOrder (rows_step code_used).
Proof. apply rows_step_preorder. intros x y z (_ & now & ->) [Hn _]. done. Qed.

#[export] Instance token_rows_preorder : PreOrder (rows_step token_spent).
Proof. apply rows_step_preorder. intros x y z (_ & now & ->) [Hn _]. done. Qed.

#[export] Instance collector_rows_preorder : PreOrder (rows_step collector_reported).
Proof. apply rows_step_preorder. intros x y z (? & ? & ?) (? & ? & ?). split_and!; congruence. Qed.

#[export] Instance evolves_preorder ends : PreOrder (evolves ends).
Proof.
  split.
  - intros d. by split.
  - intros d1 d2 d3 [] []. split; try congruence; try (by etransitivity); auto.
Qed.

Lemma evolves_weaken (P Q : string -> Prop) d d' : (forall k, P k -> Q k) -> evolves P d d' -> evolves Q d d'.
Proof. intros HPQ []. split; auto. Qed.

Lemma rows_step_insert {A} (step : A -> A -> Prop) (t : gmap string A) k r' :
  (forall r, t !! k = Some r -> r' = r \/ step r r') -> rows_step step t (<[k := r']> t).
Proof.
  intros Hstep j r Hr. destruct (decide (j = k)) as [->|Hne]; [rewrite lookup_insert_eq|rewrite lookup_insert_ne by done]; eauto.
Qed.

Lemma rows_step_update {A} (step : A -> A -> Prop) p f (t : gmap string A) :
  (forall k r, p k r = true -> step r (f r)) -> rows_step step t (update_rows p f t).
Proof.
  intros Hstep k r Hr. rewrite update_rows_lookup, Hr. cbn. destruct (p k r) eqn:E; eauto.
Qed.

End Evolution.

(** ** One request *)

Section Requests.
Context `{SqlText, Graph.SqlOrder, SqlTimeOrder, RangeOrder, Postgres, Ed25519, Argon2, AesGcm, UnicodeCase, AuditStore}.
Context (c : Config) (started : gotime) (public_key : string -> PublicKey) (json_error : string -> string).

(** A logout of the session under the key. *)
Definition ends_session (r : HttpRequest) (k : string) : Prop :=
  hr_method r = "POST" /\ hr_path r = "/api/v1/auth/logout" /\
  exists token, hr_cookies r !! session_cookie = Some token /\ k = KeyedTokenHash (SessionSecret c) token.

Definition leads (ends : string -> Prop) (a a' : App) : Prop :=
  match ap_db a, ap_db a' with Some d, Some d' => evolves ends d d' | None, None => True | _, _ => False end.

Lemma evolves_recovery ends now d d' : recovery_only now d d' -> evolves ends d d'.
Proof.
  intros (p & Hp & ->). split; try done; cbn.
  - apply rows_step_update. intros k r Hk. split; [by eapply Hp|eauto].
  - intros k Hk. by rewrite update_rows_lookup, Hk.
Qed.

Lemma evolves_opened ends now d d' id u token csrf response : opened c now d d' id u token csrf response -> evolves ends d d'.
Proof.
  intros (Hnew & -> & _). split; try done; cbn.
  - apply rows_step_insert. intros r Hr. congruence.
  - intros k s Hs _. rewrite lookup_insert_ne; [done|congruence].
Qed.

Lemma leads_login ends now rt rc r a a' response : login c now rt rc r a = (a', response) -> leads ends a a'.
Proof.
  intros Hl. unfold leads. destruct (ap_db a) as [d|] eqn:Hd.
  - destruct (login_cases _ _ _ _ _ _ _ _ _ Hl Hd) as [(d1 & Ho & -> & _)|
      (f & id & u & d1 & token & csrf & d' & x & _ & -> & _ & _ & _ & Ho & _ & Hopen)]; [by eapply evolves_recovery|].
    etransitivity; [by eapply evolves_recovery|by eapply evolves_opened].
  - by destruct (login_no_database _ _ _ _ _ _ _ _ Hl Hd) as [-> _].
Qed.

Lemma leads_guarded i r a a' response : has_prefix (hr_path r) "/api/v1/" = true ->
  guarded c json_error i r a = (a', response) -> leads (ends_session r) a a'.
Proof.
  intros Hpath Hg. unfold leads. apply guarded_cases in Hg as [[-> _]|(d & s & Hd & (token & Htoken & (Hrow & Hn & _) & _) & [(-> & _)|(Hm & Hr & E)])].
  - by destruct (ap_db a).
  - by rewrite Hd.
  - rewrite Hd, E. cbn. rewrite Htoken. change (default "" (Some token)) with token.
    assert (ends_session r (KeyedTokenHash (SessionSecret c) token)) as Hends.
    { split_and!; [done| |by exists token]. apply has_prefix_spec in Hpath as [t Ht]. unfold route_of in Hr. rewrite Ht, trim_prefix_app in Hr. by rewrite Ht, Hr. }
    split; try done; cbn.
    + intros k s' Hs'. destruct (decide (k = KeyedTokenHash (SessionSecret c) token)) as [->|Hne].
      * rewrite lookup_alter_eq, Hrow. eexists. split; [done|]. right. rewrite Hrow in Hs'. injection Hs' as <-.
        split; [done|]. by exists (si_now i).
      * rewrite lookup_alter_ne by done. eauto.
    + intros k s' Hs' Hno. rewrite lookup_alter_ne; [done|]. by intros <-.
Qed.

Lemma leads_enroll ends now drawn r a a' response : enroll c now drawn r a = (a', response) -> leads ends a a'.
Proof.
  unfold leads. intros He. destruct (ap_db a) as [d|] eqn:Hd; [|by destruct (enroll_no_database _ _ _ _ _ _ _ He Hd) as [-> _]].
  destruct (enroll_cases _ _ _ _ _ _ _ _ He Hd) as [[-> _]|(f & raw & d' & collector & connector & credential & org & _ & _ & _ & _ & -> & Hen & _)]; [done|].
  destruct Hen as [(k & t & (Hk & _ & Hu)%find_row_usable & _ & Et) _ (Hc & Ec) (id & Hid & Eid) (Hn & En) ->].
  split; try done; cbn.
  - rewrite Et. apply rows_step_insert. intros r0 Hr0. right. rewrite Hk in Hr0. injection Hr0 as <-. split; [done|by eexists].
  - rewrite Et. intros j Hj. rewrite lookup_insert_ne; [done|congruence].
  - rewrite Ec. apply rows_step_insert. congruence.
  - rewrite Eid. by apply insert_subseteq.
  - rewrite En. by apply insert_subseteq.
Qed.

Lemma leads_heartbeat ends now r a a' response : collectorHeartbeat public_key now r a = (a', response) -> leads ends a a'.
Proof.
  unfold collectorHeartbeat, request_principal, leads. destruct (ap_db a) as [d|] eqn:Hd; cbn; [|intros [= <- _]; by rewrite Hd].
  destruct (collectorPrincipal _ _ _ _) as [[[id org] pub]|]; cbn; [|intros [= <- _]; by rewrite Hd].
  destruct (decode _ _ _ _) as [f|[status code]]; [|intros [= <- _]; by rewrite Hd].
  intros [= <- _]. cbn. split; try done; cbn.
  intros k o Ho. rewrite map_lookup_imap, Ho. cbn. eexists. split; [done|]. right.
  unfold collector_reported, beat. by destruct (_ && _).
Qed.

Lemma leads_snapshot ends now raw r a a' response : post_snapshot c public_key now raw r a = (a', response) -> leads ends a a'.
Proof.
  unfold post_snapshot, leads. destruct (ap_db a) as [d|] eqn:Hd; cbn; [|intros [= <- _]; by rewrite Hd].
  destruct (collectorSnapshot _ _ _ _ _ _ _ _) as [[g l] answer] eqn:E. intros [= <- _]. cbn.
  apply collectorSnapshot_cases in E as [[-> _]|(s & sum & _ & _ & _ & Hi)]; [by destruct d|].
  apply ingest_cases in Hi as [[-> _]|(_ & _ & sum' & inventory & audit & _ & _ & _ & ->)]; [by destruct d|]. done.
Qed.

(** The answers that need no handler of ours. *)
Definition immediate (i : Situation) (r : HttpRequest) (a : App) (x : Response) : Prop :=
  x ∈ [health; ready i r a; startup started; prometheus a; plain_text 405 "Method Not Allowed"; plain_text 404 "404 page not found"].

(** What every handler does, [Handler] does. *)
Record respectful (R : App -> App -> option Response -> Prop) (i : Situation) (r : HttpRequest) (a : App) : Prop := {
  re_same : forall x, immediate i r a x -> R a a (Some x);
  re_login : forall a' x, hr_path r = "/api/v1/auth/login" -> is_post r = true -> login c (si_now i) (si_token i) (si_csrf i) r a = (a', x) -> R a a' x;
  re_enroll : forall a' x, hr_path r = "/collector/v1/enroll" -> is_post r = true -> enroll c (si_now i) (si_drawn i) r a = (a', x) -> R a a' (Some x);
  re_heartbeat : forall a' x, collectorHeartbeat public_key (si_now i) r a = (a', x) -> R a a' (Some x);
  re_snapshot : forall a' x, post_snapshot c public_key (si_now i) (si_audit i) r a = (a', x) -> R a a' (Some x);
  re_guarded : forall a' x, has_prefix (hr_path r) "/api/v1/" = true -> guarded c json_error i r a = (a', x) -> R a a' (Some x) }.

Lemma Handler_rel R i r a a' response : respectful R i r a -> Handler c started public_key json_error i r a = (a', response) -> R a a' response.
Proof.
  intros [].
  assert (forall x, immediate i r a x -> (a, Some x) = (a', response) -> R a a' response) as Hsame by (intros x Hx [= <- <-]; auto).
  assert (forall x : App * Response, (x.1, Some x.2) = (a', response) -> (forall y, x = (a', y) -> R a a' (Some y)) -> R a a' response)
    as Htotal by (intros [a1 y] [= <- <-] Hx; by apply Hx).
  assert (forall (b : bool) x y, immediate i r a x -> immediate i r a y -> (a, Some (if b then x else y)) = (a', response) -> R a a' response)
    as Hprobe by (intros [] x y Hx Hy; by apply Hsame).
  assert (immediate i r a (plain_text 405 "Method Not Allowed") /\ immediate i r a (plain_text 404 "404 page not found")) as [H405 H404]
    by (unfold immediate; set_solver).
  assert (Forall (immediate i r a) [health; ready i r a; startup started; prometheus a]) as Hprobes
    by (rewrite Forall_forall; unfold immediate; set_solver).
  rewrite !Forall_cons in Hprobes. destruct Hprobes as (P1 & P2 & P3 & P4 & _).
  unfold Handler, with_get, with_post, total. cbv zeta.
  repeat match goal with |- (if bool_decide (hr_path r = ?k) then (_, Some (if _ then _ else _)) else _) = _ -> _ =>
    destruct (bool_decide (hr_path r = k)); [by apply Hprobe|] end.
  destruct (bool_decide _ && _) eqn:El; [apply andb_true_iff in El as [?%bool_decide_eq_true ?]; by apply re_login0|clear El].
  do 3 (match goal with |- (if ?b then _ else _) = _ -> _ => destruct b eqn:Ep end; [apply bool_decide_eq_true in Ep; destruct (is_post r) eqn:Em; [|by apply Hsame];
    intros E; apply Htotal in E; [done|intros y]; eauto|clear Ep]).
  destruct (has_prefix _ _) eqn:Ep; [|by apply Hsame].
  intros E. apply Htotal in E; [done|]. intros y. by apply re_guarded0.
Qed.

(** The request as the middleware passes it on, and the application counting it. *)
Definition identified (i : Situation) (r : HttpRequest) : HttpRequest := set_header r "X-Request-ID" (request_id i r).
Definition counted (a : App) : App := set_metrics (bump (ap_metrics a) 1 0 0) a.

(** On the database, [serve] does nothing more. *)
Lemma serve_rel (R : option AppDB -> option AppDB -> Prop) i r a a' response : R (ap_db a) (ap_db a) ->
  respectful (fun a a' _ => R (ap_db a) (ap_db a')) i (identified i r) (counted a) ->
  serve c started public_key json_error i r a = (a', response) -> R (ap_db a) (ap_db a').
Proof.
  intros Hrefl HR. unfold serve, middleware. cbv zeta. fold (identified i r). fold (counted a).
  destruct (bool_decide (hr_method _ = "OPTIONS")).
  { intros E. apply (f_equal fst) in E. cbn in E. subst a'. exact Hrefl. }
  destruct (Handler _ _ _ _ _ _ _) as [a1 response1] eqn:E. apply (Handler_rel _ _ _ _ _ _ HR) in E.
  destruct response1 as [response1|]; intros E'; apply (f_equal fst) in E'; cbn in E'; subst a'; [|done]. by destruct (400 <=? _)%Z.
Qed.

Lemma header_identified i r k : k <> "X-Request-ID" -> header (identified i r) k = header r k.
Proof. intros Hk. unfold header, identified, set_header. cbn. by rewrite lookup_insert_ne. Qed.

Lemma leads_serve i r a a' response : serve c started public_key json_error i r a = (a', response) -> leads (ends_session r) a a'.
Proof.
  unfold leads. apply (serve_rel (fun d d' => match d, d' with Some d, Some d' => evolves (ends_session r) d d' | None, None => True | _, _ => False end)).
  { by destruct (ap_db a). }
  split; [intros x _; by destruct (ap_db _)|intros a2 x..]; [intros _ _; apply leads_login|intros _ _; apply leads_enroll|apply leads_heartbeat|apply leads_snapshot|
    by apply (leads_guarded i (identified i r))].
Qed.

(** ** Many requests *)

Fixpoint serves (l : list (Situation * HttpRequest)) (a : App) : App * list (option Response) :=
  match l with
  | [] => (a, [])
  | (i, r) :: l' =>
      let '(a1, response) := serve c started public_key json_error i r a in
      let '(a2, responses) := serves l' a1 in (a2, response :: responses)
  end.

(** What any requests leave of the database. *)
Lemma serves_evolves l a d : ap_db a = Some d ->
  exists d', ap_db (serves l a).1 = Some d' /\ evolves (fun k => exists ir, ir ∈ l /\ ends_session ir.2 k) d d'.
Proof.
  revert a d. induction l as [|[i r] l IH]; intros a d Hd; cbn [serves]; [by exists d|].
  destruct (serve _ _ _ _ _ _ _) as [a1 response] eqn:E. apply leads_serve in E. unfold leads in E. rewrite Hd in E.
  destruct (ap_db a1) as [d1|] eqn:Hd1; [|done]. destruct (IH a1 d1 Hd1) as (d2 & Hd2 & Hev).
  destruct (serves l a1) as [a2 responses]. exists d2. split; [done|]. transitivity d1.
  - eapply evolves_weaken; [|exact E]. intros k Hk. exists (i, r). split; [left|done].
  - eapply evolves_weaken; [|exact Hev]. intros k ([j q] & Hin & Hk). exists (j, q). split; [by right|done].
Qed.

End Requests.

(** ** Sessions *)

Section Lifecycle.
Context `{SqlText, Graph.SqlOrder, SqlTimeOrder, RangeOrder, Postgres, Ed25519, Argon2, AesGcm, UnicodeCase, AuditStore}.
Context (c : Config) (started : gotime) (public_key : string -> PublicKey) (json_error : string -> string).

Lemma evolves_alive ends now d d' token s : evolves ends d d' -> ad_sessions d !! KeyedTokenHash (SessionSecret c) token = Some s ->
  ~ ends (KeyedTokenHash (SessionSecret c) token) -> se_revoked s = None -> (exists u, ad_users d !! se_user s = Some u /\ us_active u = true) ->
  live_session c now d' token = if (now <? se_expires s)%Z then Some s else None.
Proof.
  intros [] Hs Hends Hr (u & Hu & Ha). unfold live_session. rewrite (ev_open0 _ _ Hs Hends). cbn. rewrite ev_users0, Hu. cbn.
  by rewrite bool_decide_true, Ha, andb_true_r by done.
Qed.

Lemma evolves_dead ends now d d' token s : evolves ends d d' -> ad_sessions d !! KeyedTokenHash (SessionSecret c) token = Some s ->
  is_Some (se_revoked s) -> live_session c now d' token = None.
Proof.
  intros [] Hs Hr. destruct (ev_sessions0 _ _ Hs) as (s' & Hs' & [->|[Hn _]]); [|rewrite Hn in Hr; by destruct Hr].
  unfold live_session. rewrite Hs'. cbn. destruct (ad_users d' !! se_user s); cbn; [|done]. destruct Hr as [t ->]. done.
Qed.

Lemma evolves_permissions ends d d' user : evolves ends d d' -> permissions d' user = permissions d user.
Proof. intros []. unfold permissions. by rewrite ev_user_roles0, ev_role_permissions0, ev_permissions0. Qed.

(** A request with the session's cookie and, where it is asked for, its token. *)
Lemma session_live now r a d token s : ap_db a = Some d -> hr_cookies r !! session_cookie = Some token ->
  live_session c now d token = Some s -> KeyedTokenHash (SessionSecret c) (header r "X-CSRF-Token") = se_csrf s ->
  session c now r a = inr (d, principal_of d s).
Proof.
  intros Hd Htoken Hl%live_session_alive Hcsrf. apply session_authentic. split; [done|]. exists s. split; [|done].
  exists token. auto.
Qed.

Lemma session_dead now r a d token : ap_db a = Some d -> hr_cookies r !! session_cookie = Some token ->
  live_session c now d token = None -> session c now r a = inl (writeError 401 "unauthenticated" r).
Proof. intros Hd Htoken Hl. unfold session. by rewrite Hd, Htoken, Hl. Qed.

(** A logout that is not refused leaves its session revoked. *)
Lemma logged_out i r a a' response token : guarded c json_error i r a = (a', response) -> success response ->
  hr_method r = "POST" -> hr_path r = "/api/v1/auth/logout" -> hr_cookies r !! session_cookie = Some token ->
  exists d' s, ap_db a' = Some d' /\ ad_sessions d' !! KeyedTokenHash (SessionSecret c) token = Some s /\ is_Some (se_revoked s).
Proof.
  intros Hg Hok Hm Hp Htoken.
  apply guarded_cases in Hg as [[_ Hno]|(d & s & Hd & (token' & Htoken' & (Hrow & _) & _) & [(_ & rejected & Ha)|(_ & _ & E)])]; [done| |].
  - unfold api in Ha. rewrite Hp, Hm in Ha. done.
  - rewrite Htoken in Htoken'. injection Htoken' as <-. eexists _, (revoke (si_now i) (se_org s) s). split_and!; [exact E| |].
    + cbn. rewrite Htoken. change (default "" (Some token)) with token. by rewrite lookup_alter_eq, Hrow.
    + unfold revoke. rewrite bool_decide_true by done. by eexists.
Qed.

End Lifecycle.

(** C9. A session lasts as long as it should: a login that is not refused
    hands out two tokens, in its cookies, such that after any further requests
    to the application, by anybody, none of which logs this session out, a
    request with the session's cookie and the token against forgery passes the
    guard, as the user who signed in, with their organization and their roles'
    permissions, until the session expires twelve hours after the login, and is
    refused as unauthenticated from then on. *)
Theorem session_lasts_until_expiry `{SqlText, Graph.SqlOrder, SqlTimeOrder, RangeOrder, Postgres, Ed25519, Argon2, AesGcm, UnicodeCase, AuditStore}
    c started public_key json_error now rt rc r a a' response
    (Hlogin : login c now rt rc r a = (a', Some response)) (Hok : success response) :
  exists d id u token csrf, ap_db a = Some d /\ ad_users d !! id = Some u /\
    rs_cookies response = [cookie c session_cookie token true (now + session_hours); cookie c csrf_cookie csrf false (now + session_hours)] /\
    forall l t r', (forall ir, ir ∈ l -> ~ ends_session c ir.2 (KeyedTokenHash (SessionSecret c) token)) ->
      hr_cookies r' !! session_cookie = Some token -> header r' "X-CSRF-Token" = csrf ->
      session c t r' (serves c started public_key json_error l a').1 =
        match ap_db (serves c started public_key json_error l a').1 with
        | Some d' =>
            if (t <? column_time (now + session_hours))%Z
            then inr (d', {| pr_user := id; pr_organization := us_org u; pr_permissions := permissions d id;
              pr_csrf := KeyedTokenHash (SessionSecret c) csrf |})
            else inl (writeError 401 "unauthenticated" r')
        | None => inl (writeError 503 "database_unavailable" r')
        end.
Proof.
  pose proof (leads_login c (fun _ => False) _ _ _ _ _ _ _ Hlogin) as Hleads. unfold leads in Hleads.
  destruct (ap_db a) as [d|] eqn:Hd; [|destruct (login_no_database _ _ _ _ _ _ _ _ Hlogin Hd) as [_ Hno]; by destruct (Hno _ eq_refl)].
  destruct (login_cases _ _ _ _ _ _ _ _ _ Hlogin Hd) as [(d1 & _ & _ & Hno)|
    (f & id & u & d1 & token & csrf & d' & x & [= <-] & Hd' & _ & _ & (Hu & _ & Ha & _)%password_user_Some & _ & _ & (Hnew & -> & Hcookies))].
  { by destruct (Hno _ eq_refl). }
  rewrite Hd' in Hleads. exists d, id, u, token, csrf. split_and!; [done..|]. intros l t r' Hends Htoken Hcsrf.
  destruct (serves_evolves c started public_key json_error l a' _ Hd') as (d2 & Hd2 & Hev). rewrite Hd2.
  eapply (evolves_alive c _ t _ _ token) in Hev as Hl; [|cbn; apply lookup_insert_eq| |done|]; cycle 1.
  { intros (ir & Hin & He). by eapply Hends. }
  { cbn [se_user]. exists u. split; [|done]. by rewrite (ev_users _ _ _ Hleads). }
  cbn [se_expires] in Hl. destruct (t <? _)%Z.
  - rewrite (session_live c t r' _ _ token _ Hd2 Htoken Hl) by (cbn; by rewrite Hcsrf). unfold principal_of. cbn.
    by rewrite (evolves_permissions _ _ _ _ Hev), (evolves_permissions _ _ _ _ Hleads).
  - by apply (session_dead c t r' _ d2 token).
Qed.

Lemma session_lasts_until_expiry_witness :
  exists a' response token csrf, login sample_config sample_now (si_token (situation 0)) (si_csrf (situation 0)) login_request sample_app = (a', Some response) /\
    rs_cookies response = [cookie sample_config session_cookie token true (sample_now + session_hours);
      cookie sample_config csrf_cookie csrf false (sample_now + session_hours)] /\
    forall t r', hr_cookies r' !! session_cookie = Some token -> header r' "X-CSRF-Token" = csrf -> (sample_now + session_hours <= t)%Z ->
      session sample_config t r' a' = inl (writeError 401 "unauthenticated" r').
Proof.
  destruct (login sample_config sample_now (si_token (situation 0)) (si_csrf (situation 0)) login_request sample_app) as [a' [response|]] eqn:E.
  - assert (success response) as Hok.
    { assert (option_map rs_status (login sample_config sample_now (si_token (situation 0)) (si_csrf (situation 0)) login_request sample_app).2 = Some 200%Z)
        as Hs by (vm_compute; reflexivity). rewrite E in Hs. cbn in Hs. injection Hs as Hs. unfold success. rewrite Hs. done. }
    destruct (session_lasts_until_expiry sample_config 0 column_key id sample_now _ _ login_request sample_app a' response E Hok)
      as (d & id & u & token & csrf & _ & _ & Hcookies & Hlast).
    exists a', response, token, csrf. split_and!; [done..|]. intros t r' Htoken Hcsrf Ht.
    specialize (Hlast [] t r' ltac:(intros ? []%not_elem_of_nil) Htoken Hcsrf). cbn [serves fst] in Hlast.
    destruct (ap_db a') as [d'|] eqn:Hd'.
    + rewrite (proj2 (Z.ltb_ge _ _)) in Hlast by (transitivity (sample_now + session_hours)%Z; [vm_compute; discriminate|done]). exact Hlast.
    + assert (is_Some (ap_db (login sample_config sample_now (si_token (situation 0)) (si_csrf (situation 0)) login_request sample_app).1)) as [? Hx]
        by (eexists; vm_compute; reflexivity). rewrite E in Hx. cbn in Hx. congruence.
  - assert (is_Some (login sample_config sample_now (si_token (situation 0)) (si_csrf (situation 0)) login_request sample_app).2) as [? Hx]
      by (eexists; vm_compute; reflexivity). rewrite E in Hx. done.
Defined.

(** C10. A logout is final: after a logout that is not refused, whatever is
    asked of the application next, by anybody, a request with the cookie of the
    session is refused as unauthenticated, forever. *)
Theorem logout_is_final `{SqlText, Graph.SqlOrder, SqlTimeOrder, RangeOrder, Postgres, Ed25519, Argon2, AesGcm, UnicodeCase, AuditStore}
    c started public_key json_error i r a a' response token
    (Hout : guarded c json_error i r a = (a', response)) (Hok : success response)
    (Hmethod : hr_method r = "POST") (Hpath : hr_path r = "/api/v1/auth/logout") (Htoken : hr_cookies r !! session_cookie = Some token) l t r'
    (Htoken' : hr_cookies r' !! session_cookie = Some token) :
  session c t r' (serves c started public_key json_error l a').1 = inl (writeError 401 "unauthenticated" r').
Proof.
  destruct (logged_out _ _ _ _ _ _ _ _ Hout Hok Hmethod Hpath Htoken) as (d' & s & Hd' & Hs & Hr).
  destruct (serves_evolves c started public_key json_error l a' _ Hd') as (d2 & Hd2 & Hev).
  apply (session_dead c t r' _ d2 token); [done..|]. by eapply evolves_dead.
Qed.

Lemma logout_is_final_witness :
  let a1 := (run (situation sample_now) login_request sample_app).1 in
  exists token a2 response, guarded sample_config id (situation (sample_now + hour)) logout_request a1 = (a2, response) /\
    hr_cookies logout_request !! session_cookie = Some token /\
    (let later := (serves sample_config 0 column_key id [(situation (sample_now + 2 * hour), login_request)] a2).1 in
     session sample_config (sample_now + 2 * hour) (get "/api/v1/overview") later = inl (writeError 401 "unauthenticated" (get "/api/v1/overview"))).
Proof.
  intros a1. assert (rs_status (guarded sample_config id (situation (sample_now + hour)) logout_request a1).2 = 204%Z) as Hs by (vm_compute; reflexivity).
  assert (is_Some (hr_cookies logout_request !! session_cookie)) as [token Htoken] by (eexists; vm_compute; reflexivity).
  destruct (guarded sample_config id (situation (sample_now + hour)) logout_request a1) as [a2 response] eqn:E. cbn [snd] in Hs.
  exists token, a2, response. split_and!; [done|done|].
  apply (logout_is_final sample_config 0 column_key id (situation (sample_now + hour)) logout_request a1 a2 response token E); [|done|done|done|exact Htoken].
  unfold success. rewrite Hs. done.
Defined.

(** ** What is used once *)

Section Once.
Context `{SqlText, Graph.SqlOrder, SqlTimeOrder, RangeOrder, Postgres, Ed25519, Argon2, AesGcm, UnicodeCase, AuditStore} (c : Config).

(** The schema's [UNIQUE] columns. *)
Definition unique_tokens (d : AppDB) : Prop :=
  forall k k' t t', ad_tokens d !! k = Some t -> ad_tokens d !! k' = Some t' -> to_hash t = to_hash t' -> k = k'.
Definition unique_codes (d : AppDB) : Prop :=
  forall k k' r r', ad_recovery d !! k = Some r -> ad_recovery d !! k' = Some r' -> rc_user r = rc_user r' -> rc_hash r = rc_hash r' -> k = k'.

(** Rows only take a step that leaves the hash. *)
Lemma evolves_token ends d d' k t' : evolves ends d d' -> ad_tokens d' !! k = Some t' ->
  exists t, ad_tokens d !! k = Some t /\ to_hash t' = to_hash t /\ (to_used t' = None -> t' = t).
Proof.
  intros Hev Ht'. destruct (ad_tokens d !! k) as [t|] eqn:Ht; [|by rewrite (ev_no_tokens _ _ _ Hev _ Ht) in Ht'].
  exists t. destruct (ev_tokens _ _ _ Hev _ _ Ht) as (t2 & Ht2 & [->|(_ & now & ->)]); rewrite Ht2 in Ht'; injection Ht' as <-; done.
Qed.

(** Once its row is used, a token is of no use. *)
Lemma token_gone ends now d d' k t token : evolves ends d d' -> unique_tokens d -> ad_tokens d !! k = Some t ->
  to_hash t = TokenHash token -> to_used t <> None -> find_row (usable_token now token) (ad_tokens d') = None.
Proof.
  intros Hev Hu Ht Hhash Hused. destruct (find_row _ _) as [[k' t']|] eqn:Ef; [|done]. exfalso.
  apply find_row_usable in Ef as (Ht' & Hh & Hn). destruct (evolves_token _ _ _ _ _ Hev Ht') as (t0 & Ht0 & Hh0 & Hsame).
  specialize (Hsame Hn). subst t'. assert (k = k') as <- by (apply (Hu k k' t t0 Ht Ht0); congruence). congruence.
Qed.

Lemma unique_tokens_evolves ends d d' : evolves ends d d' -> unique_tokens d -> unique_tokens d'.
Proof.
  intros Hev Hu k1 k2 t1 t2 H1' H2' Hh. destruct (evolves_token _ _ _ _ _ Hev H1') as (u1 & Hu1 & E1 & _).
  destruct (evolves_token _ _ _ _ _ Hev H2') as (u2 & Hu2 & E2 & _). eapply Hu; [done..|congruence].
Qed.

Lemma enrolled_token now raw f d d' collector connector credential org : enrolled_as now raw f d d' collector connector credential org ->
  exists k t, ad_tokens d' !! k = Some t /\ to_hash t = TokenHash (ef_token f) /\ to_used t <> None.
Proof.
  intros [(k & t & (Hk & Hh & _)%find_row_usable & _ & ->) _ _ _ _ _]. exists k, (spend now t). by rewrite lookup_insert_eq.
Qed.

(** A code used for a second factor is of no use. *)
Lemma code_gone ends now now' d d1 d' user code : evolves ends d1 d' -> unique_codes d -> recovery_spent now d d1 user code ->
  forall d2, ~ recovery_spent now' d' d2 user code.
Proof.
  intros Hev Hu (k & row & Hk & Huser & Hh & Hn & ->) d2 (k' & row' & Hk' & Huser' & Hh' & Hn' & _).
  destruct (decide (k' = k)) as [->|Hne].
  - destruct (ev_recovery _ _ _ Hev k (use_recovery now row)) as (r & Hr & [->|[Hno _]]); [cbn; apply lookup_insert_eq| |done].
    rewrite Hr in Hk'. injection Hk' as <-. done.
  - destruct (ad_recovery d !! k') as [r|] eqn:Er.
    + destruct (ev_recovery _ _ _ Hev k' r) as (r' & Hr & Hsame); [cbn; by rewrite lookup_insert_ne|].
      assert (rc_user r' = rc_user r /\ rc_hash r' = rc_hash r) as [Ea Eb] by (destruct Hsame as [->|(_ & ? & ->)]; done).
      apply Hne. apply (Hu k' k r row); congruence.
    + rewrite (ev_no_codes _ _ _ Hev) in Hk'; [done|]. cbn. by rewrite lookup_insert_ne.
Qed.

End Once.

(** C11. An enrolment token enrolls one collector: after an enrolment that
    is not refused, whatever is asked of the application next, by anybody, a
    request to enroll with a token of the same hash is refused and changes
    nothing. *)
Theorem enrollment_token_used_once `{SqlText, Graph.SqlOrder, SqlTimeOrder, RangeOrder, Postgres, Ed25519, Argon2, AesGcm, UnicodeCase, AuditStore}
    c started public_key json_error now drawn r a a' response d f
    (Henroll : enroll c now drawn r a = (a', response)) (Hok : success response) (Hd : ap_db a = Some d) (Hunique : unique_tokens d)
    (Hf : decode (hr_body r) (Z.shiftl 64 10) zero_enroll (dec_struct true enroll_fields) = Ok f)
    l now2 drawn2 r2 f2 (Hf2 : decode (hr_body r2) (Z.shiftl 64 10) zero_enroll (dec_struct true enroll_fields) = Ok f2)
    (Hsame : TokenHash (ef_token f2) = TokenHash (ef_token f)) :
  let later := (serves c started public_key json_error l a').1 in
  ~ success (enroll c now2 drawn2 r2 later).2 /\ ap_db (enroll c now2 drawn2 r2 later).1 = ap_db later.
Proof.
  intros later. destruct (enroll_cases _ _ _ _ _ _ _ _ Henroll Hd) as [[_ Hno]|
    (f' & raw & d' & collector & connector & credential & org & _ & Hf' & _ & _ & Hd' & Hen & _)]; [done|].
  rewrite Hf in Hf'. injection Hf' as <-.
  destruct (serves_evolves c started public_key json_error l a' _ Hd') as (d2 & Hd2 & Hev). fold later in Hd2.
  pose proof (leads_enroll c (fun _ => False) _ _ _ _ _ _ Henroll) as Hleads. unfold leads in Hleads. rewrite Hd, Hd' in Hleads.
  destruct (enrolled_token _ _ _ _ _ _ _ _ _ Hen) as (k & t & Hk & Hh & Hused).
  destruct (enroll c now2 drawn2 r2 later) as [a3 x] eqn:E. cbn [fst snd].
  destruct (enroll_cases _ _ _ _ _ _ _ _ E Hd2) as [[-> Hno]|
    (f' & raw2 & d3 & collector2 & connector2 & credential2 & org2 & _ & Hf' & _ & _ & _ & [(k2 & t2 & Hfind & _) _ _ _ _ _] & _)].
  { by rewrite Hd2. }
  rewrite Hf2 in Hf'. injection Hf' as <-. exfalso.
  rewrite (token_gone _ now2 _ _ k t (ef_token f2) Hev) in Hfind; [done|by eapply unique_tokens_evolves|done|congruence|done].
Qed.

Lemma sample_tokens_unique : unique_tokens sample_db.
Proof. intros k k' t t' Hk Hk' _. change (ad_tokens sample_db) with sample_tokens in Hk, Hk'. unfold sample_tokens in Hk, Hk'. apply lookup_singleton_Some in Hk as [<- _], Hk' as [<- _]. done. Qed.

Lemma enrollment_token_used_once_witness :
  let i := situation sample_now in
  exists a1 x1, enroll sample_config sample_now (si_drawn i) enroll_request sample_app = (a1, x1) /\ rs_status x1 = 201%Z /\
    (let later := (serves sample_config 0 column_key id [(situation (sample_now + hour), login_request)] a1).1 in
     ~ success (enroll sample_config (sample_now + 2 * hour) (si_drawn i) enroll_request later).2 /\
     ap_db (enroll sample_config (sample_now + 2 * hour) (si_drawn i) enroll_request later).1 = ap_db later).
Proof.
  intros i. assert (rs_status (enroll sample_config sample_now (si_drawn i) enroll_request sample_app).2 = 201%Z) as Hs by (vm_compute; reflexivity).
  assert (decode (hr_body enroll_request) (Z.shiftl 64 10) zero_enroll (dec_struct true enroll_fields) = Ok edge_form) as Hf by (vm_compute; reflexivity).
  destruct (enroll sample_config sample_now (si_drawn i) enroll_request sample_app) as [a1 x1] eqn:E. cbn [snd] in Hs.
  exists a1, x1. split; [reflexivity|]. split; [exact Hs|].
  apply (enrollment_token_used_once sample_config 0 column_key id sample_now (si_drawn i) enroll_request sample_app a1 x1 sample_db edge_form E
    ltac:(unfold success; rewrite Hs; reflexivity) eq_refl sample_tokens_unique Hf [(situation (sample_now + hour), login_request)]
    (sample_now + 2 * hour)%Z (si_drawn i) enroll_request edge_form Hf eq_refl).
Defined.
