(* ===== verification/EndToEnd.v ===== *)
(** * From an enrolment to the inventory

    The collector's side of the protocol meets the gateway's: the credential
    an enrolment hands out and a signature under the key it registered bring a
    snapshot to the reconciliation. *)
From S2P Require Import Prelude GoStrings GoNumbers GoJson GoJsonDecode GoEncoding GoHash GoIo Domain DomainJson Security SecurityFacts AuditChain.
From S2P Require Import Reconcile PgStore PgFacts ReconcilePg RateLimit Gateway GatewayFacts Config Http Sessions Api Enrollment App.
From S2P Require Import SessionFacts EnrollmentFacts AppTrace DomainText AppSample Wire.
From S2P Require Graph.
Open Scope string_scope.
Open Scope list_scope.

Section Gate.
Context `{RangeOrder, Postgres, Ed25519, UnicodeCase, AuditStore} (c : Config) (public_key : string -> PublicKey).

(** The credential's hash is the collector's alone. *)
Definition own_credential (g : GatewayDB) (credential collector : string) : Prop :=
  forall k row, gd_credentials g !! k = Some row -> cr_hash row = TokenHash credential -> cr_collector row = collector.

Lemma collectorPrincipal_of g now credential id row k o : credential <> "" ->
  gd_credentials g !! k = Some row -> cr_hash row = TokenHash credential -> cr_revoked row = None -> cr_expires row = None ->
  cr_collector row = id -> own_credential g credential id -> gd_collectors g !! id = Some o -> co_revoked o = None ->
  collectorPrincipal public_key g now ("Bearer " +:+ credential) = Some (id, co_org o, public_key (co_key o)).
Proof.
  intros Hne Hk Hh Hr He Hid Hown Ho Hlive. unfold collectorPrincipal. rewrite trim_prefix_app, bool_decide_false by done.
  destruct (find_row_is_Some (fun c => bool_decide (cr_hash c = TokenHash credential) && bool_decide (cr_revoked c = None)
      && match cr_expires c with None => true | Some t => (now <? t)%Z end && bool_decide (is_Some (gd_collectors g !! cr_collector c)))
      _ k row Hk) as [[k' row'] Hf].
  { rewrite Hh, Hr, He, Hid, Ho, !bool_decide_true by done. done. }
  rewrite Hf. cbn [mbind option_bind]. apply find_row_Some in Hf as [Hk' Hp]. rewrite !andb_true_iff, !bool_decide_eq_true in Hp.
  destruct Hp as [[[Hh' _] _] _]. rewrite (Hown _ _ Hk' Hh'), Ho. cbn. by rewrite bool_decide_true.
Qed.

(** A snapshot that passes the guards is the transaction's to judge. *)
Lemma collectorSnapshot_ingests now g l header s audit_id request id org pub :
  collectorPrincipal public_key g now header = Some (id, org, pub) -> (allow now id l).2 = true -> s_collector s = id -> s_org s = org ->
  validSnapshotContract s = true -> (now - 24 * hour <= s_completed s <= now + 5 * minute)%Z -> VerifySnapshot s pub = Ok tt ->
  connector_bound g s id org = true ->
  let '(g', a) := ingest now g s id org audit_id request in
  collectorSnapshot public_key now g l header (Ok s) audit_id request = (g', (allow now id l).1, a).
Proof.
  intros Hp Ha Hid Horg Hc Ht Hv Hb. destruct (ingest _ _ _ _ _ _ _) as [g' a] eqn:Ei. unfold collectorSnapshot. rewrite Hp.
  destruct (allow now id l) as [l' ok]. cbn in Ha. subst ok. cbn [negb]. rewrite !bool_decide_true by done. cbn [negb orb].
  rewrite Hc. cbn [negb]. rewrite (proj2 (Z.ltb_ge _ _)), (proj2 (Z.ltb_ge (now + 5 * minute) _)) by lia. cbn [orb]. rewrite Hv, Hb. cbn [negb].
  by rewrite Ei.
Qed.

End Gate.

(** C5. An enrolled collector delivers: take an enrolment of a key that is
    not refused, and let anything be asked of the application after it. A
    snapshot signed with that key, of the collector, the organization and the
    connector the enrolment answered with, within the contract's limits and the
    replay window, whose JSON text is posted with the credential it answered
    with, within the size limit and the collector's rate, passes every guard of
    the gateway: what becomes of exactly this snapshot is what the ingest
    transaction decides, under the collector's own identity. *)
Theorem enrolled_collector_delivers
    `{SqlText, Graph.SqlOrder, SqlTimeOrder, RangeOrder, Postgres, Ed25519, Argon2, AesGcm, UnicodeCase, AuditStore}
    c started public_key json_error now drawn r a a' d f raw priv collector connector credential org
    (Henroll : enroll c now drawn r a = (a', writeJSON 201 (enrollment f collector connector credential org))) (Hd : ap_db a = Some d)
    (Hf : decode (hr_body r) (Z.shiftl 64 10) zero_enroll (dec_struct true enroll_fields) = Ok f)
    (Hraw : std_decode (ef_key f) = Some raw) (Hpair : paired (public_key raw) priv)
    l d2 (Hlater : ap_db (serves c started public_key json_error l a').1 = Some d2)
    (Hcredential : credential <> "") (Hown : own_credential (ad_gateway d2) credential collector)
    s s' text (Hsign : SignSnapshot s priv = Ok s') (Hwire : wire_envelope s) (Htext : marshal_envelope s' = Some text)
    (Hids : s_collector s' = collector /\ s_org s' = org /\ s_connector s' = connector /\ equal_fold (connector_type f) (s_connector_type s') = true)
    (Hcontract : validSnapshotContract s' = true)
    t (Htime : (t - 24 * hour <= s_completed s' <= t + 5 * minute)%Z)
    raw_id r2 (Hbody : hr_body r2 = whole_body text) (Hsize : (len text <= MaxSnapshotBytes c)%Z) (Hauth : header r2 "Authorization" = "Bearer " +:+ credential)
    (Hrate : (allow t collector (ap_snapshots (serves c started public_key json_error l a').1)).2 = true) :
  let later := (serves c started public_key json_error l a').1 in
  let ingested := ingest t (ad_gateway d2) s' collector org (newID "audit" raw_id) (requestID r2) in
  (post_snapshot c public_key t raw_id r2 later).2 = respond r2 ingested.2 /\
  ap_db (post_snapshot c public_key t raw_id r2 later).1 = Some (set_gateway ingested.1 d2).
Proof.
  destruct (enroll_cases _ _ _ _ _ _ _ _ Henroll Hd) as [[_ Hno]|
    (f' & raw' & d1 & collector' & connector' & credential' & org' & _ & Hf' & Hraw' & _ & Hd1 & Hen & Hanswer)].
  { exfalso. apply Hno. done. }
  rewrite Hf in Hf'. injection Hf' as <-. rewrite Hraw in Hraw'. injection Hraw' as <-.
  unfold enrollment, writeJSON, answer_with in Hanswer. injection Hanswer as <- <- <- <-.
  destruct (serves_evolves c started public_key json_error l a' _ Hd1) as (d2' & Hd2' & Hev). rewrite Hlater in Hd2'. injection Hd2' as <-.
  destruct Hen as [_ _ (_ & Ec) (id & _ & Eid) (_ & En) _]. intros later ingested.
  destruct (ev_collectors _ _ _ Hev collector (new_collector now org raw f)) as (o & Ho & Hreport); [rewrite Ec; apply lookup_insert_eq|].
  assert (co_org o = org /\ co_key o = raw /\ co_revoked o = None) as (Horg & Hkey & Hlive) by (destruct Hreport as [->|(? & ? & ?)]; done).
  assert (gd_credentials (ad_gateway d2) !! id = Some (new_credential collector credential)) as Hcred.
  { eapply lookup_weaken; [|exact (ev_credentials _ _ _ Hev)]. rewrite Eid. apply lookup_insert_eq. }
  assert (gd_connectors (ad_gateway d2) !! connector = Some (new_connector now org collector f)) as Hconn.
  { eapply lookup_weaken; [|exact (ev_connectors _ _ _ Hev)]. rewrite En. apply lookup_insert_eq. }
  pose proof (collectorPrincipal_of public_key (ad_gateway d2) t credential collector _ id o Hcredential Hcred eq_refl eq_refl eq_refl eq_refl Hown Ho Hlive) as Hp.
  rewrite Horg, Hkey in Hp. destruct Hids as (Hi1 & Hi2 & Hi3 & Hi4).
  pose proof (collectorSnapshot_ingests public_key t (ad_gateway d2) (ap_snapshots later) _ s' (newID "audit" raw_id) (requestID r2) collector org _
    Hp Hrate Hi1 Hi2 Hcontract Htime (SignSnapshot_verifies _ _ _ _ Hpair Hsign)) as Hsnap.
  assert (connector_bound (ad_gateway d2) s' collector org = true) as Hbound.
  { unfold connector_bound. rewrite Hi3, Hconn. cbn. by rewrite !bool_decide_true, Hi4. }
  specialize (Hsnap Hbound). fold ingested in Hsnap. destruct ingested as [g' answer] eqn:Ei. 
  destruct (wire_signed s priv Hwire) as (s2 & Hs2 & Hw2). rewrite Hsign in Hs2. injection Hs2 as <-.
  unfold post_snapshot. fold later in Hlater. rewrite Hlater, Hauth, (snapshot_body_text c r2 s' text Hw2 Htext Hbody Hsize), Hsnap. done.
Qed.

Lemma enrolled_collector_delivers_witness :
  let i := situation sample_now in
  exists a1 d2, enroll sample_config sample_now (si_drawn i) enroll_request sample_app
      = (a1, writeJSON 201 (enrollment edge_form edge edge_connector edge_credential "acme")) /\ ap_db a1 = Some d2 /\
    let t := (sample_now + hour)%Z in
    (post_snapshot sample_config column_key t "audit" snapshot_request a1).2 =
      respond snapshot_request (ingest t (ad_gateway d2) edge_signed edge "acme" (newID "audit" "audit") "").2 /\
    rs_status (post_snapshot sample_config column_key t "audit" snapshot_request a1).2 = 202%Z.
Proof.
  intros i.
  assert ((enroll sample_config sample_now (si_drawn i) enroll_request sample_app).2
    = writeJSON 201 (enrollment edge_form edge edge_connector edge_credential "acme")) as Hx by (vm_compute; reflexivity).
  assert (rs_status (post_snapshot sample_config column_key (sample_now + hour) "audit" snapshot_request
    (enroll sample_config sample_now (si_drawn i) enroll_request sample_app).1).2 = 202%Z) as Hs by (vm_compute; reflexivity).
  assert (match ap_db (enroll sample_config sample_now (si_drawn i) enroll_request sample_app).1 with
    | Some d => bool_decide (map_Forall (fun _ row => cr_hash row = TokenHash edge_credential -> cr_collector row = edge) (gd_credentials (ad_gateway d)))
    | None => false end = true) as Hown by (vm_compute; reflexivity).
  assert ((allow (sample_now + hour) edge (ap_snapshots (enroll sample_config sample_now (si_drawn i) enroll_request sample_app).1)).2 = true) as Hrate
    by (vm_compute; reflexivity).
  assert (decode (hr_body enroll_request) (Z.shiftl 64 10) zero_enroll (dec_struct true enroll_fields) = Ok edge_form) as Hf by (vm_compute; reflexivity).
  assert (SignSnapshot edge_snapshot edge_key = Ok edge_signed) as Hsign by (vm_compute; reflexivity).
  assert (marshal_envelope edge_signed = Some (default "" (marshal_envelope edge_signed))) as Htext by (vm_compute; reflexivity).
  destruct (enroll sample_config sample_now (si_drawn i) enroll_request sample_app) as [a1 x] eqn:E. cbn [fst snd] in *. subst x.
  destruct (ap_db a1) as [d2|] eqn:Hd2; [|discriminate Hown]. apply bool_decide_eq_true in Hown.
  exists a1, d2. split_and!; [reflexivity|exact Hd2| |exact Hs].
  apply (enrolled_collector_delivers sample_config 0 column_key id sample_now (si_drawn i) enroll_request sample_app a1 sample_db edge_form edge_key edge_key
    edge edge_connector edge_credential "acme" E eq_refl Hf ltac:(vm_compute; reflexivity) eq_refl [] d2 Hd2 ltac:(vm_compute; discriminate)
    Hown edge_snapshot edge_signed _ Hsign wire_edge_snapshot Htext ltac:(vm_compute; split_and!; reflexivity) ltac:(vm_compute; reflexivity) (sample_now + hour)%Z
    ltac:(vm_compute; split; discriminate) "audit" snapshot_request eq_refl
    ltac:(vm_compute; discriminate) ltac:(vm_compute; reflexivity) Hrate).
Defined.
