(* ===== verification/EdgeFacts.v ===== *)
(** * What surrounds every request

    The client's address cannot be forged past a trusted proxy, so the limit on
    attempts to authenticate holds per client; every answer has the security
    headers, and cross-origin access is for the allowed origins only; the
    counters account for every request. *)
From S2P Require Import Prelude GoStrings GoNumbers GoJson GoJsonDecode GoEncoding GoNetip GoIo Domain Security AuditChain Reconcile PgStore PgFacts.
From S2P Require Import ReconcilePg RateLimit Gateway GatewayFacts Config Http Sessions Api Enrollment App SessionFacts EnrollmentFacts AppTrace AppSample.
From S2P Require Graph.
From Stdlib Require Import Ascii.
Open Scope string_scope.
Open Scope list_scope.

(** ** The client's address *)

Section Client.
Context (c : Config).

(** A hop a proxy of ours added: not an address, or that of a trusted proxy. *)
Definition own_hop (f : string) : Prop := forall a, ParseAddr (trim_space f) = Some a -> trustedProxy c a = true.

Lemma forwarded_client_skips hops rest : Forall own_hop hops -> forall address,
  exists address', forwarded_client c address (hops ++ rest) = forwarded_client c address' rest.
Proof.
  induction 1 as [|f hops Hf _ IH]; intros address; cbn; [by exists address|].
  destruct (ParseAddr (trim_space f)) as [a|] eqn:E; [|apply IH]. rewrite (Hf a E). apply IH.
Qed.

(** The address of the peer, as [clientIP] reads it. *)
Definition peer_address (r : HttpRequest) : option Addr :=
  ParseAddr (trim_cut ["["%char; "]"%char] (default (hr_remote r) (split_host (hr_remote r)))).

(** The request came through a trusted proxy that forwards for [client]: the
    client's address and those of our own proxies come after whatever text the
    client sent. *)
Inductive comes_from (client : Addr) (r : HttpRequest) : Prop :=
| forwarded proxy (forged : option string) text hops :
    peer_address r = Some proxy -> trustedProxy c proxy = true ->
    split_on "," text = hops.1 :: hops.2 -> ParseAddr (trim_space hops.1) = Some client -> trustedProxy c client = false -> Forall own_hop hops.2 ->
    header r "X-Forwarded-For" = match forged with Some f => f +:+ "," +:+ text | None => text end ->
    comes_from client r.

End Client.



(** ** Attempts to authenticate *)

Section Attempts.
Context `{SqlText, Graph.SqlOrder, SqlTimeOrder, RangeOrder, Postgres, Ed25519, Argon2, AesGcm, UnicodeCase, AuditStore}.
Context (c : Config) (started : gotime) (public_key : string -> PublicKey) (json_error : string -> string).

(** The requests the limiter of authentication sees. *)
Definition attempt (r : HttpRequest) : bool :=
  is_post r && (bool_decide (hr_path r = "/api/v1/auth/login") || bool_decide (hr_path r = "/collector/v1/enroll")).

Definition rate_limited (x : option Response) : Prop := exists y, x = Some y /\ rs_status y = 429%Z.

#[export] Instance rate_limited_dec x : Decision (rate_limited x).
Proof.
  destruct x as [y|]; [|by right; intros (? & ? & _)].
  destruct (decide (rs_status y = 429%Z)); [left; by exists y|right; intros (? & [= <-] & ?); done].
Defined.

Lemma login_limiter now rt rc r a : (login c now rt rc r a).1.(ap_auth) = (allow now (clientIP c r) (ap_auth a)).1 /\
  ((allow now (clientIP c r) (ap_auth a)).2 = false -> rate_limited (login c now rt rc r a).2).
Proof.
  unfold login. destruct (allow _ _ _) as [l ok]. cbn [fst snd].
  destruct ok; cbn [negb]; [|split; [done|intros _; by eexists]]. split; [|done].
  repeat case_match; done.
Qed.

Lemma enroll_limiter now drawn r a d : ap_db a = Some d -> (enroll c now drawn r a).1.(ap_auth) = (allow now (clientIP c r) (ap_auth a)).1 /\
  ((allow now (clientIP c r) (ap_auth a)).2 = false -> rate_limited (Some (enroll c now drawn r a).2)).
Proof.
  intros Hd. unfold enroll. rewrite Hd. destruct (allow _ _ _) as [l ok]. cbn [fst snd].
  destruct ok; cbn [negb]; [|split; [done|intros _; by eexists]]. split; [|done].
  repeat case_match; done.
Qed.

Lemma Handler_other i r a a' x : attempt r = false -> Handler c started public_key json_error i r a = (a', x) -> ap_auth a' = ap_auth a.
Proof.
  intros Hno. apply (Handler_rel c started public_key json_error (fun a a' _ => ap_auth a' = ap_auth a)). unfold attempt in Hno.
  split; [done|intros a2 y..].
  - intros Hp Hm. by rewrite Hp, Hm in Hno.
  - intros Hp Hm. by rewrite Hp, Hm in Hno.
  - unfold collectorHeartbeat. intros E. repeat case_match; by simplify_eq.
  - unfold post_snapshot. intros E. repeat case_match; by simplify_eq.
  - unfold guarded. intros _ E. repeat case_match; by simplify_eq.
Qed.

Lemma Handler_login i r a : hr_path r = "/api/v1/auth/login" -> is_post r = true ->
  Handler c started public_key json_error i r a = login c (si_now i) (si_token i) (si_csrf i) r a.
Proof. intros Hp Hm. unfold Handler. rewrite Hp, Hm. done. Qed.

Lemma Handler_enroll i r a : hr_path r = "/collector/v1/enroll" -> is_post r = true ->
  Handler c started public_key json_error i r a = total (enroll c (si_now i) (si_drawn i) r a).
Proof. intros Hp Hm. unfold Handler, with_post. rewrite Hp, Hm. done. Qed.

Lemma serve_limiter i r a a' x d : ap_db a = Some d -> serve c started public_key json_error i r a = (a', x) ->
  if attempt r
  then ap_auth a' = (allow (si_now i) (clientIP c r) (ap_auth a)).1 /\ ((allow (si_now i) (clientIP c r) (ap_auth a)).2 = false -> rate_limited x)
  else ap_auth a' = ap_auth a.
Proof.
  intros Hd. unfold serve, middleware. cbv zeta. fold (identified i r). fold (counted a).
  assert (clientIP c (identified i r) = clientIP c r) as Hip.
  { unfold clientIP. change (hr_remote (identified i r)) with (hr_remote r). by rewrite header_identified. }
  destruct (bool_decide (hr_method _ = "OPTIONS")) eqn:Eo.
  { apply bool_decide_eq_true in Eo. intros E. apply (f_equal fst) in E. cbn in E. subst a'.
    assert (is_post r = false) as Hp by (unfold is_post; change (hr_method r = "OPTIONS") in Eo; by rewrite Eo). unfold attempt. by rewrite Hp. }
  destruct (Handler _ _ _ _ _ _ _) as [a1 x1] eqn:E.
  assert (if attempt r
    then ap_auth a1 = (allow (si_now i) (clientIP c r) (ap_auth a)).1 /\ ((allow (si_now i) (clientIP c r) (ap_auth a)).2 = false -> rate_limited x1)
    else ap_auth a1 = ap_auth a) as Hh.
  { destruct (attempt r) eqn:Ha; [|by apply (Handler_other i (identified i r)) in E].
    unfold attempt in Ha. apply andb_true_iff in Ha as [Hm [Hp%bool_decide_eq_true|Hp%bool_decide_eq_true]%orb_true_iff].
    - rewrite (Handler_login i (identified i r)) in E by done.
      pose proof (login_limiter (si_now i) (si_token i) (si_csrf i) (identified i r) (counted a)) as Hl. rewrite E, Hip in Hl. exact Hl.
    - rewrite (Handler_enroll i (identified i r)) in E by done.
      pose proof (enroll_limiter (si_now i) (si_drawn i) (identified i r) (counted a) d Hd) as Hl. rewrite Hip in Hl. by injection E as <- <-. }
  intros E'. destruct x1 as [y|]; injection E' as <- <-; [|done].
  assert (forall m, ap_auth (if (400 <=? rs_status y)%Z then set_metrics m a1 else a1) = ap_auth a1) as -> by (intros m; by destruct (400 <=? _)%Z).
  destruct (attempt r); [|done]. destruct Hh as [-> Hr]. split; [done|]. intros Hf. destruct (Hr Hf) as (z & [= <-] & Hz). by eexists.
Qed.

(** The attempts of a client that were let through to the credentials within
    the minute from [t] on. *)
Definition let_through (ip : string) (t : gotime) (l : list (Situation * HttpRequest)) (xs : list (option Response)) : list (Situation * HttpRequest * option Response) :=
  filter (fun irx => attempt irx.1.2 = true /\ clientIP c irx.1.2 = ip /\ ~ rate_limited irx.2 /\ (t <= si_now irx.1.1 <= t + minute)%Z) (zip l xs).

Definition call_of (ir : Situation * HttpRequest) : option (gotime * string) :=
  if attempt ir.2 then Some (si_now ir.1, clientIP c ir.2) else None.

Lemma let_through_allowed ip t l : forall a d, ap_db a = Some d ->
  (length (let_through ip t l (serves c started public_key json_error l a).2) <= length (allowed_in ip t minute (answers (ap_auth a) (omap call_of l))))%nat.
Proof.
  induction l as [|[i r] l IH]; intros a d Hd; cbn [serves]; [cbn; lia|].
  destruct (serve _ _ _ _ _ _ _) as [a1 x] eqn:E. pose proof (serve_limiter _ _ _ _ _ _ Hd E) as Hl.
  apply leads_serve in E. unfold leads in E. rewrite Hd in E. destruct (ap_db a1) as [d1|] eqn:Hd1; [|done].
  specialize (IH a1 d1 Hd1). destruct (serves c started public_key json_error l a1) as [a2 xs]. cbn [snd fst] in *.
  unfold let_through in *. cbn [zip zip_with]. rewrite filter_cons. cbn [fst snd]. cbn [omap list_omap]. unfold call_of at 1. cbn [fst snd].
  destruct (attempt r); [destruct Hl as [Ha Hrl]|rewrite <- Hl, decide_False by (by intros [? _]); exact IH].
  cbn [answers]. destruct (allow _ _ _) as [l' ok] eqn:Eal. cbn [fst snd] in *. subst l'. unfold allowed_in in *. rewrite filter_cons. cbn [fst snd].
  destruct (decide (true = true /\ _)) as [(_ & Hip & Hno & Ht)|_].
  - rewrite decide_True by (split_and!; [done| |lia..]; destruct ok; [done|by destruct Hno; auto]). cbn [length]. lia.
  - destruct (decide _); cbn [length]; lia.
Qed.

End Attempts.

Lemma sorted_omap {A B} (f : A -> option B) (R : A -> A -> Prop) (S : B -> B -> Prop) l :
  (forall x y u v, R x y -> f x = Some u -> f y = Some v -> S u v) -> StronglySorted R l -> StronglySorted S (omap f l).
Proof.
  intros Hf. induction 1 as [|x l Hl IH Hall]; cbn; [constructor|]. destruct (f x) as [u|] eqn:Eu; [|done]. constructor; [done|].
  apply Forall_forall. rewrite Forall_forall in Hall. intros v (y & Hy & Ev)%list_elem_of_omap. by eapply Hf; [apply Hall| |].
Qed.

(** C13. Guessing is slow: however the requests to the application are
    interleaved and whatever they claim, of the attempts of one client to sign
    in or to enroll, those not answered with 429 within any minute are at most
    twenty, the limit of ten on either side of a window's end. *)
Theorem authentication_attempts_bounded
    `{SqlText, Graph.SqlOrder, SqlTimeOrder, RangeOrder, Postgres, Ed25519, Argon2, AesGcm, UnicodeCase, AuditStore}
    c started public_key json_error d l ip t (Ht : (minute < t)%Z)
    (Hsort : StronglySorted (fun x y => si_now x.1 <= si_now y.1)%Z l) (Htimes : Forall (fun x => minute < si_now x.1)%Z l) :
  (length (let_through c ip t l (serves c started public_key json_error l (New (Some d))).2) <= 20)%nat.
Proof.
  etransitivity; [by eapply let_through_allowed|]. change (ap_auth (New (Some d))) with (new_limiter 10 minute).
  enough (Z.of_nat (length (allowed_in ip t minute (answers (new_limiter 10 minute) (omap (call_of c) l)))) <= 2 * 10)%Z by lia.
  transitivity (admits t minute 10 minute (window_of (new_limiter 10 minute) ip)).
  - apply allowed_bound; try done.
    + eapply sorted_omap; [|exact Hsort]. intros [i r] [j q] u v. unfold call_of. cbn. intros Hle. repeat case_match; by intros [= <-] [= <-].
    + apply Forall_forall. rewrite Forall_forall in Htimes. intros [now key] ([i r] & Hin & E)%list_elem_of_omap. unfold call_of in E. cbn in E. case_match; [|done].
      injection E as <- <-. specialize (Htimes _ Hin). cbn in *. lia.
  - apply admits_bound; done.
Qed.

(** ** Headers *)

Section Headers.
Context `{SqlText, Graph.SqlOrder, SqlTimeOrder, RangeOrder, Postgres, Ed25519, Argon2, AesGcm, UnicodeCase, AuditStore}.
Context (c : Config) (started : gotime) (public_key : string -> PublicKey) (json_error : string -> string).

(** An answer that sets the type of its content at most. *)
Definition plain (x : Response) : Prop := forall k, k <> "Content-Type" -> rs_headers x !! k = None.

Lemma plain_json status b : plain (answer_with status b).
Proof. intros k Hk. cbn. unfold json_type. by rewrite lookup_singleton_ne. Qed.

Lemma api_plain d p r x rejected : api c json_error d p r = Answer x rejected -> plain x.
Proof.
  assert (forall r p k y, plain y -> plain (default y (require r p k))) as Hread.
  { intros r0 p0 k y Hy. unfold require. case_bool_decide; [exact Hy|apply plain_json]. }
  assert (forall code r q, plain (preview code r q)) as Hpreview by (intros code r0 [q|e]; apply plain_json).
  unfold api. cbv zeta.
  repeat match goal with
  | |- (if ?b then _ else _) = _ -> _ => destruct b
  | |- Answer _ _ = _ -> _ => intros E; apply Answer_inj in E as <-; first [apply plain_json|apply Hread; first [apply plain_json|apply Hpreview]]
  | |- Logout = _ -> _ => intros [=]
  | |- match require r p ?k with _ => _ end = _ -> _ => destruct (require r p k) as [refusal|] eqn:Eq
  end.
  - intros E. apply Answer_inj in E as <-. unfold require in Eq. case_bool_decide; [done|]. injection Eq as <-. apply plain_json.
  - destruct (assetRoute _ _ _ _ _) as [y rej] eqn:Er. intros E. apply Answer_inj in E as <-. clear Eq.
    assert (plain (assetRoute c d (pr_organization p) (trim_prefix (hr_path r) "/api/v1/") r).1) as Hy; [|by rewrite Er in Hy].
    unfold assetRoute, traversal. repeat case_match; cbn [fst]; apply plain_json.
Qed.

Lemma guarded_plain i r a : plain (guarded c json_error i r a).2.
Proof.
  unfold guarded. destruct (session c (si_now i) r a) as [x|[d p]] eqn:Es; cbn [snd].
  - unfold session in Es. repeat case_match; simplify_eq; apply plain_json.
  - destruct (api _ _ _ _ _) as [x rejected|] eqn:Ea; [by eapply api_plain|]. intros k Hk. apply lookup_empty.
Qed.

Lemma login_plain now rt rc r a x : (login c now rt rc r a).2 = Some x -> plain x.
Proof.
  unfold login, start_session. intros E. repeat case_match; simplify_eq/=; first [apply plain_json|by (intros k Hk; cbn; unfold json_type; rewrite lookup_singleton_ne)].
Qed.

Lemma enroll_plain now drawn r a : plain (enroll c now drawn r a).2.
Proof.
  assert (forall raw f d, plain (enroll_tx now drawn raw f r d).2) as Htx.
  { intros raw f d. unfold enroll_tx. destruct (find_row _ _) as [[k t]|]; [|apply plain_json].
    destruct (negb _); [apply plain_json|]. destruct (negb _); apply plain_json. }
  unfold enroll. destruct (ap_db a) as [d|]; [|apply plain_json]. destruct (allow _ _ _) as [l ok].
  destruct (negb ok); [apply plain_json|]. destruct (decode _ _ _ _) as [f|[status code]]; [|apply plain_json].
  destruct (std_decode _) as [raw|]; [|apply plain_json]. destruct (negb _); [apply plain_json|].
  specialize (Htx raw f d). destruct (enroll_tx _ _ _ _ _ _) as [d' x]. exact Htx.
Qed.

Lemma Handler_plain i r a a' x : Handler c started public_key json_error i r a = (a', Some x) -> plain x.
Proof.
  intros E. refine (Handler_rel c started public_key json_error (fun _ _ x => forall y, x = Some y -> plain y) i r a a' (Some x) _ E x eq_refl). clear E.
  split.
  - intros y Hy z [= <-]. unfold immediate in Hy. repeat (apply elem_of_cons in Hy as [->|Hy]); [..|by apply not_elem_of_nil in Hy].
    2: unfold ready; repeat case_match. all: try apply plain_json.
    all: intros k Hk; cbn; by rewrite lookup_singleton_ne.
  - intros a2 y _ _ El z ->. apply (f_equal snd) in El. by eapply login_plain.
  - intros a2 y _ _ El z [= <-]. apply (f_equal snd) in El. cbn [snd] in El. subst y. apply enroll_plain.
  - intros a2 y El z [= <-]. apply (f_equal snd) in El. cbn [snd] in El. subst y.
    unfold collectorHeartbeat. repeat case_match; apply plain_json.
  - intros a2 y El z [= <-]. apply (f_equal snd) in El. cbn [snd] in El. subst y.
    unfold post_snapshot, respond. repeat case_match; apply plain_json.
  - intros a2 y _ El z [= <-]. apply (f_equal snd) in El. cbn in El. subst y. apply guarded_plain.
Qed.

End Headers.

(** The headers of every answer. *)
Definition protected (c : Config) (rid : string) (h : gmap string string) : Prop :=
  h !! "X-Request-ID" = Some rid /\ h !! "X-Content-Type-Options" = Some "nosniff" /\ h !! "X-Frame-Options" = Some "DENY" /\
  h !! "Referrer-Policy" = Some "no-referrer" /\ h !! "Permissions-Policy" = Some "camera=(), microphone=(), geolocation=()" /\
  h !! "Content-Security-Policy" = Some "default-src 'none'; frame-ancestors 'none'" /\
  h !! "Strict-Transport-Security" = (if bool_decide (Environment c = "production") then Some "max-age=31536000; includeSubDomains" else None).

Lemma security_headers_protected c rid origin : protected c rid (cors_headers c origin ∪ security_headers c rid).
Proof.
  unfold protected, cors_headers, security_headers. destruct (allowed_origin c origin), (bool_decide _); split_and!; reflexivity.
Qed.

Lemma cors_lookup c rid origin : let h := cors_headers c origin ∪ security_headers c rid in
  h !! "Access-Control-Allow-Origin" = (if allowed_origin c origin then Some origin else None) /\
  h !! "Access-Control-Allow-Credentials" = (if allowed_origin c origin then Some "true" else None).
Proof. unfold cors_headers, security_headers. destruct (allowed_origin c origin), (bool_decide _); split; reflexivity. Qed.

(** An origin that may read answers with the user's cookies. *)
Definition welcome (c : Config) (o : string) : Prop := o <> "" /\ o ∈ AllowedOrigins c.

#[export] Instance welcome_dec c o : Decision (welcome c o).
Proof. unfold welcome. apply _. Defined.

Lemma allowed_origin_welcome c o : allowed_origin c o = bool_decide (welcome c o).
Proof.
  unfold allowed_origin, welcome, contains. apply eq_true_iff_eq.
  rewrite andb_true_iff, negb_true_iff, bool_decide_eq_false, bool_decide_eq_true, existsb_exists. apply and_iff_compat_l. split.
  - intros (x & Hin & ->%bool_decide_eq_true). by apply list_elem_of_In.
  - intros Hin. exists o. split; [by apply list_elem_of_In|by apply bool_decide_eq_true].
Qed.

(** C14. Every answer is protected: whatever the request and whatever handler
    answers it, the answer carries the request's identifier, its own or one
    drawn for it, and the security headers, in production the one for transport
    too; it names an origin that may read it with credentials exactly when the
    request's origin is an allowed one, and then that one. A preflight request
    reaches no handler, changes nothing, and is refused from other origins. *)
Theorem every_answer_protected
    `{SqlText, Graph.SqlOrder, SqlTimeOrder, RangeOrder, Postgres, Ed25519, Argon2, AesGcm, UnicodeCase, AuditStore}
    c started public_key json_error i r a a' response (Hserve : serve c started public_key json_error i r a = (a', Some response)) :
  protected c (request_id i r) (rs_headers response) /\
  (forall o, rs_headers response !! "Access-Control-Allow-Origin" = Some o <-> o = header r "Origin" /\ welcome c o) /\
  (forall v, rs_headers response !! "Access-Control-Allow-Credentials" = Some v <-> v = "true" /\ welcome c (header r "Origin")) /\
  (hr_method r = "OPTIONS" -> a' = a /\ rs_status response = if decide (welcome c (header r "Origin")) then 204%Z else 403%Z).
Proof.
  set (origin := header r "Origin"). set (h := cors_headers c origin ∪ security_headers c (request_id i r)).
  assert (forall x, (forall k, k ∈ ["X-Request-ID"; "X-Content-Type-Options"; "X-Frame-Options"; "Referrer-Policy"; "Permissions-Policy";
      "Content-Security-Policy"; "Strict-Transport-Security"; "Access-Control-Allow-Origin"; "Access-Control-Allow-Credentials"] -> rs_headers x !! k = None) ->
    protected c (request_id i r) (rs_headers (with_headers h x)) /\
    rs_headers (with_headers h x) !! "Access-Control-Allow-Origin" = (if allowed_origin c origin then Some origin else None) /\
    rs_headers (with_headers h x) !! "Access-Control-Allow-Credentials" = (if allowed_origin c origin then Some "true" else None)) as Hover.
  { intros x Hx. assert (forall k, rs_headers x !! k = None -> rs_headers (with_headers h x) !! k = h !! k) as Hk.
    { intros k E. cbn. rewrite lookup_union, E. by destruct (h !! k). }
    destruct (cors_lookup c (request_id i r) origin) as [<- <-]. fold h. unfold protected.
    repeat rewrite Hk by (apply Hx; set_solver). split; [apply security_headers_protected|done]. }
  assert (forall x, x = (if allowed_origin c origin then Some origin else None) -> forall o, x = Some o <-> o = origin /\ welcome c o) as Horigin.
  { intros x -> o. rewrite allowed_origin_welcome. case_bool_decide; naive_solver. }
  assert (forall x, x = (if allowed_origin c origin then Some "true" else None) -> forall v, x = Some v <-> v = "true" /\ welcome c origin) as Hcredentials.
  { intros x -> v. rewrite allowed_origin_welcome. case_bool_decide; naive_solver. }
  unfold serve, middleware in Hserve. cbv zeta in Hserve. fold (identified i r) in Hserve. fold (counted a) in Hserve.
  rewrite (header_identified i r "Origin") in Hserve by done. fold origin in Hserve. fold h in Hserve.
  change (hr_method (set_header r "X-Request-ID" (request_id i r))) with (hr_method r) in Hserve.
  case_bool_decide as Hm.
  - injection Hserve as <- <-. set (x := if allowed_origin c origin then _ else _).
    destruct (Hover x) as (P1 & P2 & P3).
    { intros k Hk. unfold x. destruct (allowed_origin c origin); repeat (apply elem_of_cons in Hk as [->|Hk]); try reflexivity; by apply not_elem_of_nil in Hk. }
    refine (conj P1 (conj (Horigin _ P2) (conj (Hcredentials _ P3) (fun _ => conj eq_refl _)))). unfold x. rewrite allowed_origin_welcome.
    case_bool_decide; case_decide; done.
  - destruct (Handler _ _ _ _ _ _ _) as [a1 [x|]] eqn:E; [|done]. injection Hserve as <- <-. apply Handler_plain in E.
    destruct (Hover x) as (P1 & P2 & P3). { intros k Hk. apply E. intros ->. set_solver. }
    by refine (conj P1 (conj (Horigin _ P2) (conj (Hcredentials _ P3) _))).
Qed.

Lemma every_answer_protected_witness :
  exists a' x, run (situation sample_now) (request "GET" "/nowhere" [("Origin", "https://console")] [] "") sample_app = (a', Some x) /\
    rs_status x = 404%Z /\ rs_headers x !! "X-Frame-Options" = Some "DENY" /\ rs_headers x !! "Access-Control-Allow-Origin" = Some "https://console".
Proof.
  set (r := request "GET" "/nowhere" [("Origin", "https://console")] [] "").
  assert (option_map rs_status (run (situation sample_now) r sample_app).2 = Some 404%Z) as Hs by (vm_compute; reflexivity).
  destruct (run (situation sample_now) r sample_app) as [a' [x|]] eqn:E; [|discriminate Hs].
  unfold run in E. destruct (every_answer_protected sample_config 0 column_key id (situation sample_now) r sample_app a' x E) as ((_ & _ & Hx & _) & Hc & _).
  exists a', x. split_and!; [reflexivity|by injection Hs|exact Hx|]. apply Hc. split; [reflexivity|]. split; [discriminate|left].
Defined.

(** Twelve logins in a minute, each claiming another address. *)
Definition impatient : list (Situation * HttpRequest) :=
  (fun n : Z => (situation (sample_now + n * nano),
     request "POST" "/api/v1/auth/login" [("X-Forwarded-For", format_int n +:+ ".2.3.4, 203.0.113.9")] [] "{}")) <$> seqZ 0 12.

Lemma authentication_attempts_bounded_witness :
  let xs := (serves sample_config 0 column_key id impatient (New (Some sample_db))).2 in
  length (let_through sample_config "203.0.113.9" sample_now impatient xs) = 10%nat /\
  (length (let_through sample_config "203.0.113.9" sample_now impatient xs) <= 20)%nat.
Proof.
  intros xs. split; [vm_compute; reflexivity|]. subst xs.
  apply (authentication_attempts_bounded sample_config 0 column_key id sample_db impatient "203.0.113.9" sample_now).
  - vm_compute. reflexivity.
  - unfold impatient. repeat constructor; vm_compute; discriminate.
  - unfold impatient. repeat constructor; vm_compute; reflexivity.
Defined.
