(* ===== verification/Tenancy.v ===== *)
(** * Tenants do not see each other

    The answers of the API depend on the rows of the principal's organization
    only ([ApiFacts.v]), and a request that does not act for an organization
    leaves that organization's rows as they are. *)
From S2P Require Import Prelude GoStrings GoNumbers GoJson GoJsonDecode GoEncoding GoIo Domain Security AuditChain Reconcile PgStore PgFacts ReconcilePg.
From S2P Require Import RateLimit Gateway GatewayFacts Config Http Sessions Api ApiFacts Enrollment App SessionFacts EnrollmentFacts AppTrace AppSample.
From S2P Require Graph.
Open Scope string_scope.
Open Scope list_scope.

(** ** Rows of another organization *)

Lemma others_filter {A} (org_of : A -> string) org org' (t t' : gmap string A) : same_others org_of org' t t' -> org <> org' ->
  filter (fun kr => org_of kr.2 = org) t = filter (fun kr => org_of kr.2 = org) t'.
Proof.
  intros Hs Hne. apply map_eq. intros k. apply option_eq. intros r. rewrite !map_lookup_filter_Some. cbn.
  split; intros [Hk Ho]; (split; [|done]); apply (Hs k r); congruence.
Qed.

#[export] Instance same_tenant_preorder org : PreOrder (same_tenant org).
Proof.
  split.
  - intros d. by split.
  - intros d1 d2 d3 [A1 B1 C1 D1 E1 F1 G1 K1] [A2 B2 C2 D2 E2 F2 G2 K2]. split; try congruence.
    intros id a Hid Ho. rewrite (K1 id a Hid Ho). apply (K2 id a); [|done].
    assert (filter (fun kr => pa_org kr.2 = org) (d_assets (gd_inventory (ad_gateway d2))) !! id = Some a) as Hf
      by (rewrite <- A1; by apply map_lookup_filter_Some).
    by apply map_lookup_filter_Some in Hf as [? _].
Qed.

Lemma same_tenant_sessions org d d' : ad_findings d' = ad_findings d -> ad_criticality d' = ad_criticality d -> ad_gateway d' = ad_gateway d ->
  same_tenant org d d'.
Proof. intros E1 E2 E3. split; by rewrite ?E1, ?E2, ?E3. Qed.

Section Requests.
Context `{SqlText, Graph.SqlOrder, SqlTimeOrder, RangeOrder, Postgres, Ed25519, Argon2, AesGcm, UnicodeCase, AuditStore}.
Context (c : Config) (started : gotime) (public_key : string -> PublicKey) (json_error : string -> string).

(** A request acts for an organization when it enrolls with a token of it, or
    carries a credential of one of its collectors. *)
Definition acts_for (org : string) (i : Situation) (r : HttpRequest) (a : App) : Prop :=
  exists d, ap_db a = Some d /\
    ((exists f k t, decode (hr_body r) (Z.shiftl 64 10) zero_enroll (dec_struct true enroll_fields) = Ok f /\
        find_row (usable_token (si_now i) (ef_token f)) (ad_tokens d) = Some (k, t) /\ to_org t = org) \/
     exists id pub, live_credential public_key (ad_gateway d) (si_now i) (header r "Authorization") id org pub).

Definition keeps_tenant (org : string) (a a' : App) : Prop :=
  match ap_db a, ap_db a' with Some d, Some d' => same_tenant org d d' | None, None => True | _, _ => False end.

Lemma keeps_login org now rt rc r a a' response : login c now rt rc r a = (a', response) -> keeps_tenant org a a'.
Proof.
  intros Hl. unfold keeps_tenant. destruct (ap_db a) as [d|] eqn:Hd; [|by destruct (login_no_database _ _ _ _ _ _ _ _ Hl Hd) as [-> _]].
  destruct (login_cases _ _ _ _ _ _ _ _ _ Hl Hd) as [(d1 & (p & _ & ->) & -> & _)|
    (f & id & u & d1 & token & csrf & d' & x & _ & -> & _ & _ & _ & (p & _ & ->) & _ & (_ & -> & _))]; by apply same_tenant_sessions.
Qed.

Lemma keeps_guarded org i r a a' response : guarded c json_error i r a = (a', response) -> keeps_tenant org a a'.
Proof.
  intros Hg. unfold keeps_tenant. apply guarded_cases in Hg as [[-> _]|(d & s & Hd & _ & [(-> & _)|(_ & _ & ->)])].
  - by destruct (ap_db a).
  - by rewrite Hd.
  - rewrite Hd. by apply same_tenant_sessions.
Qed.

Lemma keeps_enroll org i r a a' response : ~ acts_for org i r a -> enroll c (si_now i) (si_drawn i) r a = (a', response) -> keeps_tenant org a a'.
Proof.
  intros Hno He. unfold keeps_tenant. destruct (ap_db a) as [d|] eqn:Hd; [|by destruct (enroll_no_database _ _ _ _ _ _ _ He Hd) as [-> _]].
  destruct (enroll_cases _ _ _ _ _ _ _ _ He Hd) as [[-> _]|(f & raw & d' & collector & connector & credential & org' & _ & Hf & _ & _ & -> & Hen & _)]; [done|].
  destruct Hen as [(k & t & Hfind & Horg & _) _ (Hc & Ec) _ (Hn & En) ->].
  assert (org <> org') as Hne. { intros ->. apply Hno. exists d. split; [done|]. left. by exists f, k, t. }
  split; try done; cbn.
  - eapply others_filter; [|exact Hne]. rewrite En. apply same_others_insert; [by left|done].
  - eapply others_filter; [|exact Hne]. rewrite Ec. apply same_others_insert; [by left|done].
Qed.

Lemma keeps_heartbeat org i r a a' response : ~ acts_for org i r a -> collectorHeartbeat public_key (si_now i) r a = (a', response) -> keeps_tenant org a a'.
Proof.
  intros Hno. unfold collectorHeartbeat, request_principal, keeps_tenant. destruct (ap_db a) as [d|] eqn:Hd; cbn; [|intros [= <- _]; by rewrite Hd].
  destruct (collectorPrincipal _ _ _ _) as [[[id org'] pub]|] eqn:Ep; cbn; [|intros [= <- _]; by rewrite Hd].
  assert (org <> org') as Hne. { intros ->. apply Hno. exists d. split; [done|]. right. exists id, pub. by apply collectorPrincipal_live. }
  destruct (decode _ _ _ _) as [f|[status code]]; [|intros [= <- _]; by rewrite Hd].
  intros [= <- _]. cbn. split; try done; cbn. eapply others_filter; [|exact Hne].
  intros k o Ho. rewrite map_lookup_imap. destruct (gd_collectors (ad_gateway d) !! k) as [o'|]; cbn; [|done].
  assert (forall x, beat (si_now i) id org' f k x = if bool_decide (k = id) && bool_decide (co_org x = org') then beat (si_now i) id org' f k x else x) as E
    by (intros x; unfold beat; by destruct (_ && _)).
  rewrite E. destruct (bool_decide (k = id) && bool_decide (co_org o' = org')) eqn:Eb; [|done].
  apply both_true in Eb as [_ Eo]. assert (co_org (beat (si_now i) id org' f k o') = org') as Eb by (unfold beat; by destruct (_ && _)).
  split; intros [= <-]; congruence.
Qed.

Lemma append_others org clock rows e rows' : Append clock rows e = Ok rows' -> ev_org e <> org ->
  filter (fun e => ev_org e = org) rows = filter (fun e => ev_org e = org) rows'.
Proof.
  unfold Append. destruct (_ || _); [done|]. destruct (bool_decide _); [done|]. intros [= <-] Hne.
  rewrite filter_app. rewrite (filter_cons_False _ _ []); [by rewrite app_nil_r|]. by destruct (time_is_zero _).
Qed.

Lemma keeps_snapshot org i r a a' response : ~ acts_for org i r a ->
  post_snapshot c public_key (si_now i) (si_audit i) r a = (a', response) -> keeps_tenant org a a'.
Proof.
  intros Hno. unfold post_snapshot, keeps_tenant. destruct (ap_db a) as [d|] eqn:Hd; cbn; [|intros [= <- _]; by rewrite Hd].
  destruct (collectorSnapshot _ _ _ _ _ _ _ _) as [[g l] answer] eqn:E. intros [= <- _]. cbn.
  apply collectorSnapshot_cases in E as [[-> _]|(s & sum & _ & (pub & Hlive & _) & _ & Hi)]; [by destruct d|].
  assert (s_org s <> org) as Hne. { intros <-. apply Hno. exists d. split; [done|]. right. by exists (s_collector s), pub. }
  apply ingest_cases in Hi as [[-> _]|(_ & _ & sum' & inventory & audit & Happly & Haudit & _ & ->)]; [by destruct d|].
  apply ApplyPostgres_tenant in Happly as [Hassets _ _ _ _ _ Hrel _ _ Hchanges _].
  split; try done; cbn; try (eapply others_filter; [eassumption|congruence]). eapply append_others; [exact Haudit|done].
Qed.

(** Requests leave alone the tenants they do not act for. *)
Lemma keeps_serve org i r a a' response : ~ acts_for org i r a -> serve c started public_key json_error i r a = (a', response) -> keeps_tenant org a a'.
Proof.
  intros Hno. assert (~ acts_for org i (identified i r) (counted a)) as Hno'.
  { intros (d & Hd & Hacts). apply Hno. exists d. split; [done|]. by rewrite header_identified in Hacts. }
  apply (serve_rel c started public_key json_error
    (fun d d' => match d, d' with Some d, Some d' => same_tenant org d d' | None, None => True | _, _ => False end)).
  { by destruct (ap_db a). }
  split; [intros x _; by destruct (ap_db _)|intros a2 x..]; [intros _ _; apply keeps_login|intros _ _; by apply keeps_enroll|by apply keeps_heartbeat|by apply keeps_snapshot|intros _; apply keeps_guarded].
Qed.

(** None of the requests acts for the organization when it comes. *)
Fixpoint foreign (org : string) (l : list (Situation * HttpRequest)) (a : App) : Prop :=
  match l with
  | [] => True
  | (i, r) :: l' => ~ acts_for org i r a /\ foreign org l' (serve c started public_key json_error i r a).1
  end.

Lemma foreign_keeps org l a : foreign org l a -> keeps_tenant org a (serves c started public_key json_error l a).1.
Proof.
  revert a. induction l as [|[i r] l IH]; intros a; cbn [foreign serves fst]; [intros _; unfold keeps_tenant; by destruct (ap_db a)|].
  destruct (serve _ _ _ _ _ _ _) as [a1 response] eqn:E. intros [Hno Hl]. apply keeps_serve with (org := org) in E; [|done].
  specialize (IH a1 Hl). destruct (serves _ _ _ _ _ _) as [a2 responses]. cbn [fst] in *. unfold keeps_tenant in *.
  destruct (ap_db a), (ap_db a1), (ap_db a2); try done. by etransitivity.
Qed.

End Requests.

(** C6. Tenants do not interfere: what the API answers a principal depends
    on the rows of their own organization only. If a request of theirs passes
    the guard on two states of the application that hold the same rows of the
    organization, it is answered alike, whatever the rows of the others; and
    requests by anybody that do not act for the organization, that is, do not
    enroll with its token nor carry a credential of its collectors, leave all
    it holds, and so all it is answered, as it was. *)
Theorem tenants_do_not_interfere
    `{SqlText, Graph.SqlOrder, SqlTimeOrder, RangeOrder, Postgres, Ed25519, Argon2, AesGcm, UnicodeCase, AuditStore}
    c started public_key json_error i r a1 a2 d1 d2 p (Hsession1 : session c (si_now i) r a1 = inr (d1, p))
    (Hsession2 : session c (si_now i) r a2 = inr (d2, p))
    (Hsame : same_tenant (pr_organization p) d1 d2 \/
      exists l, a2 = (serves c started public_key json_error l a1).1 /\ foreign c started public_key json_error (pr_organization p) l a1) :
  same_tenant (pr_organization p) d1 d2 /\ (guarded c json_error i r a1).2 = (guarded c json_error i r a2).2.
Proof.
  assert (same_tenant (pr_organization p) d1 d2) as Htenant.
  { destruct Hsame as [?|(l & -> & Hl)]; [done|]. apply foreign_keeps in Hl. unfold keeps_tenant in Hl.
    apply session_authentic in Hsession1 as [Hd1 _], Hsession2 as [Hd2 _]. by rewrite Hd1, Hd2 in Hl. }
  split; [done|]. unfold guarded. rewrite Hsession1, Hsession2, (api_tenant c json_error _ _ _ Htenant p r eq_refl).
  by destruct (api _ _ _ _ _).
Qed.

Lemma other_is_foreign i a : (gd_collectors ∘ ad_gateway <$> ap_db a) = Some (gd_collectors sample_gateway) ->
  ~ acts_for column_key "acme" i other_request a.
Proof.
  intros Hg (d & Hd & [(f & k & t & Hf & _)|(id & pub & k & row & o & _ & _ & _ & _ & _ & Ho & _ & Horg & _)]).
  - assert (match decode (hr_body other_request) (Z.shiftl 64 10) zero_enroll (dec_struct true enroll_fields) with Ok _ => false | Err _ => true end = true)
      as Hno by (vm_compute; reflexivity). by rewrite Hf in Hno.
  - rewrite Hd in Hg. injection Hg as Hg. cbn in Hg. rewrite Hg in Ho. cbn [gd_collectors sample_gateway] in Ho.
    apply lookup_singleton_Some in Ho as [_ <-]. discriminate Horg.
Qed.

Lemma tenants_do_not_interfere_witness :
  let a1 := (run (situation sample_now) login_request sample_app).1 in
  let a2 := (serves sample_config 0 column_key id [(situation (sample_now + nano), other_request)] a1).1 in
  let i := situation (sample_now + hour) in
  (d_assets ∘ gd_inventory ∘ ad_gateway <$> ap_db a1) <> (d_assets ∘ gd_inventory ∘ ad_gateway <$> ap_db a2) /\
  (guarded sample_config id i (get "/api/v1/assets") a1).2 = (guarded sample_config id i (get "/api/v1/assets") a2).2.
Proof.
  intros a1 a2 i. split.
  - assert ((size ∘ d_assets ∘ gd_inventory ∘ ad_gateway <$> ap_db a1) = Some 0%nat) as H1 by (vm_compute; reflexivity).
    assert ((size ∘ d_assets ∘ gd_inventory ∘ ad_gateway <$> ap_db a2) = Some 1%nat) as H2 by (vm_compute; reflexivity).
    clearbody a1 a2. destruct (ap_db a1), (ap_db a2); try discriminate. cbn in *. congruence.
  - set (q := {| pr_user := "alice"; pr_organization := "acme"; pr_permissions := {["asset.read"]};
      pr_csrf := KeyedTokenHash (SessionSecret sample_config) alice_csrf |}).
    assert (match session sample_config (si_now i) (get "/api/v1/assets") a1 with inr (_, p) => Some p | inl _ => None end = Some q) as H1 by (vm_compute; reflexivity).
    assert (match session sample_config (si_now i) (get "/api/v1/assets") a2 with inr (_, p) => Some p | inl _ => None end = Some q) as H2 by (vm_compute; reflexivity).
    assert ((gd_collectors ∘ ad_gateway <$> ap_db a1) = Some (gd_collectors sample_gateway)) as Hg by (vm_compute; reflexivity).
    destruct (session sample_config (si_now i) (get "/api/v1/assets") a1) as [?|[d1 p]] eqn:E1; [discriminate H1|].
    destruct (session sample_config (si_now i) (get "/api/v1/assets") a2) as [?|[d2 p']] eqn:E2; [discriminate H2|].
    injection H1 as ->. injection H2 as ->.
    apply (tenants_do_not_interfere sample_config 0 column_key id i (get "/api/v1/assets") a1 a2 d1 d2 q E1 E2).
    right. exists [(situation (sample_now + nano), other_request)]. split; [reflexivity|].
    split; [|exact I]. by apply other_is_foreign.
Defined.
