(* ===== verification/CollectorSetup.v ===== *)
(** * Starting the collector ([cmd/infragraph-collector/main.go])

    The environment, the dispatch of a discovery to its connector, enrolment,
    and [main]: the settings and the identity, then the agent's loop. *)
From S2P Require Import Prelude GoStrings GoNumbers GoJson GoJsonDecode GoEncoding GoTime GoUrl GoIo Domain Security Reconcile Collector.
From S2P Require Docker Kubernetes.
From Stdlib Require Import Ascii.
Open Scope string_scope.
Open Scope list_scope.

(** ** The environment *)

Section Env.
Variable Getenv : string -> string.

Definition env (key fallback : string) : string := let value := Getenv key in if bool_decide (value = "") then fallback else value.

(** [configuredConnectorType]; the error quotes the value. *)
Variable Quote : string -> string.

Definition configuredConnectorType : result string string :=
  let connectorType := to_upper (trim_space (env "INFRAGRAPH_CONNECTOR_TYPE" "DOCKER")) in
  if negb (bool_decide (connectorType = "DOCKER")) && negb (bool_decide (connectorType = "KUBERNETES"))
  then Err ("INFRAGRAPH_CONNECTOR_TYPE must be DOCKER or KUBERNETES, got " +:+ Quote connectorType) else Ok connectorType.

(** [envInt64] and [envInt], on a 64-bit machine. *)
Definition envInt64 (key : string) (fallback : Z) : Z :=
  let '(value, failed) := parse_int (Getenv key) in if failed || (value <=? 0)%Z then fallback else value.

Definition envDuration (key : string) (fallback : Z) : Z :=
  match parse_duration (Getenv key) with Some value => if (value <=? 0)%Z then fallback else value | None => fallback end.

(** A file is what opening it gives. *)
Definition readBoundedFile (file : result string Reader) (maxBytes : Z) : result string string :=
  r ← file;
  raw ← read_all r (wrap64 (maxBytes + 1));
  if (maxBytes <? len raw)%Z then Err ("file exceeds " +:+ format_int maxBytes +:+ " bytes") else
  if bool_decide (trim_space raw = "") then Err "file is empty" else Ok raw.

(** ** [discover] *)

Section Discover.
Context `{UrlParser, RangeOrder}.

(** The files, the certificates' parser, and the APIs at the other end. *)
Variables (Open : string -> result string Reader) (has_certificate : string -> bool).
Variables (docker_api : string -> string -> result string Docker.Response)
          (kubernetes_api : Kubernetes.Connector -> nat -> string -> result string Kubernetes.Page).

Definition wrapped {A} (what : string) (r : result string A) : result string A :=
  match r with Ok a => Ok a | Err e => Err (what +:+ ": " +:+ e) end.

Definition kubernetes_config : result string Kubernetes.Config :=
  token ← wrapped "read Kubernetes token"
    (readBoundedFile (Open (env "INFRAGRAPH_KUBERNETES_TOKEN_FILE" "/var/run/secrets/kubernetes.io/serviceaccount/token")) (Z.shiftl 1 20));
  ca ← wrapped "read Kubernetes CA"
    (readBoundedFile (Open (env "INFRAGRAPH_KUBERNETES_CA_FILE" "/var/run/secrets/kubernetes.io/serviceaccount/ca.crt")) (Z.shiftl 1 20));
  Ok {| Kubernetes.BaseURL := env "INFRAGRAPH_KUBERNETES_API_URL" "https://kubernetes.default.svc";
        Kubernetes.Token := token; Kubernetes.CAPEM := ca;
        Kubernetes.ClusterID := Getenv "INFRAGRAPH_KUBERNETES_CLUSTER_ID"; Kubernetes.ClusterName := Getenv "INFRAGRAPH_KUBERNETES_CLUSTER_NAME";
        Kubernetes.Timeout := envDuration "INFRAGRAPH_KUBERNETES_TIMEOUT" (30 * nano);
        Kubernetes.PageSize := envInt64 "INFRAGRAPH_KUBERNETES_PAGE_SIZE" 500;
        Kubernetes.MaxResources := envInt64 "INFRAGRAPH_KUBERNETES_MAX_RESOURCES" 100000 |}.

Definition discover (now : gotime) (connectorType : string) : result string (list Observation * list RelationshipObservation) :=
  if bool_decide (connectorType = "DOCKER") then
    connector ← Docker.NewUnix (env "INFRAGRAPH_DOCKER_SOCKET" "/var/run/docker.sock") (env "INFRAGRAPH_DOCKER_LABEL_SCOPE" "com.infragraph.test=true");
    Docker.Discover (docker_api connector.1) now connector.2
  else if bool_decide (connectorType = "KUBERNETES") then
    config ← kubernetes_config;
    connector ← Kubernetes.NewWithConfig has_certificate config;
    Kubernetes.Discover (kubernetes_api connector) now connector
  else Err ("unsupported connector type " +:+ Quote connectorType).

End Discover.

(** ** Enrolment *)

Definition marshal_identity (id : identity) : string :=
  json_object [("collectorId", json_string (id_collector id)); ("connectorId", json_string (id_connector id));
    ("organizationId", json_string (id_org id)); ("credential", json_string (id_credential id));
    ("privateKey", json_string (id_key id)); ("connectorType", json_string (id_type id))].

Definition zero_identity : identity := Build_identity "" "" "" "" "" "".

Definition identity_fields : list (field identity) := [
  into "collectorId" id_collector (fun v '(Build_identity _ b c d e f) => Build_identity v b c d e f) dec_string;
  into "connectorId" id_connector (fun v '(Build_identity a _ c d e f) => Build_identity a v c d e f) dec_string;
  into "organizationId" id_org (fun v '(Build_identity a b _ d e f) => Build_identity a b v d e f) dec_string;
  into "credential" id_credential (fun v '(Build_identity a b c _ e f) => Build_identity a b c v e f) dec_string;
  into "privateKey" id_key (fun v '(Build_identity a b c d _ f) => Build_identity a b c d v f) dec_string;
  into "connectorType" id_type (fun v '(Build_identity a b c d e _) => Build_identity a b c d e v) dec_string].

(** What the control plane answers to an enrolment. *)
Record enrolled := { en_collector : string; en_connector : string; en_org : string; en_credential : string }.

Definition zero_enrolled : enrolled := Build_enrolled "" "" "" "".

Definition enrolled_fields : list (field enrolled) := [
  into "collectorId" en_collector (fun v '(Build_enrolled _ b c d) => Build_enrolled v b c d) dec_string;
  into "connectorId" en_connector (fun v '(Build_enrolled a _ c d) => Build_enrolled a v c d) dec_string;
  into "organizationId" en_org (fun v '(Build_enrolled a b _ d) => Build_enrolled a b v d) dec_string;
  into "credential" en_credential (fun v '(Build_enrolled a b c _) => Build_enrolled a b c v) dec_string].

(** Lines 92-104: the checks of a stored identity. *)
Definition check_identity (connectorType : string) (id : identity) : result string identity :=
  if bool_decide (id_collector id = "") || bool_decide (id_org id = "") || bool_decide (id_credential id = "") || bool_decide (id_key id = "")
  then Err "collector identity file is incomplete" else
  let id := if bool_decide (id_type id = "")
    then {| id_collector := id_collector id; id_connector := id_connector id; id_org := id_org id; id_credential := id_credential id;
            id_key := id_key id; id_type := "DOCKER" |} else id in
  if negb (bool_decide (id_type id = connectorType))
  then Err ("configured connector type " +:+ connectorType +:+ " does not match enrolled identity type " +:+ id_type id +:+
    "; use a separate data directory and enrollment") else Ok id.

(** [os.MkdirAll] of the data directory, which exists here. *)
Definition make_data : io unit := call (atomic (fun w => Ok w)).

Section Enroll.

Context `{UnicodeCase}.

(** The text of an error of [encoding/json], the generated key pair in base64,
    and the body of the control plane's response to a request's body. *)
Variables (json_error : string -> string) (generated : result string (string * string)) (answer : string -> string).

(** [json.Unmarshal] into a zero variable. *)
Definition Unmarshal {T} (zero : T) (fields : list (field T)) (raw : string) : result string T :=
  match unmarshal zero (dec_struct false fields) raw with Some v => Ok v | None => Err (json_error raw) end.

Definition enroll_body (token publicKey connectorType : string) : string :=
  json_object [
    ("collectorVersion", json_string version);
    ("connectorName", json_string (env "INFRAGRAPH_CONNECTOR_NAME" (if bool_decide (connectorType = "KUBERNETES") then "Kubernetes discovery" else "Docker discovery")));
    ("connectorType", json_string connectorType); ("name", json_string (env "INFRAGRAPH_COLLECTOR_NAME" "collector"));
    ("protocolVersion", json_string "1.0"); ("publicKey", json_string publicKey); ("token", json_string token)].

(** [post] to the enrolment endpoint: the response up to a MiB, and the answer in it. *)
Definition post_enroll (body : string) : io enrolled :=
  call (fun t w => match tk_fault t with
    | NoFault => match status_error (tk_status t) with
                 | Ok _ => match Unmarshal zero_enrolled enrolled_fields (String.substring 0 (Z.to_nat (Z.shiftl 1 20)) (answer body)) with
                           | Ok a => (w, Value a) | Err e => (w, Failure e) end
                 | Err e => (w, Failure e) end
    | Failing _ => (w, Failure "connection lost")
    | Dying _ => (w, Death)
    end).

(** Lines 106-133: the first start. *)
Definition enroll (connectorType : string) : io identity :=
  let token := Getenv "INFRAGRAPH_ENROLLMENT_TOKEN" in
  if bool_decide (token = "") then raise "enrollment token required for first start" else
  keys ← lift generated;
  a ← post_enroll (enroll_body token keys.1 connectorType);
  let id := {| id_collector := en_collector a; id_connector := en_connector a; id_org := en_org a; id_credential := en_credential a;
               id_key := keys.2; id_type := connectorType |} in
  _ ← write_file Data "identity.json" (marshal_identity id);
  mret id.

Definition loadOrEnroll (control connectorType : string) : io identity :=
  if bool_decide (control = "") then raise "INFRAGRAPH_CONTROL_PLANE_URL required" else
  _ ← make_data;
  raw ← attempt (read_file Data "identity.json");
  match raw with
  | Ok raw => lift (id ← Unmarshal zero_identity identity_fields raw; check_identity connectorType id)
  | Err _ => enroll connectorType
  end.

(** ** [main] *)

Context `{Ed25519}.
Variable private_key : string -> result string PrivateKey.

Definition settings_of : settings :=
  {| max_bytes := envInt64 "INFRAGRAPH_COLLECTOR_MAX_SPOOL_BYTES" (Z.shiftl 512 20);
     max_age := envDuration "INFRAGRAPH_COLLECTOR_MAX_SPOOL_AGE" (7 * 24 * 3600 * nano);
     connector_id := Getenv "INFRAGRAPH_CONNECTOR_ID" |}.

(** The process, its loop [fuel] turns at most. *)
Definition main (fuel : nat) : io unit :=
  connectorType ← lift configuredConnectorType;
  id ← loadOrEnroll (trim_right_cut ["/"%char] (Getenv "INFRAGRAPH_CONTROL_PLANE_URL")) connectorType;
  agent private_key fuel settings_of id.

End Enroll.

End Env.
