(* ===== verification/CollectorSetupFacts.v ===== *)
(** * From the first start to the gateway

    Enrolment gives an identity of the configured type that restarts keep, the
    whole process keeps the directory's invariant, and what any connector finds
    is admitted by the gateway. *)
From S2P Require Import Prelude GoStrings GoUtf8 GoNumbers GoJson GoJsonDecode GoJsonText GoJsonRoundtrip GoEncoding GoTime GoUrl GoIo Domain DomainJson DomainText Security SecurityFacts AuditChain Reconcile.
From S2P Require Import Collector CollectorLogic CollectorInv CollectorFacts CollectorRuns RateLimit Gateway SnapshotContract CollectorSetup.
From S2P Require Docker.
From S2P Require DockerFacts.
From S2P Require Kubernetes.
From S2P Require KubernetesFacts.
From S2P Require KubernetesDiscovery.
From Stdlib Require Import Ascii.
Open Scope string_scope.
Open Scope list_scope.

(** ** The identity file *)

Section Untouched.
Context (name : string).

(** A computation that leaves a file of the data directory alone. *)
Definition leaves {A} (m : io A) : Prop := forall w ticks, data (m w ticks).1 !! name = data w !! name.

Lemma leaves_ret {A} (a : A) : leaves (mret a).
Proof. done. Qed.

Lemma leaves_raise {A} e : leaves (raise (A := A) e).
Proof. done. Qed.

Lemma leaves_bind {A B} (m : io A) (f : A -> io B) : leaves m -> (forall a, leaves (f a)) -> leaves (m ≫= f).
Proof.
  intros Hm Hf w ticks. specialize (Hm w ticks). unfold mbind, io_bind. destruct (m w ticks) as [w1 [a rest|e rest|]]; cbn in *; [|done|done].
  by rewrite (Hf a w1 rest).
Qed.

Lemma leaves_attempt {A} (m : io A) : leaves m -> leaves (attempt m).
Proof. intros Hm w ticks. specialize (Hm w ticks). unfold attempt. by destruct (m w ticks) as [w1 []]. Qed.

Lemma leaves_call {A} (f : Tick -> World -> World * verdict A) : (forall t w, data (f t w).1 !! name = data w !! name) -> leaves (call f).
Proof. intros Hf w [|t ticks]; unfold call; [done|]. specialize (Hf t w). by destruct (f t w) as [w1 []]. Qed.

Lemma leaves_lift {A} (r : result string A) : leaves (lift r).
Proof. by destruct r. Qed.

Lemma leaves_reading {A} (read : World -> result string A) : leaves (call (reading read)).
Proof. apply leaves_call. intros t w. unfold reading. repeat case_match; done. Qed.

Lemma leaves_atomic (change : World -> result string World) : (forall w w', change w = Ok w' -> data w' !! name = data w !! name) -> leaves (call (atomic change)).
Proof.
  intros Hc. apply leaves_call. intros t w. specialize (Hc w). unfold atomic. destruct (change w) as [w'|]; repeat case_match; cbn; try done; by apply Hc.
Qed.

Lemma leaves_write p n c : p = Spool \/ n <> name -> leaves (write_file p n c).
Proof.
  intros Hp. apply leaves_call. intros t w.
  assert (forall c', data (set_files p (<[n := Regular c' (tk_clock t)]> (files p w)) w) !! name = data w !! name) as Hs.
  { intros c'. destruct p; [|done]. destruct Hp as [?|Hn]; [done|]. cbn. by rewrite lookup_insert_ne. }
  destruct (tk_fault t) as [|[]|[]]; cbn [fst]; try done; try apply Hs. case_bool_decide; [done|apply Hs].
Qed.

Lemma leaves_rename p old new : p = Spool \/ (old <> name /\ new <> name) -> leaves (rename p old new).
Proof.
  intros Hp. apply leaves_atomic. intros w w'. destruct (files p w !! old); [|done]. case_bool_decide; [done|]. intros [= <-].
  destruct p; [|done]. destruct Hp as [?|[Ho Hn]]; [done|]. cbn. by rewrite lookup_insert_ne, lookup_delete_ne.
Qed.

Lemma leaves_remove p n : p = Spool \/ n <> name -> leaves (remove p n).
Proof.
  intros Hp. apply leaves_atomic. intros w w'. destruct (files p w !! n); [|done]. intros [= <-].
  destruct p; [|done]. destruct Hp as [?|Hn]; [done|]. cbn. by rewrite lookup_delete_ne.
Qed.

Lemma leaves_spool : leaves make_spool.
Proof. apply leaves_atomic. by intros w w' [= <-]. Qed.

Lemma leaves_post raw : leaves (post_snapshot raw).
Proof. apply leaves_call. intros t w. cbn zeta. repeat case_match; done. Qed.

Lemma leaves_plain {A} (f : Tick -> World -> verdict A) : leaves (call (fun t w => (w, f t w))).
Proof. by apply leaves_call. Qed.

Lemma leaves_now : leaves now.
Proof. apply leaves_call. intros t w. by case_match. Qed.

Lemma leaves_heartbeat : leaves heartbeat.
Proof. apply leaves_call. intros t w. by repeat case_match. Qed.

Lemma leaves_discover : leaves Collector.discover.
Proof. apply leaves_call. intros t w. by repeat case_match. Qed.

(** Splits a computation into its calls. *)
Ltac leave :=
  repeat (intros;
    first [ solve [auto] | apply leaves_ret | apply leaves_raise | apply leaves_lift | apply leaves_now | apply leaves_heartbeat
          | apply leaves_discover | apply leaves_spool | apply leaves_post | apply leaves_reading | apply leaves_write
          | apply leaves_rename | apply leaves_remove | apply leaves_attempt | apply leaves_bind | case_match ]).

Context (Hsequence : "sequence" <> name) (Hpending : "sequence.pending" <> name).

Lemma leaves_sequence : leaves nextSequence.
Proof. unfold nextSequence, read_file. leave. Qed.

Lemma leaves_used used l : leaves (used_bytes used l).
Proof. revert used. induction l as [|[n e] l IH]; intros used; cbn [used_bytes]; unfold info; leave; apply IH. Qed.

Lemma leaves_queue max s : leaves (queueSnapshot max s).
Proof. pose proof leaves_used. unfold queueSnapshot, read_spool. leave. Qed.

Lemma leaves_flush max : leaves (flushSpool max).
Proof.
  assert (forall l, leaves (flush_entries max l)) as Hl.
  { induction l as [|[n e] l IH]; cbn [flush_entries]; unfold info, read_file; leave. }
  unfold flushSpool, read_spool. leave; apply Hl.
Qed.

Lemma leaves_agent `{Ed25519} private_key fuel c id : leaves (agent private_key fuel c id).
Proof.
  pose proof leaves_sequence. pose proof (leaves_flush (max_age c)). pose proof (fun s => leaves_queue (max_bytes c) s).
  assert (leaves (runOnce private_key c id)) by (unfold runOnce; leave).
  assert (leaves (turn private_key c id)) by (unfold turn; leave).
  induction fuel as [|fuel IH]; cbn [agent]; leave.
Qed.

End Untouched.

(** ** The identity file *)

(** Its texts are UTF-8. *)
Definition utf8_identity (id : identity) : Prop :=
  Forall (fun s => utf8_valid s = true) [id_collector id; id_connector id; id_org id; id_credential id; id_key id; id_type id].

Definition identity_members (id : identity) : list (string * (string * doc)) := [
  string_member "collectorId" (id_collector id); string_member "connectorId" (id_connector id); string_member "organizationId" (id_org id);
  string_member "credential" (id_credential id); string_member "privateKey" (id_key id); string_member "connectorType" (id_type id)].

(** What is written is read back. *)
Lemma identity_read_back `{UnicodeCase} json_error id : utf8_identity id ->
  Unmarshal json_error zero_identity identity_fields (marshal_identity id) = Ok id.
Proof.
  unfold utf8_identity. rewrite !Forall_cons. intros Hs. destruct_and!. unfold Unmarshal, unmarshal.
  assert (reads_closed max_nesting (marshal_identity id) (document_of (identity_members id))) as Hr.
  { change max_nesting with (member_levels + 1)%Z. apply (reads_struct _ (identity_members id)); [|by vm_compute]. assert (0 <= member_levels)%Z by (by vm_compute). read_members. }
  rewrite (parse_whole _ _ Hr). cbn [mbind option_bind]. rewrite dec_struct_in_order; [|by apply (bool_decide_unpack _)|done].
  unfold identity_fields, zero_identity. cbn [fmap list_fmap identity_members string_member fst snd]. decode_members. by destruct id.
Qed.

(** ** Enrolment *)

Section Enrolment.
Context `{UnicodeCase} (Getenv : string -> string) (json_error : string -> string)
  (generated : result string (string * string)) (answer : string -> string).

Notation load := (loadOrEnroll Getenv json_error generated answer).
Notation enrolls := (enroll Getenv json_error generated answer).
Notation identity_of := (Unmarshal json_error zero_identity identity_fields).

Lemma check_identity_ok ty id0 id : check_identity ty id0 = Ok id ->
  id_type id = ty /\ id_collector id <> "" /\ id_org id <> "" /\ id_credential id <> "" /\ id_key id <> "".
Proof.
  unfold check_identity. destruct (_ || _) eqn:E; [done|]. repeat (apply orb_false_iff in E as [E ?]).
  repeat match goal with H : bool_decide _ = false |- _ => apply bool_decide_eq_false in H end.
  match goal with |- context [bool_decide (id_type ?x = ty)] => set (id1 := x) end.
  assert (id_collector id1 = id_collector id0 /\ id_org id1 = id_org id0 /\ id_credential id1 = id_credential id0 /\ id_key id1 = id_key id0) as (E1 & E2 & E3 & E4)
    by (unfold id1; by case_bool_decide).
  case_bool_decide; [|done]. intros [= <-]. by rewrite E1, E2, E3, E4.
Qed.

Lemma check_identity_type ty id0 id : check_identity ty id0 = Ok id -> ty = if decide (id_type id0 = "") then "DOCKER" else id_type id0.
Proof.
  unfold check_identity. destruct (_ || _); [done|]. destruct (decide (id_type id0 = "")) as [E|E]; [rewrite (bool_decide_true _ E)|rewrite (bool_decide_false _ E)];
    cbn [id_type]; case_bool_decide; cbn [negb]; congruence.
Qed.

(** An identity that comes back as it is. *)
Lemma check_identity_same ty id : id_type id = ty -> ty <> "" -> id_collector id <> "" -> id_org id <> "" -> id_credential id <> "" -> id_key id <> "" ->
  check_identity ty id = Ok id.
Proof.
  intros Ht Hne H1 H2 H3 H4. unfold check_identity. rewrite (bool_decide_false (id_collector id = "")), (bool_decide_false (id_org id = "")), (bool_decide_false (id_credential id = "")),
    (bool_decide_false (id_key id = "")), (bool_decide_false (id_type id = "")) by congruence. cbn [orb]. by rewrite bool_decide_true.
Qed.

(** The first two calls: the directory and the identity file. *)
Definition first_calls (w : World) (ticks : list Tick) : option (list Tick * result string string) :=
  match ticks with
  | t1 :: t2 :: rest =>
      match tk_fault t1, tk_fault t2 with
      | NoFault, NoFault | NoFault, Failing _ =>
          Some (rest, if tk_unreadable t2 then Err "input/output error" else
            match data w !! "identity.json" with
            | Some (Regular c _) => Ok c | Some Directory => Err "is a directory" | None => Err "no such file or directory" end)
      | _, _ => None
      end
  | _ => None
  end.

Lemma enroll_done ty w ticks w' id rest : enrolls ty w ticks = (w', Done id rest) ->
  id_type id = ty /\ exists t, data w' = <["identity.json" := Regular (marshal_identity id) t]> (data w).
Proof.
  unfold enroll. case_bool_decide; [done|]. unfold mbind, io_bind, lift. destruct generated as [keys|]; [|done]. cbn [mret io_ret].
  unfold post_enroll, call. destruct ticks as [|t3 ticks]; [done|]. destruct (tk_fault t3); [|done|done]. destruct (status_error (tk_status t3)); [|done].
  destruct (Unmarshal _ _ _ _) as [a0|]; [|done]. unfold write_file, call. destruct ticks as [|t4 ticks]; [done|].
  destruct (tk_fault t4); [|done|done]. case_bool_decide; [done|]. intros [= <- <- <-]. split; [done|]. by eexists.
Qed.

Lemma load_done control ty w ticks w' id rest : load control ty w ticks = (w', Done id rest) -> exists rest1 raw,
  first_calls w ticks = Some (rest1, raw) /\
  match raw with
  | Ok c => w' = w /\ exists id0, identity_of c = Ok id0 /\ check_identity ty id0 = Ok id
  | Err _ => id_type id = ty /\ exists t, data w' = <["identity.json" := Regular (marshal_identity id) t]> (data w)
  end.
Proof.
  unfold loadOrEnroll. case_bool_decide; [done|]. unfold mbind, io_bind, make_data, attempt, read_file, call.
  destruct ticks as [|t1 ticks]; [done|]. unfold atomic. cbn [first_calls].
  destruct (tk_fault t1) eqn:F1; [|done|by destruct partial]. destruct ticks as [|t2 rest0]; [done|]. unfold reading. cbn [files].
  assert (forall raw, (match raw with Ok c => lift (id ← identity_of c; check_identity ty id) | Err _ => enrolls ty end) w rest0
      = (w', Done id rest) ->
    match raw : result string string with
    | Ok c => w' = w /\ exists id0, identity_of c = Ok id0 /\ check_identity ty id0 = Ok id
    | Err _ => id_type id = ty /\ exists t, data w' = <["identity.json" := Regular (marshal_identity id) t]> (data w)
    end) as Hraw.
  { intros [c|e]; [|apply enroll_done]. destruct (identity_of c) as [id0|]; cbn; [|done]. destruct (check_identity ty id0) eqn:Hc; cbn; [|done].
    intros [= <- <- <-]. split; [done|]. by exists id0. }
  destruct (tk_fault t2) eqn:F2; [| |done]; intros Hrun; exists rest0; eexists; (split; [reflexivity|]); apply Hraw;
    (destruct (tk_unreadable t2); [exact Hrun|]; destruct (data w !! "identity.json") as [[]|]; exact Hrun).
Qed.

(** A later start from a file that can be read. *)
Definition calm (t : Tick) : Prop := tk_fault t = NoFault /\ tk_unreadable t = false.

Lemma load_again control ty w t1 t2 rest c at_ : control <> "" -> calm t1 -> calm t2 -> data w !! "identity.json" = Some (Regular c at_) ->
  load control ty w (t1 :: t2 :: rest) =
  (w, match (id ← identity_of c; check_identity ty id) with Ok id => Done id rest | Err e => Raised e rest end).
Proof.
  intros Hc [F1 _] [F2 U2] Hd. unfold loadOrEnroll. rewrite bool_decide_false by done. unfold mbind, io_bind, make_data, attempt, read_file, call, atomic.
  rewrite F1. unfold reading. rewrite F2, U2. cbn [files]. rewrite Hd. by destruct (result_bind _ _ _ _).
Qed.

(** A started process keeps the directory's invariant. *)
Lemma enroll_spec k w0 ty : hoare (inv k w0) (enrolls ty) (fun _ => inv k w0) (inv k w0) (crashed k w0).
Proof.
  unfold enroll. apply hoare_if; [intros _; by apply hoare_raise; intros n w|intros _].
  eapply hoare_bind; [apply hoare_lift with (Q := fun _ => inv k w0); [by intros a _ n w|by intros n w]|]. intros keys.
  eapply hoare_bind with (R := fun _ => inv k w0).
  { apply hoare_call; [by intros w ?%inv_crashed|]. intros n t w _ Hw%inv_S. unfold post_enroll. repeat case_match; simplify_eq; try done; by eapply inv_crashed. }
  intros a. eapply hoare_bind with (R := fun _ => inv k w0); [|intros []; by apply hoare_ret; intros n w].
  apply hoare_write; [apply inv_crashed|by intros n w ?%inv_S|]. intros n w c t Hw%inv_S.
  destruct (frame_put Data w "identity.json" (Regular c t) ltac:(done)) as [Hs E]. pose proof (inv_frame _ _ _ _ _ Hw Hs E) as Hw'.
  split_and!; [by eapply inv_crashed|done|done].
Qed.

Lemma load_spec k w0 control ty : hoare (inv k w0) (load control ty) (fun _ => inv k w0) (inv k w0) (crashed k w0).
Proof.
  unfold loadOrEnroll. apply hoare_if; [intros _; by apply hoare_raise; intros n w|intros _].
  eapply hoare_bind with (R := fun _ => inv k w0).
  { apply hoare_atomic; [apply inv_crashed|by intros n w ?%inv_S|]. intros n w w' Hw%inv_S [= <-]. split; [done|by eapply inv_crashed]. }
  intros []. eapply hoare_bind with (R := fun _ => inv k w0).
  { apply hoare_attempt, hoare_reading; [apply inv_crashed|]. intros n w Hw%inv_S. by destruct (files Data w !! "identity.json") as [[]|]. }
  intros [c|e]; [|apply enroll_spec]. apply hoare_lift; [by intros a _ n w|by intros n w].
Qed.

Lemma main_spec `{Ed25519} Quote private_key k w0 fuel :
  hoare (inv k w0) (main Getenv Quote json_error generated answer private_key fuel) (fun _ => inv k w0) (inv k w0) (crashed k w0).
Proof.
  unfold main. eapply hoare_bind; [apply hoare_lift with (Q := fun _ => inv k w0); [by intros a _ n w|by intros n w]|]. intros ty.
  eapply hoare_bind; [apply load_spec|]. intros id. apply agent_spec.
Qed.

End Enrolment.

(** ** Lifetimes of the whole process *)

(** One start: its environment, its key pair, the control plane's answers to an
    enrolment, and what its system calls meet. *)
Record Start := {
  st_env : string -> string; st_keys : result string (string * string); st_answer : string -> string; st_ticks : list Tick }.

Section Starts.
Context `{UnicodeCase, Ed25519} (Quote json_error : string -> string) (private_key : string -> result string PrivateKey).

(** A process with a turn for every system call, and one. *)
Definition started (w : World) (s : Start) : World * outcome unit :=
  main (st_env s) Quote json_error (st_keys s) (st_answer s) private_key (S (length (st_ticks s))) w (st_ticks s).

Definition starts (w : World) (l : list Start) : World := foldl (fun w s => (started w s).1) w l.

Lemma starts_within l : forall w0, sound w0 -> Forall (fun s => Forall fine (st_ticks s)) l -> budget 0 (calls (st_ticks <$> l)) w0 ->
  sound (starts w0 l) /\ kept w0 (starts w0 l).
Proof.
  induction l as [|s l IH]; intros w0 Hs Hf Hb; [done|]. cbn [starts foldl]. apply Forall_cons in Hf as [Ht Hf].
  change (calls (st_ticks <$> s :: l)) with (length (st_ticks s) + calls (st_ticks <$> l))%nat in Hb.
  assert (inv (calls (st_ticks <$> l)) w0 (length (st_ticks s)) w0) as Hi.
  { split_and!; [done|done|]. unfold budget in *. by rewrite Nat.add_0_r in Hb. }
  pose proof (main_spec (st_env s) json_error (st_keys s) (st_answer s) Quote private_key (calls (st_ticks <$> l)) w0 (S (length (st_ticks s)))
    w0 (st_ticks s) Ht Hi) as Hrun. fold (started w0 s) in Hrun.
  assert (crashed (calls (st_ticks <$> l)) w0 (started w0 s).1) as (Hs1 & Hk1 & Hb1).
  { destruct (started w0 s) as [w1 [a rest|e rest|]]; [destruct Hrun; by eapply inv_crashed|destruct Hrun; by eapply inv_crashed|done]. }
  destruct (IH (started w0 s).1 Hs1 Hf) as [Hs2 Hk2]; [unfold budget in *; by rewrite Nat.add_0_r|]. split; [done|by etrans].
Qed.

End Starts.

(** ** Theorems *)

(** C29. The collector keeps its evidence: from a sound data directory, across
    any number of starts of the process, each with its own environment and
    perhaps an enrolment, and wherever each is killed (between system calls or
    within one, leaving any partial file), the directory stays sound (the
    sequence number valid, every snapshot in the spool whole and under the name
    of its number, what was sent in order) and no snapshot leaves the spool
    before the control plane has accepted exactly its bytes. *)
Theorem collector_process_keeps_evidence `{UnicodeCase, Ed25519} Quote json_error private_key w0 l (Hsound : sound w0)
    (Hfine : Forall (fun s => Forall fine (st_ticks s)) l) (Hbudget : budget 0 (calls (st_ticks <$> l)) w0) :
  let w := starts Quote json_error private_key w0 l in sound w /\ kept w0 w.
Proof. by apply starts_within. Qed.

(** C31. An identity is for good: what an enrolment or a first load returned, in
    UTF-8 and with its fields filled, is
    of the configured connector type, and after any run of the agent every later
    start that can read its file returns the same identity without enrolling,
    while a start configured for another type is refused. *)
Theorem identity_survives_restarts `{UnicodeCase, Ed25519} private_key fuel c id env1 env2 json_error keys1 keys2 answer1 answer2 control control2 ty ty2
    w ticks w1 rest ticks2 t1 t2 rest2
    (Hload : loadOrEnroll env1 json_error keys1 answer1 control ty w ticks = (w1, Done id rest))
    (Htexts : utf8_identity id) (Hty : ty <> "")
    (Hfields : id_collector id <> "" /\ id_org id <> "" /\ id_credential id <> "" /\ id_key id <> "")
    (Hcontrol : control2 <> "") (Hcalm : calm t1 /\ calm t2) :
  let w2 := (agent private_key fuel c id w1 ticks2).1 in
  id_type id = ty /\
  loadOrEnroll env2 json_error keys2 answer2 control2 ty w2 (t1 :: t2 :: rest2) = (w2, Done id rest2) /\
  (ty2 <> ty -> exists e, loadOrEnroll env2 json_error keys2 answer2 control2 ty2 w2 (t1 :: t2 :: rest2) = (w2, Raised e rest2)).
Proof.
  intros w2. destruct Hcalm as [Hc1 Hc2].
  assert (data w2 !! "identity.json" = data w1 !! "identity.json") as Hkeep by (by apply leaves_agent).
  destruct (load_done _ _ _ _ _ _ _ _ _ _ _ Hload) as (rest1 & raw & Hfirst & Hraw).
  assert (id_type id = ty /\ exists c0 at_ id0, data w1 !! "identity.json" = Some (Regular c0 at_) /\ Unmarshal json_error zero_identity identity_fields c0 = Ok id0 /\ check_identity ty id0 = Ok id)
    as [Htype (c0 & at_ & id0 & Hd & Hu & Hck)].
  { destruct raw as [c0|e].
    - destruct Hraw as [-> (id0 & Hu & Hck)]. split; [by apply check_identity_ok in Hck as (? & _)|].
      destruct ticks as [|u1 [|u2 ticks]]; [done|done|]. cbn in Hfirst.
      destruct (data w !! "identity.json") as [[|c1 at_]|]; destruct (tk_fault u1); try done; destruct (tk_fault u2); try done;
        destruct (tk_unreadable u2); try done; injection Hfirst as _ <-; by exists c1, at_, id0.
    - destruct Hraw as [Ht [at_ Hd]]. split; [done|]. exists (marshal_identity id), at_, id. split_and!; [by rewrite Hd, lookup_insert_eq|by apply identity_read_back|].
      destruct Hfields as (?&?&?&?). by apply check_identity_same. }
  split_and!; [done|..].
  - rewrite (load_again _ _ _ _ _ _ _ _ _ _ c0 at_) by (congruence || done). rewrite Hu. cbn [mbind result_bind]. by rewrite Hck.
  - intros Hne. rewrite (load_again _ _ _ _ _ _ _ _ _ _ c0 at_) by (congruence || done). rewrite Hu. cbn [mbind result_bind].
    destruct (check_identity ty2 id0) as [id2|e] eqn:E2; [|by exists e]. exfalso.
    apply check_identity_type in Hck, E2. congruence.
Qed.

(** An enrolment that dies while it writes the identity leaves a file that stops
    every later start, although the control plane has the collector. *)
Lemma torn_identity_blocks `{UnicodeCase} Getenv json_error keys answer control ty w t1 t2 rest c at_ e :
  control <> "" -> calm t1 -> calm t2 -> data w !! "identity.json" = Some (Regular c at_) -> Unmarshal json_error zero_identity identity_fields c = Err e ->
  loadOrEnroll Getenv json_error keys answer control ty w (t1 :: t2 :: rest) = (w, Raised e rest).
Proof. intros Hc H1 H2 Hd Hu. rewrite (load_again _ _ _ _ _ _ _ _ _ _ c at_) by done. by rewrite Hu. Qed.


(** ** Examples *)

Definition example_env (k : string) : string :=
  if String.eqb k "INFRAGRAPH_CONTROL_PLANE_URL" then "https://plane/" else if String.eqb k "INFRAGRAPH_ENROLLMENT_TOKEN" then "token" else "".

Definition example_tick : Tick :=
  {| tk_fault := NoFault; tk_unreadable := false; tk_clock := unix_epoch + 5; tk_status := 201; tk_found := Ok ([], []) |}.

Definition example_answer (body : string) : string :=
  json_object [("collectorId", json_string "collector"); ("compatibilityStatus", json_string "COMPATIBLE"); ("connectorId", json_string "docker");
    ("credential", json_string "credential"); ("organizationId", json_string "org")].

Definition example_identity : identity :=
  {| id_collector := "collector"; id_connector := "docker"; id_org := "org"; id_credential := "credential"; id_key := "private"; id_type := "DOCKER" |}.

Definition example_start : Start :=
  {| st_env := example_env; st_keys := Ok ("public", "private"); st_answer := example_answer; st_ticks := replicate 12 example_tick |}.

Definition new_world : World := {| data := ∅; spool := None; answered := [] |}.

Lemma collector_process_keeps_evidence_witness :
  let w := @starts ascii_case toy_ed25519 id id (fun k => Ok k) new_world [example_start; example_start] in
  is_Some (data w !! "identity.json") /\ sound w /\ kept new_world w.
Proof.
  intros w. split; [exists (Regular (marshal_identity example_identity) (unix_epoch + 5)); vm_compute; reflexivity|].
  refine (@collector_process_keeps_evidence ascii_case toy_ed25519 id id (fun k => Ok k) new_world [example_start; example_start] _ _ _).
  - split; [done|by intros name c t Hf|]. exists []. split_and!; constructor.
  - repeat constructor.
  - vm_compute. split; [discriminate|reflexivity].
Defined.

Lemma identity_survives_restarts_witness : exists w1,
  @loadOrEnroll example_env ascii_case id (Ok ("public", "private")) example_answer "https://plane" "DOCKER" new_world (replicate 4 example_tick)
    = (w1, Done example_identity []) /\
  (@loadOrEnroll (fun _ => "") ascii_case id (Err "no key") (fun _ => "") "https://other" "DOCKER" w1 [example_tick; example_tick]).2
    = Done example_identity [].
Proof.
  eexists. split; [vm_compute; reflexivity|].
  match goal with |- context [@loadOrEnroll _ _ _ _ _ "https://other" _ ?w1 _] =>
    refine (let '(conj _ (conj H _)) := @identity_survives_restarts ascii_case toy_ed25519 (fun k => Ok k) 0 {| max_bytes := 0; max_age := 0; connector_id := "" |} example_identity
      example_env (fun _ => "") id (Ok ("public", "private")) (Err "no key") example_answer (fun _ => "")
      "https://plane" "https://other" "DOCKER" "KUBERNETES" new_world (replicate 4 example_tick) w1 [] [] example_tick example_tick [] _ _ _ _ _ _ in _) end.
  - vm_compute. reflexivity.
  - unfold utf8_identity. rewrite !Forall_cons. split_and!; [vm_compute; reflexivity..|by apply Forall_nil].
  - discriminate.
  - split_and!; discriminate.
  - discriminate.
  - repeat split.
  - cbn [agent fst] in H. exact (f_equal snd H).
Defined.

Definition no_urls : UrlParser := {| url_parse _ := None; ip_loopback _ := None |}.

