(* ===== verification/Handshake.v ===== *)
(** * The first start of a collector

    The collector's side of an enrolment meets the gateway's: what
    [loadOrEnroll] posts, [enroll] decodes, field names of another case
    included, and what [enroll] answers, the collector reads and stores. *)
From S2P Require Import Prelude GoStrings GoUtf8 GoNumbers GoJson GoJsonDecode GoJsonText GoJsonRoundtrip GoEncoding GoHash GoIo Domain DomainJson DomainText.
From S2P Require Import Security SecurityFacts AuditChain Reconcile PgStore ReconcilePg RateLimit Gateway GatewayFacts Config Http Sessions Api Enrollment App.
From S2P Require Import AppSample Wire EndToEnd.
From S2P Require Collector.
From S2P Require CollectorSetup.
From S2P Require CollectorSetupFacts.
From Stdlib Require Import Ascii.
Open Scope string_scope.
Open Scope list_scope.

(** ** Field names *)

Definition ascii_text (s : string) : bool := forallb (fun b => (b <? 128)%N) (bytes s).

Lemma runes_of_ascii s : ascii_text s = true -> Forall (fun r => (r < 128)%N) (runes s).
Proof.
  unfold ascii_text, runes. induction (bytes s) as [|b l IH]; [constructor|]. cbn [forallb]. intros [Hb Hl]%andb_true_iff.
  cbn [GoStrings.decode]. rewrite Hb, fmap_cons. constructor; [by apply N.ltb_lt|auto].
Qed.

Section Names.
Context `{UnicodeCase}.

Lemma equal_fold_of_ascii s t : ascii_text s = true -> ascii_text t = true -> equal_fold s t = @equal_fold ascii_case s t.
Proof.
  intros Hs%runes_of_ascii Ht%runes_of_ascii. unfold equal_fold.
  assert (forall l, Forall (fun r => (r < 128)%N) l -> fold_rune <$> l = @fold_rune ascii_case <$> l) as Hf.
  { induction 1 as [|r l Hr _ IH]; [done|]. rewrite !fmap_cons, IH. f_equal. by apply fold_ascii. }
  by rewrite !Hf.
Qed.

(** Names of ASCII are found whatever the tables hold for other runes. *)
Lemma find_field_of_ascii {T} (fields : list (field T)) name : forallb ascii_text (fd_name <$> fields) = true -> ascii_text name = true ->
  find_field fields name = @find_field ascii_case T fields name.
Proof.
  intros Hf Hn. unfold find_field. destruct (find _ fields); [done|]. induction fields as [|f fields IH]; [done|].
  rewrite fmap_cons in Hf. cbn [forallb] in Hf. apply andb_true_iff in Hf as [Hh Ht]. cbn [find]. by rewrite equal_fold_of_ascii, IH.
Qed.

Lemma dec_struct_of_ascii {T} strict (fields : list (field T)) zero (docs : list (string * doc)) : forallb ascii_text (fd_name <$> fields) = true ->
  forallb ascii_text docs.*1 = true -> dec_struct strict fields zero (DObj docs) = @dec_struct ascii_case T strict fields zero (DObj docs).
Proof.
  intros Hf Hd. unfold dec_struct. revert zero. induction docs as [|[k d] docs IH]; intros zero; [done|].
  rewrite fmap_cons in Hd. cbn [forallb fst] in Hd. apply andb_true_iff in Hd as [Hk Hd]. cbn [foldO fst snd].
  rewrite (find_field_of_ascii fields k Hf Hk). destruct (find_field fields k) as [f|]; [destruct (fd_decode f zero d)|destruct strict]; auto.
Qed.

(** The place of the field of a name. *)
Definition field_index (names : list string) (name : string) : option nat :=
  fst <$> match list_find (fun n => n = name) names with Some i => Some i | None => list_find (fun n => equal_fold n name = true) names end.

Lemma find_list_find {A B} (p : A -> bool) (P : B -> Prop) `{forall x, Decision (P x)} (g : A -> B) l : (forall x, p x = bool_decide (P (g x))) ->
  find p l = (list_find P (g <$> l)) ≫= (fun i => l !! i.1).
Proof.
  intros Hp. induction l as [|x l IH]; [done|]. rewrite fmap_cons. cbn [find list_find]. rewrite Hp. case_bool_decide as Hx.
  - by rewrite decide_True.
  - rewrite decide_False, IH by done. by destruct (list_find P (g <$> l)) as [[i y]|].
Qed.

Lemma find_field_index {T} (fields : list (field T)) name : find_field fields name = field_index (fd_name <$> fields) name ≫= (fun i => fields !! i).
Proof.
  unfold find_field, field_index. rewrite (find_list_find _ (fun n => n = name) fd_name) by done.
  rewrite (find_list_find _ (fun n => equal_fold n name = true) fd_name) by (intros x; by case_bool_decide as E; [|apply not_true_is_false]).
  destruct (list_find (fun n => n = name) _) as [[i y]|] eqn:E; cbn [mbind option_bind fst fmap option_fmap option_map];
    [|destruct (list_find (fun n => equal_fold n name = true) _) as [[i y]|]; cbn; [by destruct (fields !! i)|done]].
  apply list_find_Some in E as (Hi & _). rewrite list_lookup_fmap in Hi. by destruct (fields !! i).
Qed.

End Names.

(** Decodes the member of a name into the field of an index, or skips it. *)
Ltac found T fields name i :=
  assert (@find_field ascii_case T fields name = nth_error fields i) as -> by (rewrite find_field_index; change (field_index _ name) with (Some i); reflexivity);
  cbn [fields nth_error fd_decode into]; rewrite dec_string_literal by done; cbn [fmap option_fmap option_map]; cbv beta iota zeta.
Ltac skipped T fields name := assert (@find_field ascii_case T fields name = None) as -> by (by rewrite find_field_index).

(** ** The request *)

Section Request.
Variables (Getenv : string -> string) (token publicKey ty : string).

Abbreviation collector_name := (CollectorSetup.env Getenv "INFRAGRAPH_COLLECTOR_NAME" "collector").
Abbreviation connector_name := (CollectorSetup.env Getenv "INFRAGRAPH_CONNECTOR_NAME"
  (if bool_decide (ty = "KUBERNETES") then "Kubernetes discovery" else "Docker discovery")).

Definition request_members : list (string * (string * doc)) := [
  string_member "collectorVersion" Collector.version; string_member "connectorName" connector_name; string_member "connectorType" ty;
  string_member "name" collector_name; string_member "protocolVersion" "1.0"; string_member "publicKey" publicKey; string_member "token" token].

(** What the gateway makes of it. *)
Definition form_of : EnrollForm :=
  {| ef_token := token; ef_name := collector_name; ef_key := publicKey; ef_version := Collector.version; ef_protocol := "1.0";
     ef_connector_name := connector_name; ef_connector_type := ty |}.

Lemma form_type : ty = "DOCKER" \/ ty = "KUBERNETES" -> connector_type form_of = ty.
Proof.
  unfold connector_type, form_of. cbn [ef_connector_type]. intros [-> | ->].
  - assert (to_upper (trim_space "DOCKER") = "DOCKER") as -> by (vm_compute; reflexivity). done.
  - assert (to_upper (trim_space "KUBERNETES") = "KUBERNETES") as -> by (vm_compute; reflexivity). done.
Qed.

Definition utf8_request : Prop := Forall (fun s => utf8_valid s = true) [connector_name; ty; collector_name; publicKey; token].

Lemma reads_request : utf8_request ->
  reads_closed max_nesting (CollectorSetup.enroll_body Getenv token publicKey ty) (document_of request_members).
Proof.
  unfold utf8_request. rewrite !Forall_cons. intros Hs. destruct_and!. change max_nesting with (member_levels + 1)%Z.
  apply (reads_struct _ request_members); [|by vm_compute]. assert (0 <= member_levels)%Z by (by vm_compute). read_members.
Qed.

Lemma dec_request `{UnicodeCase} : utf8_request -> dec_struct true enroll_fields zero_enroll (document_of request_members) = Some form_of.
Proof.
  unfold utf8_request. rewrite !Forall_cons. intros Hs. destruct_and!. unfold document_of. rewrite dec_struct_of_ascii by done.
  unfold dec_struct. cbn [request_members fmap list_fmap fst snd string_member foldO].
  found EnrollForm enroll_fields "collectorVersion" 3%nat. found EnrollForm enroll_fields "connectorName" 5%nat. found EnrollForm enroll_fields "connectorType" 6%nat. found EnrollForm enroll_fields "name" 1%nat.
  found EnrollForm enroll_fields "protocolVersion" 4%nat. found EnrollForm enroll_fields "publicKey" 2%nat. found EnrollForm enroll_fields "token" 0%nat. done.
Qed.

End Request.

(** ** The answer *)

(** [writeJSON]: [Encode] ends the text with a newline. *)
Definition line_end : string := String (ascii_of_N 10) "".
Definition response_text (r : Response) : string := match rs_body r with JsonBody v => Marshal v +:+ line_end | _ => "" end.

Lemma parse_line text l : reads_closed max_nesting text (DObj l) -> parse (text +:+ line_end) = Some (DObj l).
Proof. intros [_ Hr]. unfold parse, scan_document. rewrite Hr by (cbn; lia). done. Qed.

Definition answer_members (collector connector credential org : string) : list (string * (string * doc)) := [
  string_member "collectorId" collector; string_member "compatibilityStatus" "COMPATIBLE"; string_member "connectorId" connector;
  string_member "credential" credential; string_member "organizationId" org].

Definition enrollment_answer (collector connector credential org : string) : json :=
  JObj [("collectorId", JStr collector); ("compatibilityStatus", JStr "COMPATIBLE"); ("connectorId", JStr connector);
    ("credential", JStr credential); ("organizationId", JStr org)].

Lemma answer_read `{UnicodeCase} json_error collector connector credential org :
  Forall (fun s => utf8_valid s = true) [collector; connector; credential; org] ->
  CollectorSetup.Unmarshal json_error CollectorSetup.zero_enrolled CollectorSetup.enrolled_fields
    (Marshal (enrollment_answer collector connector credential org) +:+ line_end) = Ok (CollectorSetup.Build_enrolled collector connector org credential).
Proof.
  rewrite !Forall_cons. intros Hs. destruct_and!. unfold CollectorSetup.Unmarshal, unmarshal.
  assert (reads_closed max_nesting (Marshal (enrollment_answer collector connector credential org)) (document_of (answer_members collector connector credential org))) as Hr.
  { change max_nesting with (member_levels + 1)%Z. apply (reads_struct _ (answer_members collector connector credential org)); [|by vm_compute].
    assert (0 <= member_levels)%Z by (by vm_compute). read_members. }
  rewrite (parse_line _ _ Hr). cbn [mbind option_bind]. rewrite dec_struct_of_ascii by done. unfold dec_struct.
  cbn [answer_members fmap list_fmap fst snd string_member foldO].
  found CollectorSetup.enrolled CollectorSetup.enrolled_fields "collectorId" 0%nat.
  skipped CollectorSetup.enrolled CollectorSetup.enrolled_fields "compatibilityStatus".
  found CollectorSetup.enrolled CollectorSetup.enrolled_fields "connectorId" 1%nat.
  found CollectorSetup.enrolled CollectorSetup.enrolled_fields "credential" 3%nat.
  found CollectorSetup.enrolled CollectorSetup.enrolled_fields "organizationId" 2%nat. done.
Qed.

(** ** The collector's calls *)

Lemma first_load `{UnicodeCase} Getenv json_error publicKey key answer control ty w t1 t2 t3 t4 rest e :
  control <> "" -> Getenv "INFRAGRAPH_ENROLLMENT_TOKEN" <> "" -> CollectorSetupFacts.calm t1 -> CollectorSetupFacts.calm t2 ->
  Collector.data w !! "identity.json" = None -> Collector.tk_fault t3 = Collector.NoFault -> Collector.status_error (Collector.tk_status t3) = Ok tt ->
  Collector.tk_fault t4 = Collector.NoFault ->
  (len (answer (CollectorSetup.enroll_body Getenv (Getenv "INFRAGRAPH_ENROLLMENT_TOKEN") publicKey ty)) <= Z.shiftl 1 20)%Z ->
  CollectorSetup.Unmarshal json_error CollectorSetup.zero_enrolled CollectorSetup.enrolled_fields
    (answer (CollectorSetup.enroll_body Getenv (Getenv "INFRAGRAPH_ENROLLMENT_TOKEN") publicKey ty)) = Ok e ->
  let id := Collector.Build_identity (CollectorSetup.en_collector e) (CollectorSetup.en_connector e) (CollectorSetup.en_org e)
    (CollectorSetup.en_credential e) key ty in
  exists w', CollectorSetup.loadOrEnroll Getenv json_error (Ok (publicKey, key)) answer control ty w (t1 :: t2 :: t3 :: t4 :: rest)
      = (w', Collector.Done id rest) /\
    Collector.data w' = <["identity.json" := Collector.Regular (CollectorSetup.marshal_identity id) (Collector.tk_clock t4)]> (Collector.data w).
Proof.
  intros Hc Ht [F1 _] [F2 U2] Hnew F3 S3 F4 Hlen Hu id. unfold CollectorSetup.loadOrEnroll. rewrite bool_decide_false by done.
  unfold mbind, Collector.io_bind, CollectorSetup.make_data, Collector.attempt, Collector.read_file, Collector.call, Collector.atomic. rewrite F1.
  unfold Collector.reading. rewrite F2, U2. cbn [Collector.files]. rewrite Hnew. unfold CollectorSetup.enroll. rewrite bool_decide_false by done.
  unfold mbind, Collector.io_bind, Collector.lift, mret, Collector.io_ret, CollectorSetup.post_enroll, Collector.call. rewrite F3, S3. cbn [fst snd].
  rewrite GoTimeText.substring_long by (unfold len in Hlen; lia). rewrite Hu. unfold Collector.write_file, Collector.call. rewrite F4.
  cbn [Collector.files]. rewrite Hnew, bool_decide_false by done. eexists. split; [reflexivity|done].
Qed.

(** ** The gateway's answer *)

Section Gateway.
Context `{RangeOrder, Postgres, Ed25519, UnicodeCase, AuditStore} (c : Config) (public_key : string -> PublicKey).

(** What an enrolment draws. *)
Definition drawn_collector (drawn : Drawn) : string := newID "collector" (dr_collector drawn).
Definition drawn_connector (drawn : Drawn) : string := newID "connector" (dr_connector drawn).

(** The rows a usable token and a fresh key lead to. *)
Definition enrolled_gateway (now : gotime) (drawn : Drawn) (credential org raw : string) (f : EnrollForm) (g : GatewayDB) : GatewayDB :=
  with_collectors (<[drawn_collector drawn := new_collector now org raw f]> (gd_collectors g))
    (<[newID "credential" (dr_credential_id drawn) := new_credential (drawn_collector drawn) credential]> (gd_credentials g))
    (<[drawn_connector drawn := new_connector now org (drawn_collector drawn) f]> (gd_connectors g)) g.

Lemma enroll_accepts now drawn r a d f raw k t secret : ap_db a = Some d -> (allow now (clientIP c r) (ap_auth a)).2 = true ->
  decode (hr_body r) (Z.shiftl 64 10) zero_enroll (dec_struct true enroll_fields) = Ok f -> std_decode (ef_key f) = Some raw -> len raw = 32%Z ->
  find_row (usable_token now (ef_token f)) (ad_tokens d) = Some (k, t) -> connector_type f ∈ ["DOCKER"; "KUBERNETES"] ->
  dr_credential drawn = Ok secret ->
  enrollable (ad_gateway d) (drawn_collector drawn) (newID "credential" (dr_credential_id drawn)) (drawn_connector drawn) (to_org t) (hex_encode (sha256 raw)) = true ->
  exists d', ap_db (enroll c now drawn r a).1 = Some d' /\
    ad_gateway d' = enrolled_gateway now drawn (raw_url_encode secret) (to_org t) raw f (ad_gateway d) /\
    (enroll c now drawn r a).2 = writeJSON 201 (JObj [("collectorId", JStr (drawn_collector drawn)); ("compatibilityStatus", JStr (compatibility (ef_protocol f)));
      ("connectorId", JStr (drawn_connector drawn)); ("credential", JStr (raw_url_encode secret)); ("organizationId", JStr (to_org t))]).
Proof.
  intros Hd Ha Hf Hk Hlen Hrow Hty Hs He. unfold enroll. rewrite Hd. destruct (allow _ _ _) as [auth ok]. cbn in Ha. subst ok. cbn [negb].
  rewrite Hf, Hk, Hlen. cbn [Z.eqb Pos.eqb negb]. unfold enroll_tx. rewrite Hrow, Hs. cbn [RandomToken mbind result_bind].
  rewrite (bool_decide_true (connector_type f ∈ _)) by done. cbn [negb]. fold (drawn_collector drawn) (drawn_connector drawn).
  cbn [new_collector co_fingerprint]. rewrite He. cbn [negb]. eexists. split; [reflexivity|]. by split.
Qed.

(** The new credential is the new collector's. *)
Lemma enrolled_principal now later drawn credential org raw f g : credential <> "" ->
  map_Forall (fun _ row => cr_hash row <> TokenHash credential) (gd_credentials g) ->
  collectorPrincipal public_key (enrolled_gateway now drawn credential org raw f g) later ("Bearer " +:+ credential)
    = Some (drawn_collector drawn, org, public_key raw).
Proof.
  intros Hne Hunique.
  apply (collectorPrincipal_of public_key _ later credential _ (new_credential (drawn_collector drawn) credential)
    (newID "credential" (dr_credential_id drawn)) (new_collector now org raw f)); try done; [apply lookup_insert_eq| |apply lookup_insert_eq].
  intros k row Hrow E. cbn [enrolled_gateway with_collectors gd_credentials] in Hrow.
  apply lookup_insert_Some in Hrow as [[_ <-]|[_ Hrow]]; [done|]. by destruct (Hunique k row Hrow E).
Qed.

End Gateway.

(** ** Credentials *)

Lemma plain_url s : plain_bytes (raw_url_encode s).
Proof.
  apply plain_of_list. eapply Forall_impl; [apply b64_encode_chars, bytes_bound|]. intros c [->|(i & Hi & ->)]; [done|].
  by apply (forall_below (fun i => unescaped_byte (byte_of (char_at url_alphabet i))) 64); [vm_compute|].
Qed.

Lemma raw_url_nonempty s : s <> "" -> raw_url_encode s <> "".
Proof. destruct s as [|x [|y [|z s]]]; [done|..]; intros _ [=]. Qed.

Lemma plain_checked s : forallb unescaped_byte (bytes s) = true -> plain_bytes s.
Proof. rewrite forallb_forall. intros Hs. apply Forall_forall. intros b Hb. by apply unescaped_byte_spec, Hs, list_elem_of_In. Qed.

Lemma utf8_newID prefix raw : forallb unescaped_byte (bytes prefix) = true -> utf8_valid (newID prefix raw) = true.
Proof.
  intros Hp. apply (proj2 (A := literal (newID prefix raw) = newID prefix raw)), plain_literal. unfold newID, plain_bytes. rewrite !bytes_app, !Forall_app.
  split_and!; [by apply plain_checked|by apply plain_checked|apply plain_hex].
Qed.

(** C3. The whole enrolment: a collector whose directory holds no identity, with a
    token that is unused, unexpired and of the right scope in the gateway's
    database, and a fresh key pair, calls for its identity, and every call
    succeeds. Then the gateway decodes what the collector posts, the collector
    decodes what the gateway answers, and both ends agree: the identity that is
    returned and stored names the collector, the connector of the configured
    type and the organization of the gateway's rows, and its credential makes
    the gateway recognise exactly this collector, with its own public key, at
    any time after. *)
Theorem first_start_enrolls `{RangeOrder, Postgres, Ed25519, UnicodeCase, AuditStore} c public_key Getenv json_error raw key control ty request
    now drawn secret a d k t w t1 t2 t3 t4 rest later
    (Hcontrol : control <> "") (Htoken : Getenv "INFRAGRAPH_ENROLLMENT_TOKEN" <> "") (Hty : ty = "DOCKER" \/ ty = "KUBERNETES")
    (Htexts : utf8_request Getenv (Getenv "INFRAGRAPH_ENROLLMENT_TOKEN") (std_encode raw) ty) (Hkey : len raw = 32%Z)
    (Hnew : Collector.data w !! "identity.json" = None) (Hcalm : CollectorSetupFacts.calm t1 /\ CollectorSetupFacts.calm t2)
    (Hsent : Collector.tk_fault t3 = Collector.NoFault) (Hstored : Collector.tk_fault t4 = Collector.NoFault) :
  let body := CollectorSetup.enroll_body Getenv (Getenv "INFRAGRAPH_ENROLLMENT_TOKEN") (std_encode raw) ty in
  let posted := enroll c now drawn (request body) a in
  forall (Hrequest : hr_body (request body) = whole_body body) (Hsize : (len body <= Z.shiftl 64 10)%Z)
    (Hstatus : Collector.tk_status t3 = rs_status posted.2) (Hshort : (len (response_text posted.2) <= Z.shiftl 1 20)%Z)
    (Hd : ap_db a = Some d) (Hrate : (allow now (clientIP c (request body)) (ap_auth a)).2 = true)
    (Husable : find_row (usable_token now (Getenv "INFRAGRAPH_ENROLLMENT_TOKEN")) (ad_tokens d) = Some (k, t)) (Horg : utf8_valid (to_org t) = true)
    (Hsecret : dr_credential drawn = Ok secret /\ secret <> "")
    (Hfresh : enrollable (ad_gateway d) (drawn_collector drawn) (newID "credential" (dr_credential_id drawn)) (drawn_connector drawn) (to_org t)
      (hex_encode (sha256 raw)) = true)
    (Hunique : map_Forall (fun _ row => cr_hash row <> TokenHash (raw_url_encode secret)) (gd_credentials (ad_gateway d))),
  exists w' id d',
    CollectorSetup.loadOrEnroll Getenv json_error (Ok (std_encode raw, key)) (fun b => response_text (enroll c now drawn (request b) a).2) control ty w
      (t1 :: t2 :: t3 :: t4 :: rest) = (w', Collector.Done id rest) /\
    Collector.data w' !! "identity.json" = Some (Collector.Regular (CollectorSetup.marshal_identity id) (Collector.tk_clock t4)) /\
    Collector.id_key id = key /\ Collector.id_type id = ty /\ ap_db posted.1 = Some d' /\
    collectorPrincipal public_key (ad_gateway d') later ("Bearer " +:+ Collector.id_credential id)
      = Some (Collector.id_collector id, Collector.id_org id, public_key raw) /\
    exists row, gd_connectors (ad_gateway d') !! Collector.id_connector id = Some row /\ cn_org row = Collector.id_org id /\
      cn_collector row = Some (Collector.id_collector id) /\ cn_type row = ty /\ cn_enabled row = true.
Proof.
  intros body posted Hrequest Hsize Hstatus Hshort Hd Hrate Husable Horg [Hsecret Hne] Hfresh Hunique. destruct Hcalm as [C1 C2].
  pose proof (decode_object body (Z.shiftl 64 10) zero_enroll (dec_struct true enroll_fields) _ (reads_request _ _ _ _ Htexts) Hsize) as Hf.
  fold (document_of (request_members Getenv (Getenv "INFRAGRAPH_ENROLLMENT_TOKEN") (std_encode raw) ty)) in Hf. rewrite dec_request in Hf by done.
  rewrite <- Hrequest in Hf. set (f := form_of _ _ _ _) in Hf.
  pose proof (form_type Getenv (Getenv "INFRAGRAPH_ENROLLMENT_TOKEN") (std_encode raw) ty Hty) as Hct. fold f in Hct.
  assert (connector_type f ∈ ["DOCKER"; "KUBERNETES"]) as Hin by (rewrite Hct; destruct Hty as [-> | ->]; set_solver).
  destruct (enroll_accepts c now drawn (request body) a d f raw k t secret Hd Hrate Hf (std_roundtrip raw) Hkey Husable Hin Hsecret Hfresh)
    as (d' & Hd' & Hg & Hanswer).
  fold posted in Hd', Hanswer. assert (compatibility (ef_protocol f) = "COMPATIBLE") as Hcomp by reflexivity. rewrite Hcomp in Hanswer.
  set (credential := raw_url_encode secret) in *. set (org := to_org t) in *.
  pose proof (answer_read json_error (drawn_collector drawn) (drawn_connector drawn) credential org) as Hread.
  assert (response_text posted.2 = Marshal (enrollment_answer (drawn_collector drawn) (drawn_connector drawn) credential org) +:+ line_end) as Htext
    by (rewrite Hanswer; reflexivity).
  rewrite <- Htext in Hread. rewrite Hanswer in Hstatus.
  destruct (first_load Getenv json_error (std_encode raw) key (fun b => response_text (enroll c now drawn (request b) a).2) control ty w t1 t2 t3 t4 rest _
    Hcontrol Htoken C1 C2 Hnew Hsent ltac:(rewrite Hstatus; reflexivity) Hstored Hshort (Hread ltac:(
      rewrite !Forall_cons; split_and!; [by apply utf8_newID|by apply utf8_newID|apply (proj2 (plain_literal _ (plain_url secret)))|exact Horg|by apply Forall_nil])))
    as (w' & Hload & Hw').
  eexists w', _, d'. split; [exact Hload|]. split; [by rewrite Hw', lookup_insert_eq|]. split; [done|]. split; [done|]. split; [exact Hd'|].
  cbn [Collector.id_credential Collector.id_collector Collector.id_org Collector.id_connector CollectorSetup.en_credential CollectorSetup.en_collector
    CollectorSetup.en_org CollectorSetup.en_connector]. rewrite Hg. split.
  - by apply enrolled_principal, Hunique; apply raw_url_nonempty.
  - exists (new_connector now org (drawn_collector drawn) f). split; [apply lookup_insert_eq|by rewrite <- Hct].
Qed.

(** ** Example *)

Definition first_env (k : string) : string := if String.eqb k "INFRAGRAPH_ENROLLMENT_TOKEN" then "enroll-me" else "".
Definition enroll_post (body : string) : HttpRequest := request "POST" "/collector/v1/enroll" [] [] body.
Definition first_drawn : Drawn := si_drawn (situation sample_now).

Lemma first_start_enrolls_witness : exists w' id d',
  CollectorSetup.loadOrEnroll first_env (fun e => e) (Ok (std_encode edge_key, "private"))
    (fun b => response_text (enroll sample_config sample_now first_drawn (enroll_post b) sample_app).2) "https://plane" "KUBERNETES"
    CollectorSetupFacts.new_world (replicate 4 CollectorSetupFacts.example_tick) = (w', Collector.Done id []) /\
  ap_db (enroll sample_config sample_now first_drawn (enroll_post (CollectorSetup.enroll_body first_env "enroll-me" (std_encode edge_key) "KUBERNETES"))
    sample_app).1 = Some d' /\
  collectorPrincipal column_key (ad_gateway d') (sample_now + hour) ("Bearer " +:+ Collector.id_credential id)
    = Some (Collector.id_collector id, Collector.id_org id, column_key edge_key).
Proof.
  destruct (first_start_enrolls sample_config column_key first_env (fun e => e) edge_key "private" "https://plane" "KUBERNETES" enroll_post sample_now
    first_drawn "credential-of-32-random-bytes!!!" sample_app sample_db "t"
    {| to_org := "acme"; to_hash := TokenHash "enroll-me"; to_expires := sample_now + 3600 * nano; to_used := None; to_scope := "collector.enroll" |}
    CollectorSetupFacts.new_world CollectorSetupFacts.example_tick CollectorSetupFacts.example_tick CollectorSetupFacts.example_tick
    CollectorSetupFacts.example_tick [] (sample_now + hour)) as (w' & id & d' & Hload & _ & _ & _ & Hd & Hp & _).
  - discriminate.
  - vm_compute. discriminate.
  - by right.
  - unfold utf8_request. rewrite !Forall_cons. split_and!; [vm_compute; reflexivity..|by apply Forall_nil].
  - vm_compute. reflexivity.
  - reflexivity.
  - repeat split.
  - reflexivity.
  - reflexivity.
  - reflexivity.
  - vm_compute. discriminate.
  - vm_compute. reflexivity.
  - vm_compute. discriminate.
  - reflexivity.
  - vm_compute. reflexivity.
  - vm_compute. reflexivity.
  - vm_compute. reflexivity.
  - split; [reflexivity|discriminate].
  - vm_compute. reflexivity.
  - apply (bool_decide_unpack _). vm_compute. exact I.
  - exists w', id, d'. split_and!; [exact Hload|exact Hd|exact Hp].
Defined.
